(** * cangaroo hardware CAN filters: a shallow embedding of the filter compiler

    The development follows [src/driver/CanFilter]: the text parser
    ([canfilter.cpp]), the bxCAN back-end ([canfilter_bxcan.cpp]), the FDCAN
    back-end ([canfilter_fdcan.cpp]) and the orchestrator
    ([HardwareFilter.cpp]).  [uint32_t] values are integers in [Z] with the
    wrap-around written out by [u32]; the fixed-size register arrays are lists
    updated by index. *)

From Stdlib Require Import ZArith List Lia Bool String Ascii.
From stdpp Require Import base list.
From coqutil Require Import Z.bitblast.
Import ListNotations.

Local Open Scope Z_scope.

(** ** Machine integers *)

(** Conversion to [uint32_t]. *)
Definition u32 (z : Z) : Z := z mod 2 ^ 32.

(** Conversion to [uint8_t]. *)
Definition u8 (z : Z) : Z := z mod 2 ^ 8.

(** [canfilter::max_std_id] and [canfilter::max_ext_id]. *)
Definition max_std_id : Z := 0x7FF.
Definition max_ext_id : Z := 0x1FFFFFFF.

(** [canfilter_error_t]. *)
Inductive canfilter_error_t : Set :=
| CANFILTER_SUCCESS
| CANFILTER_ERROR_PARAM
| CANFILTER_ERROR_FULL
| CANFILTER_ERROR_PLATFORM.

Definition is_success (e : canfilter_error_t) : bool :=
  match e with CANFILTER_SUCCESS => true | _ => false end.

(** A call that ended well or found the controller full. *)
Definition success_or_full (err : canfilter_error_t) : Prop :=
  err = CANFILTER_SUCCESS \/ err = CANFILTER_ERROR_FULL.

(** [canfilter_hardware_t], with the integer values of the enumeration. *)
Definition CANFILTER_DEV_NONE : Z := 0.
Definition CANFILTER_DEV_BXCAN_F0 : Z := 1.
Definition CANFILTER_DEV_BXCAN_F4 : Z := 2.
Definition CANFILTER_DEV_FDCAN_G0 : Z := 3.
Definition CANFILTER_DEV_FDCAN_H7 : Z := 4.

(** ** CIDR aggregation

    [std_largest_prefix] and [ext_largest_prefix] are the same text with the
    width 11 replaced by 29, and so are the loops of [add_std_range] and
    [add_ext_range]; the section below is that text over a width [W] and a
    largest identifier [MAX]. *)

Module Cidr.
Section Width.
Variable W : Z.
Variable MAX : Z.

(** First loop of [*_largest_prefix]:
    [while (prefix > 0) { if (begin & (1U << (W - prefix))) break; prefix--; }] *)
Fixpoint prefix_shrink (fuel : nat) (begin prefix : Z) : Z :=
  match fuel with
  | O => prefix
  | S fuel' =>
      if 0 <? prefix then
        let mask_bit := u32 (Z.shiftl 1 (W - prefix)) in
        if negb (Z.land begin mask_bit =? 0) then prefix
        else prefix_shrink fuel' begin (prefix - 1)
      else prefix
  end.

(** Second loop of [*_largest_prefix]:
    [while (prefix < W) { if (begin + (1U << (W - prefix)) - 1 > end) prefix++; else break; }] *)
Fixpoint prefix_grow (fuel : nat) (begin end_ prefix : Z) : Z :=
  match fuel with
  | O => prefix
  | S fuel' =>
      if prefix <? W then
        let block_size := u32 (Z.shiftl 1 (W - prefix)) in
        if end_ <? u32 (begin + block_size - 1)
        then prefix_grow fuel' begin end_ (prefix + 1)
        else prefix
      else prefix
  end.

(** Each loop moves [prefix] by one inside [0..W], so [W] rounds are all
    either can make. *)
Definition largest_prefix (begin end_ : Z) : Z :=
  let prefix := W in
  let prefix := prefix_shrink (Z.to_nat W) begin prefix in
  prefix_grow (Z.to_nat W) begin end_ prefix.

(** [(~0U << (W - prefix)) & MAX] *)
Definition prefix_mask (prefix : Z) : Z :=
  Z.land (u32 (Z.shiftl 0xFFFFFFFF (W - prefix))) MAX.

(** [1U << (W - prefix)] *)
Definition prefix_size (prefix : Z) : Z :=
  u32 (Z.shiftl 1 (W - prefix)).

(** The (id, mask) pairs the decomposition loop
    [while (begin <= end) { ...; begin += block_size; }] hands to the
    accumulators, in order, when no emission fails. *)
Fixpoint range_blocks (fuel : nat) (begin end_ : Z) : list (Z * Z) :=
  match fuel with
  | O => []
  | S fuel' =>
      if begin <=? end_ then
        let prefix := largest_prefix begin end_ in
        let mask := prefix_mask prefix in
        let id := begin in
        let block_size := prefix_size prefix in
        (id, mask) :: range_blocks fuel' (u32 (begin + block_size)) end_
      else []
  end.

(** The rounds given to the loop.  The blocks of a range first grow, each at
    least twice the one before, then shrink, each at most half the one before,
    so that [2 * W + 1] rounds are all the loop can make
    ([range_blocks_rounds] below). *)
Definition range_fuel : nat := Z.to_nat (2 * W + 1).

(** The number of low zero bits of [begin], at most [W]: what the first loop
    of [largest_prefix] finds. *)
Definition alignment (begin : Z) : Z :=
  W - prefix_shrink (Z.to_nat W) begin W.

(** A bound on the rounds the loop has left at [begin]. *)
Definition rounds_bound (begin end_ : Z) : Z :=
  let l := Z.log2 (end_ + 1 - begin) in
  1 + l + Z.max 0 (l - alignment begin).

(** The identifiers a mask entry accepts: [base .. (base | ~mask) & MAX]
    (the range [debug_print] shows for a mask bank); for a list entry, whose
    mask is [MAX], this is the one identifier [base]. *)
Definition block_first (blk : Z * Z) : Z := fst blk.
Definition block_last (blk : Z * Z) : Z :=
  Z.land (Z.lor (fst blk) (u32 (Z.lnot (snd blk)))) MAX.
Definition in_block (x : Z) (blk : Z * Z) : Prop :=
  block_first blk <= x <= block_last blk.

End Width.
End Cidr.

Definition std_largest_prefix : Z -> Z -> Z := Cidr.largest_prefix 11.
Definition ext_largest_prefix : Z -> Z -> Z := Cidr.largest_prefix 29.

(** ** Covers by prefix blocks *)

Module Cover.
Section Space.
Variable W : Z.
Variable MAX : Z.

(** An aligned power-of-two block written as a base and a prefix mask. *)
Definition cidr_block (blk : Z * Z) : Prop :=
  exists prefix,
    0 <= prefix <= W /\ snd blk = Cidr.prefix_mask W MAX prefix /\
    0 <= fst blk <= MAX /\ fst blk mod 2 ^ (W - prefix) = 0.

(** The blocks accept the identifiers of [lo .. hi] and no other. *)
Definition covers (blocks : list (Z * Z)) (lo hi : Z) : Prop :=
  forall x, (exists blk, In blk blocks /\ Cidr.in_block MAX x blk) <-> lo <= x <= hi.

(** No identifier is accepted by two entries of the list. *)
Definition disjoint (blocks : list (Z * Z)) : Prop :=
  forall (i j : nat) bi bj,
    blocks !! i = Some bi -> blocks !! j = Some bj -> i <> j ->
    forall x, ~ (Cidr.in_block MAX x bi /\ Cidr.in_block MAX x bj).

(** Both fields of an entry are at most [MAX]. *)
Definition block_within (blk : Z * Z) : Prop :=
  fst blk <= MAX /\ snd blk <= MAX.

(** The blocks follow one another from [lo] and stop just before [next]. *)
Inductive chain : Z -> list (Z * Z) -> Z -> Prop :=
| chain_nil lo : chain lo [] lo
| chain_cons lo blk rest next :
    Cidr.block_first blk = lo ->
    lo <= Cidr.block_last MAX blk ->
    chain (Cidr.block_last MAX blk + 1) rest next ->
    chain lo (blk :: rest) next.

End Space.
End Cover.

(** ** bxCAN back-end ([canfilter_bxcan.hpp], [canfilter_bxcan.cpp]) *)

Module Bxcan.

(** [canfilter_bxcan::hw_t]: the image sent to the firmware. *)
Record hw_t : Type := mk_hw {
  dev : Z;
  fs1r : Z;
  fm1r : Z;
  ffa1r : Z;
  fa1r : Z;
  fr1 : list Z;
  fr2 : list Z
}.

(** [canfilter_bxcan::std_mask_t]. *)
Record std_mask_t : Type := mk_std_mask { sm_id : Z; sm_mask : Z }.

(** The data members of [canfilter_bxcan]. *)
Record t : Type := mk {
  hw_config : hw_t;
  bank : Z;
  ext_list : list Z;
  ext_list_count : Z;
  std_mask : list std_mask_t;
  std_mask_count : Z;
  std_list : list Z;
  std_list_count : Z
}.

#[global] Instance std_mask_inhabited : Inhabited std_mask_t :=
  populate (mk_std_mask 0 0).

Definition set_hw_config (st : t) (hw : hw_t) : t :=
  mk hw (bank st) (ext_list st) (ext_list_count st) (std_mask st)
     (std_mask_count st) (std_list st) (std_list_count st).
Definition set_bank (st : t) (b : Z) : t :=
  mk (hw_config st) b (ext_list st) (ext_list_count st) (std_mask st)
     (std_mask_count st) (std_list st) (std_list_count st).
Definition set_ext_list (st : t) (l : list Z) : t :=
  mk (hw_config st) (bank st) l (ext_list_count st) (std_mask st)
     (std_mask_count st) (std_list st) (std_list_count st).
Definition set_ext_list_count (st : t) (n : Z) : t :=
  mk (hw_config st) (bank st) (ext_list st) n (std_mask st)
     (std_mask_count st) (std_list st) (std_list_count st).
Definition set_std_mask (st : t) (l : list std_mask_t) : t :=
  mk (hw_config st) (bank st) (ext_list st) (ext_list_count st) l
     (std_mask_count st) (std_list st) (std_list_count st).
Definition set_std_mask_count (st : t) (n : Z) : t :=
  mk (hw_config st) (bank st) (ext_list st) (ext_list_count st) (std_mask st)
     n (std_list st) (std_list_count st).
Definition set_std_list (st : t) (l : list Z) : t :=
  mk (hw_config st) (bank st) (ext_list st) (ext_list_count st) (std_mask st)
     (std_mask_count st) l (std_list_count st).
Definition set_std_list_count (st : t) (n : Z) : t :=
  mk (hw_config st) (bank st) (ext_list st) (ext_list_count st) (std_mask st)
     (std_mask_count st) (std_list st) n.

(** The tail shared by the four emitters: store [FR1], [FR2] at [bank], set
    the bank's scale and mode bits, enable it.  [scale32] chooses
    [fs1r |= (1 << bank)] over [fs1r &= ~(1 << bank)], [list_mode] the same for
    [fm1r]. *)
Definition write_bank (hw : hw_t) (bank fr1v fr2v : Z) (scale32 list_mode : bool)
  : hw_t :=
  let bit := u32 (Z.shiftl 1 bank) in
  let nbit := u32 (Z.lnot (Z.shiftl 1 bank)) in
  mk_hw (dev hw)
        (if scale32 then Z.lor (fs1r hw) bit else Z.land (fs1r hw) nbit)
        (if list_mode then Z.lor (fm1r hw) bit else Z.land (fm1r hw) nbit)
        (ffa1r hw)
        (Z.lor (fa1r hw) bit)
        (<[Z.to_nat bank := fr1v]> (fr1 hw))
        (<[Z.to_nat bank := fr2v]> (fr2 hw)).

Section Template.
(** The template parameters [max_banks_t] and [dev_val]. *)
Variable max_banks : Z.
Variable dev_val : Z.

(** [hw_t()]: the image zeroed by [memset]. *)
Definition hw_zero : hw_t :=
  mk_hw 0 0 0 0 0 (replicate (Z.to_nat max_banks) 0)
        (replicate (Z.to_nat max_banks) 0).

(** A freshly constructed object.  The three accumulator arrays are not
    initialised by the constructor; no path reads a slot before writing it, and
    they are zero here. *)
Definition new : t :=
  mk hw_zero 0 (replicate 2 0) 0 (replicate 2 (mk_std_mask 0 0)) 0
     (replicate 4 0) 0.

Definition emit_std_list (st : t) (id1 id2 id3 id4 : Z)
  : canfilter_error_t * t :=
  if max_banks <=? bank st then (CANFILTER_ERROR_FULL, st)
  else if (max_std_id <? id1) || (max_std_id <? id2)
          || (max_std_id <? id3) || (max_std_id <? id4)
  then (CANFILTER_ERROR_PARAM, st)
  else
    let fr1v := Z.lor (u32 (Z.shiftl id2 21)) (u32 (Z.shiftl id1 5)) in
    let fr2v := Z.lor (u32 (Z.shiftl id4 21)) (u32 (Z.shiftl id3 5)) in
    let hw := write_bank (hw_config st) (bank st) fr1v fr2v false true in
    (CANFILTER_SUCCESS, set_bank (set_hw_config st hw) (u32 (bank st + 1))).

Definition emit_std_mask (st : t) (id1 mask1 id2 mask2 : Z)
  : canfilter_error_t * t :=
  if max_banks <=? bank st then (CANFILTER_ERROR_FULL, st)
  else if (max_std_id <? id1) || (max_std_id <? mask1)
          || (max_std_id <? id2) || (max_std_id <? mask2)
  then (CANFILTER_ERROR_PARAM, st)
  else
    let fr1v := Z.lor (u32 (Z.shiftl mask1 21)) (u32 (Z.shiftl id1 5)) in
    let fr2v := Z.lor (u32 (Z.shiftl mask2 21)) (u32 (Z.shiftl id2 5)) in
    let hw := write_bank (hw_config st) (bank st) fr1v fr2v false false in
    (CANFILTER_SUCCESS, set_bank (set_hw_config st hw) (u32 (bank st + 1))).

Definition emit_ext_list (st : t) (id1 id2 : Z) : canfilter_error_t * t :=
  if max_banks <=? bank st then (CANFILTER_ERROR_FULL, st)
  else if (max_ext_id <? id1) || (max_ext_id <? id2)
  then (CANFILTER_ERROR_PARAM, st)
  else
    let fr1v := Z.lor (u32 (Z.shiftl id1 3)) (Z.shiftl 1 2) in
    let fr2v := Z.lor (u32 (Z.shiftl id2 3)) (Z.shiftl 1 2) in
    let hw := write_bank (hw_config st) (bank st) fr1v fr2v true true in
    (CANFILTER_SUCCESS, set_bank (set_hw_config st hw) (u32 (bank st + 1))).

Definition emit_ext_mask (st : t) (id1 mask1 : Z) : canfilter_error_t * t :=
  if max_banks <=? bank st then (CANFILTER_ERROR_FULL, st)
  else if (max_ext_id <? id1) || (max_ext_id <? mask1)
  then (CANFILTER_ERROR_PARAM, st)
  else
    let fr1v := Z.lor (u32 (Z.shiftl id1 3)) (Z.shiftl 1 2) in
    let fr2v := u32 (Z.shiftl mask1 3) in
    let hw := write_bank (hw_config st) (bank st) fr1v fr2v true false in
    (CANFILTER_SUCCESS, set_bank (set_hw_config st hw) (u32 (bank st + 1))).

Definition add_std_list (st : t) (id : Z) : canfilter_error_t * t :=
  if 3 <? std_list_count st then (CANFILTER_ERROR_PARAM, st)
  else
    let st := set_std_list st
                (<[Z.to_nat (std_list_count st) := id]> (std_list st)) in
    let st := set_std_list_count st (u32 (std_list_count st + 1)) in
    if std_list_count st =? 1 then
      let st := set_std_list st (<[1%nat := id]> (std_list st)) in
      let st := set_std_list st (<[2%nat := id]> (std_list st)) in
      let st := set_std_list st (<[3%nat := id]> (std_list st)) in
      (CANFILTER_SUCCESS, st)
    else if std_list_count st =? 4 then
      let '(err, st) :=
        emit_std_list st (std_list st !!! 0%nat) (std_list st !!! 1%nat)
                      (std_list st !!! 2%nat) (std_list st !!! 3%nat) in
      (err, set_std_list_count st 0)
    else (CANFILTER_SUCCESS, st).

Definition add_std_mask (st : t) (id mask : Z) : canfilter_error_t * t :=
  if 1 <? std_mask_count st then (CANFILTER_ERROR_PARAM, st)
  else
    let st := set_std_mask st
                (<[Z.to_nat (std_mask_count st) := mk_std_mask id mask]>
                   (std_mask st)) in
    let st := set_std_mask_count st (u32 (std_mask_count st + 1)) in
    if std_mask_count st =? 1 then
      let st := set_std_mask st (<[1%nat := mk_std_mask id mask]> (std_mask st)) in
      (CANFILTER_SUCCESS, st)
    else if std_mask_count st =? 2 then
      let '(err, st) :=
        emit_std_mask st (sm_id (std_mask st !!! 0%nat))
                      (sm_mask (std_mask st !!! 0%nat))
                      (sm_id (std_mask st !!! 1%nat))
                      (sm_mask (std_mask st !!! 1%nat)) in
      (err, set_std_mask_count st 0)
    else (CANFILTER_SUCCESS, st).

Definition add_ext_list (st : t) (id : Z) : canfilter_error_t * t :=
  if 1 <? ext_list_count st then (CANFILTER_ERROR_PARAM, st)
  else
    let st := set_ext_list st
                (<[Z.to_nat (ext_list_count st) := id]> (ext_list st)) in
    let st := set_ext_list_count st (u32 (ext_list_count st + 1)) in
    if ext_list_count st =? 1 then
      let st := set_ext_list st (<[1%nat := id]> (ext_list st)) in
      (CANFILTER_SUCCESS, st)
    else if ext_list_count st =? 2 then
      let '(err, st) :=
        emit_ext_list st (ext_list st !!! 0%nat) (ext_list st !!! 1%nat) in
      (err, set_ext_list_count st 0)
    else (CANFILTER_SUCCESS, st).

Definition add_ext_mask (st : t) (id mask : Z) : canfilter_error_t * t :=
  emit_ext_mask st id mask.

Definition begin (st : t) : canfilter_error_t * t :=
  let st := set_std_list_count st 0 in
  let st := set_std_mask_count st 0 in
  let st := set_ext_list_count st 0 in
  let st := set_bank st 0 in
  let st := set_hw_config st hw_zero in
  let hw := hw_config st in
  let st := set_hw_config st
              (mk_hw (u8 dev_val) (fs1r hw) (fm1r hw) (ffa1r hw) (fa1r hw)
                     (fr1 hw) (fr2 hw)) in
  (CANFILTER_SUCCESS, st).

Definition end_ (st : t) : canfilter_error_t * t :=
  let '(err, st) :=
    if negb (std_list_count st =? 0) then
      emit_std_list st (std_list st !!! 0%nat) (std_list st !!! 1%nat)
                    (std_list st !!! 2%nat) (std_list st !!! 3%nat)
    else (CANFILTER_SUCCESS, st) in
  let '(err, st) :=
    if negb (std_mask_count st =? 0) && is_success err then
      emit_std_mask st (sm_id (std_mask st !!! 0%nat))
                    (sm_mask (std_mask st !!! 0%nat))
                    (sm_id (std_mask st !!! 1%nat))
                    (sm_mask (std_mask st !!! 1%nat))
    else (err, st) in
  let '(err, st) :=
    if negb (ext_list_count st =? 0) && is_success err then
      emit_ext_list st (ext_list st !!! 0%nat) (ext_list st !!! 1%nat)
    else (err, st) in
  (err, st).

(** One (id, mask) pair of the standard decomposition handed to its
    accumulator: [if (mask == max_std_id) add_std_list(id); else
    add_std_mask(id, mask);] *)
Definition std_block (st : t) (blk : Z * Z) : canfilter_error_t * t :=
  if snd blk =? max_std_id then add_std_list st (fst blk)
  else add_std_mask st (fst blk) (snd blk).

Definition ext_block (st : t) (blk : Z * Z) : canfilter_error_t * t :=
  if snd blk =? max_ext_id then add_ext_list st (fst blk)
  else add_ext_mask st (fst blk) (snd blk).

(** The loop of [add_std_range].  It ends when [begin > end] or at the first
    failing accumulator call; [fuel] bounds the rounds (see
    [Cidr.range_fuel]). *)
Fixpoint std_range_loop (fuel : nat) (st : t) (begin end_ : Z)
  : canfilter_error_t * t :=
  match fuel with
  | O => (CANFILTER_SUCCESS, st)
  | S fuel' =>
      if begin <=? end_ then
        let prefix := std_largest_prefix begin end_ in
        let mask := Z.land (u32 (Z.shiftl 0xFFFFFFFF (11 - prefix))) max_std_id in
        let id := begin in
        let '(err, st) :=
          if mask =? max_std_id then add_std_list st id
          else add_std_mask st id mask in
        if negb (is_success err) then (err, st)
        else
          let block_size := u32 (Z.shiftl 1 (11 - prefix)) in
          std_range_loop fuel' st (u32 (begin + block_size)) end_
      else (CANFILTER_SUCCESS, st)
  end.

Definition add_std_range (st : t) (begin end_ : Z) : canfilter_error_t * t :=
  if (max_std_id <? begin) || (max_std_id <? end_)
  then (CANFILTER_ERROR_PARAM, st)
  else
    let '(begin, end_) := if end_ <? begin then (end_, begin) else (begin, end_) in
    std_range_loop (Cidr.range_fuel 11) st begin end_.

(** The loop of [add_ext_range]. *)
Fixpoint ext_range_loop (fuel : nat) (st : t) (begin end_ : Z)
  : canfilter_error_t * t :=
  match fuel with
  | O => (CANFILTER_SUCCESS, st)
  | S fuel' =>
      if begin <=? end_ then
        let prefix := ext_largest_prefix begin end_ in
        let mask := Z.land (u32 (Z.shiftl 0xFFFFFFFF (29 - prefix))) max_ext_id in
        let id := begin in
        let '(err, st) :=
          if mask =? max_ext_id then add_ext_list st id
          else add_ext_mask st id mask in
        if negb (is_success err) then (err, st)
        else
          let block_size := u32 (Z.shiftl 1 (29 - prefix)) in
          ext_range_loop fuel' st (u32 (begin + block_size)) end_
      else (CANFILTER_SUCCESS, st)
  end.

Definition add_ext_range (st : t) (begin end_ : Z) : canfilter_error_t * t :=
  if (max_ext_id <? begin) || (max_ext_id <? end_)
  then (CANFILTER_ERROR_PARAM, st)
  else
    let '(begin, end_) := if end_ <? begin then (end_, begin) else (begin, end_) in
    ext_range_loop (Cidr.range_fuel 29) st begin end_.

Definition add_std_id (st : t) (id : Z) : canfilter_error_t * t :=
  add_std_range st id id.

Definition add_ext_id (st : t) (id : Z) : canfilter_error_t * t :=
  add_ext_range st id id.

(** [sizeof(hw_config)]: one identity byte, three reserved bytes, four global
    registers and two arrays of [max_banks] words. *)
Definition get_hw_size : Z := 4 + 4 * 4 + 2 * (4 * max_banks).

(** *** The decomposition as a list of blocks *)

(** [step] applied to the blocks in order, up to the first failure. *)
Fixpoint feed (step : t -> Z * Z -> canfilter_error_t * t) (st : t)
    (blocks : list (Z * Z)) : canfilter_error_t * t :=
  match blocks with
  | [] => (CANFILTER_SUCCESS, st)
  | blk :: rest =>
      let '(err, st) := step st blk in
      if negb (is_success err) then (err, st) else feed step st rest
  end.

(** The (id, mask) pairs [add_std_range(begin, end)] computes, after the
    range check and the swap. *)
Definition std_range_blocks (begin end_ : Z) : list (Z * Z) :=
  let '(begin, end_) := if end_ <? begin then (end_, begin) else (begin, end_) in
  Cidr.range_blocks 11 max_std_id (Cidr.range_fuel 11) begin end_.

Definition ext_range_blocks (begin end_ : Z) : list (Z * Z) :=
  let '(begin, end_) := if end_ <? begin then (end_, begin) else (begin, end_) in
  Cidr.range_blocks 29 max_ext_id (Cidr.range_fuel 29) begin end_.

(** *** Builder states in use *)

(** A call of the public interface after [begin]. *)
Inductive call : Set :=
| Add_std_id (id : Z)
| Add_ext_id (id : Z)
| Add_std_range (begin end_ : Z)
| Add_ext_range (begin end_ : Z)
| End_.

Definition do_call (st : t) (c : call) : canfilter_error_t * t :=
  match c with
  | Add_std_id id => add_std_id st id
  | Add_ext_id id => add_ext_id st id
  | Add_std_range b e => add_std_range st b e
  | Add_ext_range b e => add_ext_range st b e
  | End_ => end_ st
  end.

(** The calls made one after the other, whatever each returns. *)
Definition run (st : t) (calls : list call) : t :=
  fold_left (fun st c => snd (do_call st c)) calls st.

(** The accumulator arrays have their declared sizes. *)
Definition sized (st : t) : Prop :=
  length (std_list st) = 4%nat /\ length (std_mask st) = 2%nat /\
  length (ext_list st) = 2%nat.

(** The states a builder object goes through: [begin()] on an object in any
    state, then any calls. *)
Definition reachable (st : t) : Prop :=
  exists st0 calls, sized st0 /\ st = run (snd (begin st0)) calls.

(** The bank invariant of the image: [bank <= max_banks], and from [bank]
    on every [FR1[i]], [FR2[i]] and every bit [i] of [FA1R] is zero. *)
Definition bank_invariant (st : t) : Prop :=
  0 <= bank st <= max_banks /\
  (forall i : nat, bank st <= Z.of_nat i < max_banks ->
     fr1 (hw_config st) !! i = Some 0 /\ fr2 (hw_config st) !! i = Some 0) /\
  (forall i : Z, bank st <= i -> Z.testbit (fa1r (hw_config st)) i = false).

(** Two states with the same accumulators. *)
Definition same_accumulators (st st' : t) : Prop :=
  std_list st' = std_list st /\
  std_list_count st' = std_list_count st /\
  std_mask st' = std_mask st /\
  std_mask_count st' = std_mask_count st /\
  ext_list st' = ext_list st /\
  ext_list_count st' = ext_list_count st.

(** The accumulators hold fewer entries than they have room for, and the
    entries of a non-empty accumulator are within the identifier space. *)
Definition accumulators_ok (st : t) : Prop :=
  sized st /\
  0 <= std_list_count st <= 3 /\ 0 <= std_mask_count st <= 1 /\
  0 <= ext_list_count st <= 1 /\
  (0 < std_list_count st -> Forall (fun x => x <= max_std_id) (std_list st)) /\
  (0 < std_mask_count st ->
   Forall (fun m => sm_id m <= max_std_id /\ sm_mask m <= max_std_id)
          (std_mask st)) /\
  (0 < ext_list_count st -> Forall (fun x => x <= max_ext_id) (ext_list st)).

End Template.
End Bxcan.

(** ** FDCAN back-end ([canfilter_fdcan.hpp], [canfilter_fdcan.cpp]) *)

Module Fdcan.

Definition SFT_RANGE : Z := 0.
Definition SFT_DUAL : Z := 1.
Definition SFEC_RX_FIFO0 : Z := 1.
Definition EFT_RANGE : Z := 0.
Definition EFT_DUAL : Z := 1.
Definition EFEC_RX_FIFO0 : Z := 1.

(** [canfilter_fdcan::hw_t]; an extended element is its two words. *)
Record hw_t : Type := mk_hw {
  dev : Z;
  std_filter_nbr : Z;
  ext_filter_nbr : Z;
  std_filter : list Z;
  ext_filter : list (Z * Z)
}.

(** The data members of [canfilter_fdcan]. *)
Record t : Type := mk {
  hw_config : hw_t;
  ext_id : list Z;
  ext_id_count : Z;
  std_id : list Z;
  std_id_count : Z
}.

Definition set_hw_config (st : t) (hw : hw_t) : t :=
  mk hw (ext_id st) (ext_id_count st) (std_id st) (std_id_count st).
Definition set_ext_id (st : t) (l : list Z) : t :=
  mk (hw_config st) l (ext_id_count st) (std_id st) (std_id_count st).
Definition set_ext_id_count (st : t) (n : Z) : t :=
  mk (hw_config st) (ext_id st) n (std_id st) (std_id_count st).
Definition set_std_id (st : t) (l : list Z) : t :=
  mk (hw_config st) (ext_id st) (ext_id_count st) l (std_id_count st).
Definition set_std_id_count (st : t) (n : Z) : t :=
  mk (hw_config st) (ext_id st) (ext_id_count st) (std_id st) n.

(** [hw_config.std_filter[hw_config.std_filter_nbr++] = sfr;] *)
Definition push_std (hw : hw_t) (sfr : Z) : hw_t :=
  mk_hw (dev hw) (u8 (std_filter_nbr hw + 1)) (ext_filter_nbr hw)
        (<[Z.to_nat (std_filter_nbr hw) := sfr]> (std_filter hw))
        (ext_filter hw).

(** [hw_config.ext_filter[hw_config.ext_filter_nbr][0] = w0; ...[1] = w1;
    hw_config.ext_filter_nbr++;] *)
Definition push_ext (hw : hw_t) (w0 w1 : Z) : hw_t :=
  mk_hw (dev hw) (std_filter_nbr hw) (u8 (ext_filter_nbr hw + 1))
        (std_filter hw)
        (<[Z.to_nat (ext_filter_nbr hw) := (w0, w1)]> (ext_filter hw)).

Section Template.
(** The template parameters. *)
Variable max_std_filter : Z.
Variable max_ext_filter : Z.
Variable dev_val : Z.

(** [hw_t()]: the image zeroed by [memset]. *)
Definition hw_zero : hw_t :=
  mk_hw 0 0 0 (replicate (Z.to_nat max_std_filter) 0)
        (replicate (Z.to_nat max_ext_filter) (0, 0)).

(** A freshly constructed object; the accumulator arrays are not initialised
    by the constructor and are zero here. *)
Definition new : t := mk hw_zero (replicate 2 0) 0 (replicate 2 0) 0.

Definition emit_std_id (st : t) (id1 id2 : Z) : canfilter_error_t * t :=
  if max_std_filter <=? std_filter_nbr (hw_config st)
  then (CANFILTER_ERROR_FULL, st)
  else if (max_std_id <? id1) || (max_std_id <? id2)
  then (CANFILTER_ERROR_PARAM, st)
  else
    let sfr := Z.lor (Z.lor (Z.lor (u32 (Z.shiftl SFT_DUAL 30))
                                   (u32 (Z.shiftl SFEC_RX_FIFO0 27)))
                            (u32 (Z.shiftl id1 16))) id2 in
    (CANFILTER_SUCCESS, set_hw_config st (push_std (hw_config st) sfr)).

Definition emit_std_range (st : t) (id1 id2 : Z) : canfilter_error_t * t :=
  if max_std_filter <=? std_filter_nbr (hw_config st)
  then (CANFILTER_ERROR_FULL, st)
  else if (max_std_id <? id1) || (max_std_id <? id2) || (id2 <? id1)
  then (CANFILTER_ERROR_PARAM, st)
  else
    let sfr := Z.lor (Z.lor (Z.lor (u32 (Z.shiftl SFT_RANGE 30))
                                   (u32 (Z.shiftl SFEC_RX_FIFO0 27)))
                            (u32 (Z.shiftl id1 16))) id2 in
    (CANFILTER_SUCCESS, set_hw_config st (push_std (hw_config st) sfr)).

Definition emit_ext_id (st : t) (id1 id2 : Z) : canfilter_error_t * t :=
  if max_ext_filter <=? ext_filter_nbr (hw_config st)
  then (CANFILTER_ERROR_FULL, st)
  else if (max_ext_id <? id1) || (max_ext_id <? id2)
  then (CANFILTER_ERROR_PARAM, st)
  else
    let w0 := Z.lor (u32 (Z.shiftl EFEC_RX_FIFO0 29)) id1 in
    let w1 := Z.lor (u32 (Z.shiftl EFT_DUAL 30)) id2 in
    (CANFILTER_SUCCESS, set_hw_config st (push_ext (hw_config st) w0 w1)).

Definition emit_ext_range (st : t) (id1 id2 : Z) : canfilter_error_t * t :=
  if max_ext_filter <=? ext_filter_nbr (hw_config st)
  then (CANFILTER_ERROR_FULL, st)
  else if (max_ext_id <? id1) || (max_ext_id <? id2) || (id2 <? id1)
  then (CANFILTER_ERROR_PARAM, st)
  else
    let w0 := Z.lor (u32 (Z.shiftl EFEC_RX_FIFO0 29)) id1 in
    let w1 := Z.lor (u32 (Z.shiftl EFT_RANGE 30)) id2 in
    (CANFILTER_SUCCESS, set_hw_config st (push_ext (hw_config st) w0 w1)).

Definition begin (st : t) : canfilter_error_t * t :=
  let st := set_hw_config st hw_zero in
  let hw := hw_config st in
  let st := set_hw_config st
              (mk_hw (u8 dev_val) (std_filter_nbr hw) (ext_filter_nbr hw)
                     (std_filter hw) (ext_filter hw)) in
  let st := set_std_id_count st 0 in
  let st := set_ext_id_count st 0 in
  let hw := hw_config st in
  let st := set_hw_config st
              (mk_hw (dev hw) 0 0 (std_filter hw) (ext_filter hw)) in
  (CANFILTER_SUCCESS, st).

Definition end_ (st : t) : canfilter_error_t * t :=
  let '(err, st) :=
    if negb (std_id_count st =? 0) then
      emit_std_id st (std_id st !!! 0%nat) (std_id st !!! 1%nat)
    else (CANFILTER_SUCCESS, st) in
  let '(err, st) :=
    if negb (ext_id_count st =? 0) && is_success err then
      emit_ext_id st (ext_id st !!! 0%nat) (ext_id st !!! 1%nat)
    else (err, st) in
  (err, st).

Definition add_std_id (st : t) (id : Z) : canfilter_error_t * t :=
  if (max_std_id <? id) || (1 <? std_id_count st)
  then (CANFILTER_ERROR_PARAM, st)
  else
    let st := set_std_id st (<[Z.to_nat (std_id_count st) := id]> (std_id st)) in
    let st := set_std_id_count st (u8 (std_id_count st + 1)) in
    if std_id_count st =? 1 then
      (CANFILTER_SUCCESS, set_std_id st (<[1%nat := id]> (std_id st)))
    else
      let '(err, st) :=
        emit_std_id st (std_id st !!! 0%nat) (std_id st !!! 1%nat) in
      (err, set_std_id_count st 0).

Definition add_ext_id (st : t) (id : Z) : canfilter_error_t * t :=
  if (max_ext_id <? id) || (1 <? ext_id_count st)
  then (CANFILTER_ERROR_PARAM, st)
  else
    let st := set_ext_id st (<[Z.to_nat (ext_id_count st) := id]> (ext_id st)) in
    let st := set_ext_id_count st (u8 (ext_id_count st + 1)) in
    if ext_id_count st =? 1 then
      (CANFILTER_SUCCESS, set_ext_id st (<[1%nat := id]> (ext_id st)))
    else
      let '(err, st) :=
        emit_ext_id st (ext_id st !!! 0%nat) (ext_id st !!! 1%nat) in
      (err, set_ext_id_count st 0).

Definition add_std_range (st : t) (begin end_ : Z) : canfilter_error_t * t :=
  if (max_std_id <? begin) || (max_std_id <? end_)
  then (CANFILTER_ERROR_PARAM, st)
  else if begin <=? end_ then emit_std_range st begin end_
  else emit_std_range st end_ begin.

Definition add_ext_range (st : t) (begin end_ : Z) : canfilter_error_t * t :=
  if (max_ext_id <? begin) || (max_ext_id <? end_)
  then (CANFILTER_ERROR_PARAM, st)
  else if begin <=? end_ then emit_ext_range st begin end_
  else emit_ext_range st end_ begin.

(** [sizeof(hw_config)]: four bytes, [max_std_filter] words and
    [max_ext_filter] pairs of words. *)
Definition get_hw_size : Z := 4 + 4 * max_std_filter + 2 * (4 * max_ext_filter).

End Template.
End Fdcan.

(** ** The abstract builder ([canfilter.hpp]) and the parser ([canfilter.cpp]) *)

(** The virtual interface of [class canfilter] over an object state [St]; [Img]
    is what [get_hw_config] points to. *)
Record canfilter (St Img : Type) : Type := mk_canfilter {
  begin : St -> canfilter_error_t * St;
  add_std_id : St -> Z -> canfilter_error_t * St;
  add_ext_id : St -> Z -> canfilter_error_t * St;
  add_std_range : St -> Z -> Z -> canfilter_error_t * St;
  add_ext_range : St -> Z -> Z -> canfilter_error_t * St;
  end_ : St -> canfilter_error_t * St;
  get_hw_config : St -> Img;
  get_hw_size : Z
}.
Arguments begin {St Img}.
Arguments add_std_id {St Img}.
Arguments add_ext_id {St Img}.
Arguments add_std_range {St Img}.
Arguments add_ext_range {St Img}.
Arguments end_ {St Img}.
Arguments get_hw_config {St Img}.
Arguments get_hw_size {St Img}.

(** [canfilter::allow_all]. *)
Definition allow_all {St Img} (ops : canfilter St Img) (st : St)
  : canfilter_error_t * St :=
  let '(err, st) := add_std_range ops st 0 max_std_id in
  if negb (is_success err) then (err, st)
  else add_ext_range ops st 0 max_ext_id.

(** *** The C library functions the parser calls *)

(** [isspace] in the C locale: space, and the controls from tab to carriage
    return. *)
Definition isspace (c : ascii) : bool :=
  let n := Z.of_N (N_of_ascii c) in
  (n =? 32) || ((9 <=? n) && (n <=? 13)).

Fixpoint skip_space (s : list ascii) : list ascii :=
  match s with
  | c :: s' => if isspace c then skip_space s' else s
  | [] => []
  end.

(** [ULONG_MAX] where [unsigned long] has 64 bits (Linux on LP64; the
    orchestrator only serves SocketCAN interfaces). *)
Definition ULONG_MAX : Z := 2 ^ 64 - 1.

Definition digit_value (c : ascii) : option Z :=
  let n := Z.of_N (N_of_ascii c) in
  if (48 <=? n) && (n <=? 57) then Some (n - 48)
  else if (97 <=? n) && (n <=? 122) then Some (n - 97 + 10)
  else if (65 <=? n) && (n <=? 90) then Some (n - 65 + 10)
  else None.

Definition is_digit_of (base : Z) (c : ascii) : bool :=
  match digit_value c with
  | Some d => d <? base
  | None => false
  end.

(** The digits of [base] at the head of [s]: their value and their number. *)
Fixpoint scan_digits (base : Z) (s : list ascii) (acc : Z) (n : nat)
  : Z * nat :=
  match s with
  | c :: s' =>
      match digit_value c with
      | Some d =>
          if d <? base then scan_digits base s' (acc * base + d) (S n)
          else (acc, n)
      | None => (acc, n)
      end
  | [] => (acc, n)
  end.

(** [strtoul(s, &end, 0)] of ISO C: optional white space, an optional sign,
    an optional [0x]/[0X] (hexadecimal) or a leading [0] (octal), then the
    digits.  The result is the value, [end - s], and whether [errno] is
    [ERANGE].  Without a digit nothing is consumed; a value above [ULONG_MAX]
    saturates with [ERANGE]; a minus sign negates in [unsigned long]. *)
Definition strtoul (s : list ascii) : Z * nat * bool :=
  let s1 := skip_space s in
  let nws := (length s - length s1)%nat in
  let '(neg, nsign, s2) :=
    match s1 with
    | "-"%char :: r => (true, 1%nat, r)
    | "+"%char :: r => (false, 1%nat, r)
    | _ => (false, 0%nat, s1)
    end in
  let '(base, npre, s3) :=
    match s2 with
    | "0"%char :: x :: h :: r =>
        if (Ascii.eqb x "x" || Ascii.eqb x "X") && is_digit_of 16 h
        then (16, 2%nat, h :: r)
        else (8, 0%nat, s2)
    | "0"%char :: _ => (8, 0%nat, s2)
    | _ => (10, 0%nat, s2)
    end in
  let '(v, n) := scan_digits base s3 0 0%nat in
  if (n =? 0)%nat then (0, 0%nat, false)
  else if ULONG_MAX <? v then (ULONG_MAX, (nws + nsign + npre + n)%nat, true)
  else (if neg then (- v) mod (ULONG_MAX + 1) else v,
        (nws + nsign + npre + n)%nat, false).

(** *** [canfilter::parse] *)

(** [errno = 0; id = strtoul(start, &end, 0);
     if (end == start || errno == ERANGE) return false; pos += (end - start);]
    with the value converted to [uint32_t]; [None] is the [return false]. *)
Definition parse_number (s : list ascii) : option (Z * list ascii) :=
  let '(v, n, erange) := strtoul s in
  if (n =? 0)%nat || erange then None
  else Some (u32 v, drop n s).

(** [while (pos < len && (isspace(input[pos]) || input[pos] == ',')) pos++;] *)
Fixpoint skip_sep (s : list ascii) : list ascii :=
  match s with
  | c :: s' => if isspace c || Ascii.eqb c "," then skip_sep s' else s
  | [] => []
  end.

Section Parse.
Context {St Img : Type}.
Variable ops : canfilter St Img.

(** The loop of [parse] over the text from [pos] on.  Every round consumes a
    number, so the length of the text bounds the rounds. *)
Fixpoint parse_loop (fuel : nat) (st : St) (s : list ascii) : bool * St :=
  match fuel with
  | O => (true, st)
  | S fuel' =>
      match s with
      | [] => (true, st)
      | _ :: _ =>
          let s := skip_space s in
          match s with
          | [] => (true, st)
          | _ :: _ =>
              match parse_number s with
              | None => (false, st)
              | Some (id1, s) =>
                  let s := skip_space s in
                  match s with
                  | "-"%char :: s =>
                      let s := skip_space s in
                      match parse_number s with
                      | None => (false, st)
                      | Some (id2, s) =>
                          if (id1 <=? max_std_id) && (id2 <=? max_std_id) then
                            let st := snd (add_std_range ops st id1 id2) in
                            parse_loop fuel' st (skip_sep s)
                          else if (id1 <=? max_ext_id) && (id2 <=? max_ext_id) then
                            let st := snd (add_ext_range ops st id1 id2) in
                            parse_loop fuel' st (skip_sep s)
                          else (false, st)
                      end
                  | _ =>
                      if id1 <=? max_std_id then
                        let st := snd (add_std_id ops st id1) in
                        parse_loop fuel' st (skip_sep s)
                      else if id1 <=? max_ext_id then
                        let st := snd (add_ext_id ops st id1) in
                        parse_loop fuel' st (skip_sep s)
                      else (false, st)
                  end
              end
          end
      end
  end.

(** [bool canfilter::parse(const std::string &input)] *)
Definition parse (st : St) (input : string) : bool * St :=
  let s := list_ascii_of_string input in
  match s with
  | [] => (true, st)
  | _ :: _ => parse_loop (length s) st s
  end.

End Parse.

(** A builder that only records the calls it receives, oldest first. *)
Inductive directive : Set :=
| Std_id (id : Z)
| Ext_id (id : Z)
| Std_range (begin end_ : Z)
| Ext_range (begin end_ : Z).

Definition recorder : canfilter (list directive) unit :=
  mk_canfilter (list directive) unit
    (fun log => (CANFILTER_SUCCESS, log))
    (fun log id => (CANFILTER_SUCCESS, log ++ [Std_id id]))
    (fun log id => (CANFILTER_SUCCESS, log ++ [Ext_id id]))
    (fun log b e => (CANFILTER_SUCCESS, log ++ [Std_range b e]))
    (fun log b e => (CANFILTER_SUCCESS, log ++ [Ext_range b e]))
    (fun log => (CANFILTER_SUCCESS, log))
    (fun _ => tt)
    0.

(** What [parse] makes of a text: its result and the calls it dispatches. *)
Definition parse_directives (input : string) : bool * list directive :=
  parse recorder [] input.

(** One recorded call replayed on a builder, its error code dropped as [parse]
    drops it. *)
Definition dispatch {St Img} (ops : canfilter St Img) (st : St) (d : directive) : St :=
  match d with
  | Std_id id => snd (add_std_id ops st id)
  | Ext_id id => snd (add_ext_id ops st id)
  | Std_range b e => snd (add_std_range ops st b e)
  | Ext_range b e => snd (add_ext_range ops st b e)
  end.

(** The error code of one call on a builder. *)
Definition dispatch_error {St Img} (ops : canfilter St Img) (st : St) (d : directive)
  : canfilter_error_t :=
  match d with
  | Std_id id => fst (add_std_id ops st id)
  | Ext_id id => fst (add_ext_id ops st id)
  | Std_range b e => fst (add_std_range ops st b e)
  | Ext_range b e => fst (add_ext_range ops st b e)
  end.

(** ** The orchestrator ([HardwareFilter.cpp]) and the transport
       ([canfilter_usb.cpp]) *)

(** What [SET_FILTER] carries: the [hw_config] of the chosen back-end. *)
Inductive hw_image : Type :=
| Bxcan_image (hw : Bxcan.hw_t)
| Fdcan_image (hw : Fdcan.hw_t).

(** The four concrete classes. *)
Definition canfilter_bxcan (max_banks dev_val : Z)
  : canfilter Bxcan.t hw_image :=
  mk_canfilter Bxcan.t hw_image
    (Bxcan.begin max_banks dev_val)
    (Bxcan.add_std_id max_banks)
    (Bxcan.add_ext_id max_banks)
    (Bxcan.add_std_range max_banks)
    (Bxcan.add_ext_range max_banks)
    (Bxcan.end_ max_banks)
    (fun st => Bxcan_image (Bxcan.hw_config st))
    (Bxcan.get_hw_size max_banks).

Definition canfilter_fdcan (max_std_filter max_ext_filter dev_val : Z)
  : canfilter Fdcan.t hw_image :=
  mk_canfilter Fdcan.t hw_image
    (Fdcan.begin max_std_filter max_ext_filter dev_val)
    (Fdcan.add_std_id max_std_filter)
    (Fdcan.add_ext_id max_ext_filter)
    (Fdcan.add_std_range max_std_filter)
    (Fdcan.add_ext_range max_ext_filter)
    (Fdcan.end_ max_std_filter max_ext_filter)
    (fun st => Fdcan_image (Fdcan.hw_config st))
    (Fdcan.get_hw_size max_std_filter max_ext_filter).

Definition canfilter_bxcan_f0 := canfilter_bxcan 14 CANFILTER_DEV_BXCAN_F0.
Definition canfilter_bxcan_f4 := canfilter_bxcan 28 CANFILTER_DEV_BXCAN_F4.
Definition canfilter_fdcan_g0 := canfilter_fdcan 28 8 CANFILTER_DEV_FDCAN_G0.
Definition canfilter_fdcan_h7 := canfilter_fdcan 128 64 CANFILTER_DEV_FDCAN_H7.

(** [GS_CAN_FEATURE_FILTER]. *)
Definition GS_CAN_FEATURE_FILTER : Z := Z.shiftl 1 16.

(** [sizeof(gs_device_capability)] and [sizeof(gs_filter_info)]. *)
Definition sizeof_cap : Z := 40.
Definition sizeof_finfo : Z := 4.

(** The collaborators of one call of [setHardwareFilter]: the interface and
    its driver, the lookup of the USB identity, and the device's answer to each
    control transfer (the value [libusb_control_transfer] returns and the
    field read from the buffer). *)
Record usb_env : Type := mk_env {
  driver_name : string;
  getUsbInfoFromDeviceName : option (Z * Z * string);
  usb_open : Z -> Z -> string -> bool;
  bt_const : Z * Z;
  get_filter : Z * Z;
  set_filter : hw_image -> Z -> Z
}.

(** The USB requests of a run, oldest first. *)
Inductive usb_event : Type :=
| Ev_open (vid pid : Z) (serial : string)
| Ev_bt_const
| Ev_get_filter
| Ev_set_filter (image : hw_image) (size : Z).

Definition is_set_filter (ev : usb_event) : bool :=
  match ev with Ev_set_filter _ _ => true | _ => false end.

(** [canfilter_usb::hasHardwareFilter], the device being open:
    [ret == sizeof(cap) && (cap.feature & GS_CAN_FEATURE_FILTER)]. *)
Definition hasHardwareFilter (env : usb_env) : bool :=
  let '(ret, feature) := bt_const env in
  (ret =? sizeof_cap) && negb (Z.land feature GS_CAN_FEATURE_FILTER =? 0).

(** [canfilter_usb::getFilterInfo], the device being open. *)
Definition getFilterInfo (env : usb_env) : Z :=
  let '(ret, dev) := get_filter env in
  if negb (ret =? sizeof_finfo) then 0 else dev.

(** [canfilter_usb::programFilter], the device being open:
    [ret == (int)size]. *)
Definition programFilter (env : usb_env) (config : hw_image) (size : Z) : bool :=
  set_filter env config size =? size.

(** The tail of [setHardwareFilter] once the class is chosen:
    [filter->begin(); if (!filter->parse(...)) return false; filter->end();
     if (!usb_device.programFilter(...)) return false; return true;]
    The values returned by [begin] and [end] are not looked at. *)
Definition compile_and_ship {St : Type} (env : usb_env)
    (ops : canfilter St hw_image) (obj : St) (filter_def : string)
    (trace : list usb_event) : bool * list usb_event :=
  let st := snd (begin ops obj) in
  let '(ok, st) := parse ops st filter_def in
  if negb ok then (false, trace)
  else
    let st := snd (end_ ops st) in
    let trace := trace ++ [Ev_set_filter (get_hw_config ops st) (get_hw_size ops)] in
    if negb (programFilter env (get_hw_config ops st) (get_hw_size ops))
    then (false, trace)
    else (true, trace).

(** [bool setHardwareFilter(CanInterface *intf, QString filter_def)]: the
    result and the USB requests made. *)
Definition setHardwareFilter (env : usb_env) (filter_def : string)
  : bool * list usb_event :=
  if negb (String.eqb (driver_name env) "SocketCAN") then (false, [])
  else
    match getUsbInfoFromDeviceName env with
    | None => (false, [])
    | Some (vendor_id, product_id, serial) =>
        let trace := [Ev_open vendor_id product_id serial] in
        if negb (usb_open env vendor_id product_id serial) then (false, trace)
        else
          let trace := trace ++ [Ev_bt_const] in
          if negb (hasHardwareFilter env) then (false, trace)
          else
            let trace := trace ++ [Ev_get_filter] in
            let hw_filter := getFilterInfo env in
            if hw_filter =? CANFILTER_DEV_BXCAN_F0 then
              compile_and_ship env canfilter_bxcan_f0
                (Bxcan.new 14) filter_def trace
            else if hw_filter =? CANFILTER_DEV_BXCAN_F4 then
              compile_and_ship env canfilter_bxcan_f4
                (Bxcan.new 28) filter_def trace
            else if hw_filter =? CANFILTER_DEV_FDCAN_G0 then
              compile_and_ship env canfilter_fdcan_g0
                (Fdcan.new 28 8) filter_def trace
            else if hw_filter =? CANFILTER_DEV_FDCAN_H7 then
              compile_and_ship env canfilter_fdcan_h7
                (Fdcan.new 128 64) filter_def trace
            else (false, trace)
    end.

(** *** What can stop the orchestrator before the transfer *)

Definition known_filter (hw_filter : Z) : bool :=
  (hw_filter =? CANFILTER_DEV_BXCAN_F0) || (hw_filter =? CANFILTER_DEV_BXCAN_F4)
  || (hw_filter =? CANFILTER_DEV_FDCAN_G0) || (hw_filter =? CANFILTER_DEV_FDCAN_H7).

(** One of the checked steps before [programFilter] fails: the driver is not
    SocketCAN, the interface is not resolved, the device does not open, the
    capability probe fails or reports no hardware filter, the filter identity
    is none of the four, or the text does not parse. *)
Definition fails_before_transfer (env : usb_env) (filter_def : string) : bool :=
  negb (String.eqb (driver_name env) "SocketCAN")
  || match getUsbInfoFromDeviceName env with
     | None => true
     | Some (vendor_id, product_id, serial) =>
         negb (usb_open env vendor_id product_id serial)
     end
  || negb (hasHardwareFilter env)
  || negb (known_filter (getFilterInfo env))
  || negb (fst (parse_directives filter_def)).

(** ** Objects and devices of the examples *)

Definition bxcan_f0_begun : Bxcan.t :=
  snd (Bxcan.begin 14 CANFILTER_DEV_BXCAN_F0 (Bxcan.new 14)).
Definition bxcan_f0_one_id : Bxcan.t :=
  Bxcan.run 14 bxcan_f0_begun [Bxcan.Add_std_id 0x100].
Definition bxcan_f0_full : Bxcan.t :=
  Bxcan.run 14 bxcan_f0_begun [Bxcan.Add_ext_range 0x801 0xFFFE].
Definition fdcan_g0_begun : Fdcan.t :=
  snd (Fdcan.begin 28 8 CANFILTER_DEV_FDCAN_G0 (Fdcan.new 28 8)).
Definition fdcan_g0_one_id : Fdcan.t :=
  snd (Fdcan.add_std_id 28 fdcan_g0_begun 0x100).
Definition fdcan_g0_two_ids : Fdcan.t :=
  snd (Fdcan.add_std_id 28 fdcan_g0_one_id 0x200).
Definition fdcan_g0_std_full : Fdcan.t :=
  Nat.iter 28 (fun st => snd (Fdcan.add_std_range 28 st 0x100 0x200)) fdcan_g0_begun.
Definition fdcan_g0_ext_full : Fdcan.t :=
  Nat.iter 8 (fun st => snd (Fdcan.add_ext_range 8 st 0x800 0x900)) fdcan_g0_begun.


(** A device that answers every request: capability with the filter bit,
    identity bxCAN-14, and a complete [SET_FILTER] transfer. *)
Definition usb_env_bxcan_f0 : usb_env :=
  mk_env "SocketCAN" (Some (0x1d50, 0x606f, "003A0041"%string)) (fun _ _ _ => true)
         (sizeof_cap, GS_CAN_FEATURE_FILTER)
         (sizeof_finfo, CANFILTER_DEV_BXCAN_F0)
         (fun _ size => size).

(** The same device with the hardware-filter feature bit clear. *)
Definition usb_env_no_filter : usb_env :=
  mk_env "SocketCAN" (Some (0x1d50, 0x606f, "003A0041"%string)) (fun _ _ _ => true)
         (sizeof_cap, 0)
         (sizeof_finfo, CANFILTER_DEV_BXCAN_F0)
         (fun _ size => size).

(** ** The dumps and what else the classes offer

    [debug_print] and [print_usage] write text to [std::cout]; what follows is
    the values they compute and print, without the formatting. *)

Module BxcanDebug.

(** One line of [canfilter_bxcan::debug_print]: the kind of the bank and the
    numbers printed after it. *)
Inductive bank_view : Set :=
| Ext_list (id1 id2 : Z)
| Ext_mask (begin1 end1 : Z)
| Std_list (id1 id2 id3 id4 : Z)
| Std_mask (base1 end1 base2 end2 : Z).

Section Template.
Variable max_banks : Z.

(** The body of the loop of [debug_print] at bank [i]; [None] is the
    [continue] of a bank that is not active. *)
Definition debug_bank (hw : Bxcan.hw_t) (i : Z) : option bank_view :=
  let is_active := negb (Z.land (Bxcan.fa1r hw) (u32 (Z.shiftl 1 i)) =? 0) in
  if negb is_active then None
  else
    let is_32bit := negb (Z.land (Bxcan.fs1r hw) (u32 (Z.shiftl 1 i)) =? 0) in
    let is_list := negb (Z.land (Bxcan.fm1r hw) (u32 (Z.shiftl 1 i)) =? 0) in
    let r1 := Bxcan.fr1 hw !!! Z.to_nat i in
    let r2 := Bxcan.fr2 hw !!! Z.to_nat i in
    if is_32bit then
      let id1 := Z.land (Z.shiftr r1 3) max_ext_id in
      let id2 := Z.land (Z.shiftr r2 3) max_ext_id in
      if is_list then Some (Ext_list id1 id2)
      else
        let base1 := id1 in
        let mask1 := id2 in
        let begin1 := Z.land base1 mask1 in
        let end1 := Z.land (Z.lor begin1 (u32 (Z.lnot mask1))) max_ext_id in
        Some (Ext_mask begin1 end1)
    else
      let id1 := Z.land (Z.shiftr r1 5) max_std_id in
      let id2 := Z.land (Z.shiftr r1 21) max_std_id in
      let id3 := Z.land (Z.shiftr r2 5) max_std_id in
      let id4 := Z.land (Z.shiftr r2 21) max_std_id in
      if is_list then Some (Std_list id1 id2 id3 id4)
      else
        let base1 := id1 in
        let mask1 := id2 in
        let begin1 := Z.land base1 mask1 in
        let end1 := Z.land (Z.lor begin1 (u32 (Z.lnot mask1))) max_std_id in
        let base2 := id3 in
        let mask2 := id4 in
        let begin2 := Z.land base2 mask2 in
        let end2 := Z.land (Z.lor begin2 (u32 (Z.lnot mask2))) max_std_id in
        Some (Std_mask base1 end1 base2 end2).

(** [debug_print]: the lines of the active banks, [for (i = 0; i < max_banks;
    i++)], each with its index. *)
Definition debug_print (hw : Bxcan.hw_t) : list (Z * bank_view) :=
  omap (fun n : nat =>
          match debug_bank hw (Z.of_nat n) with
          | Some v => Some (Z.of_nat n, v)
          | None => None
          end)
       (seq 0 (Z.to_nat max_banks)).

(** [debug_print_reg]: the index and contents of every bank with a nonzero
    register. *)
Definition debug_print_reg (hw : Bxcan.hw_t) : list (Z * Z * Z) :=
  omap (fun n : nat =>
          let r1 := Bxcan.fr1 hw !!! n in
          let r2 := Bxcan.fr2 hw !!! n in
          if negb (r1 =? 0) || negb (r2 =? 0) then Some (Z.of_nat n, r1, r2)
          else None)
       (seq 0 (Z.to_nat max_banks)).

(** The percentage [print_usage] shows:
    [(bank * 100 + max_banks / 2) / max_banks]. *)
Definition print_usage (st : Bxcan.t) : Z :=
  u32 (u32 (Bxcan.bank st * 100) + max_banks / 2) / max_banks.

End Template.
End BxcanDebug.

Module FdcanDebug.

(** One line of [canfilter_fdcan::debug_print] for a standard element. *)
Record std_view : Set := mk_std_view {
  sft : Z; sfid1 : Z; sfid2 : Z; sfec : Z
}.

(** One line for an extended element. *)
Record ext_view : Set := mk_ext_view {
  eft : Z; efid1 : Z; efid2 : Z; efec : Z
}.

Definition debug_std (hw : Fdcan.hw_t) (i : nat) : std_view :=
  let w := Fdcan.std_filter hw !!! i in
  let sfid1 := Z.land (Z.shiftr w 16) max_std_id in
  let sfid2 := Z.land w max_std_id in
  let sfec := Z.land (Z.shiftr w 27) 0x7 in
  let sft := Z.land (Z.shiftr w 30) 0x3 in
  mk_std_view sft sfid1 sfid2 sfec.

Definition debug_ext (hw : Fdcan.hw_t) (i : nat) : ext_view :=
  let w0 := fst (Fdcan.ext_filter hw !!! i) in
  let w1 := snd (Fdcan.ext_filter hw !!! i) in
  let efid1 := Z.land w0 max_ext_id in
  let efid2 := Z.land w1 max_ext_id in
  let efec := Z.land (Z.shiftr w0 29) 0x7 in
  let eft := Z.land (Z.shiftr w1 30) 0x3 in
  mk_ext_view eft efid1 efid2 efec.

(** [debug_print]: the standard elements below [std_filter_nbr], then the
    extended elements below [ext_filter_nbr]. *)
Definition debug_print (hw : Fdcan.hw_t) : list std_view * list ext_view :=
  (map (debug_std hw) (seq 0 (Z.to_nat (Fdcan.std_filter_nbr hw))),
   map (debug_ext hw) (seq 0 (Z.to_nat (Fdcan.ext_filter_nbr hw)))).

(** The two percentages [print_usage] shows. *)
Definition print_usage (max_std_filter max_ext_filter : Z) (hw : Fdcan.hw_t)
  : Z * Z :=
  (u32 (Fdcan.std_filter_nbr hw * 100 + max_std_filter / 2) / max_std_filter,
   u32 (Fdcan.ext_filter_nbr hw * 100 + max_ext_filter / 2) / max_ext_filter).

End FdcanDebug.

(** ** FDCAN builder states in use *)

Module FdcanUse.
Section Template.
Variable max_std_filter : Z.
Variable max_ext_filter : Z.
Variable dev_val : Z.

(** A call of the public interface after [begin]. *)
Inductive call : Set :=
| Add_std_id (id : Z)
| Add_ext_id (id : Z)
| Add_std_range (begin end_ : Z)
| Add_ext_range (begin end_ : Z)
| End_.

Definition do_call (st : Fdcan.t) (c : call) : canfilter_error_t * Fdcan.t :=
  match c with
  | Add_std_id id => Fdcan.add_std_id max_std_filter st id
  | Add_ext_id id => Fdcan.add_ext_id max_ext_filter st id
  | Add_std_range b e => Fdcan.add_std_range max_std_filter st b e
  | Add_ext_range b e => Fdcan.add_ext_range max_ext_filter st b e
  | End_ => Fdcan.end_ max_std_filter max_ext_filter st
  end.

Definition run (st : Fdcan.t) (calls : list call) : Fdcan.t :=
  fold_left (fun st c => snd (do_call st c)) calls st.

(** The accumulator arrays have their declared sizes. *)
Definition sized (st : Fdcan.t) : Prop :=
  length (Fdcan.std_id st) = 2%nat /\ length (Fdcan.ext_id st) = 2%nat.

(** [begin()] on an object in any state, then any calls. *)
Definition reachable (st : Fdcan.t) : Prop :=
  exists st0 calls,
    sized st0 /\
    st = run (snd (Fdcan.begin max_std_filter max_ext_filter dev_val st0)) calls.

(** The tables of the image: the counts are within the tables, the elements
    from the counts on are zero, and the identity byte is the one stamped by
    [begin]. *)
Definition table_ok (st : Fdcan.t) : Prop :=
  let hw := Fdcan.hw_config st in
  Fdcan.dev hw = u8 dev_val /\
  0 <= Fdcan.std_filter_nbr hw <= max_std_filter /\
  0 <= Fdcan.ext_filter_nbr hw <= max_ext_filter /\
  length (Fdcan.std_filter hw) = Z.to_nat max_std_filter /\
  length (Fdcan.ext_filter hw) = Z.to_nat max_ext_filter /\
  (forall i : nat, Fdcan.std_filter_nbr hw <= Z.of_nat i < max_std_filter ->
     Fdcan.std_filter hw !! i = Some 0) /\
  (forall i : nat, Fdcan.ext_filter_nbr hw <= Z.of_nat i < max_ext_filter ->
     Fdcan.ext_filter hw !! i = Some (0, 0)).

(** The accumulators: each holds at most one identifier, within its space,
    and both its slots then hold it. *)
Definition pending_ok (st : Fdcan.t) : Prop :=
  sized st /\
  (Fdcan.std_id_count st = 0 \/
   Fdcan.std_id_count st = 1 /\
   exists id, id <= max_std_id /\ Fdcan.std_id st = [id; id]) /\
  (Fdcan.ext_id_count st = 0 \/
   Fdcan.ext_id_count st = 1 /\
   exists id, id <= max_ext_id /\ Fdcan.ext_id st = [id; id]).

Definition invariant (st : Fdcan.t) : Prop := table_ok st /\ pending_ok st.

(** [st'] keeps what [st] has emitted: the counts have not gone down and the
    elements below the counts of [st] are the same. *)
Definition extends (st st' : Fdcan.t) : Prop :=
  let hw := Fdcan.hw_config st in
  let hw' := Fdcan.hw_config st' in
  0 <= Fdcan.std_filter_nbr hw <= Fdcan.std_filter_nbr hw' /\
  0 <= Fdcan.ext_filter_nbr hw <= Fdcan.ext_filter_nbr hw' /\
  (forall i : nat, Z.of_nat i < Fdcan.std_filter_nbr hw ->
     Fdcan.std_filter hw' !! i = Fdcan.std_filter hw !! i) /\
  (forall i : nat, Z.of_nat i < Fdcan.ext_filter_nbr hw ->
     Fdcan.ext_filter hw' !! i = Fdcan.ext_filter hw !! i).

End Template.
End FdcanUse.

(** ** bxCAN: what an image in use looks like *)

Module BxcanUse.
Section Template.
Variable max_banks : Z.
Variable dev_val : Z.

(** The global registers of an image with [bank] banks emitted: exactly the
    banks below [bank] are active, no scale or mode bit is set from [bank]
    on, [FFA1R] is zero, the identity byte is the one stamped by [begin], and
    the two arrays have [max_banks] words of 32 bits. *)
Definition image_ok (st : Bxcan.t) : Prop :=
  let hw := Bxcan.hw_config st in
  0 <= Bxcan.bank st <= max_banks /\
  Bxcan.dev hw = u8 dev_val /\
  Bxcan.fa1r hw = Z.ones (Bxcan.bank st) /\
  0 <= Bxcan.fs1r hw < 2 ^ Bxcan.bank st /\
  0 <= Bxcan.fm1r hw < 2 ^ Bxcan.bank st /\
  Bxcan.ffa1r hw = 0 /\
  length (Bxcan.fr1 hw) = Z.to_nat max_banks /\
  length (Bxcan.fr2 hw) = Z.to_nat max_banks /\
  Forall (fun w => 0 <= w < 2 ^ 32) (Bxcan.fr1 hw) /\
  Forall (fun w => 0 <= w < 2 ^ 32) (Bxcan.fr2 hw).

(** [st'] keeps what [st] has emitted: [bank] has not gone down, and the
    registers and the scale, mode and activation bits of the banks below the
    [bank] of [st] are the same. *)
Definition extends (st st' : Bxcan.t) : Prop :=
  let hw := Bxcan.hw_config st in
  let hw' := Bxcan.hw_config st' in
  0 <= Bxcan.bank st <= Bxcan.bank st' /\
  (forall i : nat, Z.of_nat i < Bxcan.bank st ->
     Bxcan.fr1 hw' !! i = Bxcan.fr1 hw !! i /\
     Bxcan.fr2 hw' !! i = Bxcan.fr2 hw !! i) /\
  (forall i : Z, 0 <= i < Bxcan.bank st ->
     Z.testbit (Bxcan.fs1r hw') i = Z.testbit (Bxcan.fs1r hw) i /\
     Z.testbit (Bxcan.fm1r hw') i = Z.testbit (Bxcan.fm1r hw) i /\
     Z.testbit (Bxcan.fa1r hw') i = Z.testbit (Bxcan.fa1r hw) i).

(** In a non-empty accumulator the slots past the pending entries repeat the
    first entry. *)
Definition replicated (st : Bxcan.t) : Prop :=
  (0 < Bxcan.std_list_count st ->
   forall i : nat, Bxcan.std_list_count st <= Z.of_nat i < 4 ->
     Bxcan.std_list st !! i = Bxcan.std_list st !! 0%nat) /\
  (0 < Bxcan.std_mask_count st ->
   forall i : nat, Bxcan.std_mask_count st <= Z.of_nat i < 2 ->
     Bxcan.std_mask st !! i = Bxcan.std_mask st !! 0%nat) /\
  (0 < Bxcan.ext_list_count st ->
   forall i : nat, Bxcan.ext_list_count st <= Z.of_nat i < 2 ->
     Bxcan.ext_list st !! i = Bxcan.ext_list st !! 0%nat).

(** The accumulators are well formed and their unused slots repeat the first
    entry. *)
Definition padded (st : Bxcan.t) : Prop :=
  Bxcan.accumulators_ok st /\ replicated st.

(** The state after [m] standard identifiers and nothing else. *)
Definition std_only (m : Z) (st : Bxcan.t) : Prop :=
  Bxcan.accumulators_ok st /\ 0 <= Bxcan.bank st /\
  0 <= Bxcan.std_list_count st <= 3 /\
  4 * Bxcan.bank st + Bxcan.std_list_count st = m /\
  Bxcan.std_mask_count st = 0 /\ Bxcan.ext_list_count st = 0.

Definition ext_only (m : Z) (st : Bxcan.t) : Prop :=
  Bxcan.accumulators_ok st /\ 0 <= Bxcan.bank st /\
  0 <= Bxcan.ext_list_count st <= 1 /\
  2 * Bxcan.bank st + Bxcan.ext_list_count st = m /\
  Bxcan.std_list_count st = 0 /\ Bxcan.std_mask_count st = 0.

End Template.
End BxcanUse.

(** ** bxCAN: what an image accepts *)

Module BxcanAccept.

(** The standard identifiers a line of [debug_print] names: the four of a
    16-bit list bank, the two ranges of a 16-bit mask bank. *)
Definition shows_std (v : BxcanDebug.bank_view) (x : Z) : Prop :=
  match v with
  | BxcanDebug.Std_list id1 id2 id3 id4 => x = id1 \/ x = id2 \/ x = id3 \/ x = id4
  | BxcanDebug.Std_mask base1 end1 base2 end2 =>
      base1 <= x <= end1 \/ base2 <= x <= end2
  | _ => False
  end.

(** The extended identifiers a line names: the two of a 32-bit list bank, the
    range of a 32-bit mask bank. *)
Definition shows_ext (v : BxcanDebug.bank_view) (x : Z) : Prop :=
  match v with
  | BxcanDebug.Ext_list id1 id2 => x = id1 \/ x = id2
  | BxcanDebug.Ext_mask begin1 end1 => begin1 <= x <= end1
  | _ => False
  end.

(** The identifiers a call asks for. *)
Definition asks_std (c : Bxcan.call) (x : Z) : Prop :=
  match c with
  | Bxcan.Add_std_id id => x = id
  | Bxcan.Add_std_range b e => Z.min b e <= x <= Z.max b e
  | _ => False
  end.

Definition asks_ext (c : Bxcan.call) (x : Z) : Prop :=
  match c with
  | Bxcan.Add_ext_id id => x = id
  | Bxcan.Add_ext_range b e => Z.min b e <= x <= Z.max b e
  | _ => False
  end.

(** The arguments of a call are [uint32_t] values. *)
Definition typed (c : Bxcan.call) : Prop :=
  match c with
  | Bxcan.Add_std_id id | Bxcan.Add_ext_id id => 0 <= id < 2 ^ 32
  | Bxcan.Add_std_range b e | Bxcan.Add_ext_range b e =>
      0 <= b < 2 ^ 32 /\ 0 <= e < 2 ^ 32
  | Bxcan.End_ => True
  end.

Section Template.
Variable max_banks : Z.
Variable dev_val : Z.

(** The identifiers named by some line of [debug_print]. *)
Definition accepted_std (hw : Bxcan.hw_t) (x : Z) : Prop :=
  exists i v, In (i, v) (BxcanDebug.debug_print max_banks hw) /\ shows_std v x.

Definition accepted_ext (hw : Bxcan.hw_t) (x : Z) : Prop :=
  exists i v, In (i, v) (BxcanDebug.debug_print max_banks hw) /\ shows_ext v x.

(** Every call of the list returns [CANFILTER_SUCCESS]. *)
Fixpoint all_succeed (st : Bxcan.t) (calls : list Bxcan.call) : Prop :=
  match calls with
  | [] => True
  | c :: rest =>
      fst (Bxcan.do_call max_banks st c) = CANFILTER_SUCCESS /\
      all_succeed (snd (Bxcan.do_call max_banks st c)) rest
  end.

(** The identifiers named by the banks emitted so far. *)
Definition banked (shows : BxcanDebug.bank_view -> Z -> Prop) (st : Bxcan.t) (x : Z)
  : Prop :=
  exists i v, 0 <= i < Bxcan.bank st /\
              BxcanDebug.debug_bank (Bxcan.hw_config st) i = Some v /\ shows v x.

(** The identifiers waiting in the accumulators. *)
Definition pending_std (st : Bxcan.t) (x : Z) : Prop :=
  In x (take (Z.to_nat (Bxcan.std_list_count st)) (Bxcan.std_list st)) \/
  exists m, In m (take (Z.to_nat (Bxcan.std_mask_count st)) (Bxcan.std_mask st)) /\
            Cidr.in_block max_std_id x (Bxcan.sm_id m, Bxcan.sm_mask m).

Definition pending_ext (st : Bxcan.t) (x : Z) : Prop :=
  In x (take (Z.to_nat (Bxcan.ext_list_count st)) (Bxcan.ext_list st)).

Definition held_std (st : Bxcan.t) (x : Z) : Prop :=
  banked shows_std st x \/ pending_std st x.

Definition held_ext (st : Bxcan.t) (x : Z) : Prop :=
  banked shows_ext st x \/ pending_ext st x.

(** The entries of a non-empty accumulator are identifiers of the space, and
    the mask pairs are aligned blocks. *)
Definition entries_ok (st : Bxcan.t) : Prop :=
  (0 < Bxcan.std_list_count st ->
   Forall (fun x => 0 <= x <= max_std_id) (Bxcan.std_list st)) /\
  (0 < Bxcan.std_mask_count st ->
   Forall (fun m => Cover.cidr_block 11 max_std_id (Bxcan.sm_id m, Bxcan.sm_mask m))
          (Bxcan.std_mask st)) /\
  (0 < Bxcan.ext_list_count st ->
   Forall (fun x => 0 <= x <= max_ext_id) (Bxcan.ext_list st)).

(** A builder in use, with all that the properties below rely on. *)
Definition wf (st : Bxcan.t) : Prop :=
  BxcanUse.image_ok max_banks dev_val st /\ BxcanUse.padded st /\ entries_ok st.

End Template.
End BxcanAccept.

(** ** FDCAN: the identifiers an image names *)

Module FdcanAccept.

(** The standard identifiers a line of [debug_print] names: the two of a
    [dual] element, those between the two of a [range] element, for an
    element that stores into FIFO 0. *)
Definition shows_std (v : FdcanDebug.std_view) (x : Z) : Prop :=
  FdcanDebug.sfec v = Fdcan.SFEC_RX_FIFO0 /\
  (FdcanDebug.sft v = Fdcan.SFT_DUAL /\
   (x = FdcanDebug.sfid1 v \/ x = FdcanDebug.sfid2 v) \/
   FdcanDebug.sft v = Fdcan.SFT_RANGE /\
   FdcanDebug.sfid1 v <= x <= FdcanDebug.sfid2 v).

Definition shows_ext (v : FdcanDebug.ext_view) (x : Z) : Prop :=
  FdcanDebug.efec v = Fdcan.EFEC_RX_FIFO0 /\
  (FdcanDebug.eft v = Fdcan.EFT_DUAL /\
   (x = FdcanDebug.efid1 v \/ x = FdcanDebug.efid2 v) \/
   FdcanDebug.eft v = Fdcan.EFT_RANGE /\
   FdcanDebug.efid1 v <= x <= FdcanDebug.efid2 v).

(** The identifiers a call asks for. *)
Definition asks_std (c : FdcanUse.call) (x : Z) : Prop :=
  match c with
  | FdcanUse.Add_std_id id => x = id
  | FdcanUse.Add_std_range b e => Z.min b e <= x <= Z.max b e
  | _ => False
  end.

Definition asks_ext (c : FdcanUse.call) (x : Z) : Prop :=
  match c with
  | FdcanUse.Add_ext_id id => x = id
  | FdcanUse.Add_ext_range b e => Z.min b e <= x <= Z.max b e
  | _ => False
  end.

(** The arguments of a call are [uint32_t] values. *)
Definition typed (c : FdcanUse.call) : Prop :=
  match c with
  | FdcanUse.Add_std_id id | FdcanUse.Add_ext_id id => 0 <= id < 2 ^ 32
  | FdcanUse.Add_std_range b e | FdcanUse.Add_ext_range b e =>
      0 <= b < 2 ^ 32 /\ 0 <= e < 2 ^ 32
  | FdcanUse.End_ => True
  end.

Section Template.
Variable max_std_filter : Z.
Variable max_ext_filter : Z.
Variable dev_val : Z.

(** The identifiers named by some line of [debug_print]. *)
Definition accepted_std (hw : Fdcan.hw_t) (x : Z) : Prop :=
  exists v, In v (fst (FdcanDebug.debug_print hw)) /\ shows_std v x.

Definition accepted_ext (hw : Fdcan.hw_t) (x : Z) : Prop :=
  exists v, In v (snd (FdcanDebug.debug_print hw)) /\ shows_ext v x.

(** Every call of the list returns [CANFILTER_SUCCESS]. *)
Fixpoint all_succeed (st : Fdcan.t) (calls : list FdcanUse.call) : Prop :=
  match calls with
  | [] => True
  | c :: rest =>
      fst (FdcanUse.do_call max_std_filter max_ext_filter st c) = CANFILTER_SUCCESS /\
      all_succeed (snd (FdcanUse.do_call max_std_filter max_ext_filter st c)) rest
  end.

(** The identifiers named by the elements emitted so far. *)
Definition banked_std (st : Fdcan.t) (x : Z) : Prop :=
  exists i : nat, Z.of_nat i < Fdcan.std_filter_nbr (Fdcan.hw_config st) /\
                  shows_std (FdcanDebug.debug_std (Fdcan.hw_config st) i) x.

Definition banked_ext (st : Fdcan.t) (x : Z) : Prop :=
  exists i : nat, Z.of_nat i < Fdcan.ext_filter_nbr (Fdcan.hw_config st) /\
                  shows_ext (FdcanDebug.debug_ext (Fdcan.hw_config st) i) x.

(** The identifiers waiting in the accumulators. *)
Definition pending_std (st : Fdcan.t) (x : Z) : Prop :=
  In x (take (Z.to_nat (Fdcan.std_id_count st)) (Fdcan.std_id st)).

Definition pending_ext (st : Fdcan.t) (x : Z) : Prop :=
  In x (take (Z.to_nat (Fdcan.ext_id_count st)) (Fdcan.ext_id st)).

Definition held_std (st : Fdcan.t) (x : Z) : Prop :=
  banked_std st x \/ pending_std st x.

Definition held_ext (st : Fdcan.t) (x : Z) : Prop :=
  banked_ext st x \/ pending_ext st x.

(** A builder in use whose pending identifiers are not negative. *)
Definition wf (st : Fdcan.t) : Prop :=
  FdcanUse.invariant max_std_filter max_ext_filter dev_val st /\
  (0 < Fdcan.std_id_count st -> Forall (fun x => 0 <= x) (Fdcan.std_id st)) /\
  (0 < Fdcan.ext_id_count st -> Forall (fun x => 0 <= x) (Fdcan.ext_id st)).

End Template.
End FdcanAccept.

(** ** The parser on several texts, and what it dispatches *)

Section Parse_args.
Context {St Img : Type}.
Variable ops : canfilter St Img.

(** [bool canfilter::parse(const std::vector<std::string> &args)] *)
Fixpoint parse_args (st : St) (args : list string) : bool * St :=
  match args with
  | [] => (true, st)
  | arg :: rest =>
      let '(ok, st) := parse ops st arg in
      if negb ok then (false, st) else parse_args st rest
  end.

(** The error codes of the calls replayed one after the other. *)
Fixpoint dispatch_errors (st : St) (ds : list directive)
  : list canfilter_error_t :=
  match ds with
  | [] => []
  | d :: rest => dispatch_error ops st d :: dispatch_errors (dispatch ops st d) rest
  end.

End Parse_args.

(** What the vector overload makes of its arguments: its result and the calls
    it dispatches. *)
Definition args_directives (args : list string) : bool * list directive :=
  parse_args recorder [] args.

(** The call of the bxCAN or FDCAN interface a directive stands for. *)
Definition bxcan_call (d : directive) : Bxcan.call :=
  match d with
  | Std_id id => Bxcan.Add_std_id id
  | Ext_id id => Bxcan.Add_ext_id id
  | Std_range b e => Bxcan.Add_std_range b e
  | Ext_range b e => Bxcan.Add_ext_range b e
  end.

Definition fdcan_call (d : directive) : FdcanUse.call :=
  match d with
  | Std_id id => FdcanUse.Add_std_id id
  | Ext_id id => FdcanUse.Add_ext_id id
  | Std_range b e => FdcanUse.Add_std_range b e
  | Ext_range b e => FdcanUse.Add_ext_range b e
  end.

(** A call as [parse] classifies it: a standard call has all its values in
    the 11-bit space, an extended call has them in the 29-bit space and one
    of them outside the 11-bit space. *)
Definition classified (d : directive) : Prop :=
  match d with
  | Std_id id => 0 <= id <= max_std_id
  | Ext_id id => max_std_id < id <= max_ext_id
  | Std_range b e => 0 <= b <= max_std_id /\ 0 <= e <= max_std_id
  | Ext_range b e =>
      0 <= b <= max_ext_id /\ 0 <= e <= max_ext_id /\
      (max_std_id < b \/ max_std_id < e)
  end.

(** ** What the orchestrator ships *)

(** The first byte of an image. *)
Definition image_dev (image : hw_image) : Z :=
  match image with
  | Bxcan_image hw => Bxcan.dev hw
  | Fdcan_image hw => Fdcan.dev hw
  end.

(** [sizeof(hw_config)] of the class chosen for a filter identity. *)
Definition image_size (hw_filter : Z) : Z :=
  if hw_filter =? CANFILTER_DEV_BXCAN_F0 then 132
  else if hw_filter =? CANFILTER_DEV_BXCAN_F4 then 244
  else if hw_filter =? CANFILTER_DEV_FDCAN_G0 then 180
  else 1028.

(** ** The texts of the filter grammar *)

(** The filter-definition texts that are well formed: white space, then
    tokens separated by white space or commas, a token being a number or two
    numbers around a dash, a number being a C integer literal without sign.
    A comma may follow a token, not come before the first one: there [parse]
    expects a number. *)
Module Text.












End Text.

(** * Properties *)

(** ** Powers of two and alignment *)

Lemma u32_small (x : Z) : 0 <= x < 2 ^ 32 -> u32 x = x.
Proof. intros H. unfold u32. now apply Z.mod_small. Qed.

Lemma pow2_le_mono (a b : Z) : 0 <= a <= b -> 2 ^ a <= 2 ^ b.
Proof. intros. apply Z.pow_le_mono_r; lia. Qed.

Lemma pow2_pos (a : Z) : 0 <= a -> 0 < 2 ^ a.
Proof. intros. apply Z.pow_pos_nonneg; lia. Qed.

Lemma land_pow2_zero (a k : Z) :
  0 <= k -> (Z.land a (2 ^ k) =? 0) = negb (Z.testbit a k).
Proof.
  intros Hk. destruct (Z.testbit a k) eqn:E; simpl.
  - apply Z.eqb_neq. intros H0.
    assert (Z.testbit (Z.land a (2 ^ k)) k = true) as H1.
    { rewrite Z.land_spec, E, Z.pow2_bits_true by lia. reflexivity. }
    rewrite H0, Z.bits_0 in H1. discriminate.
  - apply Z.eqb_eq. apply Z.bits_inj'. intros n Hn.
    rewrite Z.land_spec, Z.bits_0, Z.pow2_bits_eqb by lia.
    destruct (Z.eqb_spec k n); subst; rewrite ?E; auto using andb_false_r.
Qed.

(** A multiple of [2^k] whose bit [k] is clear is a multiple of [2^(k+1)]. *)
Lemma aligned_next (a k : Z) :
  0 <= k -> a mod 2 ^ k = 0 -> Z.testbit a k = false -> a mod 2 ^ (k + 1) = 0.
Proof.
  intros Hk Ha Hb.
  rewrite <- Z.land_ones in * by lia.
  apply Z.bits_inj'. intros n Hn. rewrite Z.bits_0.
  rewrite Z.land_spec.
  destruct (Z.eq_dec n k) as [->|Hne]; [rewrite Hb; reflexivity|].
  destruct (Z_lt_dec n k).
  - assert (Z.testbit (Z.land a (Z.ones k)) n = false) as H1 by (rewrite Ha; apply Z.bits_0).
    rewrite Z.land_spec, (Z.ones_spec_low k n) in H1 by lia.
    rewrite andb_true_r in H1. rewrite H1. reflexivity.
  - rewrite Z.ones_spec_high by lia. apply andb_false_r.
Qed.

(** A number with bit [k] set is a multiple of no larger power of two. *)
Lemma bit_set_not_aligned (a k j : Z) :
  0 <= k < j -> Z.testbit a k = true -> a mod 2 ^ j <> 0.
Proof.
  intros Hk Hb H0.
  rewrite <- Z.land_ones in H0 by lia.
  assert (Z.testbit (Z.land a (Z.ones j)) k = true) as H1.
  { rewrite Z.land_spec, Hb, Z.ones_spec_low by lia. reflexivity. }
  rewrite H0, Z.bits_0 in H1. discriminate.
Qed.

Lemma aligned_weaken (a k j : Z) :
  0 <= j <= k -> a mod 2 ^ k = 0 -> a mod 2 ^ j = 0.
Proof.
  intros Hj Ha.
  apply Z.mod_divide in Ha; [|pose proof (pow2_pos k); lia].
  apply Z.mod_divide; [pose proof (pow2_pos j); lia|].
  destruct Ha as [q ->]. exists (q * 2 ^ (k - j)).
  rewrite <- Z.mul_assoc, <- Z.pow_add_r by lia. f_equal. f_equal. lia.
Qed.

(** ** What [largest_prefix] computes *)

Section Prefix_facts.
Variable W : Z.
Variable MAX : Z.
Hypothesis HW : 0 <= W <= 31.
Hypothesis HMAX : MAX = 2 ^ W - 1.

Lemma prefix_size_eq (p : Z) : 0 <= p <= W -> Cidr.prefix_size W p = 2 ^ (W - p).
Proof.
  intros Hp. unfold Cidr.prefix_size.
  rewrite Z.shiftl_1_l. apply u32_small.
  split; [pose proof (pow2_pos (W - p)); lia|].
  apply Z.pow_lt_mono_r; lia.
Qed.

Lemma prefix_shrink_spec (fuel : nat) (b p : Z) :
  0 <= p <= W -> (Z.to_nat p <= fuel)%nat -> b mod 2 ^ (W - p) = 0 ->
  let p' := Cidr.prefix_shrink W fuel b p in
  0 <= p' <= p /\ b mod 2 ^ (W - p') = 0 /\
  (p' = 0 \/ Z.testbit b (W - p') = true).
Proof.
  revert p. induction fuel as [|fuel IH]; intros p Hp Hf Ha; cbn [Cidr.prefix_shrink].
  - assert (p = 0) by lia. subst. cbn. auto with zarith.
  - destruct (Z.ltb_spec 0 p) as [Hpos|Hz].
    + fold (Cidr.prefix_size W p). rewrite prefix_size_eq by lia.
      rewrite land_pow2_zero, negb_involutive by lia.
      destruct (Z.testbit b (W - p)) eqn:E.
      * cbn. repeat split; auto; lia.
      * specialize (IH (p - 1)). cbn zeta in IH.
        destruct IH as (H1 & H2 & H3); [lia|lia| |].
        { replace (W - (p - 1)) with (W - p + 1) by lia.
          apply aligned_next; auto; lia. }
        repeat split; auto; lia.
    + assert (p = 0) by lia. subst. cbn. auto with zarith.
Qed.

Lemma prefix_grow_spec (fuel : nat) (b e p : Z) :
  0 <= p <= W -> (Z.to_nat (W - p) <= fuel)%nat -> 0 <= b <= MAX ->
  let p' := Cidr.prefix_grow W fuel b e p in
  p <= p' <= W /\
  (p' = W \/ b + 2 ^ (W - p') - 1 <= e) /\
  (forall q, p <= q < p' -> e < b + 2 ^ (W - q) - 1).
Proof.
  revert p. induction fuel as [|fuel IH]; intros p Hp Hf Hb; cbn [Cidr.prefix_grow].
  - assert (p = W) by lia. subst. cbn. repeat split; auto; lia.
  - destruct (Z.ltb_spec p W) as [Hlt|Hge].
    + fold (Cidr.prefix_size W p). rewrite prefix_size_eq by lia.
      assert (0 < 2 ^ (W - p) <= 2 ^ W) as Hsz.
      { split; [apply pow2_pos; lia|apply pow2_le_mono; lia]. }
      assert (2 ^ W + 2 ^ W <= 2 ^ 32) as Hbig.
      { replace (2 ^ W + 2 ^ W) with (2 ^ (W + 1)) by (rewrite Z.pow_add_r by lia; lia).
        apply pow2_le_mono; lia. }
      rewrite u32_small by lia.
      destruct (Z.ltb_spec e (b + 2 ^ (W - p) - 1)) as [Hgt|Hfit].
      * specialize (IH (p + 1)). cbn zeta in IH.
        destruct IH as (H1 & H2 & H3); [lia|lia|lia|].
        repeat split; auto; try lia.
        intros q Hq. destruct (Z.eq_dec q p) as [->|]; [lia|apply H3; lia].
      * cbn. repeat split; auto; lia.
    + assert (p = W) by lia. subst. cbn. repeat split; auto; lia.
Qed.

(** [largest_prefix] names the largest aligned block at [begin] that ends at
    or before [end]. *)
Lemma largest_prefix_spec (b e : Z) :
  0 <= b <= e -> e <= MAX ->
  let p := Cidr.largest_prefix W b e in
  0 <= p <= W /\ b mod 2 ^ (W - p) = 0 /\ b + 2 ^ (W - p) - 1 <= e /\
  (forall k, W - p < k <= W -> ~ (b mod 2 ^ k = 0 /\ b + 2 ^ k - 1 <= e)).
Proof.
  intros Hb He. unfold Cidr.largest_prefix. cbn zeta.
  pose proof (prefix_shrink_spec (Z.to_nat W) b W) as Hs. cbn zeta in Hs.
  destruct Hs as (Hs1 & Hs2 & Hs3); [lia|lia| |].
  { rewrite Z.sub_diag. apply Z.mod_1_r. }
  set (p1 := Cidr.prefix_shrink W (Z.to_nat W) b W) in *.
  pose proof (prefix_grow_spec (Z.to_nat W) b e p1) as Hg. cbn zeta in Hg.
  destruct Hg as (Hg1 & Hg2 & Hg3); [lia|lia|lia|].
  set (p := Cidr.prefix_grow W (Z.to_nat W) b e p1) in *.
  repeat split; try lia.
  - apply (aligned_weaken b (W - p1)); auto; lia.
  - destruct Hg2 as [->|]; [|lia]. rewrite Z.sub_diag. cbn. lia.
  - intros k Hk [Hal Hfit].
    destruct (Z_le_dec k (W - p1)) as [Hle|Hgt].
    + specialize (Hg3 (W - k)). replace (W - (W - k)) with k in Hg3 by lia. lia.
    + destruct Hs3 as [Hz|Hbit].
      * lia.
      * revert Hal. apply (bit_set_not_aligned b (W - p1)); auto; lia.
Qed.

Lemma largest_prefix_range (b e : Z) :
  0 <= Cidr.largest_prefix W b e <= W.
Proof.
  unfold Cidr.largest_prefix.
  assert (forall fuel p, 0 <= p <= W -> 0 <= Cidr.prefix_shrink W fuel b p <= W) as Hs.
  { induction fuel as [|fuel IH]; intros p Hp; cbn [Cidr.prefix_shrink]; [lia|].
    destruct (0 <? p) eqn:E; [|lia].
    apply Z.ltb_lt in E.
    destruct (negb _); [lia|apply IH; lia]. }
  assert (forall fuel p, 0 <= p <= W -> 0 <= Cidr.prefix_grow W fuel b e p <= W) as Hg.
  { induction fuel as [|fuel IH]; intros p Hp; cbn [Cidr.prefix_grow]; [lia|].
    destruct (p <? W) eqn:E; [|lia].
    apply Z.ltb_lt in E.
    destruct (_ <? _); [apply IH; lia|lia]. }
  apply Hg, Hs. lia.
Qed.

End Prefix_facts.

(** ** The blocks of the loop *)

Lemma aligned_step (a b j : Z) :
  0 <= j -> a mod 2 ^ j = 0 -> b mod 2 ^ j = 0 -> a < b -> a + 2 ^ j <= b.
Proof.
  intros Hj Ha Hb Hlt. pose proof (pow2_pos j Hj) as Hm.
  apply Z.mod_divide in Ha; [|lia]. apply Z.mod_divide in Hb; [|lia].
  destruct Ha as [qa ->], Hb as [qb ->].
  generalize dependent (2 ^ j). intros m Hm Hlt.
  assert (qa < qb) by nia. nia.
Qed.

Lemma aligned_add_pow2 (b k j : Z) :
  0 <= j <= k -> b mod 2 ^ k = 0 -> (b + 2 ^ k) mod 2 ^ j = 0.
Proof.
  intros Hj Hb. pose proof (pow2_pos j) as Hm.
  apply (aligned_weaken b k j) in Hb; [|lia].
  apply Z.mod_divide in Hb; [|lia]. destruct Hb as [q ->].
  apply Z.mod_divide; [lia|]. exists (q + 2 ^ (k - j)).
  rewrite Z.mul_add_distr_r, <- Z.pow_add_r by lia. do 2 f_equal. lia.
Qed.

Lemma filter_length_lt {A} (f : A -> bool) (l : list A) (x : A) :
  In x l -> f x = false -> (length (List.filter f l) < length l)%nat.
Proof.
  induction l as [|y l IH]; cbn; [tauto|].
  intros [->|Hin] Hf.
  - rewrite Hf. pose proof (List.filter_length_le f l). lia.
  - specialize (IH Hin Hf). destruct (f y); cbn; lia.
Qed.

Section Chain_facts.
Variable MAX : Z.

Lemma chain_le (lo next : Z) (blocks : list (Z * Z)) :
  Cover.chain MAX lo blocks next -> lo <= next.
Proof. induction 1; lia. Qed.

Lemma chain_covers (lo next : Z) (blocks : list (Z * Z)) :
  Cover.chain MAX lo blocks next ->
  forall x, (exists blk, In blk blocks /\ Cidr.in_block MAX x blk) <-> lo <= x < next.
Proof.
  induction 1 as [lo|lo blk rest next Hf Hl Hc IH]; intros x.
  - split; [intros (blk & [] & _)|lia].
  - pose proof (chain_le _ _ _ Hc) as Hle. split.
    + intros (b' & [<-|Hin] & Hx).
      * unfold Cidr.in_block in Hx. lia.
      * assert (Cidr.block_last MAX blk + 1 <= x < next) by (apply IH; eauto). lia.
    + intros Hx. destruct (Z_le_dec x (Cidr.block_last MAX blk)) as [Hin|Hout].
      * exists blk. split; [now left|]. unfold Cidr.in_block. lia.
      * destruct (proj2 (IH x)) as (b' & Hin' & Hx'); [lia|].
        exists b'. split; [now right|exact Hx'].
Qed.

Lemma chain_disjoint (lo next : Z) (blocks : list (Z * Z)) :
  Cover.chain MAX lo blocks next -> Cover.disjoint MAX blocks.
Proof.
  induction 1 as [lo|lo blk rest next Hf Hl Hc IH].
  - intros i j bi bj Hi. rewrite lookup_nil in Hi. discriminate.
  - assert (forall (n : nat) b' x, rest !! n = Some b' -> Cidr.in_block MAX x b' ->
                          ~ Cidr.in_block MAX x blk) as Hsep.
    { intros n b' x Hn Hx Hx0.
      assert (Cidr.block_last MAX blk + 1 <= x < next) as Hr.
      { apply (chain_covers _ _ _ Hc). exists b'. split; [|exact Hx].
        apply list_elem_of_In. eapply list_elem_of_lookup_2; eauto. }
      unfold Cidr.in_block in Hx0. lia. }
    intros [|i] [|j] bi bj Hi Hj Hne x [Hxi Hxj]; cbn in Hi, Hj.
    + congruence.
    + injection Hi as <-. eapply Hsep; eauto.
    + injection Hj as <-. eapply Hsep; eauto.
    + eapply (IH i j); eauto.
Qed.

End Chain_facts.

Section Cover_facts.
Variable W : Z.
Variable MAX : Z.
Hypothesis HW : 0 <= W <= 31.
Hypothesis HMAX : MAX = 2 ^ W - 1.

Lemma MAX_ones : MAX = Z.ones W.
Proof. rewrite Z.ones_equiv. lia. Qed.

Lemma prefix_mask_range (p : Z) : 0 <= Cidr.prefix_mask W MAX p <= MAX.
Proof.
  unfold Cidr.prefix_mask. pose proof (pow2_pos W).
  split; [apply Z.land_nonneg; lia|].
  rewrite MAX_ones, Z.land_ones by lia.
  rewrite Z.ones_equiv. pose proof (Z.mod_pos_bound (u32 (Z.shiftl 0xFFFFFFFF (W - p))) (2 ^ W)).
  lia.
Qed.

(** The mask is full for a block of one identifier only: the test
    [mask == MAX] of the loop is the test [prefix == W]. *)
Lemma prefix_mask_full (p : Z) :
  0 <= p <= W -> (Cidr.prefix_mask W MAX p =? MAX) = (p =? W).
Proof.
  intros Hp. unfold Cidr.prefix_mask, u32. rewrite MAX_ones.
  change 0xFFFFFFFF with (Z.ones 32). rewrite <- Z.land_ones by lia.
  destruct (Z.eqb_spec p W) as [->|Hne].
  - apply Z.eqb_eq. rewrite Z.sub_diag. Z.bitblast.
  - apply Z.eqb_neq. intros Heq.
    assert (Z.testbit (Z.ones W) 0 = true) as H1 by (apply Z.ones_spec_low; lia).
    rewrite <- Heq in H1. revert H1.
    rewrite !Z.land_spec, Z.shiftl_spec_low by lia. discriminate.
Qed.

(** The block a prefix mask decodes to. *)
Lemma block_last_eq (b p : Z) :
  0 <= p <= W -> 0 <= b <= MAX -> b mod 2 ^ (W - p) = 0 ->
  Cidr.block_last MAX (b, Cidr.prefix_mask W MAX p) = b + 2 ^ (W - p) - 1.
Proof.
  intros Hp Hb Hal. unfold Cidr.block_last, Cidr.prefix_mask, u32. cbn [fst snd].
  rewrite MAX_ones. change 0xFFFFFFFF with (Z.ones 32).
  rewrite <- !Z.land_ones by lia.
  assert (b = Z.land b (Z.ones W)) as Hbw.
  { rewrite Z.land_ones by lia. symmetry. apply Z.mod_small. lia. }
  assert (Z.land b (Z.ones (W - p)) = 0) as Hlow.
  { rewrite Z.land_ones by lia. exact Hal. }
  transitivity (Z.lor b (Z.ones (W - p))).
  - rewrite Hbw. Z.bitblast.
  - rewrite <- Z.lxor_lor by exact Hlow.
    rewrite <- Z.add_nocarry_lxor by exact Hlow.
    rewrite Z.ones_equiv. lia.
Qed.

Lemma cidr_block_bounds (blk : Z * Z) :
  Cover.cidr_block W MAX blk ->
  exists k, 0 <= k <= W /\ fst blk mod 2 ^ k = 0 /\ 0 <= fst blk /\
            Cidr.block_first blk = fst blk /\
            Cidr.block_last MAX blk = fst blk + 2 ^ k - 1.
Proof.
  destruct blk as [b m]. intros (p & Hp & Hm & Hb & Hal). cbn [fst snd] in *.
  exists (W - p). subst m. rewrite block_last_eq by auto.
  repeat split; auto; lia.
Qed.

(** The blocks of the loop tile [begin .. end] from left to right. *)
Lemma range_blocks_chain (fuel : nat) (b e : Z) :
  0 <= b -> e <= MAX -> (Z.to_nat (e + 1 - b) <= fuel)%nat ->
  Cover.chain MAX b (Cidr.range_blocks W MAX fuel b e) (Z.max b (e + 1)) /\
  Forall (Cover.cidr_block W MAX) (Cidr.range_blocks W MAX fuel b e).
Proof.
  revert b. induction fuel as [|fuel IH]; intros b Hb He Hf; cbn [Cidr.range_blocks].
  - replace (Z.max b (e + 1)) with b by lia. split; constructor.
  - destruct (Z.leb_spec b e) as [Hle|Hgt].
    + cbn zeta.
      pose proof (largest_prefix_spec W MAX HW HMAX b e) as Hs. cbn zeta in Hs.
      destruct Hs as (Hp & Hal & Hfit & _); [lia|lia|].
      set (p := Cidr.largest_prefix W b e) in *.
      rewrite prefix_size_eq by auto.
      assert (0 < 2 ^ (W - p)) as Hsz by (apply pow2_pos; lia).
      assert (2 ^ W <= 2 ^ 31) as Hbig by (apply pow2_le_mono; lia).
      rewrite u32_small by lia.
      destruct (IH (b + 2 ^ (W - p))) as [IH1 IH2]; [lia|lia|lia|].
      split.
      * apply Cover.chain_cons.
        -- reflexivity.
        -- rewrite block_last_eq by (auto; lia). lia.
        -- rewrite block_last_eq by (auto; lia).
           replace (b + 2 ^ (W - p) - 1 + 1) with (b + 2 ^ (W - p)) by lia.
           replace (Z.max b (e + 1)) with (Z.max (b + 2 ^ (W - p)) (e + 1)) by lia.
           exact IH1.
      * constructor; [|exact IH2].
        exists p. cbn [fst snd]. repeat split; auto; lia.
    + replace (Z.max b (e + 1)) with b by lia. split; constructor.
Qed.

(** The greedy cover is a shortest cover, given rounds enough. *)
Lemma range_blocks_minimal (fuel : nat) (b e : Z) (L : list (Z * Z)) :
  0 <= b -> e <= MAX -> (Z.to_nat (e + 1 - b) <= fuel)%nat ->
  Forall (Cover.cidr_block W MAX) L -> Cover.covers MAX L b e ->
  (length (Cidr.range_blocks W MAX fuel b e) <= length L)%nat.
Proof.
  revert b L. induction fuel as [|fuel IH]; intros b L Hb He Hf HL Hcov;
    cbn [Cidr.range_blocks]; [cbn; lia|].
  destruct (Z.leb_spec b e) as [Hle|Hgt]; [|cbn; lia].
  cbn zeta.
  pose proof (largest_prefix_spec W MAX HW HMAX b e) as Hs. cbn zeta in Hs.
  destruct Hs as (Hp & Hal & Hfit & Hmax); [lia|lia|].
  set (p := Cidr.largest_prefix W b e) in *.
  rewrite prefix_size_eq by auto.
  assert (0 < 2 ^ (W - p)) as Hsz by (apply pow2_pos; lia).
  assert (2 ^ W <= 2 ^ 31) as Hbig by (apply pow2_le_mono; lia).
  rewrite u32_small by lia.
  set (s := 2 ^ (W - p)) in *.
  set (L' := List.filter (fun blk => b + s - 1 <? fst blk) L).
  assert (Hin : forall blk, In blk L ->
            exists k, 0 <= k <= W /\ fst blk mod 2 ^ k = 0 /\
                      b <= fst blk /\ fst blk + 2 ^ k - 1 <= e /\
                      (forall x, Cidr.in_block MAX x blk <-> fst blk <= x <= fst blk + 2 ^ k - 1)).
  { intros blk Hblk. rewrite Forall_forall in HL.
    destruct (cidr_block_bounds blk (HL blk (proj2 (list_elem_of_In _ _) Hblk)))
      as (k & Hk & Hka & Hk0 & Hkf & Hkl).
    assert (0 < 2 ^ k) by (apply pow2_pos; lia).
    assert (forall x, Cidr.in_block MAX x blk <-> fst blk <= x <= fst blk + 2 ^ k - 1) as Hx.
    { intros x. unfold Cidr.in_block. rewrite Hkf, Hkl. tauto. }
    assert (b <= fst blk <= e) as H1.
    { apply Hcov. exists blk. split; [auto|]. apply Hx. lia. }
    assert (b <= fst blk + 2 ^ k - 1 <= e) as H2.
    { apply Hcov. exists blk. split; [auto|]. apply Hx. lia. }
    exists k. split; [lia|]. split; [assumption|]. split; [lia|].
    split; [lia|exact Hx]. }
  assert (Hlt : (length L' < length L)%nat).
  { destruct (proj2 (Hcov b)) as (blk0 & Hin0 & Hx0); [lia|].
    apply (filter_length_lt _ L blk0 Hin0).
    destruct (Hin blk0 Hin0) as (k & _ & _ & _ & _ & Hx).
    apply Hx in Hx0. apply Z.ltb_ge. lia. }
  assert (Hcov' : Cover.covers MAX L' (b + s) e).
  { intros x. split.
    - intros (blk & Hblk & Hx). apply List.filter_In in Hblk. destruct Hblk as [Hblk Hr].
      apply Z.ltb_lt in Hr.
      destruct (Hin blk Hblk) as (k & _ & _ & _ & Hke & Hxk). apply Hxk in Hx. lia.
    - intros Hx. destruct (proj2 (Hcov x)) as (blk & Hblk & Hxb); [lia|].
      exists blk. split; [|exact Hxb].
      apply List.filter_In. split; [exact Hblk|]. apply Z.ltb_lt.
      destruct (Hin blk Hblk) as (k & Hk & Hka & Hkb & Hke & Hxk). apply Hxk in Hxb.
      destruct (Z_lt_dec (b + s - 1) (fst blk)) as [|Hn]; [assumption|exfalso].
      destruct (Z_le_dec k (W - p)) as [Hjk|Hjk].
      + assert (fst blk + 2 ^ k <= b + s); [|lia].
        apply aligned_step; [lia|assumption| |lia].
        apply aligned_add_pow2; [lia|assumption].
      + assert (fst blk = b) as Heq.
        { destruct (Z.eq_dec (fst blk) b) as [|Hne]; [assumption|exfalso].
          assert (b + s <= fst blk); [|lia].
          apply aligned_step; [lia|assumption| |lia].
          apply (aligned_weaken _ k); [lia|assumption]. }
        apply (Hmax k); [lia|]. rewrite <- Heq. split; [assumption|lia]. }
  assert (HL' : Forall (Cover.cidr_block W MAX) L').
  { rewrite Forall_forall in *. intros blk Hblk. apply HL.
    apply list_elem_of_In. apply list_elem_of_In in Hblk.
    apply List.filter_In in Hblk. tauto. }
  specialize (IH (b + s) L'). cbn [length].
  assert (length (Cidr.range_blocks W MAX fuel (b + s) e) <= length L')%nat; [|lia].
  apply IH; auto; lia.
Qed.

End Cover_facts.

Section Fuel.
Variable W : Z.
Variable MAX : Z.
Hypothesis HW : 0 <= W <= 31.
Hypothesis HMAX : MAX = 2 ^ W - 1.

(** Rounds beyond [end - begin + 1] are never used. *)
Lemma range_blocks_fuel (fuel1 fuel2 : nat) (b e : Z) :
  0 <= b -> e <= MAX ->
  (Z.to_nat (e + 1 - b) <= fuel1)%nat -> (Z.to_nat (e + 1 - b) <= fuel2)%nat ->
  Cidr.range_blocks W MAX fuel1 b e = Cidr.range_blocks W MAX fuel2 b e.
Proof.
  revert fuel2 b.
  induction fuel1 as [|fuel1 IH]; intros fuel2 b Hb He H1 H2.
  - destruct fuel2 as [|fuel2]; [reflexivity|]. cbn [Cidr.range_blocks].
    destruct (Z.leb_spec b e); [lia|reflexivity].
  - cbn [Cidr.range_blocks]. destruct (Z.leb_spec b e) as [Hle|Hgt].
    + destruct fuel2 as [|fuel2]; [lia|]. cbn [Cidr.range_blocks].
      destruct (Z.leb_spec b e); [|lia]. cbn zeta. f_equal.
      pose proof (largest_prefix_range W HW b e) as Hp.
      rewrite (prefix_size_eq W HW) by assumption.
      assert (0 < 2 ^ (W - Cidr.largest_prefix W b e)) by (apply pow2_pos; lia).
      assert (2 ^ (W - Cidr.largest_prefix W b e) <= 2 ^ W) by (apply pow2_le_mono; lia).
      assert (2 ^ W <= 2 ^ 31) by (apply pow2_le_mono; lia).
      rewrite u32_small by lia.
      apply IH; lia.
    + destruct fuel2 as [|fuel2]; [reflexivity|]. cbn [Cidr.range_blocks].
      destruct (Z.leb_spec b e); [lia|reflexivity].
Qed.

End Fuel.

(** ** The loop makes at most [2 * W + 1] rounds *)

(** Adding [2^k] to an odd multiple of [2^k] gives a multiple of [2^(k+1)]. *)
Lemma aligned_carry (a k : Z) :
  0 <= k -> a mod 2 ^ k = 0 -> Z.testbit a k = true -> (a + 2 ^ k) mod 2 ^ (k + 1) = 0.
Proof.
  intros Hk Ha Hb. pose proof (pow2_pos k Hk) as Hm.
  apply Z.mod_divide in Ha; [|lia]. destruct Ha as [q ->].
  rewrite Z.mul_pow2_bits, Z.sub_diag, Z.bit0_odd in Hb by lia.
  apply Z.odd_spec in Hb. destruct Hb as [r ->].
  apply Z.mod_divide; [pose proof (pow2_pos (k + 1)); lia|].
  exists (r + 1). rewrite Z.pow_add_r by lia. change (2 ^ 1) with 2. ring.
Qed.

Section Rounds.
Variable W : Z.
Variable MAX : Z.
Hypothesis HW : 0 <= W <= 31.
Hypothesis HMAX : MAX = 2 ^ W - 1.

Lemma alignment_spec (b : Z) :
  0 <= Cidr.alignment W b <= W /\ b mod 2 ^ Cidr.alignment W b = 0 /\
  (Cidr.alignment W b = W \/ Z.testbit b (Cidr.alignment W b) = true).
Proof.
  unfold Cidr.alignment.
  pose proof (prefix_shrink_spec W HW (Z.to_nat W) b W) as Hs. cbn zeta in Hs.
  destruct Hs as (H1 & H2 & H3); [lia|lia|rewrite Z.sub_diag; apply Z.mod_1_r|].
  set (p := Cidr.prefix_shrink W (Z.to_nat W) b W) in *.
  split; [lia|]. split; [exact H2|].
  destruct H3 as [H3|H3]; [left; lia|right; exact H3].
Qed.

Lemma aligned_iff (b j : Z) :
  0 <= j <= W -> (b mod 2 ^ j = 0 <-> j <= Cidr.alignment W b).
Proof.
  intros Hj. destruct (alignment_spec b) as (Ht & Hal & Hbit). split.
  - intros H. destruct (Z_le_dec j (Cidr.alignment W b)) as [|Hgt]; [assumption|exfalso].
    destruct Hbit as [Hfull|Hbit]; [lia|].
    revert H. apply (bit_set_not_aligned b (Cidr.alignment W b)); [lia|exact Hbit].
  - intros H. apply (aligned_weaken b (Cidr.alignment W b)); [lia|exact Hal].
Qed.

Lemma pow2_le_iff (j n : Z) : 0 <= j -> 0 < n -> (2 ^ j <= n <-> j <= Z.log2 n).
Proof.
  intros Hj Hn. split.
  - intros H. apply Z.log2_le_pow2; assumption.
  - intros H. apply Z.log2_le_pow2; assumption.
Qed.

(** The block of a round is as large as alignment and room allow. *)
Lemma block_exponent (b e : Z) :
  0 <= b <= e -> e <= MAX ->
  W - Cidr.largest_prefix W b e = Z.min (Cidr.alignment W b) (Z.log2 (e + 1 - b)).
Proof.
  intros Hb He.
  pose proof (largest_prefix_spec W MAX HW HMAX b e) as Hs. cbn zeta in Hs.
  destruct Hs as (Hp & Hal & Hfit & Hmax); [lia|lia|].
  set (k := W - Cidr.largest_prefix W b e) in *.
  destruct (alignment_spec b) as (Ht & _ & _).
  assert (0 < 2 ^ k) by (apply pow2_pos; lia).
  assert (k <= Cidr.alignment W b) by (apply aligned_iff; [lia|exact Hal]).
  assert (k <= Z.log2 (e + 1 - b)) by (apply pow2_le_iff; lia).
  assert (Z.log2 (e + 1 - b) <= W) as HL.
  { assert (Z.log2 (e + 1 - b) <= Z.log2 (2 ^ W)) by (apply Z.log2_le_mono; lia).
    rewrite Z.log2_pow2 in * by lia. assumption. }
  destruct (Z_le_dec (Z.min (Cidr.alignment W b) (Z.log2 (e + 1 - b))) k); [lia|exfalso].
  set (m := Z.min (Cidr.alignment W b) (Z.log2 (e + 1 - b))) in *.
  apply (Hmax m); [lia|]. split.
  - apply aligned_iff; lia.
  - assert (2 ^ m <= e + 1 - b) by (apply pow2_le_iff; lia). lia.
Qed.

Lemma rounds_bound_range (b e : Z) :
  0 <= b <= e -> e <= MAX -> 1 <= Cidr.rounds_bound W b e <= 2 * W + 1.
Proof.
  intros Hb He. unfold Cidr.rounds_bound. cbn zeta.
  destruct (alignment_spec b) as (Ht & _ & _).
  pose proof (Z.log2_nonneg (e + 1 - b)).
  assert (Z.log2 (e + 1 - b) <= W).
  { assert (Z.log2 (e + 1 - b) <= Z.log2 (2 ^ W)) by (apply Z.log2_le_mono; lia).
    rewrite Z.log2_pow2 in * by lia. assumption. }
  lia.
Qed.

(** Every round lowers the bound. *)
Lemma rounds_bound_step (b e : Z) :
  0 <= b <= e -> e <= MAX ->
  let b' := b + 2 ^ (W - Cidr.largest_prefix W b e) in
  b' <= e -> Cidr.rounds_bound W b' e <= Cidr.rounds_bound W b e - 1.
Proof.
  intros Hb He b' Hb'. subst b'.
  rewrite (block_exponent b e Hb He) in *.
  unfold Cidr.rounds_bound. cbn zeta.
  destruct (alignment_spec b) as (Ht & Hal & Hbit).
  set (t := Cidr.alignment W b) in *. set (l := Z.log2 (e + 1 - b)) in *.
  set (k := Z.min t l) in *.
  assert (0 <= l) by apply Z.log2_nonneg.
  assert (0 < 2 ^ k) by (apply pow2_pos; lia).
  set (b' := b + 2 ^ k) in *.
  destruct (alignment_spec b') as (Ht' & _ & _).
  set (t' := Cidr.alignment W b') in *. set (l' := Z.log2 (e + 1 - b')) in *.
  assert (0 <= l') by apply Z.log2_nonneg.
  assert (l <= W).
  { assert (l <= Z.log2 (2 ^ W)) by (apply Z.log2_le_mono; lia).
    rewrite Z.log2_pow2 in * by lia. assumption. }
  assert (l' <= l) by (apply Z.log2_le_mono; lia).
  destruct (Z_lt_dec t l) as [Hlt|Hge].
  - (* the alignment limits the block *)
    assert (k = t) as Hk by lia.
    assert (t + 1 <= t').
    { apply (aligned_iff b' (t + 1)); [lia|]. subst b'. rewrite Hk.
      apply aligned_carry; [lia|exact Hal|].
      destruct Hbit as [|Hbit]; [lia|exact Hbit]. }
    lia.
  - (* the room limits the block *)
    assert (k = l) as Hk by lia.
    assert (l' < l).
    { apply Z.log2_lt_pow2; [lia|].
      assert (e + 1 - b < 2 ^ (l + 1)).
      { apply Z.log2_lt_pow2; lia. }
      rewrite Z.pow_add_r in * by lia. change (2 ^ 1) with 2 in *.
      subst b'. rewrite Hk. lia. }
    assert (l <= t').
    { apply (aligned_iff b' l); [lia|]. subst b'. rewrite Hk.
      apply (aligned_add_pow2 b l l); [lia|].
      apply (aligned_weaken b t); [lia|exact Hal]. }
    lia.
Qed.

(** [2 * W + 1] rounds are enough. *)
Lemma range_blocks_rounds (fuel : nat) (b e : Z) :
  0 <= b -> e <= MAX -> (b <= e -> Cidr.rounds_bound W b e <= Z.of_nat fuel) ->
  Cidr.range_blocks W MAX fuel b e
  = Cidr.range_blocks W MAX (Z.to_nat (e + 1 - b)) b e.
Proof.
  revert b. induction fuel as [|fuel IH]; intros b Hb He Hf.
  - destruct (Z_le_dec b e) as [Hle|Hgt].
    + pose proof (rounds_bound_range b e). specialize (Hf Hle). lia.
    + replace (Z.to_nat (e + 1 - b)) with 0%nat by lia. reflexivity.
  - destruct (Z_le_dec b e) as [Hle|Hgt].
    + replace (Z.to_nat (e + 1 - b)) with (S (Z.to_nat (e - b))) by lia.
      cbn [Cidr.range_blocks]. destruct (Z.leb_spec b e); [|lia]. cbn zeta. f_equal.
      pose proof (largest_prefix_range W HW b e) as Hp.
      rewrite (prefix_size_eq W HW) by assumption.
      assert (0 < 2 ^ (W - Cidr.largest_prefix W b e)) by (apply pow2_pos; lia).
      assert (2 ^ (W - Cidr.largest_prefix W b e) <= 2 ^ W) by (apply pow2_le_mono; lia).
      assert (2 ^ W <= 2 ^ 31) by (apply pow2_le_mono; lia).
      rewrite u32_small by lia.
      rewrite IH; [|lia|lia|].
      * apply (range_blocks_fuel W MAX HW HMAX); lia.
      * intros Hle'. pose proof (rounds_bound_step b e ltac:(lia) He Hle'). 
        specialize (Hf Hle). lia.
    + replace (Z.to_nat (e + 1 - b)) with 0%nat by lia.
      cbn [Cidr.range_blocks]. destruct (Z.leb_spec b e); [lia|reflexivity].
Qed.

Lemma range_blocks_constant_fuel (b e : Z) :
  0 <= b -> e <= MAX ->
  Cidr.range_blocks W MAX (Cidr.range_fuel W) b e
  = Cidr.range_blocks W MAX (Z.to_nat (e + 1 - b)) b e.
Proof.
  intros Hb He. apply range_blocks_rounds; try assumption.
  intros Hle. pose proof (rounds_bound_range b e). unfold Cidr.range_fuel. lia.
Qed.

(** Exact cover and disjointness of the loop's blocks. *)
Lemma range_blocks_cover (b e : Z) :
  0 <= b <= e -> e <= MAX ->
  let blocks := Cidr.range_blocks W MAX (Cidr.range_fuel W) b e in
  Cover.covers MAX blocks b e /\ Cover.disjoint MAX blocks.
Proof.
  intros Hb He blocks. subst blocks.
  rewrite range_blocks_constant_fuel by lia.
  destruct (range_blocks_chain W MAX HW HMAX (Z.to_nat (e + 1 - b)) b e)
    as [Hc _]; [lia|lia|lia|].
  replace (Z.max b (e + 1)) with (e + 1) in Hc by lia.
  split; [|eapply chain_disjoint; eauto].
  intros x. rewrite (chain_covers MAX _ _ _ Hc x). lia.
Qed.

Lemma range_blocks_cidr (b e : Z) :
  0 <= b -> e <= MAX ->
  Forall (Cover.cidr_block W MAX) (Cidr.range_blocks W MAX (Cidr.range_fuel W) b e).
Proof.
  intros Hb He. rewrite range_blocks_constant_fuel by lia.
  apply (range_blocks_chain W MAX HW HMAX); lia.
Qed.

Lemma range_blocks_shortest (b e : Z) (L : list (Z * Z)) :
  0 <= b -> e <= MAX ->
  Forall (Cover.cidr_block W MAX) L -> Cover.covers MAX L b e ->
  (length (Cidr.range_blocks W MAX (Cidr.range_fuel W) b e) <= length L)%nat.
Proof.
  intros Hb He HL Hcov. rewrite range_blocks_constant_fuel by lia.
  apply (range_blocks_minimal W MAX HW HMAX); auto.
Qed.

End Rounds.

(** ** The text bounds the rounds of [parse] *)

Lemma skip_space_length (s : list ascii) : (length (skip_space s) <= length s)%nat.
Proof.
  induction s as [|c s IH]; cbn; [lia|]. destruct (isspace c); cbn; lia.
Qed.

Lemma skip_sep_length (s : list ascii) : (length (skip_sep s) <= length s)%nat.
Proof.
  induction s as [|c s IH]; cbn; [lia|]. destruct (_ || _); cbn; lia.
Qed.

Lemma parse_number_length (s : list ascii) (v : Z) (s' : list ascii) :
  parse_number s = Some (v, s') -> (length s' < length s)%nat.
Proof.
  unfold parse_number. destruct s as [|c s]; [cbn; discriminate|].
  destruct (strtoul (c :: s)) as [[x n] er].
  destruct (Nat.eqb_spec n 0) as [->|Hn]; cbn [orb]; [discriminate|].
  destruct er; [discriminate|]. intros [= <- <-].
  rewrite length_drop. cbn [length]. lia.
Qed.

(** The length of the text is rounds enough for the loop of [parse]. *)
Section Parse_fuel.
Context {St Img : Type}.
Variable ops : canfilter St Img.

Lemma parse_loop_fuel (fuel1 fuel2 : nat) (st : St) (s : list ascii) :
  (length s <= fuel1)%nat -> (length s <= fuel2)%nat ->
  parse_loop ops fuel1 st s = parse_loop ops fuel2 st s.
Proof.
  revert fuel2 st s. induction fuel1 as [|fuel1 IH]; intros fuel2 st s H1 H2.
  - destruct s; [|cbn in H1; lia]. destruct fuel2; reflexivity.
  - destruct fuel2 as [|fuel2]; [destruct s; [reflexivity|cbn in H2; lia]|].
    cbn [parse_loop].
    destruct s as [|c0 s0]; [reflexivity|].
    pose proof (skip_space_length (c0 :: s0)) as L1.
    destruct (skip_space (c0 :: s0)) as [|c1 s1]; [reflexivity|].
    destruct (parse_number (c1 :: s1)) as [[id1 s2]|] eqn:E1; [|reflexivity].
    apply parse_number_length in E1.
    pose proof (skip_space_length s2) as L2.
    assert (Hgo : forall st' rest, (length rest <= length s2)%nat ->
              parse_loop ops fuel1 st' rest = parse_loop ops fuel2 st' rest).
    { intros st' rest Hr. apply IH; cbn [length] in *; lia. }
    destruct (skip_space s2) as [|c3 s3].
    + destruct (id1 <=? max_std_id); [apply Hgo; cbn; lia|].
      destruct (id1 <=? max_ext_id); [apply Hgo; cbn; lia|reflexivity].
    + assert (Hsingle :
        (if id1 <=? max_std_id
         then parse_loop ops fuel1 (snd (add_std_id ops st id1)) (skip_sep (c3 :: s3))
         else if id1 <=? max_ext_id
              then parse_loop ops fuel1 (snd (add_ext_id ops st id1)) (skip_sep (c3 :: s3))
              else (false, st))
        = (if id1 <=? max_std_id
           then parse_loop ops fuel2 (snd (add_std_id ops st id1)) (skip_sep (c3 :: s3))
           else if id1 <=? max_ext_id
                then parse_loop ops fuel2 (snd (add_ext_id ops st id1)) (skip_sep (c3 :: s3))
                else (false, st))).
      { pose proof (skip_sep_length (c3 :: s3)).
        destruct (id1 <=? max_std_id); [apply Hgo; lia|].
        destruct (id1 <=? max_ext_id); [apply Hgo; lia|reflexivity]. }
      destruct (Ascii.eqb_spec c3 "-"%char) as [->|Hne].
      * pose proof (skip_space_length s3) as L3.
        destruct (parse_number (skip_space s3)) as [[id2 s4]|] eqn:E2; [|reflexivity].
        apply parse_number_length in E2. pose proof (skip_sep_length s4).
        cbn [length] in *.
        destruct (_ && _); [apply Hgo; lia|].
        destruct (_ && _); [apply Hgo; lia|reflexivity].
      * assert (forall (A : Type) (x y : A),
                  match c3 with "-"%char => x | _ => y end = y) as Hm.
        { intros A x y. destruct c3 as [[] [] [] [] [] [] [] []]; try reflexivity.
          contradiction Hne. reflexivity. }
        rewrite !Hm. exact Hsingle.
Qed.

End Parse_fuel.

(** ** The loops of [add_std_range] and [add_ext_range] *)

Section Bxcan_facts.
Variable B : Z.

Lemma std_range_loop_feed (fuel : nat) (st : Bxcan.t) (b e : Z) :
  Bxcan.std_range_loop B fuel st b e
  = Bxcan.feed (Bxcan.std_block B) st (Cidr.range_blocks 11 max_std_id fuel b e).
Proof.
  revert st b. induction fuel as [|fuel IH]; intros st b;
    cbn [Bxcan.std_range_loop Cidr.range_blocks]; [reflexivity|].
  destruct (b <=? e); [|reflexivity].
  cbn [Bxcan.feed]. unfold Bxcan.std_block at 1. cbn [fst snd].
  unfold Cidr.prefix_mask, std_largest_prefix.
  destruct (if _ =? _ then _ else _) as [err st'].
  destruct (negb (is_success err)); [reflexivity|]. apply IH.
Qed.

Lemma ext_range_loop_feed (fuel : nat) (st : Bxcan.t) (b e : Z) :
  Bxcan.ext_range_loop B fuel st b e
  = Bxcan.feed (Bxcan.ext_block B) st (Cidr.range_blocks 29 max_ext_id fuel b e).
Proof.
  revert st b. induction fuel as [|fuel IH]; intros st b;
    cbn [Bxcan.ext_range_loop Cidr.range_blocks]; [reflexivity|].
  destruct (b <=? e); [|reflexivity].
  cbn [Bxcan.feed]. unfold Bxcan.ext_block at 1. cbn [fst snd].
  unfold Cidr.prefix_mask, ext_largest_prefix.
  destruct (if _ =? _ then _ else _) as [err st'].
  destruct (negb (is_success err)); [reflexivity|]. apply IH.
Qed.

Lemma add_std_range_feed (st : Bxcan.t) (b e : Z) :
  b <= max_std_id -> e <= max_std_id ->
  Bxcan.add_std_range B st b e
  = Bxcan.feed (Bxcan.std_block B) st (Bxcan.std_range_blocks b e).
Proof.
  intros Hb He. unfold Bxcan.add_std_range, Bxcan.std_range_blocks.
  destruct (Z.ltb_spec max_std_id b); [lia|].
  destruct (Z.ltb_spec max_std_id e); [lia|]. cbn [orb].
  destruct (e <? b); apply std_range_loop_feed.
Qed.

Lemma add_ext_range_feed (st : Bxcan.t) (b e : Z) :
  b <= max_ext_id -> e <= max_ext_id ->
  Bxcan.add_ext_range B st b e
  = Bxcan.feed (Bxcan.ext_block B) st (Bxcan.ext_range_blocks b e).
Proof.
  intros Hb He. unfold Bxcan.add_ext_range, Bxcan.ext_range_blocks.
  destruct (Z.ltb_spec max_ext_id b); [lia|].
  destruct (Z.ltb_spec max_ext_id e); [lia|]. cbn [orb].
  destruct (e <? b); apply ext_range_loop_feed.
Qed.

End Bxcan_facts.

(** The two identifier spaces. *)
Lemma std_width : 0 <= 11 <= 31 /\ max_std_id = 2 ^ 11 - 1.
Proof. split; [lia|reflexivity]. Qed.

Lemma ext_width : 0 <= 29 <= 31 /\ max_ext_id = 2 ^ 29 - 1.
Proof. split; [lia|reflexivity]. Qed.

(** ** The range decomposition *)

(** C1. For a range with both ends in the 11-bit space, [add_std_range] hands
    the blocks of [Bxcan.std_range_blocks] to the accumulators, in order and
    up to the first failure: a list identifier when the mask is [0x7FF], an
    (id, mask) pair otherwise.  These blocks are pairwise disjoint and the
    union of their intervals [base .. (base | ~mask) & 0x7FF] is exactly
    [min a b .. max a b].  The same holds for [add_ext_range] in the 29-bit
    space. *)
Theorem range_decomposition_exact :
  (forall a b : Z, 0 <= a <= max_std_id -> 0 <= b <= max_std_id ->
     let blocks := Bxcan.std_range_blocks a b in
     (forall B st, Bxcan.add_std_range B st a b
                   = Bxcan.feed (Bxcan.std_block B) st blocks) /\
     Cover.disjoint max_std_id blocks /\
     Cover.covers max_std_id blocks (Z.min a b) (Z.max a b)) /\
  (forall a b : Z, 0 <= a <= max_ext_id -> 0 <= b <= max_ext_id ->
     let blocks := Bxcan.ext_range_blocks a b in
     (forall B st, Bxcan.add_ext_range B st a b
                   = Bxcan.feed (Bxcan.ext_block B) st blocks) /\
     Cover.disjoint max_ext_id blocks /\
     Cover.covers max_ext_id blocks (Z.min a b) (Z.max a b)).
Proof.
  split; intros a b Ha Hb blocks.
  - split; [intros B st; apply add_std_range_feed; lia|].
    subst blocks. unfold Bxcan.std_range_blocks.
    destruct std_width as [HW HM].
    destruct (Z.ltb_spec b a) as [Hlt|Hge].
    + rewrite Z.min_r, Z.max_l by lia.
      destruct (range_blocks_cover 11 max_std_id HW HM b a) as [Hc Hd]; [lia|lia|].
      split; assumption.
    + rewrite Z.min_l, Z.max_r by lia.
      destruct (range_blocks_cover 11 max_std_id HW HM a b) as [Hc Hd]; [lia|lia|].
      split; assumption.
  - split; [intros B st; apply add_ext_range_feed; lia|].
    subst blocks. unfold Bxcan.ext_range_blocks.
    destruct ext_width as [HW HM].
    destruct (Z.ltb_spec b a) as [Hlt|Hge].
    + rewrite Z.min_r, Z.max_l by lia.
      destruct (range_blocks_cover 29 max_ext_id HW HM b a) as [Hc Hd]; [lia|lia|].
      split; assumption.
    + rewrite Z.min_l, Z.max_r by lia.
      destruct (range_blocks_cover 29 max_ext_id HW HM a b) as [Hc Hd]; [lia|lia|].
      split; assumption.
Qed.

(** C1 at the ranges 0x2FF-0 (standard, swapped) and 0x801-0xFFFE. *)
Lemma range_decomposition_exact_witness :
  Cover.covers max_std_id (Bxcan.std_range_blocks 0x2FF 0) 0 0x2FF /\
  Cover.covers max_ext_id (Bxcan.ext_range_blocks 0x801 0xFFFE) 0x801 0xFFFE.
Proof.
  split.
  - apply (proj1 range_decomposition_exact 0x2FF 0); unfold max_std_id; lia.
  - apply (proj2 range_decomposition_exact 0x801 0xFFFE); unfold max_ext_id; lia.
Defined.

(** C2. For a range with both ends in the 11-bit space, the blocks that
    [add_std_range] hands to the accumulators ([Bxcan.std_range_blocks], the
    greedy largest-aligned-prefix decomposition) are themselves a cover of
    [min a b .. max a b] by disjoint aligned power-of-two blocks written as
    base/mask pairs, and no cover of that range by such blocks has fewer
    blocks.  The same for [add_ext_range] in the 29-bit space. *)
Theorem range_decomposition_minimal :
  (forall a b : Z, 0 <= a <= max_std_id -> 0 <= b <= max_std_id ->
     let blocks := Bxcan.std_range_blocks a b in
     (forall B st, Bxcan.add_std_range B st a b
                   = Bxcan.feed (Bxcan.std_block B) st blocks) /\
     Forall (Cover.cidr_block 11 max_std_id) blocks /\
     Cover.disjoint max_std_id blocks /\
     Cover.covers max_std_id blocks (Z.min a b) (Z.max a b) /\
     forall L : list (Z * Z),
       Forall (Cover.cidr_block 11 max_std_id) L ->
       Cover.disjoint max_std_id L ->
       Cover.covers max_std_id L (Z.min a b) (Z.max a b) ->
       (length blocks <= length L)%nat) /\
  (forall a b : Z, 0 <= a <= max_ext_id -> 0 <= b <= max_ext_id ->
     let blocks := Bxcan.ext_range_blocks a b in
     (forall B st, Bxcan.add_ext_range B st a b
                   = Bxcan.feed (Bxcan.ext_block B) st blocks) /\
     Forall (Cover.cidr_block 29 max_ext_id) blocks /\
     Cover.disjoint max_ext_id blocks /\
     Cover.covers max_ext_id blocks (Z.min a b) (Z.max a b) /\
     forall L : list (Z * Z),
       Forall (Cover.cidr_block 29 max_ext_id) L ->
       Cover.disjoint max_ext_id L ->
       Cover.covers max_ext_id L (Z.min a b) (Z.max a b) ->
       (length blocks <= length L)%nat).
Proof.
  split; intros a b Ha Hb blocks.
  - split; [intros B st; apply add_std_range_feed; lia|].
    subst blocks. unfold Bxcan.std_range_blocks. destruct std_width as [HW HM].
    destruct (Z.ltb_spec b a) as [Hlt|Hge].
    + rewrite Z.min_r, Z.max_l by lia.
      destruct (range_blocks_cover 11 max_std_id HW HM b a) as [Hc Hd]; [lia|lia|].
      split; [apply (range_blocks_cidr 11 max_std_id HW HM); lia|].
      split; [exact Hd|]. split; [exact Hc|].
      intros L HL _ Hcov. apply (range_blocks_shortest 11 max_std_id HW HM); auto; lia.
    + rewrite Z.min_l, Z.max_r by lia.
      destruct (range_blocks_cover 11 max_std_id HW HM a b) as [Hc Hd]; [lia|lia|].
      split; [apply (range_blocks_cidr 11 max_std_id HW HM); lia|].
      split; [exact Hd|]. split; [exact Hc|].
      intros L HL _ Hcov. apply (range_blocks_shortest 11 max_std_id HW HM); auto; lia.
  - split; [intros B st; apply add_ext_range_feed; lia|].
    subst blocks. unfold Bxcan.ext_range_blocks. destruct ext_width as [HW HM].
    destruct (Z.ltb_spec b a) as [Hlt|Hge].
    + rewrite Z.min_r, Z.max_l by lia.
      destruct (range_blocks_cover 29 max_ext_id HW HM b a) as [Hc Hd]; [lia|lia|].
      split; [apply (range_blocks_cidr 29 max_ext_id HW HM); lia|].
      split; [exact Hd|]. split; [exact Hc|].
      intros L HL _ Hcov. apply (range_blocks_shortest 29 max_ext_id HW HM); auto; lia.
    + rewrite Z.min_l, Z.max_r by lia.
      destruct (range_blocks_cover 29 max_ext_id HW HM a b) as [Hc Hd]; [lia|lia|].
      split; [apply (range_blocks_cidr 29 max_ext_id HW HM); lia|].
      split; [exact Hd|]. split; [exact Hc|].
      intros L HL _ Hcov. apply (range_blocks_shortest 29 max_ext_id HW HM); auto; lia.
Qed.

(** C2 at the range 0-3: the decomposition covers it, and is not longer than
    the cover by two blocks of two. *)
Lemma range_decomposition_minimal_witness :
  Forall (Cover.cidr_block 11 max_std_id) (Bxcan.std_range_blocks 0 3) /\
  Cover.covers max_std_id (Bxcan.std_range_blocks 0 3) 0 3 /\
  (length (Bxcan.std_range_blocks 0 3) <= length [(0, 0x7FE); (2, 0x7FE)])%nat.
Proof.
  destruct (proj1 range_decomposition_minimal 0 3)
    as (_ & Hcidr & _ & Hcov & Hmin);
    [unfold max_std_id; lia|unfold max_std_id; lia|].
  split; [exact Hcidr|]. split; [exact Hcov|].
  apply (Hmin [(0, 0x7FE); (2, 0x7FE)]).
  - repeat constructor.
    + exists 10. cbn [fst snd]. repeat split; try reflexivity; try discriminate.
    + exists 10. cbn [fst snd]. repeat split; try reflexivity; try discriminate.
  - intros i j bi bj Hi Hj Hne x [H1 H2].
    destruct i as [|[|i]], j as [|[|j]]; cbn in Hi, Hj; try discriminate;
      try (contradiction Hne; reflexivity);
      injection Hi as <-; injection Hj as <-;
      unfold Cidr.in_block, Cidr.block_first in H1, H2; cbn [fst] in H1, H2;
      change (Cidr.block_last max_std_id (0, 0x7FE)) with 1 in *;
      change (Cidr.block_last max_std_id (2, 0x7FE)) with 3 in *; lia.
  - intros x. change (Z.min 0 3) with 0. change (Z.max 0 3) with 3.
    unfold Cidr.in_block, Cidr.block_first. split.
    + intros (blk & [<-|[<-|[]]] & H); cbn [fst] in H.
      * change (Cidr.block_last max_std_id (0, 0x7FE)) with 1 in H. lia.
      * change (Cidr.block_last max_std_id (2, 0x7FE)) with 3 in H. lia.
    + intros H. destruct (Z_le_dec x 1).
      * exists (0, 0x7FE). split; [left; reflexivity|]. cbn [fst].
        change (Cidr.block_last max_std_id (0, 0x7FE)) with 1. lia.
      * exists (2, 0x7FE). split; [right; left; reflexivity|]. cbn [fst].
        change (Cidr.block_last max_std_id (2, 0x7FE)) with 3. lia.
Defined.

(** ** Emitters, accumulators and the image *)

Section Emit_acc.
Variable B : Z.

(** The emitters leave the accumulators alone. *)
Lemma emit_std_list_acc (st : Bxcan.t) (id1 id2 id3 id4 : Z) :
  let st' := snd (Bxcan.emit_std_list B st id1 id2 id3 id4) in
  Bxcan.std_list st' = Bxcan.std_list st /\
  Bxcan.std_list_count st' = Bxcan.std_list_count st /\
  Bxcan.std_mask st' = Bxcan.std_mask st /\
  Bxcan.std_mask_count st' = Bxcan.std_mask_count st /\
  Bxcan.ext_list st' = Bxcan.ext_list st /\
  Bxcan.ext_list_count st' = Bxcan.ext_list_count st.
Proof.
  unfold Bxcan.emit_std_list.
  destruct (_ <=? _); [cbn; tauto|]. destruct (_ || _); cbn; tauto.
Qed.

Lemma emit_std_mask_acc (st : Bxcan.t) (id1 m1 id2 m2 : Z) :
  let st' := snd (Bxcan.emit_std_mask B st id1 m1 id2 m2) in
  Bxcan.std_list st' = Bxcan.std_list st /\
  Bxcan.std_list_count st' = Bxcan.std_list_count st /\
  Bxcan.std_mask st' = Bxcan.std_mask st /\
  Bxcan.std_mask_count st' = Bxcan.std_mask_count st /\
  Bxcan.ext_list st' = Bxcan.ext_list st /\
  Bxcan.ext_list_count st' = Bxcan.ext_list_count st.
Proof.
  unfold Bxcan.emit_std_mask.
  destruct (_ <=? _); [cbn; tauto|]. destruct (_ || _); cbn; tauto.
Qed.

Lemma emit_ext_list_acc (st : Bxcan.t) (id1 id2 : Z) :
  let st' := snd (Bxcan.emit_ext_list B st id1 id2) in
  Bxcan.std_list st' = Bxcan.std_list st /\
  Bxcan.std_list_count st' = Bxcan.std_list_count st /\
  Bxcan.std_mask st' = Bxcan.std_mask st /\
  Bxcan.std_mask_count st' = Bxcan.std_mask_count st /\
  Bxcan.ext_list st' = Bxcan.ext_list st /\
  Bxcan.ext_list_count st' = Bxcan.ext_list_count st.
Proof.
  unfold Bxcan.emit_ext_list.
  destruct (_ <=? _); [cbn; tauto|]. destruct (_ || _); cbn; tauto.
Qed.

Lemma emit_ext_mask_acc (st : Bxcan.t) (id1 m1 : Z) :
  let st' := snd (Bxcan.emit_ext_mask B st id1 m1) in
  Bxcan.std_list st' = Bxcan.std_list st /\
  Bxcan.std_list_count st' = Bxcan.std_list_count st /\
  Bxcan.std_mask st' = Bxcan.std_mask st /\
  Bxcan.std_mask_count st' = Bxcan.std_mask_count st /\
  Bxcan.ext_list st' = Bxcan.ext_list st /\
  Bxcan.ext_list_count st' = Bxcan.ext_list_count st.
Proof.
  unfold Bxcan.emit_ext_mask.
  destruct (_ <=? _); [cbn; tauto|]. destruct (_ || _); cbn; tauto.
Qed.

(** What the three emitters of [end] keep, [end] keeps. *)
Lemma end_preserves (P : Bxcan.t -> Prop) :
  (forall st a b c d, P st -> P (snd (Bxcan.emit_std_list B st a b c d))) ->
  (forall st a b c d, P st -> P (snd (Bxcan.emit_std_mask B st a b c d))) ->
  (forall st a b, P st -> P (snd (Bxcan.emit_ext_list B st a b))) ->
  forall st, P st -> P (snd (Bxcan.end_ B st)).
Proof.
  intros H1 H2 H3 st H. unfold Bxcan.end_.
  set (r1 := if negb (Bxcan.std_list_count st =? 0)
             then Bxcan.emit_std_list B st (Bxcan.std_list st !!! 0%nat)
                    (Bxcan.std_list st !!! 1%nat) (Bxcan.std_list st !!! 2%nat)
                    (Bxcan.std_list st !!! 3%nat)
             else (CANFILTER_SUCCESS, st)).
  assert (P (snd r1)) as Hr1 by (subst r1; destruct (negb _); auto).
  destruct r1 as [e1 s1]. cbn [snd] in Hr1.
  set (r2 := if negb (Bxcan.std_mask_count s1 =? 0) && is_success e1
             then Bxcan.emit_std_mask B s1 (Bxcan.sm_id (Bxcan.std_mask s1 !!! 0%nat))
                    (Bxcan.sm_mask (Bxcan.std_mask s1 !!! 0%nat))
                    (Bxcan.sm_id (Bxcan.std_mask s1 !!! 1%nat))
                    (Bxcan.sm_mask (Bxcan.std_mask s1 !!! 1%nat))
             else (e1, s1)).
  assert (P (snd r2)) as Hr2 by (subst r2; destruct (_ && _); auto).
  destruct r2 as [e2 s2]. cbn [snd] in Hr2.
  destruct (_ && _); auto.
  specialize (H3 s2 (Bxcan.ext_list s2 !!! 0%nat) (Bxcan.ext_list s2 !!! 1%nat) Hr2).
  destruct (Bxcan.emit_ext_list _ _ _ _). exact H3.
Qed.

End Emit_acc.

Section Bank.
Variable B : Z.
Variable dev : Z.
Hypothesis HB : 0 <= B < 2 ^ 32.

Lemma u32_bit_above (n i : Z) : n < i -> Z.testbit (u32 (Z.shiftl 1 n)) i = false.
Proof.
  intros Hi. unfold u32.
  destruct (Z_lt_dec i 0) as [Hneg|Hpos]; [apply Z.testbit_neg_r; lia|].
  destruct (Z_lt_dec i 32).
  - rewrite Z.mod_pow2_bits_low by lia.
    rewrite Z.shiftl_spec by lia.
    destruct (Z_lt_dec (i - n) 0); [apply Z.testbit_neg_r; lia|].
    change 1 with (2 ^ 0). apply Z.pow2_bits_false. lia.
  - apply Z.mod_pow2_bits_high. lia.
Qed.

Lemma write_bank_invariant (st : Bxcan.t) (v1 v2 : Z) (s32 lm : bool) :
  Bxcan.bank_invariant B st -> Bxcan.bank st < B ->
  Bxcan.bank_invariant B
    (Bxcan.set_bank
       (Bxcan.set_hw_config st
          (Bxcan.write_bank (Bxcan.hw_config st) (Bxcan.bank st) v1 v2 s32 lm))
       (u32 (Bxcan.bank st + 1))).
Proof.
  intros (Hb & Hfr & Hfa) Hlt. unfold Bxcan.bank_invariant. cbn.
  rewrite u32_small by lia.
  split; [lia|]. split.
  - intros i Hi.
    rewrite !list_lookup_insert_ne by lia. apply Hfr. lia.
  - intros i Hi. rewrite Z.lor_spec, Hfa by lia.
    fold (u32 (Z.shiftl 1 (Bxcan.bank st))).
    rewrite u32_bit_above by lia. reflexivity.
Qed.

Ltac emit_cases :=
  intros Hinv;
  match goal with
  | |- context [if ?b <=? ?x then _ else _] => destruct (Z.leb_spec b x)
  end; [exact Hinv|];
  match goal with
  | |- context [if ?c then _ else _] => destruct c
  end; [exact Hinv|];
  cbn [snd]; apply write_bank_invariant; [exact Hinv|lia].

Lemma emit_std_list_invariant (st : Bxcan.t) (id1 id2 id3 id4 : Z) :
  Bxcan.bank_invariant B st ->
  Bxcan.bank_invariant B (snd (Bxcan.emit_std_list B st id1 id2 id3 id4)).
Proof. unfold Bxcan.emit_std_list. emit_cases. Qed.

Lemma emit_std_mask_invariant (st : Bxcan.t) (id1 m1 id2 m2 : Z) :
  Bxcan.bank_invariant B st ->
  Bxcan.bank_invariant B (snd (Bxcan.emit_std_mask B st id1 m1 id2 m2)).
Proof. unfold Bxcan.emit_std_mask. emit_cases. Qed.

Lemma emit_ext_list_invariant (st : Bxcan.t) (id1 id2 : Z) :
  Bxcan.bank_invariant B st ->
  Bxcan.bank_invariant B (snd (Bxcan.emit_ext_list B st id1 id2)).
Proof. unfold Bxcan.emit_ext_list. emit_cases. Qed.

Lemma emit_ext_mask_invariant (st : Bxcan.t) (id1 m1 : Z) :
  Bxcan.bank_invariant B st ->
  Bxcan.bank_invariant B (snd (Bxcan.emit_ext_mask B st id1 m1)).
Proof. unfold Bxcan.emit_ext_mask. emit_cases. Qed.

(** The accumulator calls keep the bank invariant. *)
Lemma add_std_list_invariant (st : Bxcan.t) (id : Z) :
  Bxcan.bank_invariant B st ->
  Bxcan.bank_invariant B (snd (Bxcan.add_std_list B st id)).
Proof.
  intros Hinv. unfold Bxcan.add_std_list.
  destruct (3 <? _); [exact Hinv|]. cbn zeta.
  destruct (_ =? 1); [exact Hinv|].
  destruct (_ =? 4); [|exact Hinv].
  match goal with |- context [Bxcan.emit_std_list B ?s ?a ?b ?c ?d] =>
    pose proof (emit_std_list_invariant s a b c d Hinv) as H;
    destruct (Bxcan.emit_std_list B s a b c d) as [err st'] end.
  exact H.
Qed.

Lemma add_std_mask_invariant (st : Bxcan.t) (id mask : Z) :
  Bxcan.bank_invariant B st ->
  Bxcan.bank_invariant B (snd (Bxcan.add_std_mask B st id mask)).
Proof.
  intros Hinv. unfold Bxcan.add_std_mask.
  destruct (1 <? _); [exact Hinv|]. cbn zeta.
  destruct (_ =? 1); [exact Hinv|].
  destruct (_ =? 2); [|exact Hinv].
  match goal with |- context [Bxcan.emit_std_mask B ?s ?a ?b ?c ?d] =>
    pose proof (emit_std_mask_invariant s a b c d Hinv) as H;
    destruct (Bxcan.emit_std_mask B s a b c d) as [err st'] end.
  exact H.
Qed.

Lemma add_ext_list_invariant (st : Bxcan.t) (id : Z) :
  Bxcan.bank_invariant B st ->
  Bxcan.bank_invariant B (snd (Bxcan.add_ext_list B st id)).
Proof.
  intros Hinv. unfold Bxcan.add_ext_list.
  destruct (1 <? _); [exact Hinv|]. cbn zeta.
  destruct (_ =? 1); [exact Hinv|].
  destruct (_ =? 2); [|exact Hinv].
  match goal with |- context [Bxcan.emit_ext_list B ?s ?a ?b] =>
    pose proof (emit_ext_list_invariant s a b Hinv) as H;
    destruct (Bxcan.emit_ext_list B s a b) as [err st'] end.
  exact H.
Qed.

Lemma feed_preserves (P : Bxcan.t -> Prop)
    (step : Bxcan.t -> Z * Z -> canfilter_error_t * Bxcan.t) :
  (forall st blk, P st -> P (snd (step st blk))) ->
  forall blocks st, P st -> P (snd (Bxcan.feed step st blocks)).
Proof.
  intros Hstep. induction blocks as [|blk rest IH]; intros st Hst; cbn; [exact Hst|].
  specialize (Hstep st blk Hst). destruct (step st blk) as [err st'].
  destruct (negb (is_success err)); [exact Hstep|apply IH, Hstep].
Qed.

Lemma std_block_invariant (st : Bxcan.t) (blk : Z * Z) :
  Bxcan.bank_invariant B st -> Bxcan.bank_invariant B (snd (Bxcan.std_block B st blk)).
Proof.
  intros H. unfold Bxcan.std_block.
  destruct (_ =? _); [apply add_std_list_invariant|apply add_std_mask_invariant]; exact H.
Qed.

Lemma ext_block_invariant (st : Bxcan.t) (blk : Z * Z) :
  Bxcan.bank_invariant B st -> Bxcan.bank_invariant B (snd (Bxcan.ext_block B st blk)).
Proof.
  intros H. unfold Bxcan.ext_block, Bxcan.add_ext_mask.
  destruct (_ =? _); [apply add_ext_list_invariant|apply emit_ext_mask_invariant]; exact H.
Qed.

Lemma add_std_range_invariant (st : Bxcan.t) (b e : Z) :
  Bxcan.bank_invariant B st -> Bxcan.bank_invariant B (snd (Bxcan.add_std_range B st b e)).
Proof.
  intros H. unfold Bxcan.add_std_range.
  destruct (_ || _); [exact H|].
  destruct (e <? b); rewrite std_range_loop_feed;
    apply feed_preserves; auto using std_block_invariant.
Qed.

Lemma add_ext_range_invariant (st : Bxcan.t) (b e : Z) :
  Bxcan.bank_invariant B st -> Bxcan.bank_invariant B (snd (Bxcan.add_ext_range B st b e)).
Proof.
  intros H. unfold Bxcan.add_ext_range.
  destruct (_ || _); [exact H|].
  destruct (e <? b); rewrite ext_range_loop_feed;
    apply feed_preserves; auto using ext_block_invariant.
Qed.

Lemma end_invariant (st : Bxcan.t) :
  Bxcan.bank_invariant B st -> Bxcan.bank_invariant B (snd (Bxcan.end_ B st)).
Proof.
  apply end_preserves; auto using emit_std_list_invariant, emit_std_mask_invariant,
    emit_ext_list_invariant.
Qed.

Lemma begin_invariant (st : Bxcan.t) :
  Bxcan.bank_invariant B (snd (Bxcan.begin B dev st)).
Proof.
  unfold Bxcan.bank_invariant. cbn. split; [lia|]. split.
  - intros i Hi. rewrite !lookup_replicate. split; split; auto; lia.
  - intros i _. apply Z.bits_0.
Qed.

Lemma do_call_invariant (st : Bxcan.t) (c : Bxcan.call) :
  Bxcan.bank_invariant B st -> Bxcan.bank_invariant B (snd (Bxcan.do_call B st c)).
Proof.
  intros H. destruct c; cbn [Bxcan.do_call]; unfold Bxcan.add_std_id, Bxcan.add_ext_id.
  - apply add_std_range_invariant, H.
  - apply add_ext_range_invariant, H.
  - apply add_std_range_invariant, H.
  - apply add_ext_range_invariant, H.
  - apply end_invariant, H.
Qed.

Lemma run_preserves (P : Bxcan.t -> Prop) :
  (forall st c, P st -> P (snd (Bxcan.do_call B st c))) ->
  forall calls st, P st -> P (Bxcan.run B st calls).
Proof.
  intros Hstep. induction calls as [|c calls IH]; intros st Hst; cbn; [exact Hst|].
  apply IH, Hstep, Hst.
Qed.

Lemma reachable_bank_invariant (st : Bxcan.t) :
  Bxcan.reachable B dev st -> Bxcan.bank_invariant B st.
Proof.
  intros (st0 & calls & _ & ->).
  apply run_preserves; [apply do_call_invariant|apply begin_invariant].
Qed.

End Bank.

Section Acc.
Variable B : Z.
Variable dev : Z.

Lemma same_accumulators_refl (st : Bxcan.t) : Bxcan.same_accumulators st st.
Proof. unfold Bxcan.same_accumulators. tauto. Qed.

Lemma same_accumulators_trans (st1 st2 st3 : Bxcan.t) :
  Bxcan.same_accumulators st1 st2 -> Bxcan.same_accumulators st2 st3 ->
  Bxcan.same_accumulators st1 st3.
Proof. unfold Bxcan.same_accumulators. intuition congruence. Qed.

Lemma accumulators_ok_ext (st st' : Bxcan.t) :
  Bxcan.same_accumulators st st' -> Bxcan.accumulators_ok st -> Bxcan.accumulators_ok st'.
Proof.
  unfold Bxcan.same_accumulators, Bxcan.accumulators_ok, Bxcan.sized.
  intros (-> & -> & -> & -> & -> & ->). tauto.
Qed.

Lemma end_accumulators (st : Bxcan.t) :
  Bxcan.same_accumulators st (snd (Bxcan.end_ B st)).
Proof.
  apply (end_preserves B (Bxcan.same_accumulators st)).
  - intros s a b c d H. eapply same_accumulators_trans; [exact H|apply emit_std_list_acc].
  - intros s a b c d H. eapply same_accumulators_trans; [exact H|apply emit_std_mask_acc].
  - intros s a b H. eapply same_accumulators_trans; [exact H|apply emit_ext_list_acc].
  - apply same_accumulators_refl.
Qed.

Ltac z_false :=
  repeat match goal with
  | |- context [?a <? ?b] =>
      rewrite (proj2 (Z.ltb_ge a b)) by (cbn in *; lia)
  end.

Lemma emit_std_list_ok (st : Bxcan.t) (a b c d : Z) :
  a <= max_std_id -> b <= max_std_id -> c <= max_std_id -> d <= max_std_id ->
  success_or_full (fst (Bxcan.emit_std_list B st a b c d)).
Proof.
  intros. unfold Bxcan.emit_std_list, success_or_full.
  destruct (_ <=? _); [cbn; auto|]. z_false. cbn. auto.
Qed.

Lemma emit_std_mask_ok (st : Bxcan.t) (a b c d : Z) :
  a <= max_std_id -> b <= max_std_id -> c <= max_std_id -> d <= max_std_id ->
  success_or_full (fst (Bxcan.emit_std_mask B st a b c d)).
Proof.
  intros. unfold Bxcan.emit_std_mask, success_or_full.
  destruct (_ <=? _); [cbn; auto|]. z_false. cbn. auto.
Qed.

Lemma emit_ext_list_ok (st : Bxcan.t) (a b : Z) :
  a <= max_ext_id -> b <= max_ext_id ->
  success_or_full (fst (Bxcan.emit_ext_list B st a b)).
Proof.
  intros. unfold Bxcan.emit_ext_list, success_or_full.
  destruct (_ <=? _); [cbn; auto|]. z_false. cbn. auto.
Qed.

Lemma emit_ext_mask_ok (st : Bxcan.t) (a b : Z) :
  a <= max_ext_id -> b <= max_ext_id ->
  success_or_full (fst (Bxcan.emit_ext_mask B st a b)).
Proof.
  intros. unfold Bxcan.emit_ext_mask, success_or_full.
  destruct (_ <=? _); [cbn; auto|]. z_false. cbn. auto.
Qed.

Ltac four_cases c :=
  let H := fresh in
  assert (c = 0 \/ c = 1 \/ c = 2 \/ c = 3) as H by lia;
  destruct H as [->|[->|[->| ->]]].

Ltac two_cases c :=
  let H := fresh in
  assert (c = 0 \/ c = 1) as H by lia;
  destruct H as [->| ->].

Ltac count_up :=
  cbn;
  try change (u32 (0 + 1)) with 1; try change (u32 (1 + 1)) with 2;
  try change (u32 (2 + 1)) with 3; try change (u32 (3 + 1)) with 4;
  cbn.

Ltac forall_inv :=
  repeat match goal with
  | H : Forall _ (_ :: _) |- _ => inversion H; subst; clear H
  | H : Forall _ [] |- _ => clear H
  end.

Lemma add_std_list_ok (st : Bxcan.t) (id : Z) :
  Bxcan.accumulators_ok st -> id <= max_std_id ->
  success_or_full (fst (Bxcan.add_std_list B st id)) /\
  Bxcan.accumulators_ok (snd (Bxcan.add_std_list B st id)).
Proof.
  destruct st as [hw bank el elc sm smc sl slc].
  unfold Bxcan.accumulators_ok, Bxcan.sized. cbn [Bxcan.std_list Bxcan.std_list_count
    Bxcan.std_mask Bxcan.std_mask_count Bxcan.ext_list Bxcan.ext_list_count].
  intros ((Hl1 & Hl2 & Hl3) & Hc1 & Hc2 & Hc3 & Hf1 & Hf2 & Hf3) Hid.
  destruct sl as [|a [|b [|c [|d [|? ?]]]]]; try discriminate Hl1.
  four_cases slc.
  - count_up. unfold success_or_full. repeat split; auto; try lia.
    intros _. repeat constructor; assumption.
  - count_up. unfold success_or_full. specialize (Hf1 ltac:(lia)). forall_inv.
    repeat split; auto; try lia. intros _. repeat constructor; assumption.
  - count_up. unfold success_or_full. specialize (Hf1 ltac:(lia)). forall_inv.
    repeat split; auto; try lia. intros _. repeat constructor; assumption.
  - specialize (Hf1 ltac:(lia)). forall_inv.
    unfold Bxcan.add_std_list. cbn -[Bxcan.emit_std_list u32].
    change (u32 (3 + 1)) with 4. cbn -[Bxcan.emit_std_list].
    match goal with |- context [Bxcan.emit_std_list B ?s ?x ?y ?z ?w] =>
      pose proof (emit_std_list_ok s x y z w ltac:(assumption) ltac:(assumption)
                    ltac:(assumption) ltac:(assumption)) as Hok;
      pose proof (emit_std_list_acc B s x y z w) as Hacc;
      destruct (Bxcan.emit_std_list B s x y z w) as [err st'] end.
    cbn in Hok, Hacc |- *. destruct Hacc as (E1 & E2 & E3 & E4 & E5 & E6).
    rewrite E1, E3, E4, E5, E6.
    repeat split; auto; try lia.
Qed.

Lemma add_std_mask_ok (st : Bxcan.t) (id mask : Z) :
  Bxcan.accumulators_ok st -> id <= max_std_id -> mask <= max_std_id ->
  success_or_full (fst (Bxcan.add_std_mask B st id mask)) /\
  Bxcan.accumulators_ok (snd (Bxcan.add_std_mask B st id mask)).
Proof.
  destruct st as [hw bank el elc sm smc sl slc].
  unfold Bxcan.accumulators_ok, Bxcan.sized. cbn [Bxcan.std_list Bxcan.std_list_count
    Bxcan.std_mask Bxcan.std_mask_count Bxcan.ext_list Bxcan.ext_list_count].
  intros ((Hl1 & Hl2 & Hl3) & Hc1 & Hc2 & Hc3 & Hf1 & Hf2 & Hf3) Hid Hmask.
  destruct sm as [|a [|b [|? ?]]]; try discriminate Hl2.
  two_cases smc.
  - count_up. unfold success_or_full. repeat split; auto; try lia.
    intros _. repeat constructor; assumption.
  - specialize (Hf2 ltac:(lia)). forall_inv.
    unfold Bxcan.add_std_mask. cbn -[Bxcan.emit_std_mask u32].
    change (u32 (1 + 1)) with 2. cbn -[Bxcan.emit_std_mask].
    match goal with |- context [Bxcan.emit_std_mask B ?s ?x ?y ?z ?w] =>
      pose proof (emit_std_mask_ok s x y z w ltac:(tauto) ltac:(tauto)
                    ltac:(assumption) ltac:(assumption)) as Hok;
      pose proof (emit_std_mask_acc B s x y z w) as Hacc;
      destruct (Bxcan.emit_std_mask B s x y z w) as [err st'] end.
    cbn in Hok, Hacc |- *. destruct Hacc as (E1 & E2 & E3 & E4 & E5 & E6).
    rewrite E1, E2, E3, E5, E6.
    repeat split; auto; try lia.
Qed.

Lemma add_ext_list_ok (st : Bxcan.t) (id : Z) :
  Bxcan.accumulators_ok st -> id <= max_ext_id ->
  success_or_full (fst (Bxcan.add_ext_list B st id)) /\
  Bxcan.accumulators_ok (snd (Bxcan.add_ext_list B st id)).
Proof.
  destruct st as [hw bank el elc sm smc sl slc].
  unfold Bxcan.accumulators_ok, Bxcan.sized. cbn [Bxcan.std_list Bxcan.std_list_count
    Bxcan.std_mask Bxcan.std_mask_count Bxcan.ext_list Bxcan.ext_list_count].
  intros ((Hl1 & Hl2 & Hl3) & Hc1 & Hc2 & Hc3 & Hf1 & Hf2 & Hf3) Hid.
  destruct el as [|a [|b [|? ?]]]; try discriminate Hl3.
  two_cases elc.
  - count_up. unfold success_or_full. repeat split; auto; try lia.
    intros _. repeat constructor; assumption.
  - specialize (Hf3 ltac:(lia)). forall_inv.
    unfold Bxcan.add_ext_list. cbn -[Bxcan.emit_ext_list u32].
    change (u32 (1 + 1)) with 2. cbn -[Bxcan.emit_ext_list].
    match goal with |- context [Bxcan.emit_ext_list B ?s ?x ?y] =>
      pose proof (emit_ext_list_ok s x y ltac:(assumption) ltac:(assumption)) as Hok;
      pose proof (emit_ext_list_acc B s x y) as Hacc;
      destruct (Bxcan.emit_ext_list B s x y) as [err st'] end.
    cbn in Hok, Hacc |- *. destruct Hacc as (E1 & E2 & E3 & E4 & E5 & E6).
    rewrite E1, E2, E3, E4, E5.
    repeat split; auto; try lia.
Qed.

Lemma add_ext_mask_ok (st : Bxcan.t) (id mask : Z) :
  Bxcan.accumulators_ok st -> id <= max_ext_id -> mask <= max_ext_id ->
  success_or_full (fst (Bxcan.add_ext_mask B st id mask)) /\
  Bxcan.accumulators_ok (snd (Bxcan.add_ext_mask B st id mask)).
Proof.
  intros Hok Hid Hmask. unfold Bxcan.add_ext_mask. split.
  - apply emit_ext_mask_ok; assumption.
  - eapply accumulators_ok_ext; [|exact Hok]. apply emit_ext_mask_acc.
Qed.

Lemma std_block_ok (st : Bxcan.t) (blk : Z * Z) :
  Bxcan.accumulators_ok st -> Cover.block_within max_std_id blk ->
  success_or_full (fst (Bxcan.std_block B st blk)) /\
  Bxcan.accumulators_ok (snd (Bxcan.std_block B st blk)).
Proof.
  intros Hok [H1 H2]. unfold Bxcan.std_block.
  destruct (_ =? _); [apply add_std_list_ok|apply add_std_mask_ok]; assumption.
Qed.

Lemma ext_block_ok (st : Bxcan.t) (blk : Z * Z) :
  Bxcan.accumulators_ok st -> Cover.block_within max_ext_id blk ->
  success_or_full (fst (Bxcan.ext_block B st blk)) /\
  Bxcan.accumulators_ok (snd (Bxcan.ext_block B st blk)).
Proof.
  intros Hok [H1 H2]. unfold Bxcan.ext_block.
  destruct (_ =? _); [apply add_ext_list_ok|apply add_ext_mask_ok]; assumption.
Qed.

Lemma feed_ok (MAX : Z) (step : Bxcan.t -> Z * Z -> canfilter_error_t * Bxcan.t) :
  (forall st blk, Bxcan.accumulators_ok st -> Cover.block_within MAX blk ->
     success_or_full (fst (step st blk)) /\ Bxcan.accumulators_ok (snd (step st blk))) ->
  forall blocks st, Bxcan.accumulators_ok st -> Forall (Cover.block_within MAX) blocks ->
    success_or_full (fst (Bxcan.feed step st blocks)) /\
    Bxcan.accumulators_ok (snd (Bxcan.feed step st blocks)).
Proof.
  intros Hstep. induction blocks as [|blk rest IH]; intros st Hst Hall; cbn.
  - split; [left; reflexivity|exact Hst].
  - inversion Hall as [|? ? Hblk Hrest]; subst.
    destruct (Hstep st blk Hst Hblk) as [H1 H2].
    destruct (step st blk) as [err st']. cbn [fst snd] in *.
    destruct (negb (is_success err)); [split; assumption|auto].
Qed.

End Acc.

Section Blocks_within.
Variable W : Z.
Variable MAX : Z.
Hypothesis HW : 0 <= W <= 31.
Hypothesis HMAX : MAX = 2 ^ W - 1.

(** Inside the loop [begin <= end], and a mask is cut by [& MAX]. *)
Lemma range_blocks_within (fuel : nat) (b e : Z) :
  e <= MAX -> Forall (Cover.block_within MAX) (Cidr.range_blocks W MAX fuel b e).
Proof.
  intros He. revert b. induction fuel as [|fuel IH]; intros b; cbn [Cidr.range_blocks];
    [constructor|].
  destruct (Z.leb_spec b e); [|constructor].
  constructor; [|apply IH].
  split; cbn [fst snd]; [lia|]. apply (prefix_mask_range W MAX HW HMAX).
Qed.

End Blocks_within.

Section Acc_range.
Variable B : Z.
Variable dev : Z.

Lemma std_range_blocks_within (b e : Z) :
  b <= max_std_id -> e <= max_std_id ->
  Forall (Cover.block_within max_std_id) (Bxcan.std_range_blocks b e).
Proof.
  intros Hb He. unfold Bxcan.std_range_blocks. destruct std_width as [HW HM].
  destruct (e <? b); apply (range_blocks_within 11 max_std_id HW HM); assumption.
Qed.

Lemma ext_range_blocks_within (b e : Z) :
  b <= max_ext_id -> e <= max_ext_id ->
  Forall (Cover.block_within max_ext_id) (Bxcan.ext_range_blocks b e).
Proof.
  intros Hb He. unfold Bxcan.ext_range_blocks. destruct ext_width as [HW HM].
  destruct (e <? b); apply (range_blocks_within 29 max_ext_id HW HM); assumption.
Qed.

Lemma add_std_range_ok (st : Bxcan.t) (b e : Z) :
  Bxcan.accumulators_ok st -> b <= max_std_id -> e <= max_std_id ->
  success_or_full (fst (Bxcan.add_std_range B st b e)) /\
  Bxcan.accumulators_ok (snd (Bxcan.add_std_range B st b e)).
Proof.
  intros Hok Hb He. rewrite add_std_range_feed by assumption.
  apply (feed_ok max_std_id); auto using std_block_ok, std_range_blocks_within.
Qed.

Lemma add_ext_range_ok (st : Bxcan.t) (b e : Z) :
  Bxcan.accumulators_ok st -> b <= max_ext_id -> e <= max_ext_id ->
  success_or_full (fst (Bxcan.add_ext_range B st b e)) /\
  Bxcan.accumulators_ok (snd (Bxcan.add_ext_range B st b e)).
Proof.
  intros Hok Hb He. rewrite add_ext_range_feed by assumption.
  apply (feed_ok max_ext_id); auto using ext_block_ok, ext_range_blocks_within.
Qed.

Lemma do_call_accumulators_ok (st : Bxcan.t) (c : Bxcan.call) :
  Bxcan.accumulators_ok st -> Bxcan.accumulators_ok (snd (Bxcan.do_call B st c)).
Proof.
  intros Hok.
  assert (forall b e, Bxcan.accumulators_ok (snd (Bxcan.add_std_range B st b e))) as Hs.
  { intros b e. destruct (Z_le_dec b max_std_id); [destruct (Z_le_dec e max_std_id)|].
    - apply add_std_range_ok; assumption.
    - unfold Bxcan.add_std_range. rewrite (proj2 (Z.ltb_lt max_std_id e)) by lia.
      rewrite orb_true_r. exact Hok.
    - unfold Bxcan.add_std_range. rewrite (proj2 (Z.ltb_lt max_std_id b)) by lia.
      exact Hok. }
  assert (forall b e, Bxcan.accumulators_ok (snd (Bxcan.add_ext_range B st b e))) as He.
  { intros b e. destruct (Z_le_dec b max_ext_id); [destruct (Z_le_dec e max_ext_id)|].
    - apply add_ext_range_ok; assumption.
    - unfold Bxcan.add_ext_range. rewrite (proj2 (Z.ltb_lt max_ext_id e)) by lia.
      rewrite orb_true_r. exact Hok.
    - unfold Bxcan.add_ext_range. rewrite (proj2 (Z.ltb_lt max_ext_id b)) by lia.
      exact Hok. }
  destruct c; cbn [Bxcan.do_call]; unfold Bxcan.add_std_id, Bxcan.add_ext_id.
  - apply Hs.
  - apply He.
  - apply Hs.
  - apply He.
  - eapply accumulators_ok_ext; [apply end_accumulators|exact Hok].
Qed.

Lemma begin_accumulators_ok (st : Bxcan.t) :
  Bxcan.sized st -> Bxcan.accumulators_ok (snd (Bxcan.begin B dev st)).
Proof.
  intros Hs. unfold Bxcan.accumulators_ok. cbn.
  split; [exact Hs|]. repeat split; try lia.
Qed.

Lemma reachable_accumulators_ok (st : Bxcan.t) :
  Bxcan.reachable B dev st -> Bxcan.accumulators_ok st.
Proof.
  intros (st0 & calls & Hs & ->).
  apply run_preserves; [apply do_call_accumulators_ok|apply begin_accumulators_ok, Hs].
Qed.

End Acc_range.


Section Fdcan_lists.
Variable S_max : Z.
Variable E_max : Z.

Lemma fdcan_end_accumulators (st : Fdcan.t) :
  Fdcan.std_id_count (snd (Fdcan.end_ S_max E_max st)) = Fdcan.std_id_count st /\
  Fdcan.ext_id_count (snd (Fdcan.end_ S_max E_max st)) = Fdcan.ext_id_count st /\
  Fdcan.std_id (snd (Fdcan.end_ S_max E_max st)) = Fdcan.std_id st /\
  Fdcan.ext_id (snd (Fdcan.end_ S_max E_max st)) = Fdcan.ext_id st.
Proof.
  unfold Fdcan.end_, Fdcan.emit_std_id, Fdcan.emit_ext_id.
  destruct (negb (Fdcan.std_id_count st =? 0)).
  - destruct (_ <=? _); [|destruct (_ || _)]; cbn;
      destruct (negb (Fdcan.ext_id_count st =? 0)); cbn; auto;
      destruct (_ <=? _); cbn; auto; destruct (_ || _); cbn; auto.
  - cbn. destruct (negb (Fdcan.ext_id_count st =? 0)); cbn; auto.
    destruct (_ <=? _); cbn; auto. destruct (_ || _); cbn; auto.
Qed.

End Fdcan_lists.

(** The standard and extended blocks are inside their space. *)
Lemma std_range_blocks_bounds (b e : Z) :
  0 <= b <= max_std_id -> 0 <= e <= max_std_id ->
  Forall (fun blk => 0 <= fst blk <= max_std_id /\ 0 <= snd blk <= max_std_id)
         (Bxcan.std_range_blocks b e).
Proof.
  intros Hb He. unfold Bxcan.std_range_blocks. destruct std_width as [HW HM].
  assert (forall x y, 0 <= x -> y <= max_std_id ->
            Forall (fun blk => 0 <= fst blk <= max_std_id /\ 0 <= snd blk <= max_std_id)
              (Cidr.range_blocks 11 max_std_id (Cidr.range_fuel 11) x y)) as H.
  { intros x y Hx Hy.
    pose proof (range_blocks_cidr 11 max_std_id HW HM x y Hx Hy) as Hc.
    eapply Forall_impl; [exact Hc|]. intros [i m] (p & Hp & Hm & Hi & _).
    cbn [fst snd] in *. subst m. split; [lia|].
    apply (prefix_mask_range 11 max_std_id HW HM). }
  destruct (e <? b); apply H; lia.
Qed.

Lemma ext_range_blocks_bounds (b e : Z) :
  0 <= b <= max_ext_id -> 0 <= e <= max_ext_id ->
  Forall (fun blk => 0 <= fst blk <= max_ext_id /\ 0 <= snd blk <= max_ext_id)
         (Bxcan.ext_range_blocks b e).
Proof.
  intros Hb He. unfold Bxcan.ext_range_blocks. destruct ext_width as [HW HM].
  assert (forall x y, 0 <= x -> y <= max_ext_id ->
            Forall (fun blk => 0 <= fst blk <= max_ext_id /\ 0 <= snd blk <= max_ext_id)
              (Cidr.range_blocks 29 max_ext_id (Cidr.range_fuel 29) x y)) as H.
  { intros x y Hx Hy.
    pose proof (range_blocks_cidr 29 max_ext_id HW HM x y Hx Hy) as Hc.
    eapply Forall_impl; [exact Hc|]. intros [i m] (p & Hp & Hm & Hi & _).
    cbn [fst snd] in *. subst m. split; [lia|].
    apply (prefix_mask_range 29 max_ext_id HW HM). }
  destruct (e <? b); apply H; lia.
Qed.

(** ** Capacity *)

(** C3. When the controller is full ([bank == max_banks] on bxCAN,
    [std_filter_nbr == max_std_filter] or [ext_filter_nbr == max_ext_filter]
    on FDCAN) an emitter returns [CANFILTER_ERROR_FULL] and gives back the
    object as it was: the image is untouched, so every slot that was zero
    still is. *)
Theorem emit_full_leaves_image :
  (forall (B : Z) (st : Bxcan.t) (a b c d : Z),
     Bxcan.bank st = B ->
     Bxcan.emit_std_list B st a b c d = (CANFILTER_ERROR_FULL, st) /\
     Bxcan.emit_std_mask B st a b c d = (CANFILTER_ERROR_FULL, st) /\
     Bxcan.emit_ext_list B st a b = (CANFILTER_ERROR_FULL, st) /\
     Bxcan.emit_ext_mask B st a b = (CANFILTER_ERROR_FULL, st)) /\
  (forall (S_max : Z) (st : Fdcan.t) (id1 id2 : Z),
     Fdcan.std_filter_nbr (Fdcan.hw_config st) = S_max ->
     Fdcan.emit_std_id S_max st id1 id2 = (CANFILTER_ERROR_FULL, st) /\
     Fdcan.emit_std_range S_max st id1 id2 = (CANFILTER_ERROR_FULL, st)) /\
  (forall (E_max : Z) (st : Fdcan.t) (id1 id2 : Z),
     Fdcan.ext_filter_nbr (Fdcan.hw_config st) = E_max ->
     Fdcan.emit_ext_id E_max st id1 id2 = (CANFILTER_ERROR_FULL, st) /\
     Fdcan.emit_ext_range E_max st id1 id2 = (CANFILTER_ERROR_FULL, st)).
Proof.
  split; [|split].
  - intros B st a b c d <-.
    unfold Bxcan.emit_std_list, Bxcan.emit_std_mask, Bxcan.emit_ext_list,
      Bxcan.emit_ext_mask.
    rewrite Z.leb_refl. auto.
  - intros S_max st id1 id2 <-. unfold Fdcan.emit_std_id, Fdcan.emit_std_range.
    rewrite Z.leb_refl. auto.
  - intros E_max st id1 id2 <-. unfold Fdcan.emit_ext_id, Fdcan.emit_ext_range.
    rewrite Z.leb_refl. auto.
Qed.

(** C3 on a full bxCAN-14 and a full FDCAN-28-8. *)
Lemma emit_full_leaves_image_witness :
  Bxcan.emit_ext_mask 14 bxcan_f0_full 0x10000 0x1FFF0000
    = (CANFILTER_ERROR_FULL, bxcan_f0_full) /\
  Fdcan.emit_std_id 28 fdcan_g0_std_full 0x100 0x200
    = (CANFILTER_ERROR_FULL, fdcan_g0_std_full) /\
  Fdcan.emit_ext_id 8 fdcan_g0_ext_full 0x800 0x801
    = (CANFILTER_ERROR_FULL, fdcan_g0_ext_full).
Proof.
  destruct emit_full_leaves_image as (Hb & Hs & He).
  split; [|split].
  - apply (Hb 14 bxcan_f0_full 0x10000 0x1FFF0000 0 0). vm_compute. reflexivity.
  - apply (Hs 28 fdcan_g0_std_full 0x100 0x200). vm_compute. reflexivity.
  - apply (He 8 fdcan_g0_ext_full 0x800 0x801). vm_compute. reflexivity.
Defined.

(** ** [end] and the accumulators *)

(** C4 fails as stated: after [begin] and one standard identifier, [end]
    returns [CANFILTER_SUCCESS] and the accumulator still counts one entry, on
    bxCAN-14 and on FDCAN-28-8. *)
Lemma end_success_keeps_pending :
  fst (Bxcan.end_ 14 bxcan_f0_one_id) = CANFILTER_SUCCESS /\
  Bxcan.std_list_count (snd (Bxcan.end_ 14 bxcan_f0_one_id)) <> 0 /\
  fst (Fdcan.end_ 28 8 fdcan_g0_one_id) = CANFILTER_SUCCESS /\
  Fdcan.std_id_count (snd (Fdcan.end_ 28 8 fdcan_g0_one_id)) <> 0.
Proof. vm_compute. repeat split; discriminate. Qed.

(** C4, amended. [end] never clears an accumulator: whatever it returns, the
    counts and the buffered entries after the call are those before it.  So
    after [end], successful or not, the accumulators are all empty exactly
    when they were all empty before the call. *)
Theorem end_keeps_accumulators :
  (forall (B : Z) (st : Bxcan.t),
     let st' := snd (Bxcan.end_ B st) in
     Bxcan.same_accumulators st st' /\
     (Bxcan.std_list_count st' = 0 /\ Bxcan.std_mask_count st' = 0 /\
      Bxcan.ext_list_count st' = 0
      <-> Bxcan.std_list_count st = 0 /\ Bxcan.std_mask_count st = 0 /\
          Bxcan.ext_list_count st = 0)) /\
  (forall (S_max E_max : Z) (st : Fdcan.t),
     let st' := snd (Fdcan.end_ S_max E_max st) in
     Fdcan.std_id_count st' = Fdcan.std_id_count st /\
     Fdcan.ext_id_count st' = Fdcan.ext_id_count st /\
     Fdcan.std_id st' = Fdcan.std_id st /\
     Fdcan.ext_id st' = Fdcan.ext_id st /\
     (Fdcan.std_id_count st' = 0 /\ Fdcan.ext_id_count st' = 0
      <-> Fdcan.std_id_count st = 0 /\ Fdcan.ext_id_count st = 0)).
Proof.
  split.
  - intros B st st'. subst st'.
    pose proof (end_accumulators B st) as Hacc. split; [exact Hacc|].
    destruct Hacc as (_ & E2 & _ & E4 & _ & E6). rewrite E2, E4, E6. tauto.
  - intros S_max E_max st st'. subst st'.
    destruct (fdcan_end_accumulators S_max E_max st) as (E1 & E2 & E3 & E4).
    rewrite E1, E2, E3, E4. tauto.
Qed.

(** ** The FDCAN dual-identifier element *)

(** C5 fails as stated: the element emitted for 0x100 and 0x200 is not
    0x48100200. *)
Lemma fdcan_dual_word_not_0x48100200 :
  Fdcan.std_filter (Fdcan.hw_config fdcan_g0_two_ids) !! 0%nat <> Some 0x48100200.
Proof. vm_compute. discriminate. Qed.

(** C5, amended. On FDCAN-28-8, [begin], [add_std_id(0x100)] and
    [add_std_id(0x200)] emit one standard dual-identifier element:
    [std_filter_nbr == 1] and
    [std_filter[0] == (1<<30)|(1<<27)|(0x100<<16)|0x200 == 0x49000200]. *)
Theorem fdcan_two_ids_one_element :
  fst (Fdcan.add_std_id 28 fdcan_g0_one_id 0x200) = CANFILTER_SUCCESS /\
  Fdcan.std_filter_nbr (Fdcan.hw_config fdcan_g0_two_ids) = 1 /\
  Fdcan.std_filter (Fdcan.hw_config fdcan_g0_two_ids) !! 0%nat
    = Some (Z.lor (Z.lor (Z.lor (Z.shiftl 1 30) (Z.shiftl 1 27)) (Z.shiftl 0x100 16)) 0x200) /\
  Z.lor (Z.lor (Z.lor (Z.shiftl 1 30) (Z.shiftl 1 27)) (Z.shiftl 0x100 16)) 0x200
    = 0x49000200 /\
  Fdcan.std_id_count fdcan_g0_two_ids = 0.
Proof. vm_compute. repeat split; reflexivity. Qed.

(** ** The bank invariant *)

(** C7. In every state a bxCAN builder of 14 or 28 banks reaches by [begin]
    followed by calls of [add_std_id], [add_ext_id], [add_std_range],
    [add_ext_range] and [end], [bank <= max_banks], and from index [bank] on
    [FR1[i]] and [FR2[i]] are zero and bit [i] of [FA1R] is clear. *)
Theorem bxcan_bank_invariant (B dev : Z) (st : Bxcan.t) :
  B = 14 \/ B = 28 -> Bxcan.reachable B dev st -> Bxcan.bank_invariant B st.
Proof.
  intros HB. apply reachable_bank_invariant. destruct HB; subst; lia.
Qed.

(** C7 after a range, an extended identifier, [end] and one more identifier
    on bxCAN-14. *)
Lemma bxcan_bank_invariant_witness :
  Bxcan.bank_invariant 14
    (Bxcan.run 14 (snd (Bxcan.begin 14 CANFILTER_DEV_BXCAN_F0 (Bxcan.new 14)))
       [Bxcan.Add_std_range 0 0x2FF; Bxcan.Add_ext_id 0x1FFFF0; Bxcan.End_;
        Bxcan.Add_std_id 0x100]).
Proof.
  apply (bxcan_bank_invariant 14 CANFILTER_DEV_BXCAN_F0).
  - left. reflexivity.
  - exists (Bxcan.new 14). eexists. split; [|reflexivity].
    repeat split; reflexivity.
Defined.

(** ** No parameter error from a range *)

(** C10. With both ends in the 11-bit space every (id, mask) pair of the loop
    of [add_std_range] has [id <= 0x7FF] and [mask <= 0x7FF], and on a builder
    in use the call returns [CANFILTER_SUCCESS] or [CANFILTER_ERROR_FULL],
    never [CANFILTER_ERROR_PARAM]; likewise for [add_ext_range] and
    [0x1FFFFFFF]. *)
Theorem range_never_param :
  (forall (B dev : Z) (st : Bxcan.t) (b e : Z),
     Bxcan.reachable B dev st -> 0 <= b <= max_std_id -> 0 <= e <= max_std_id ->
     Forall (fun blk => 0 <= fst blk <= max_std_id /\ 0 <= snd blk <= max_std_id)
            (Bxcan.std_range_blocks b e) /\
     success_or_full (fst (Bxcan.add_std_range B st b e))) /\
  (forall (B dev : Z) (st : Bxcan.t) (b e : Z),
     Bxcan.reachable B dev st -> 0 <= b <= max_ext_id -> 0 <= e <= max_ext_id ->
     Forall (fun blk => 0 <= fst blk <= max_ext_id /\ 0 <= snd blk <= max_ext_id)
            (Bxcan.ext_range_blocks b e) /\
     success_or_full (fst (Bxcan.add_ext_range B st b e))).
Proof.
  split; intros B dev st b e Hr Hb He; (split; [|]).
  - apply std_range_blocks_bounds; assumption.
  - apply add_std_range_ok; [eapply reachable_accumulators_ok; eauto|lia|lia].
  - apply ext_range_blocks_bounds; assumption.
  - apply add_ext_range_ok; [eapply reachable_accumulators_ok; eauto|lia|lia].
Qed.

(** C10 at a swapped standard range and on a full bxCAN-14. *)
Lemma range_never_param_witness :
  success_or_full (fst (Bxcan.add_std_range 14 bxcan_f0_one_id 0x2FF 0x001)) /\
  success_or_full (fst (Bxcan.add_ext_range 14 bxcan_f0_full 0x800 0x801)).
Proof.
  split.
  - apply (proj1 range_never_param 14 CANFILTER_DEV_BXCAN_F0 bxcan_f0_one_id 0x2FF 0x001).
    + exists (Bxcan.new 14), [Bxcan.Add_std_id 0x100]. split; [|reflexivity].
      repeat split; reflexivity.
    + unfold max_std_id. lia.
    + unfold max_std_id. lia.
  - apply (proj2 range_never_param 14 CANFILTER_DEV_BXCAN_F0 bxcan_f0_full 0x800 0x801).
    + exists (Bxcan.new 14), [Bxcan.Add_ext_range 0x801 0xFFFE]. split; [|reflexivity].
      repeat split; reflexivity.
    + unfold max_ext_id. lia.
    + unfold max_ext_id. lia.
Defined.

(** ** The parser *)

Lemma skip_space_all (s : list ascii) :
  Forall (fun c => isspace c = true) s -> skip_space s = [].
Proof.
  induction 1 as [|c s Hc _ IH]; cbn; [reflexivity|]. rewrite Hc. exact IH.
Qed.

Section Parse_facts.
Context {St Img : Type}.
Variable ops : canfilter St Img.

(** The loop on any builder runs as it does on the recorder: same result,
    and the builder has received the recorded calls. *)
Lemma parse_loop_recorded (fuel : nat) (st : St) (log : list directive)
    (s : list ascii) :
  fst (parse_loop ops fuel st s) = fst (parse_loop recorder fuel log s) /\
  exists ds,
    snd (parse_loop recorder fuel log s) = log ++ ds /\
    snd (parse_loop ops fuel st s) = fold_left (dispatch ops) ds st.
Proof.
  revert st log s. induction fuel as [|fuel IH]; intros st log s.
  - cbn. split; [reflexivity|]. exists []. rewrite app_nil_r. auto.
  - assert (Hstop : forall b : bool,
              fst (b, st) = fst (b, log) /\
              exists ds, snd (b, log) = log ++ ds /\
                         snd (b, st) = fold_left (dispatch ops) ds st).
    { intros b. split; [reflexivity|]. exists []. rewrite app_nil_r. auto. }
    assert (Hgo : forall d rest,
              fst (parse_loop ops fuel (dispatch ops st d) rest)
              = fst (parse_loop recorder fuel (log ++ [d]) rest) /\
              exists ds,
                snd (parse_loop recorder fuel (log ++ [d]) rest) = log ++ ds /\
                snd (parse_loop ops fuel (dispatch ops st d) rest)
                = fold_left (dispatch ops) ds st).
    { intros d rest. destruct (IH (dispatch ops st d) (log ++ [d]) rest)
        as [H1 (ds & H2 & H3)].
      split; [exact H1|]. exists (d :: ds). rewrite H2, H3, <- app_assoc. auto. }
    cbn [parse_loop].
    destruct s as [|c0 s0]; [apply Hstop|].
    destruct (skip_space (c0 :: s0)) as [|c1 s1]; [apply Hstop|].
    destruct (parse_number (c1 :: s1)) as [[id1 s2]|]; [|apply Hstop].
    destruct (skip_space s2) as [|c3 s3].
    + destruct (id1 <=? max_std_id); [apply (Hgo (Std_id id1))|].
      destruct (id1 <=? max_ext_id); [apply (Hgo (Ext_id id1))|apply Hstop].
    + destruct (Ascii.eqb_spec c3 "-"%char) as [->|Hne].
      * destruct (parse_number (skip_space s3)) as [[id2 s4]|]; [|apply Hstop].
        destruct (_ && _); [apply (Hgo (Std_range id1 id2))|].
        destruct (_ && _); [apply (Hgo (Ext_range id1 id2))|apply Hstop].
      * assert (forall (A : Type) (x y : A),
                  match c3 with "-"%char => x | _ => y end = y) as Hm.
        { intros A x y. destruct c3 as [[] [] [] [] [] [] [] []]; try reflexivity.
          contradiction Hne. reflexivity. }
        rewrite !Hm.
        destruct (id1 <=? max_std_id); [apply (Hgo (Std_id id1))|].
        destruct (id1 <=? max_ext_id); [apply (Hgo (Ext_id id1))|apply Hstop].
Qed.

Lemma parse_recorded (st : St) (input : string) :
  fst (parse ops st input) = fst (parse_directives input) /\
  snd (parse ops st input)
  = fold_left (dispatch ops) (snd (parse_directives input)) st.
Proof.
  unfold parse_directives, parse.
  destruct (list_ascii_of_string input) as [|c s]; [cbn; auto|].
  destruct (parse_loop_recorded (length (c :: s)) st [] (c :: s)) as [H1 (ds & H2 & H3)].
  rewrite H1, H2, H3. auto.
Qed.

Lemma parse_blank (st : St) (input : string) :
  Forall (fun c => isspace c = true) (list_ascii_of_string input) ->
  parse ops st input = (true, st).
Proof.
  intros H. unfold parse.
  destruct (list_ascii_of_string input) as [|c s] eqn:E; [reflexivity|].
  cbn [length parse_loop]. rewrite skip_space_all by exact H. reflexivity.
Qed.

End Parse_facts.

(** ** Texts without a directive *)

(** C6 fails as stated: [parse] returns false on a lone comma. *)
Lemma parse_comma_fails :
  parse_directives "," = (false, []) /\
  fst (parse canfilter_bxcan_f0 bxcan_f0_begun ",") = false.
Proof. split; reflexivity. Qed.

(** C6, amended. On the empty text and on a text of white space only,
    [parse] returns true and calls no builder operation; on the text of one
    comma it returns false, no builder operation called either. *)
Theorem parse_empty_blank_comma :
  forall (St Img : Type) (ops : canfilter St Img) (st : St),
    parse ops st EmptyString = (true, st) /\
    (forall input : string,
       Forall (fun c => isspace c = true) (list_ascii_of_string input) ->
       parse ops st input = (true, st) /\ parse_directives input = (true, [])) /\
    parse ops st "," = (false, st) /\
    parse_directives EmptyString = (true, []) /\
    parse_directives "," = (false, []).
Proof.
  intros St Img ops st. split; [reflexivity|]. split; [|repeat split; reflexivity].
  intros input H. split; apply parse_blank; exact H.
Qed.

(** C6 at a text of spaces and a tab. *)
Lemma parse_empty_blank_comma_witness :
  parse canfilter_fdcan_g0 fdcan_g0_begun "  	 " = (true, fdcan_g0_begun) /\
  parse_directives "  	 " = (true, []).
Proof.
  apply (proj1 (proj2 (parse_empty_blank_comma _ _ canfilter_fdcan_g0 fdcan_g0_begun))).
  repeat constructor.
Defined.

(** ** Well-formed texts parse *)

























(** ** [parse] and the builder's error codes *)



(** ** The orchestrator *)

Section Orchestrator.
Variable env : usb_env.
Variable filter_def : string.

Lemma compile_and_ship_spec {St : Type} (ops : canfilter St hw_image) (obj : St)
    (trace : list usb_event) :
  existsb is_set_filter trace = false ->
  let r := compile_and_ship env ops obj filter_def trace in
  (fst (parse_directives filter_def) = false ->
   fst r = false /\ existsb is_set_filter (snd r) = false) /\
  (fst (parse_directives filter_def) = true ->
   exists image size,
     snd r = (trace ++ [Ev_set_filter image size])%list /\
     fst r = programFilter env image size).
Proof.
  intros Htr. unfold compile_and_ship.
  pose proof (parse_recorded ops (snd (begin ops obj)) filter_def) as [Hp _].
  destruct (parse ops (snd (begin ops obj)) filter_def) as [ok st].
  cbn [fst] in Hp. rewrite <- Hp. cbn zeta. split; intros ->; cbn [negb].
  - auto.
  - exists (get_hw_config ops (snd (end_ ops st))), (get_hw_size ops).
    destruct (programFilter env _ _); cbn; split; reflexivity.
Qed.

End Orchestrator.

(** C8 fails as stated: on a bxCAN-14 device and the text 0x801-0xFFFE, [end]
    returns [CANFILTER_ERROR_FULL], and the image is sent all the same and the
    result is true. *)
Lemma set_filter_after_failed_end :
  fst (end_ canfilter_bxcan_f0
         (snd (parse canfilter_bxcan_f0 bxcan_f0_begun "0x801-0xFFFE")))
  = CANFILTER_ERROR_FULL /\
  fst (setHardwareFilter usb_env_bxcan_f0 "0x801-0xFFFE") = true /\
  existsb is_set_filter (snd (setHardwareFilter usb_env_bxcan_f0 "0x801-0xFFFE"))
  = true.
Proof. vm_compute. repeat split; reflexivity. Qed.

(** C8, amended. When the driver check, the interface resolution, the USB
    open, the capability probe (transfer or feature bit), the choice of the
    filter identity or the parse fails, [setHardwareFilter] returns false and
    makes no [SET_FILTER] transfer.  Otherwise it makes exactly one, as its
    last request, and returns whether that transfer was complete.  The value
    [end] returns plays no part. *)
Theorem checked_failure_aborts (env : usb_env) (filter_def : string) :
  (fails_before_transfer env filter_def = true ->
   fst (setHardwareFilter env filter_def) = false /\
   existsb is_set_filter (snd (setHardwareFilter env filter_def)) = false) /\
  (fails_before_transfer env filter_def = false ->
   exists trace image size,
     snd (setHardwareFilter env filter_def) = (trace ++ [Ev_set_filter image size])%list /\
     existsb is_set_filter trace = false /\
     fst (setHardwareFilter env filter_def) = programFilter env image size).
Proof.
  unfold fails_before_transfer, setHardwareFilter, known_filter.
  destruct (String.eqb (driver_name env) "SocketCAN"); cbn [negb orb];
    [|split; [auto|discriminate]].
  destruct (getUsbInfoFromDeviceName env) as [[[vid pid] serial]|];
    [|split; [auto|discriminate]].
  destruct (usb_open env vid pid serial); cbn [negb orb];
    [|split; [auto|discriminate]].
  destruct (hasHardwareFilter env); cbn [negb orb];
    [|split; [auto|discriminate]].
  set (tr := (([Ev_open vid pid serial] ++ [Ev_bt_const]) ++ [Ev_get_filter])%list).
  assert (existsb is_set_filter tr = false) as Htr by reflexivity.
  assert (Hk : forall (St : Type) (ops : canfilter St hw_image) (obj : St),
            let r := compile_and_ship env ops obj filter_def tr in
            (negb (fst (parse_directives filter_def)) = true ->
             fst r = false /\ existsb is_set_filter (snd r) = false) /\
            (negb (fst (parse_directives filter_def)) = false ->
             exists trace image size,
               snd r = (trace ++ [Ev_set_filter image size])%list /\
               existsb is_set_filter trace = false /\
               fst r = programFilter env image size)).
  { intros St ops obj r.
    destruct (compile_and_ship_spec env filter_def ops obj tr Htr) as [H1 H2].
    fold r in H1, H2.
    destruct (fst (parse_directives filter_def)); cbn [negb]; split;
      try discriminate; auto.
    intros _. destruct (H2 eq_refl) as (image & size & E1 & E2).
    exists tr, image, size. auto. }
  destruct (getFilterInfo env =? CANFILTER_DEV_BXCAN_F0); [apply Hk|].
  destruct (getFilterInfo env =? CANFILTER_DEV_BXCAN_F4); [apply Hk|].
  destruct (getFilterInfo env =? CANFILTER_DEV_FDCAN_G0); [apply Hk|].
  destruct (getFilterInfo env =? CANFILTER_DEV_FDCAN_H7); [apply Hk|].
  cbn [negb orb]. split; [auto|discriminate].
Qed.

(** C8 on a device whose capability has the filter bit clear. *)
Lemma checked_failure_aborts_witness :
  fst (setHardwareFilter usb_env_no_filter "0x100") = false /\
  existsb is_set_filter (snd (setHardwareFilter usb_env_no_filter "0x100")) = false.
Proof.
  apply (proj1 (checked_failure_aborts usb_env_no_filter "0x100")).
  reflexivity.
Defined.

(** * Further properties *)

(** ** More on the decomposition *)

Section Single_block.
Variable W : Z.
Variable MAX : Z.
Hypothesis HW : 0 <= W <= 31.
Hypothesis HMAX : MAX = 2 ^ W - 1.

(** On an aligned block of [2^k] identifiers [largest_prefix] is [W - k]. *)
Lemma largest_prefix_aligned (b k : Z) :
  0 <= k <= W -> 0 <= b -> b mod 2 ^ k = 0 -> b + 2 ^ k - 1 <= MAX ->
  Cidr.largest_prefix W b (b + 2 ^ k - 1) = W - k.
Proof.
  intros Hk Hb Hal Hfit. pose proof (pow2_pos k ltac:(lia)) as Hpos.
  pose proof (largest_prefix_spec W MAX HW HMAX b (b + 2 ^ k - 1)) as Hs.
  cbn zeta in Hs. destruct Hs as (Hp & Hal' & Hfit' & Hmax); [lia|lia|].
  set (p := Cidr.largest_prefix W b (b + 2 ^ k - 1)) in *.
  assert (W - p <= k) as H1.
  { destruct (Z_le_dec (W - p) k) as [|Hgt]; [assumption|exfalso].
    assert (2 ^ (k + 1) <= 2 ^ (W - p)) by (apply pow2_le_mono; lia).
    rewrite Z.pow_add_r in * by lia. change (2 ^ 1) with 2 in *. lia. }
  assert (k <= W - p) as H2.
  { destruct (Z_le_dec k (W - p)) as [|Hgt]; [assumption|exfalso].
    apply (Hmax k); [lia|]. split; [assumption|lia]. }
  lia.
Qed.

Lemma range_blocks_aligned (fuel : nat) (b k : Z) :
  0 <= k <= W -> 0 <= b -> b mod 2 ^ k = 0 -> b + 2 ^ k - 1 <= MAX ->
  Cidr.range_blocks W MAX (S fuel) b (b + 2 ^ k - 1)
  = [(b, Cidr.prefix_mask W MAX (W - k))].
Proof.
  intros Hk Hb Hal Hfit. pose proof (pow2_pos k ltac:(lia)) as Hpos.
  cbn [Cidr.range_blocks]. destruct (Z.leb_spec b (b + 2 ^ k - 1)); [|lia].
  cbn zeta. rewrite largest_prefix_aligned by assumption.
  rewrite (prefix_size_eq W HW) by lia.
  replace (W - (W - k)) with k by lia.
  assert (2 ^ k <= 2 ^ W) by (apply pow2_le_mono; lia).
  assert (2 ^ W <= 2 ^ 31) by (apply pow2_le_mono; lia).
  rewrite u32_small by lia. f_equal.
  destruct fuel as [|fuel]; [reflexivity|]. cbn [Cidr.range_blocks].
  destruct (Z.leb_spec (b + 2 ^ k) (b + 2 ^ k - 1)); [lia|reflexivity].
Qed.

(** The value of a prefix mask. *)
Lemma prefix_mask_value (p : Z) :
  0 <= p <= W -> Cidr.prefix_mask W MAX p = 2 ^ W - 2 ^ (W - p).
Proof.
  intros Hp. unfold Cidr.prefix_mask, u32.
  rewrite (MAX_ones W MAX HW HMAX). change 0xFFFFFFFF with (Z.ones 32).
  rewrite <- Z.land_ones by lia.
  transitivity (Z.shiftl (Z.ones p) (W - p)).
  - Z.bitblast.
  - rewrite Z.shiftl_mul_pow2, Z.ones_equiv by lia.
    replace (Z.pred (2 ^ p) * 2 ^ (W - p)) with (2 ^ p * 2 ^ (W - p) - 2 ^ (W - p)) by lia.
    rewrite <- Z.pow_add_r by lia. do 2 f_equal. lia.
Qed.

End Single_block.

(** An aligned standard block is one entry. *)
Lemma std_aligned_block (b k : Z) :
  0 <= k <= 11 -> 0 <= b -> b mod 2 ^ k = 0 -> b + 2 ^ k - 1 <= max_std_id ->
  Bxcan.std_range_blocks b (b + 2 ^ k - 1) = [(b, 2 ^ 11 - 2 ^ k)] /\
  Bxcan.std_range_blocks (b + 2 ^ k - 1) b = [(b, 2 ^ 11 - 2 ^ k)] /\
  forall B st,
    Bxcan.add_std_range B st b (b + 2 ^ k - 1)
    = (if k =? 0 then Bxcan.add_std_list B st b
       else Bxcan.add_std_mask B st b (2 ^ 11 - 2 ^ k)).
Proof.
  intros Hk Hb Hal Hfit. pose proof (pow2_pos k ltac:(lia)) as Hpos.
  destruct std_width as [HW HM].
  assert (Hblk : Bxcan.std_range_blocks b (b + 2 ^ k - 1) = [(b, 2 ^ 11 - 2 ^ k)]).
  { unfold Bxcan.std_range_blocks.
    destruct (Z.ltb_spec (b + 2 ^ k - 1) b); [lia|].
    change (Cidr.range_fuel 11) with 23%nat.
    rewrite (range_blocks_aligned 11 max_std_id HW HM) by assumption.
    rewrite (prefix_mask_value 11 max_std_id HW HM) by lia.
    replace (11 - (11 - k)) with k by lia. reflexivity. }
  split; [exact Hblk|]. split.
  - unfold Bxcan.std_range_blocks in *.
    destruct (Z.ltb_spec (b + 2 ^ k - 1) b) as [|Hge]; [lia|].
    destruct (Z.ltb_spec b (b + 2 ^ k - 1)) as [|Hge']; [exact Hblk|].
    replace (b + 2 ^ k - 1) with b in * by lia. exact Hblk.
  - intros B st. rewrite add_std_range_feed by lia. rewrite Hblk.
    cbn [Bxcan.feed]. unfold Bxcan.std_block. cbn [fst snd].
    destruct (Z.eqb_spec k 0) as [->|Hk0].
    + change (2 ^ 11 - 2 ^ 0 =? max_std_id) with true. cbn iota.
      destruct (Bxcan.add_std_list B st b) as [err st']. destruct err; reflexivity.
    + assert (2 <= 2 ^ k).
      { change 2 with (2 ^ 1) at 1. apply pow2_le_mono. lia. }
      destruct (Z.eqb_spec (2 ^ 11 - 2 ^ k) max_std_id) as [E|_];
        [unfold max_std_id in E; lia|].
      destruct (Bxcan.add_std_mask B st b _) as [err st']. destruct err; reflexivity.
Qed.

(** An aligned extended block is one entry. *)
Lemma ext_aligned_block (b k : Z) :
  0 <= k <= 29 -> 0 <= b -> b mod 2 ^ k = 0 -> b + 2 ^ k - 1 <= max_ext_id ->
  Bxcan.ext_range_blocks b (b + 2 ^ k - 1) = [(b, 2 ^ 29 - 2 ^ k)] /\
  Bxcan.ext_range_blocks (b + 2 ^ k - 1) b = [(b, 2 ^ 29 - 2 ^ k)] /\
  forall B st,
    Bxcan.add_ext_range B st b (b + 2 ^ k - 1)
    = (if k =? 0 then Bxcan.add_ext_list B st b
       else Bxcan.add_ext_mask B st b (2 ^ 29 - 2 ^ k)).
Proof.
  intros Hk Hb Hal Hfit. pose proof (pow2_pos k ltac:(lia)) as Hpos.
  destruct ext_width as [HW HM].
  assert (Hblk : Bxcan.ext_range_blocks b (b + 2 ^ k - 1) = [(b, 2 ^ 29 - 2 ^ k)]).
  { unfold Bxcan.ext_range_blocks.
    destruct (Z.ltb_spec (b + 2 ^ k - 1) b); [lia|].
    change (Cidr.range_fuel 29) with 59%nat.
    rewrite (range_blocks_aligned 29 max_ext_id HW HM) by assumption.
    rewrite (prefix_mask_value 29 max_ext_id HW HM) by lia.
    replace (29 - (29 - k)) with k by lia. reflexivity. }
  split; [exact Hblk|]. split.
  - unfold Bxcan.ext_range_blocks in *.
    destruct (Z.ltb_spec (b + 2 ^ k - 1) b) as [|Hge]; [lia|].
    destruct (Z.ltb_spec b (b + 2 ^ k - 1)) as [|Hge']; [exact Hblk|].
    replace (b + 2 ^ k - 1) with b in * by lia. exact Hblk.
  - intros B st. rewrite add_ext_range_feed by lia. rewrite Hblk.
    cbn [Bxcan.feed]. unfold Bxcan.ext_block. cbn [fst snd].
    destruct (Z.eqb_spec k 0) as [->|Hk0].
    + change (2 ^ 29 - 2 ^ 0 =? max_ext_id) with true. cbn iota.
      destruct (Bxcan.add_ext_list B st b) as [err st']. destruct err; reflexivity.
    + assert (2 <= 2 ^ k).
      { change 2 with (2 ^ 1) at 1. apply pow2_le_mono. lia. }
      destruct (Z.eqb_spec (2 ^ 29 - 2 ^ k) max_ext_id) as [E|_];
        [unfold max_ext_id in E; lia|].
      destruct (Bxcan.add_ext_mask B st b _) as [err st']. destruct err; reflexivity.
Qed.

(** X1. A range that is one aligned block of [2^k] identifiers is handed to
    the accumulators as one entry, with mask [2^W - 2^k]: a mask pair, or a
    list identifier when [k = 0]. *)
Theorem aligned_block_one_entry :
  (forall b k : Z,
     0 <= k <= 11 -> 0 <= b -> b mod 2 ^ k = 0 -> b + 2 ^ k - 1 <= max_std_id ->
     Bxcan.std_range_blocks b (b + 2 ^ k - 1) = [(b, 2 ^ 11 - 2 ^ k)] /\
     Bxcan.std_range_blocks (b + 2 ^ k - 1) b = [(b, 2 ^ 11 - 2 ^ k)] /\
     forall B st,
       Bxcan.add_std_range B st b (b + 2 ^ k - 1)
       = (if k =? 0 then Bxcan.add_std_list B st b
          else Bxcan.add_std_mask B st b (2 ^ 11 - 2 ^ k))) /\
  (forall b k : Z,
     0 <= k <= 29 -> 0 <= b -> b mod 2 ^ k = 0 -> b + 2 ^ k - 1 <= max_ext_id ->
     Bxcan.ext_range_blocks b (b + 2 ^ k - 1) = [(b, 2 ^ 29 - 2 ^ k)] /\
     Bxcan.ext_range_blocks (b + 2 ^ k - 1) b = [(b, 2 ^ 29 - 2 ^ k)] /\
     forall B st,
       Bxcan.add_ext_range B st b (b + 2 ^ k - 1)
       = (if k =? 0 then Bxcan.add_ext_list B st b
          else Bxcan.add_ext_mask B st b (2 ^ 29 - 2 ^ k))).
Proof. split; [exact std_aligned_block|exact ext_aligned_block]. Qed.

(** X1 at the standard block 0x200-0x2FF and the extended block
    0x1FFF0000-0x1FFFFFFF. *)
Lemma aligned_block_one_entry_witness :
  Bxcan.std_range_blocks 0x200 (0x200 + 2 ^ 8 - 1) = [(0x200, 2 ^ 11 - 2 ^ 8)] /\
  Bxcan.ext_range_blocks 0x1FFF0000 (0x1FFF0000 + 2 ^ 16 - 1)
  = [(0x1FFF0000, 2 ^ 29 - 2 ^ 16)].
Proof.
  split.
  - apply (proj1 aligned_block_one_entry 0x200 8); unfold max_std_id;
      try reflexivity; lia.
  - apply (proj2 aligned_block_one_entry 0x1FFF0000 16); unfold max_ext_id;
      try reflexivity; lia.
Defined.

(** X2. The entries of a range come in ascending order and without gaps: the
    first block starts at the lower end, each next block starts right after
    the one before, and the last block ends at the upper end. *)
Theorem range_blocks_ascending :
  (forall a b : Z, 0 <= a <= max_std_id -> 0 <= b <= max_std_id ->
     Cover.chain max_std_id (Z.min a b) (Bxcan.std_range_blocks a b) (Z.max a b + 1)) /\
  (forall a b : Z, 0 <= a <= max_ext_id -> 0 <= b <= max_ext_id ->
     Cover.chain max_ext_id (Z.min a b) (Bxcan.ext_range_blocks a b) (Z.max a b + 1)).
Proof.
  split; intros a b Ha Hb.
  - destruct std_width as [HW HM]. unfold Bxcan.std_range_blocks.
    destruct (Z.ltb_spec b a).
    + rewrite Z.min_r, Z.max_l by lia.
      rewrite (range_blocks_constant_fuel 11 max_std_id HW HM) by lia.
      destruct (range_blocks_chain 11 max_std_id HW HM (Z.to_nat (a + 1 - b)) b a)
        as [Hc _]; [lia|lia|lia|].
      replace (Z.max b (a + 1)) with (a + 1) in Hc by lia. exact Hc.
    + rewrite Z.min_l, Z.max_r by lia.
      rewrite (range_blocks_constant_fuel 11 max_std_id HW HM) by lia.
      destruct (range_blocks_chain 11 max_std_id HW HM (Z.to_nat (b + 1 - a)) a b)
        as [Hc _]; [lia|lia|lia|].
      replace (Z.max a (b + 1)) with (b + 1) in Hc by lia. exact Hc.
  - destruct ext_width as [HW HM]. unfold Bxcan.ext_range_blocks.
    destruct (Z.ltb_spec b a).
    + rewrite Z.min_r, Z.max_l by lia.
      rewrite (range_blocks_constant_fuel 29 max_ext_id HW HM) by lia.
      destruct (range_blocks_chain 29 max_ext_id HW HM (Z.to_nat (a + 1 - b)) b a)
        as [Hc _]; [lia|lia|lia|].
      replace (Z.max b (a + 1)) with (a + 1) in Hc by lia. exact Hc.
    + rewrite Z.min_l, Z.max_r by lia.
      rewrite (range_blocks_constant_fuel 29 max_ext_id HW HM) by lia.
      destruct (range_blocks_chain 29 max_ext_id HW HM (Z.to_nat (b + 1 - a)) a b)
        as [Hc _]; [lia|lia|lia|].
      replace (Z.max a (b + 1)) with (b + 1) in Hc by lia. exact Hc.
Qed.

(** X2 at the standard range 0x2FF-0 and the extended range 0x801-0xFFFE. *)
Lemma range_blocks_ascending_witness :
  Cover.chain max_std_id 0 (Bxcan.std_range_blocks 0x2FF 0) (0x2FF + 1) /\
  Cover.chain max_ext_id 0x801 (Bxcan.ext_range_blocks 0x801 0xFFFE) (0xFFFE + 1).
Proof.
  split.
  - apply (proj1 range_blocks_ascending 0x2FF 0); unfold max_std_id; lia.
  - apply (proj2 range_blocks_ascending 0x801 0xFFFE); unfold max_ext_id; lia.
Defined.

(** X3. The order of the two ends of a range does not matter, on either
    back-end and in either space. *)
Theorem range_ends_commute :
  (forall B st a b, Bxcan.add_std_range B st a b = Bxcan.add_std_range B st b a) /\
  (forall B st a b, Bxcan.add_ext_range B st a b = Bxcan.add_ext_range B st b a) /\
  (forall S_max st a b,
     Fdcan.add_std_range S_max st a b = Fdcan.add_std_range S_max st b a) /\
  (forall E_max st a b,
     Fdcan.add_ext_range E_max st a b = Fdcan.add_ext_range E_max st b a).
Proof.
  repeat split.
  - intros B st a b. unfold Bxcan.add_std_range.
    rewrite (orb_comm (max_std_id <? a)). destruct (_ || _); [reflexivity|].
    destruct (Z.ltb_spec b a), (Z.ltb_spec a b); try reflexivity; try lia.
    replace b with a by lia. reflexivity.
  - intros B st a b. unfold Bxcan.add_ext_range.
    rewrite (orb_comm (max_ext_id <? a)). destruct (_ || _); [reflexivity|].
    destruct (Z.ltb_spec b a), (Z.ltb_spec a b); try reflexivity; try lia.
    replace b with a by lia. reflexivity.
  - intros S_max st a b. unfold Fdcan.add_std_range.
    rewrite (orb_comm (max_std_id <? a)). destruct (_ || _); [reflexivity|].
    destruct (Z.leb_spec a b), (Z.leb_spec b a); try reflexivity; try lia.
    replace b with a by lia. reflexivity.
  - intros E_max st a b. unfold Fdcan.add_ext_range.
    rewrite (orb_comm (max_ext_id <? a)). destruct (_ || _); [reflexivity|].
    destruct (Z.leb_spec a b), (Z.leb_spec b a); try reflexivity; try lia.
    replace b with a by lia. reflexivity.
Qed.

(** ** Bit fields *)

Lemma low_bits_iff (x m : Z) : 0 <= m -> (0 <= x < 2 ^ m <-> Z.land x (Z.ones m) = x).
Proof.
  intros Hm. rewrite Z.land_ones by lia. split.
  - intros H. apply Z.mod_small. exact H.
  - intros <-. apply Z.mod_pos_bound. apply pow2_pos. exact Hm.
Qed.

Lemma std_id_bits (a : Z) : 0 <= a <= max_std_id -> Z.land a (Z.ones 11) = a.
Proof. intros H. apply low_bits_iff; [lia|]. unfold max_std_id in H. lia. Qed.

Lemma ext_id_bits (a : Z) : 0 <= a <= max_ext_id -> Z.land a (Z.ones 29) = a.
Proof. intros H. apply low_bits_iff; [lia|]. unfold max_ext_id in H. lia. Qed.

(** The two 16-bit halves of a standard bank register. *)
Lemma std_register_fields (a b : Z) :
  0 <= a <= max_std_id -> 0 <= b <= max_std_id ->
  let w := Z.lor (u32 (Z.shiftl b 21)) (u32 (Z.shiftl a 5)) in
  Z.land (Z.shiftr w 5) max_std_id = a /\
  Z.land (Z.shiftr w 21) max_std_id = b /\
  0 <= w < 2 ^ 32.
Proof.
  intros Ha Hb w. subst w.
  apply std_id_bits in Ha. apply std_id_bits in Hb.
  change max_std_id with (Z.ones 11). unfold u32.
  rewrite <- !Z.land_ones by lia.
  split; [|split].
  - rewrite <- Ha at 2. rewrite <- Ha at 1. rewrite <- Hb. Z.bitblast.
  - rewrite <- Hb at 2. rewrite <- Ha at 1. rewrite <- Hb at 1. Z.bitblast.
  - apply low_bits_iff; [lia|]. Z.bitblast.
Qed.

(** An extended identifier register, with the IDE bit. *)
Lemma ext_register_id (a : Z) :
  0 <= a <= max_ext_id ->
  let w := Z.lor (u32 (Z.shiftl a 3)) (Z.shiftl 1 2) in
  Z.land (Z.shiftr w 3) max_ext_id = a /\ 0 <= w < 2 ^ 32.
Proof.
  intros Ha w. subst w. apply ext_id_bits in Ha.
  change max_ext_id with (Z.ones 29). unfold u32.
  rewrite <- !Z.land_ones by lia. change (Z.shiftl 1 2) with 4.
  split.
  - rewrite <- Ha at 2. rewrite <- Ha at 1.
    apply Z.bits_inj'. intros n Hn.
    rewrite !Z.land_spec, Z.shiftr_spec, Z.lor_spec, !Z.land_spec by lia.
    rewrite Z.shiftl_spec by lia.
    replace (n + 3 - 3) with n by lia.
    change 4 with (2 ^ 2). rewrite Z.pow2_bits_eqb by lia.
    destruct (Z.eqb_spec 2 (n + 3)); [lia|].
    rewrite orb_false_r, !Z.land_spec.
    destruct (Z_lt_dec n 29).
    + rewrite (Z.ones_spec_low 29 n), (Z.ones_spec_low 32 (n + 3)) by lia.
      rewrite !andb_true_r. reflexivity.
    + rewrite (Z.ones_spec_high 29 n) by lia. rewrite !andb_false_r. reflexivity.
  - apply low_bits_iff; [lia|].
    apply Z.bits_inj'. intros n Hn.
    rewrite !Z.land_spec, Z.lor_spec, !Z.land_spec.
    change 4 with (2 ^ 2). rewrite Z.pow2_bits_eqb by lia.
    destruct (Z_lt_dec n 32).
    + rewrite (Z.ones_spec_low 32 n) by lia. rewrite !andb_true_r. reflexivity.
    + rewrite (Z.ones_spec_high 32 n) by lia.
      destruct (Z.eqb_spec 2 n); [lia|]. rewrite !andb_false_r. reflexivity.
Qed.

(** An extended mask register. *)
Lemma ext_register_mask (m : Z) :
  0 <= m <= max_ext_id ->
  let w := u32 (Z.shiftl m 3) in
  Z.land (Z.shiftr w 3) max_ext_id = m /\ 0 <= w < 2 ^ 32.
Proof.
  intros Hm w. subst w. apply ext_id_bits in Hm.
  change max_ext_id with (Z.ones 29). unfold u32.
  rewrite <- !Z.land_ones by lia.
  split.
  - rewrite <- Hm at 2. rewrite <- Hm at 1. Z.bitblast.
  - apply low_bits_iff; [lia|]. Z.bitblast.
Qed.

(** The bit of a bank in a global register. *)
Lemma bank_bit (n : Z) : 0 <= n < 32 -> u32 (Z.shiftl 1 n) = 2 ^ n.
Proof.
  intros Hn. rewrite Z.shiftl_1_l. apply u32_small.
  split; [apply Z.lt_le_incl, pow2_pos; lia|apply Z.pow_lt_mono_r; lia].
Qed.

Lemma bank_bit_set (x n : Z) :
  0 <= n < 32 -> negb (Z.land (Z.lor x (u32 (Z.shiftl 1 n))) (u32 (Z.shiftl 1 n)) =? 0) = true.
Proof.
  intros Hn. rewrite bank_bit by lia. rewrite land_pow2_zero by lia.
  rewrite negb_involutive, Z.lor_spec, Z.pow2_bits_true by lia. apply orb_true_r.
Qed.

Lemma bank_bit_clear (x n : Z) :
  0 <= n < 32 ->
  negb (Z.land (Z.land x (u32 (Z.lnot (Z.shiftl 1 n)))) (u32 (Z.shiftl 1 n)) =? 0) = false.
Proof.
  intros Hn. rewrite bank_bit by lia. rewrite land_pow2_zero by lia.
  rewrite negb_involutive, Z.land_spec. unfold u32.
  rewrite Z.mod_pow2_bits_low, Z.lnot_spec, Z.shiftl_1_l, Z.pow2_bits_true by lia.
  apply andb_false_r.
Qed.

(** The other bits stay. *)
Lemma bank_bit_other_set (x n i : Z) :
  i <> n -> Z.testbit (Z.lor x (u32 (Z.shiftl 1 n))) i = Z.testbit x i.
Proof.
  intros Hne. rewrite Z.lor_spec.
  destruct (Z_lt_dec i 0); [rewrite !Z.testbit_neg_r by lia; reflexivity|].
  assert (Z.testbit (u32 (Z.shiftl 1 n)) i = false) as ->; [|apply orb_false_r].
  unfold u32. destruct (Z_lt_dec i 32).
  - rewrite Z.mod_pow2_bits_low by lia. rewrite Z.shiftl_spec by lia.
    destruct (Z_lt_dec (i - n) 0); [apply Z.testbit_neg_r; lia|].
    change 1 with (2 ^ 0). apply Z.pow2_bits_false. lia.
  - apply Z.mod_pow2_bits_high. lia.
Qed.

Lemma bank_bit_other_clear (x n i : Z) :
  0 <= n -> 0 <= i < 32 -> i <> n ->
  Z.testbit (Z.land x (u32 (Z.lnot (Z.shiftl 1 n)))) i = Z.testbit x i.
Proof.
  intros Hn Hi Hne. rewrite Z.land_spec. unfold u32.
  rewrite Z.mod_pow2_bits_low, Z.lnot_spec, Z.shiftl_1_l by lia.
  rewrite Z.pow2_bits_false by lia. apply andb_true_r.
Qed.

(** ** bxCAN: reading an image back *)

Section Bxcan_decode.
Variable B : Z.
Hypothesis HB : 0 <= B <= 32.

(** What [debug_print] reads at a bank just written. *)
Lemma debug_bank_written (hw : Bxcan.hw_t) (n v1 v2 : Z) (s32 lm : bool) :
  0 <= n < B ->
  length (Bxcan.fr1 hw) = Z.to_nat B -> length (Bxcan.fr2 hw) = Z.to_nat B ->
  let hw' := Bxcan.write_bank hw n v1 v2 s32 lm in
  Bxcan.fr1 hw' !!! Z.to_nat n = v1 /\ Bxcan.fr2 hw' !!! Z.to_nat n = v2 /\
  negb (Z.land (Bxcan.fa1r hw') (u32 (Z.shiftl 1 n)) =? 0) = true /\
  negb (Z.land (Bxcan.fs1r hw') (u32 (Z.shiftl 1 n)) =? 0) = s32 /\
  negb (Z.land (Bxcan.fm1r hw') (u32 (Z.shiftl 1 n)) =? 0) = lm.
Proof.
  intros Hn H1 H2 hw'. subst hw'. unfold Bxcan.write_bank. cbn.
  rewrite !list_lookup_total_insert_eq by lia.
  repeat split.
  - apply bank_bit_set. lia.
  - destruct s32; [apply bank_bit_set|apply bank_bit_clear]; lia.
  - destruct lm; [apply bank_bit_set|apply bank_bit_clear]; lia.
Qed.

End Bxcan_decode.
Section Block_decode.
Variable W : Z.
Variable MAX : Z.
Hypothesis HW : 0 <= W <= 31.
Hypothesis HMAX : MAX = 2 ^ W - 1.

(** What the mask of an aligned block of [2^k] identifiers decodes to. *)
Lemma block_mask_decode (id k : Z) :
  0 <= k <= W -> 0 <= id <= MAX -> id mod 2 ^ k = 0 ->
  Z.land id (2 ^ W - 2 ^ k) = id /\
  Z.land (Z.lor id (u32 (Z.lnot (2 ^ W - 2 ^ k)))) MAX = id + 2 ^ k - 1.
Proof.
  intros Hk Hid Hal.
  pose proof (prefix_mask_value W MAX HW HMAX (W - k) ltac:(lia)) as Hm.
  replace (W - (W - k)) with k in Hm by lia. rewrite <- Hm. split.
  - unfold Cidr.prefix_mask, u32. rewrite (MAX_ones W MAX HW HMAX).
    change 0xFFFFFFFF with (Z.ones 32). rewrite <- !Z.land_ones by lia.
    replace (W - (W - k)) with k by lia.
    apply Z.bits_inj'. intros n Hn.
    rewrite !Z.land_spec.
    destruct (Z_lt_dec n k) as [Hlt|Hge].
    + assert (Z.testbit id n = false) as ->; [|reflexivity].
      assert (Z.land id (Z.ones k) = 0) as H0 by (rewrite Z.land_ones by lia; exact Hal).
      apply (f_equal (fun z => Z.testbit z n)) in H0.
      rewrite Z.land_spec, Z.ones_spec_low, Z.bits_0, andb_true_r in H0 by lia. exact H0.
    + destruct (Z_lt_dec n W) as [HltW|HgeW].
      * rewrite Z.shiftl_spec, !Z.ones_spec_low by lia.
        rewrite !andb_true_r. reflexivity.
      * assert (Z.testbit id n = false) as ->; [|reflexivity].
        assert (Z.land id (Z.ones W) = id) as H0.
        { rewrite Z.land_ones by lia. apply Z.mod_small. lia. }
        rewrite <- H0, Z.land_spec, Z.ones_spec_high by lia. apply andb_false_r.
  - pose proof (block_last_eq W MAX HW HMAX id (W - k) ltac:(lia) Hid) as Hl.
    replace (W - (W - k)) with k in Hl by lia. apply Hl, Hal.
Qed.

End Block_decode.

Section Emit_decode.
Variable B : Z.
Variable st : Bxcan.t.
Hypothesis Hbank : 0 <= Bxcan.bank st < B.
Hypothesis HB : B <= 32.
Hypothesis H1 : length (Bxcan.fr1 (Bxcan.hw_config st)) = Z.to_nat B.
Hypothesis H2 : length (Bxcan.fr2 (Bxcan.hw_config st)) = Z.to_nat B.

Ltac decode_written :=
  cbn [Bxcan.hw_config Bxcan.set_bank Bxcan.set_hw_config];
  unfold BxcanDebug.debug_bank;
  match goal with |- context [Bxcan.write_bank ?hw ?n ?v1 ?v2 ?s ?l] =>
    destruct (debug_bank_written B ltac:(lia) hw n v1 v2 s l Hbank H1 H2)
      as (-> & -> & -> & -> & ->) end;
  cbn [negb].

Lemma emit_std_list_decode (a b c d : Z) :
  0 <= a <= max_std_id -> 0 <= b <= max_std_id ->
  0 <= c <= max_std_id -> 0 <= d <= max_std_id ->
  let r := Bxcan.emit_std_list B st a b c d in
  fst r = CANFILTER_SUCCESS /\ Bxcan.bank (snd r) = Bxcan.bank st + 1 /\
  BxcanDebug.debug_bank (Bxcan.hw_config (snd r)) (Bxcan.bank st)
  = Some (BxcanDebug.Std_list a b c d).
Proof.
  intros Ha Hb Hc Hd r. subst r. unfold Bxcan.emit_std_list.
  destruct (Z.leb_spec B (Bxcan.bank st)); [lia|].
  destruct (Z.ltb_spec max_std_id a); [lia|].
  destruct (Z.ltb_spec max_std_id b); [lia|].
  destruct (Z.ltb_spec max_std_id c); [lia|].
  destruct (Z.ltb_spec max_std_id d); [lia|].
  cbn [orb fst snd]. split; [reflexivity|]. split.
  - cbn. apply u32_small. lia.
  - decode_written.
    destruct (std_register_fields a b Ha Hb) as (-> & -> & _).
    destruct (std_register_fields c d Hc Hd) as (-> & -> & _).
    reflexivity.
Qed.

Lemma emit_ext_list_decode (a b : Z) :
  0 <= a <= max_ext_id -> 0 <= b <= max_ext_id ->
  let r := Bxcan.emit_ext_list B st a b in
  fst r = CANFILTER_SUCCESS /\ Bxcan.bank (snd r) = Bxcan.bank st + 1 /\
  BxcanDebug.debug_bank (Bxcan.hw_config (snd r)) (Bxcan.bank st)
  = Some (BxcanDebug.Ext_list a b).
Proof.
  intros Ha Hb r. subst r. unfold Bxcan.emit_ext_list.
  destruct (Z.leb_spec B (Bxcan.bank st)); [lia|].
  destruct (Z.ltb_spec max_ext_id a); [lia|].
  destruct (Z.ltb_spec max_ext_id b); [lia|].
  cbn [orb fst snd]. split; [reflexivity|]. split.
  - cbn. apply u32_small. lia.
  - decode_written.
    destruct (ext_register_id a Ha) as (-> & _).
    destruct (ext_register_id b Hb) as (-> & _).
    reflexivity.
Qed.

Lemma emit_std_mask_decode (id1 k1 id2 k2 : Z) :
  0 <= k1 <= 11 -> 0 <= id1 <= max_std_id -> id1 mod 2 ^ k1 = 0 ->
  0 <= k2 <= 11 -> 0 <= id2 <= max_std_id -> id2 mod 2 ^ k2 = 0 ->
  let r := Bxcan.emit_std_mask B st id1 (2 ^ 11 - 2 ^ k1) id2 (2 ^ 11 - 2 ^ k2) in
  fst r = CANFILTER_SUCCESS /\ Bxcan.bank (snd r) = Bxcan.bank st + 1 /\
  BxcanDebug.debug_bank (Bxcan.hw_config (snd r)) (Bxcan.bank st)
  = Some (BxcanDebug.Std_mask id1 (id1 + 2 ^ k1 - 1) id2 (id2 + 2 ^ k2 - 1)).
Proof.
  intros Hk1 Hid1 Hal1 Hk2 Hid2 Hal2 r. subst r.
  destruct std_width as [HW HM].
  pose proof (pow2_pos k1 ltac:(lia)) as Hp1.
  pose proof (pow2_pos k2 ltac:(lia)) as Hp2.
  assert (2 ^ k1 <= 2 ^ 11) as Hq1 by (apply pow2_le_mono; lia).
  assert (2 ^ k2 <= 2 ^ 11) as Hq2 by (apply pow2_le_mono; lia).
  assert (0 <= 2 ^ 11 - 2 ^ k1 <= max_std_id) as Hm1 by (unfold max_std_id; lia).
  assert (0 <= 2 ^ 11 - 2 ^ k2 <= max_std_id) as Hm2 by (unfold max_std_id; lia).
  unfold Bxcan.emit_std_mask.
  destruct (Z.leb_spec B (Bxcan.bank st)); [lia|].
  destruct (Z.ltb_spec max_std_id id1); [lia|].
  destruct (Z.ltb_spec max_std_id (2 ^ 11 - 2 ^ k1)); [lia|].
  destruct (Z.ltb_spec max_std_id id2); [lia|].
  destruct (Z.ltb_spec max_std_id (2 ^ 11 - 2 ^ k2)); [lia|].
  cbn [orb fst snd]. split; [reflexivity|]. split.
  - cbn. apply u32_small. lia.
  - decode_written.
    destruct (std_register_fields id1 _ Hid1 Hm1) as (-> & -> & _).
    destruct (std_register_fields id2 _ Hid2 Hm2) as (-> & -> & _).
    destruct (block_mask_decode 11 max_std_id HW HM id1 k1 Hk1 Hid1 Hal1) as (-> & ->).
    destruct (block_mask_decode 11 max_std_id HW HM id2 k2 Hk2 Hid2 Hal2) as (-> & ->).
    reflexivity.
Qed.

Lemma emit_ext_mask_decode (id k : Z) :
  0 <= k <= 29 -> 0 <= id <= max_ext_id -> id mod 2 ^ k = 0 ->
  let r := Bxcan.emit_ext_mask B st id (2 ^ 29 - 2 ^ k) in
  fst r = CANFILTER_SUCCESS /\ Bxcan.bank (snd r) = Bxcan.bank st + 1 /\
  BxcanDebug.debug_bank (Bxcan.hw_config (snd r)) (Bxcan.bank st)
  = Some (BxcanDebug.Ext_mask id (id + 2 ^ k - 1)).
Proof.
  intros Hk Hid Hal r. subst r.
  destruct ext_width as [HW HM].
  pose proof (pow2_pos k ltac:(lia)) as Hp.
  assert (2 ^ k <= 2 ^ 29) as Hq by (apply pow2_le_mono; lia).
  assert (0 <= 2 ^ 29 - 2 ^ k <= max_ext_id) as Hm by (unfold max_ext_id; lia).
  unfold Bxcan.emit_ext_mask.
  destruct (Z.leb_spec B (Bxcan.bank st)); [lia|].
  destruct (Z.ltb_spec max_ext_id id); [lia|].
  destruct (Z.ltb_spec max_ext_id (2 ^ 29 - 2 ^ k)); [lia|].
  cbn [orb fst snd]. split; [reflexivity|]. split.
  - cbn. apply u32_small. lia.
  - decode_written.
    destruct (ext_register_id id Hid) as (-> & _).
    destruct (ext_register_mask _ Hm) as (-> & _).
    destruct (block_mask_decode 29 max_ext_id HW HM id k Hk Hid Hal) as (-> & ->).
    reflexivity.
Qed.

End Emit_decode.

(** X4. A list bank reads back as written: after [emit_std_list] or
    [emit_ext_list] on a builder with a free bank and identifiers within
    range, [debug_print] shows at that bank a 16-bit list with the four
    identifiers, or a 32-bit list with the two, and [bank] has moved by
    one. *)
Theorem list_bank_reads_back (B : Z) (st : Bxcan.t) :
  0 <= Bxcan.bank st < B -> B <= 32 ->
  length (Bxcan.fr1 (Bxcan.hw_config st)) = Z.to_nat B ->
  length (Bxcan.fr2 (Bxcan.hw_config st)) = Z.to_nat B ->
  (forall a b c d : Z,
     0 <= a <= max_std_id -> 0 <= b <= max_std_id ->
     0 <= c <= max_std_id -> 0 <= d <= max_std_id ->
     let r := Bxcan.emit_std_list B st a b c d in
     fst r = CANFILTER_SUCCESS /\ Bxcan.bank (snd r) = Bxcan.bank st + 1 /\
     BxcanDebug.debug_bank (Bxcan.hw_config (snd r)) (Bxcan.bank st)
     = Some (BxcanDebug.Std_list a b c d)) /\
  (forall a b : Z,
     0 <= a <= max_ext_id -> 0 <= b <= max_ext_id ->
     let r := Bxcan.emit_ext_list B st a b in
     fst r = CANFILTER_SUCCESS /\ Bxcan.bank (snd r) = Bxcan.bank st + 1 /\
     BxcanDebug.debug_bank (Bxcan.hw_config (snd r)) (Bxcan.bank st)
     = Some (BxcanDebug.Ext_list a b)).
Proof.
  intros Hbank HB H1 H2. split.
  - apply emit_std_list_decode; assumption.
  - apply emit_ext_list_decode; assumption.
Qed.

(** X4 on a bxCAN-14 after [begin]. *)
Lemma list_bank_reads_back_witness :
  BxcanDebug.debug_bank
    (Bxcan.hw_config (snd (Bxcan.emit_std_list 14 bxcan_f0_begun 0x100 0x101 0x7FF 0)))
    (Bxcan.bank bxcan_f0_begun)
  = Some (BxcanDebug.Std_list 0x100 0x101 0x7FF 0) /\
  BxcanDebug.debug_bank
    (Bxcan.hw_config (snd (Bxcan.emit_ext_list 14 bxcan_f0_begun 0x800 0x1FFFFFFF)))
    (Bxcan.bank bxcan_f0_begun)
  = Some (BxcanDebug.Ext_list 0x800 0x1FFFFFFF).
Proof.
  assert (H : 0 <= Bxcan.bank bxcan_f0_begun < 14) by (vm_compute; split; [discriminate|reflexivity]).
  split.
  - apply (proj1 (list_bank_reads_back 14 bxcan_f0_begun H ltac:(lia) eq_refl eq_refl)
             0x100 0x101 0x7FF 0); unfold max_std_id; lia.
  - apply (proj2 (list_bank_reads_back 14 bxcan_f0_begun H ltac:(lia) eq_refl eq_refl)
             0x800 0x1FFFFFFF); unfold max_ext_id; lia.
Defined.

(** X5. A mask bank reads back as the block it was written for: after
    [emit_std_mask] or [emit_ext_mask] with aligned blocks of [2^k]
    identifiers and their masks [2^W - 2^k], [debug_print] shows at that bank
    the ranges [id .. id + 2^k - 1]. *)
Theorem mask_bank_reads_back (B : Z) (st : Bxcan.t) :
  0 <= Bxcan.bank st < B -> B <= 32 ->
  length (Bxcan.fr1 (Bxcan.hw_config st)) = Z.to_nat B ->
  length (Bxcan.fr2 (Bxcan.hw_config st)) = Z.to_nat B ->
  (forall id1 k1 id2 k2 : Z,
     0 <= k1 <= 11 -> 0 <= id1 <= max_std_id -> id1 mod 2 ^ k1 = 0 ->
     0 <= k2 <= 11 -> 0 <= id2 <= max_std_id -> id2 mod 2 ^ k2 = 0 ->
     let r := Bxcan.emit_std_mask B st id1 (2 ^ 11 - 2 ^ k1) id2 (2 ^ 11 - 2 ^ k2) in
     fst r = CANFILTER_SUCCESS /\ Bxcan.bank (snd r) = Bxcan.bank st + 1 /\
     BxcanDebug.debug_bank (Bxcan.hw_config (snd r)) (Bxcan.bank st)
     = Some (BxcanDebug.Std_mask id1 (id1 + 2 ^ k1 - 1) id2 (id2 + 2 ^ k2 - 1))) /\
  (forall id k : Z,
     0 <= k <= 29 -> 0 <= id <= max_ext_id -> id mod 2 ^ k = 0 ->
     let r := Bxcan.emit_ext_mask B st id (2 ^ 29 - 2 ^ k) in
     fst r = CANFILTER_SUCCESS /\ Bxcan.bank (snd r) = Bxcan.bank st + 1 /\
     BxcanDebug.debug_bank (Bxcan.hw_config (snd r)) (Bxcan.bank st)
     = Some (BxcanDebug.Ext_mask id (id + 2 ^ k - 1))).
Proof.
  intros Hbank HB H1 H2. split.
  - apply emit_std_mask_decode; assumption.
  - apply emit_ext_mask_decode; assumption.
Qed.

(** X5 on a bxCAN-14 after [begin]: the blocks 0x200-0x2FF and 0x400-0x7FF,
    and the extended block 0x1FFF0000-0x1FFFFFFF. *)
Lemma mask_bank_reads_back_witness :
  BxcanDebug.debug_bank
    (Bxcan.hw_config
       (snd (Bxcan.emit_std_mask 14 bxcan_f0_begun 0x200 (2 ^ 11 - 2 ^ 8)
                                 0x400 (2 ^ 11 - 2 ^ 10))))
    (Bxcan.bank bxcan_f0_begun)
  = Some (BxcanDebug.Std_mask 0x200 (0x200 + 2 ^ 8 - 1) 0x400 (0x400 + 2 ^ 10 - 1)) /\
  BxcanDebug.debug_bank
    (Bxcan.hw_config
       (snd (Bxcan.emit_ext_mask 14 bxcan_f0_begun 0x1FFF0000 (2 ^ 29 - 2 ^ 16))))
    (Bxcan.bank bxcan_f0_begun)
  = Some (BxcanDebug.Ext_mask 0x1FFF0000 (0x1FFF0000 + 2 ^ 16 - 1)).
Proof.
  assert (H : 0 <= Bxcan.bank bxcan_f0_begun < 14) by (vm_compute; split; [discriminate|reflexivity]).
  split.
  - apply (proj1 (mask_bank_reads_back 14 bxcan_f0_begun H ltac:(lia) eq_refl eq_refl)
             0x200 8 0x400 10); unfold max_std_id; try reflexivity; lia.
  - apply (proj2 (mask_bank_reads_back 14 bxcan_f0_begun H ltac:(lia) eq_refl eq_refl)
             0x1FFF0000 16); unfold max_ext_id; try reflexivity; lia.
Defined.

(** ** bxCAN: properties of the image alone *)

Lemma lor_u32_range (x y : Z) : 0 <= Z.lor (u32 x) (u32 y) < 2 ^ 32.
Proof.
  apply low_bits_iff; [lia|]. unfold u32. rewrite <- !Z.land_ones by lia. Z.bitblast.
Qed.

Lemma lor_ide_range (x : Z) : 0 <= Z.lor (u32 x) (Z.shiftl 1 2) < 2 ^ 32.
Proof.
  pose proof (lor_u32_range x 4) as H.
  change (u32 4) with 4 in H. exact H.
Qed.

Lemma u32_range (x : Z) : 0 <= u32 x < 2 ^ 32.
Proof. apply Z.mod_pos_bound. lia. Qed.

(** A property of the image and of [bank] that every write of a bank keeps
    is kept by every call of the interface. *)
Section Emit_lift.
Variable B : Z.
Variable P : Bxcan.t -> Prop.
Hypothesis P_acc :
  forall st st', Bxcan.hw_config st' = Bxcan.hw_config st ->
                 Bxcan.bank st' = Bxcan.bank st -> P st -> P st'.
Hypothesis P_write :
  forall st v1 v2 s32 lm,
    P st -> Bxcan.bank st < B -> 0 <= v1 < 2 ^ 32 -> 0 <= v2 < 2 ^ 32 ->
    P (Bxcan.set_bank
         (Bxcan.set_hw_config st
            (Bxcan.write_bank (Bxcan.hw_config st) (Bxcan.bank st) v1 v2 s32 lm))
         (u32 (Bxcan.bank st + 1))).

Ltac lift_emit :=
  intros HP;
  match goal with
  | |- context [if ?b <=? ?x then _ else _] => destruct (Z.leb_spec b x)
  end; [exact HP|];
  match goal with
  | |- context [if ?c then _ else _] => destruct c
  end; [exact HP|];
  cbn [snd]; apply P_write;
  [exact HP|lia|first [apply lor_u32_range|apply lor_ide_range|apply u32_range]
   |first [apply lor_u32_range|apply lor_ide_range|apply u32_range]].

Lemma emit_std_list_lift (st : Bxcan.t) (a b c d : Z) :
  P st -> P (snd (Bxcan.emit_std_list B st a b c d)).
Proof. unfold Bxcan.emit_std_list. lift_emit. Qed.

Lemma emit_std_mask_lift (st : Bxcan.t) (a b c d : Z) :
  P st -> P (snd (Bxcan.emit_std_mask B st a b c d)).
Proof. unfold Bxcan.emit_std_mask. lift_emit. Qed.

Lemma emit_ext_list_lift (st : Bxcan.t) (a b : Z) :
  P st -> P (snd (Bxcan.emit_ext_list B st a b)).
Proof. unfold Bxcan.emit_ext_list. lift_emit. Qed.

Lemma emit_ext_mask_lift (st : Bxcan.t) (a b : Z) :
  P st -> P (snd (Bxcan.emit_ext_mask B st a b)).
Proof. unfold Bxcan.emit_ext_mask. lift_emit. Qed.

Lemma add_std_list_lift (st : Bxcan.t) (id : Z) :
  P st -> P (snd (Bxcan.add_std_list B st id)).
Proof.
  intros HP. unfold Bxcan.add_std_list.
  destruct (3 <? _); [exact HP|]. cbn zeta.
  destruct (_ =? 1); [revert HP; apply P_acc; reflexivity|].
  destruct (_ =? 4); [|revert HP; apply P_acc; reflexivity].
  match goal with |- context [Bxcan.emit_std_list B ?s ?a ?b ?c ?d] =>
    assert (P s) as Hs by (revert HP; apply P_acc; reflexivity);
    pose proof (emit_std_list_lift s a b c d Hs) as H;
    destruct (Bxcan.emit_std_list B s a b c d) as [err st'] end.
  revert H. apply P_acc; reflexivity.
Qed.

Lemma add_std_mask_lift (st : Bxcan.t) (id mask : Z) :
  P st -> P (snd (Bxcan.add_std_mask B st id mask)).
Proof.
  intros HP. unfold Bxcan.add_std_mask.
  destruct (1 <? _); [exact HP|]. cbn zeta.
  destruct (_ =? 1); [revert HP; apply P_acc; reflexivity|].
  destruct (_ =? 2); [|revert HP; apply P_acc; reflexivity].
  match goal with |- context [Bxcan.emit_std_mask B ?s ?a ?b ?c ?d] =>
    assert (P s) as Hs by (revert HP; apply P_acc; reflexivity);
    pose proof (emit_std_mask_lift s a b c d Hs) as H;
    destruct (Bxcan.emit_std_mask B s a b c d) as [err st'] end.
  revert H. apply P_acc; reflexivity.
Qed.

Lemma add_ext_list_lift (st : Bxcan.t) (id : Z) :
  P st -> P (snd (Bxcan.add_ext_list B st id)).
Proof.
  intros HP. unfold Bxcan.add_ext_list.
  destruct (1 <? _); [exact HP|]. cbn zeta.
  destruct (_ =? 1); [revert HP; apply P_acc; reflexivity|].
  destruct (_ =? 2); [|revert HP; apply P_acc; reflexivity].
  match goal with |- context [Bxcan.emit_ext_list B ?s ?a ?b] =>
    assert (P s) as Hs by (revert HP; apply P_acc; reflexivity);
    pose proof (emit_ext_list_lift s a b Hs) as H;
    destruct (Bxcan.emit_ext_list B s a b) as [err st'] end.
  revert H. apply P_acc; reflexivity.
Qed.

Lemma std_block_lift (st : Bxcan.t) (blk : Z * Z) :
  P st -> P (snd (Bxcan.std_block B st blk)).
Proof.
  intros H. unfold Bxcan.std_block.
  destruct (_ =? _); [apply add_std_list_lift|apply add_std_mask_lift]; exact H.
Qed.

Lemma ext_block_lift (st : Bxcan.t) (blk : Z * Z) :
  P st -> P (snd (Bxcan.ext_block B st blk)).
Proof.
  intros H. unfold Bxcan.ext_block, Bxcan.add_ext_mask.
  destruct (_ =? _); [apply add_ext_list_lift|apply emit_ext_mask_lift]; exact H.
Qed.

Lemma add_std_range_lift (st : Bxcan.t) (b e : Z) :
  P st -> P (snd (Bxcan.add_std_range B st b e)).
Proof.
  intros H. unfold Bxcan.add_std_range.
  destruct (_ || _); [exact H|].
  destruct (e <? b); rewrite std_range_loop_feed;
    (apply feed_preserves; [apply std_block_lift|exact H]).
Qed.

Lemma add_ext_range_lift (st : Bxcan.t) (b e : Z) :
  P st -> P (snd (Bxcan.add_ext_range B st b e)).
Proof.
  intros H. unfold Bxcan.add_ext_range.
  destruct (_ || _); [exact H|].
  destruct (e <? b); rewrite ext_range_loop_feed;
    (apply feed_preserves; [apply ext_block_lift|exact H]).
Qed.

Lemma end_lift (st : Bxcan.t) : P st -> P (snd (Bxcan.end_ B st)).
Proof.
  apply end_preserves.
  - apply emit_std_list_lift.
  - apply emit_std_mask_lift.
  - apply emit_ext_list_lift.
Qed.

Lemma do_call_lift (st : Bxcan.t) (c : Bxcan.call) :
  P st -> P (snd (Bxcan.do_call B st c)).
Proof.
  intros H. destruct c; cbn [Bxcan.do_call]; unfold Bxcan.add_std_id, Bxcan.add_ext_id.
  - apply add_std_range_lift, H.
  - apply add_ext_range_lift, H.
  - apply add_std_range_lift, H.
  - apply add_ext_range_lift, H.
  - apply end_lift, H.
Qed.

Lemma run_lift (calls : list Bxcan.call) (st : Bxcan.t) :
  P st -> P (Bxcan.run B st calls).
Proof. apply run_preserves. apply do_call_lift. Qed.

End Emit_lift.

Lemma ones_succ_lor (n : Z) : 0 <= n -> Z.lor (Z.ones n) (2 ^ n) = Z.ones (n + 1).
Proof.
  intros Hn. apply Z.bits_inj'. intros i Hi.
  rewrite Z.lor_spec, Z.pow2_bits_eqb by lia.
  destruct (Z.eqb_spec n i) as [->|Hne].
  - rewrite (Z.ones_spec_low (i + 1)) by lia. apply orb_true_r.
  - rewrite orb_false_r. destruct (Z_lt_dec i n).
    + rewrite !Z.ones_spec_low by lia. reflexivity.
    + rewrite !Z.ones_spec_high by lia. reflexivity.
Qed.

Lemma below_pow2_set (x n : Z) :
  0 <= n -> 0 <= x < 2 ^ n -> 0 <= Z.lor x (2 ^ n) < 2 ^ (n + 1).
Proof.
  intros Hn Hx. apply low_bits_iff; [lia|].
  apply low_bits_iff in Hx; [|lia]. rewrite <- Hx.
  apply Z.bits_inj'. intros i Hi.
  rewrite !Z.land_spec, Z.lor_spec, Z.land_spec, Z.pow2_bits_eqb by lia.
  destruct (Z_lt_dec i (n + 1)).
  - rewrite (Z.ones_spec_low (n + 1)) by lia. apply andb_true_r.
  - rewrite (Z.ones_spec_high (n + 1)), (Z.ones_spec_high n) by lia.
    destruct (Z.eqb_spec n i); [lia|]. rewrite !andb_false_r. reflexivity.
Qed.

Lemma below_pow2_clear (x y n : Z) :
  0 <= n -> 0 <= x < 2 ^ n -> 0 <= Z.land x y < 2 ^ (n + 1).
Proof.
  intros Hn Hx. apply low_bits_iff; [lia|].
  apply low_bits_iff in Hx; [|lia]. rewrite <- Hx.
  apply Z.bits_inj'. intros i Hi.
  rewrite !Z.land_spec.
  destruct (Z_lt_dec i n).
  - rewrite (Z.ones_spec_low (n + 1)) by lia. apply andb_true_r.
  - rewrite (Z.ones_spec_high n) by lia. rewrite !andb_false_r. reflexivity.
Qed.

Section Image.
Variable B : Z.
Variable dev : Z.
Hypothesis HB : 0 <= B <= 32.

Lemma begin_image_ok (st : Bxcan.t) : BxcanUse.image_ok B dev (snd (Bxcan.begin B dev st)).
Proof.
  unfold BxcanUse.image_ok. cbn.
  rewrite !length_replicate.
  repeat split; try lia; apply Forall_replicate; lia.
Qed.

Lemma write_bank_image_ok (st : Bxcan.t) (v1 v2 : Z) (s32 lm : bool) :
  BxcanUse.image_ok B dev st -> Bxcan.bank st < B ->
  0 <= v1 < 2 ^ 32 -> 0 <= v2 < 2 ^ 32 ->
  BxcanUse.image_ok B dev
    (Bxcan.set_bank
       (Bxcan.set_hw_config st
          (Bxcan.write_bank (Bxcan.hw_config st) (Bxcan.bank st) v1 v2 s32 lm))
       (u32 (Bxcan.bank st + 1))).
Proof.
  intros (Hb & Hdev & Hfa & Hfs & Hfm & Hffa & Hl1 & Hl2 & Hw1 & Hw2) Hlt Hv1 Hv2.
  unfold BxcanUse.image_ok. cbn.
  rewrite u32_small by lia. rewrite bank_bit by lia.
  rewrite !length_insert.
  split; [lia|]. split; [exact Hdev|]. split.
  { rewrite Hfa. apply ones_succ_lor. lia. }
  split.
  { destruct s32; [apply below_pow2_set|apply below_pow2_clear]; lia. }
  split.
  { destruct lm; [apply below_pow2_set|apply below_pow2_clear]; lia. }
  split; [exact Hffa|]. split; [exact Hl1|]. split; [exact Hl2|].
  split; apply Forall_insert; assumption.
Qed.

Lemma reachable_image_ok (st : Bxcan.t) :
  Bxcan.reachable B dev st -> BxcanUse.image_ok B dev st.
Proof.
  intros (st0 & calls & _ & ->).
  apply (run_lift B (BxcanUse.image_ok B dev)).
  - intros s s' Hhw Hbk. unfold BxcanUse.image_ok. rewrite Hhw, Hbk. tauto.
  - apply write_bank_image_ok.
  - apply begin_image_ok.
Qed.

End Image.

(** X6. The global registers of a bxCAN image in use: with [bank] banks
    emitted, [FA1R] has exactly the bits below [bank] set, [FS1R] and [FM1R]
    have no bit set from [bank] on, [FFA1R] is zero, the identity byte is the
    one [begin] stamped, and every bank register is a 32-bit word. *)
Theorem bxcan_image_registers (B dev : Z) (st : Bxcan.t) :
  0 <= B <= 32 -> Bxcan.reachable B dev st -> BxcanUse.image_ok B dev st.
Proof. intros HB. apply reachable_image_ok. exact HB. Qed.

(** X6 after a range, an extended identifier, [end] and one more identifier
    on bxCAN-28. *)
Lemma bxcan_image_registers_witness :
  BxcanUse.image_ok 28 CANFILTER_DEV_BXCAN_F4
    (Bxcan.run 28 (snd (Bxcan.begin 28 CANFILTER_DEV_BXCAN_F4 (Bxcan.new 28)))
       [Bxcan.Add_std_range 0 0x2FF; Bxcan.Add_ext_id 0x1FFFF0; Bxcan.End_;
        Bxcan.Add_std_id 0x100]).
Proof.
  apply (bxcan_image_registers 28 CANFILTER_DEV_BXCAN_F4).
  - lia.
  - exists (Bxcan.new 28). eexists. split; [|reflexivity].
    repeat split; reflexivity.
Defined.

(** ** bxCAN: what [debug_print] lists *)

Lemma omap_all_some {A} (f : nat -> option A) (l : list nat) :
  Forall (fun n => is_Some (f n)) l ->
  map fst (omap (fun n => match f n with
                          | Some v => Some (Z.of_nat n, v)
                          | None => None
                          end) l)
  = map Z.of_nat l.
Proof.
  induction 1 as [|n l [v Hv] _ IH]; [reflexivity|].
  cbn. rewrite Hv. cbn. f_equal. exact IH.
Qed.

Lemma omap_all_none {A C} (f : nat -> option A) (g : nat -> A -> C) (l : list nat) :
  Forall (fun n => f n = None) l ->
  omap (fun n => match f n with
                 | Some v => Some (g n v)
                 | None => None
                 end) l = [].
Proof.
  induction 1 as [|n l Hn _ IH]; [reflexivity|].
  cbn. rewrite Hn. exact IH.
Qed.

Lemma debug_bank_active (hw : Bxcan.hw_t) (i : Z) :
  0 <= i < 32 ->
  (is_Some (BxcanDebug.debug_bank hw i) <-> Z.testbit (Bxcan.fa1r hw) i = true) /\
  (BxcanDebug.debug_bank hw i = None <-> Z.testbit (Bxcan.fa1r hw) i = false).
Proof.
  intros Hi. unfold BxcanDebug.debug_bank.
  rewrite bank_bit by lia. rewrite !land_pow2_zero by lia. rewrite !negb_involutive.
  destruct (Z.testbit (Bxcan.fa1r hw) i); cbn [negb].
  - destruct (Z.testbit (Bxcan.fs1r hw) i), (Z.testbit (Bxcan.fm1r hw) i);
      cbn [negb]; (split; split; [reflexivity|eexists; reflexivity|discriminate|discriminate]).
  - split; split; try reflexivity; try discriminate. intros [? ?]. discriminate.
Qed.

Section Print.
Variable B : Z.
Variable dev : Z.
Hypothesis HB : 0 <= B <= 32.

Lemma debug_print_banks (st : Bxcan.t) :
  BxcanUse.image_ok B dev st ->
  map fst (BxcanDebug.debug_print B (Bxcan.hw_config st))
  = map Z.of_nat (seq 0 (Z.to_nat (Bxcan.bank st))).
Proof.
  intros (Hb & _ & Hfa & _). unfold BxcanDebug.debug_print.
  replace (Z.to_nat B)
    with (Z.to_nat (Bxcan.bank st) + Z.to_nat (B - Bxcan.bank st))%nat by lia.
  rewrite seq_app, omap_app, map_app.
  rewrite omap_all_some, omap_all_none; [apply app_nil_r| |].
  - apply Forall_forall. intros n Hn. apply elem_of_seq in Hn.
    apply debug_bank_active; [lia|]. rewrite Hfa. apply Z.ones_spec_high. lia.
  - apply Forall_forall. intros n Hn. apply elem_of_seq in Hn.
    apply debug_bank_active; [lia|]. rewrite Hfa. apply Z.ones_spec_low. lia.
Qed.

Lemma debug_print_reg_banks (st : Bxcan.t) :
  Bxcan.bank_invariant B st ->
  length (Bxcan.fr1 (Bxcan.hw_config st)) = Z.to_nat B ->
  length (Bxcan.fr2 (Bxcan.hw_config st)) = Z.to_nat B ->
  Forall (fun line => 0 <= fst (fst line) < Bxcan.bank st)
         (BxcanDebug.debug_print_reg B (Bxcan.hw_config st)).
Proof.
  intros (Hb & Hz & _) Hl1 Hl2. unfold BxcanDebug.debug_print_reg.
  apply Forall_forall. intros [[i r1] r2] Hin.
  apply list_elem_of_omap in Hin. destruct Hin as (n & Hn & Hsome).
  apply elem_of_seq in Hn. cbn [fst].
  destruct (Z_lt_dec (Z.of_nat n) (Bxcan.bank st)) as [Hlt|Hge].
  - destruct (_ || _); [|discriminate]. injection Hsome as <- _ _. lia.
  - destruct (Hz n ltac:(lia)) as [E1 E2].
    rewrite (list_lookup_total_correct _ _ _ E1), (list_lookup_total_correct _ _ _ E2) in Hsome.
    discriminate.
Qed.

End Print.

(** X7. [debug_print] lists the banks [0 .. bank - 1], each once and in
    order, and nothing else; [debug_print_reg] lists no bank from [bank]
    on. *)
Theorem debug_print_lists_emitted_banks (B dev : Z) (st : Bxcan.t) :
  0 <= B <= 32 -> Bxcan.reachable B dev st ->
  map fst (BxcanDebug.debug_print B (Bxcan.hw_config st))
  = map Z.of_nat (seq 0 (Z.to_nat (Bxcan.bank st))) /\
  Forall (fun line => 0 <= fst (fst line) < Bxcan.bank st)
         (BxcanDebug.debug_print_reg B (Bxcan.hw_config st)).
Proof.
  intros HB Hr.
  pose proof (reachable_image_ok B dev HB st Hr) as Him.
  split.
  - apply (debug_print_banks B dev HB), Him.
  - apply debug_print_reg_banks.
    + apply (reachable_bank_invariant B dev); [lia|exact Hr].
    + apply Him.
    + apply Him.
Qed.

(** X7 on a bxCAN-14 after a range of three blocks and [end]. *)
Lemma debug_print_lists_emitted_banks_witness :
  let st := Bxcan.run 14 (snd (Bxcan.begin 14 CANFILTER_DEV_BXCAN_F0 (Bxcan.new 14)))
              [Bxcan.Add_std_range 0x100 0x2FF; Bxcan.Add_ext_id 0x800; Bxcan.End_] in
  map fst (BxcanDebug.debug_print 14 (Bxcan.hw_config st))
  = map Z.of_nat (seq 0 (Z.to_nat (Bxcan.bank st))) /\
  Forall (fun line => 0 <= fst (fst line) < Bxcan.bank st)
         (BxcanDebug.debug_print_reg 14 (Bxcan.hw_config st)).
Proof.
  apply (debug_print_lists_emitted_banks 14 CANFILTER_DEV_BXCAN_F0).
  - lia.
  - exists (Bxcan.new 14). eexists. split; [|reflexivity].
    repeat split; reflexivity.
Defined.

(** ** bxCAN: emitted banks are final *)

Section Frame.
Variable B : Z.
Hypothesis HB : B <= 32.

Lemma extends_refl (st : Bxcan.t) : 0 <= Bxcan.bank st -> BxcanUse.extends st st.
Proof. intros H. unfold BxcanUse.extends. split; [lia|]. split; intros; tauto. Qed.

Lemma write_bank_extends (st0 st : Bxcan.t) (v1 v2 : Z) (s32 lm : bool) :
  BxcanUse.extends st0 st -> Bxcan.bank st < B ->
  BxcanUse.extends st0
    (Bxcan.set_bank
       (Bxcan.set_hw_config st
          (Bxcan.write_bank (Bxcan.hw_config st) (Bxcan.bank st) v1 v2 s32 lm))
       (u32 (Bxcan.bank st + 1))).
Proof.
  intros (Hb & Hfr & Hbits) Hlt. unfold BxcanUse.extends. cbn.
  rewrite u32_small by lia. split; [lia|]. split.
  - intros i Hi. rewrite !list_lookup_insert_ne by lia. apply Hfr, Hi.
  - intros i Hi. destruct (Hbits i Hi) as (H1 & H2 & H3).
    rewrite <- H1, <- H2, <- H3.
    split; [|split].
    + destruct s32; [apply bank_bit_other_set|apply bank_bit_other_clear]; lia.
    + destruct lm; [apply bank_bit_other_set|apply bank_bit_other_clear]; lia.
    + apply bank_bit_other_set. lia.
Qed.

Lemma run_extends (st : Bxcan.t) (calls : list Bxcan.call) :
  0 <= Bxcan.bank st -> BxcanUse.extends st (Bxcan.run B st calls).
Proof.
  intros Hb. apply (run_lift B (BxcanUse.extends st)).
  - intros s s' Hhw Hbk. unfold BxcanUse.extends. rewrite Hhw, Hbk. tauto.
  - intros s v1 v2 s32 lm He Hlt _ _. apply write_bank_extends; assumption.
  - apply extends_refl, Hb.
Qed.

Lemma extends_debug_bank (st st' : Bxcan.t) (i : Z) :
  BxcanUse.extends st st' -> 0 <= i < Bxcan.bank st -> Bxcan.bank st' <= 32 ->
  BxcanDebug.debug_bank (Bxcan.hw_config st') i
  = BxcanDebug.debug_bank (Bxcan.hw_config st) i.
Proof.
  intros (Hb & Hfr & Hbits) Hi Hle. unfold BxcanDebug.debug_bank.
  rewrite bank_bit by lia. rewrite !land_pow2_zero by lia.
  destruct (Hbits i Hi) as (-> & -> & ->).
  destruct (Hfr (Z.to_nat i) ltac:(lia)) as [E1 E2].
  rewrite !list_lookup_total_alt, E1, E2. reflexivity.
Qed.

End Frame.

(** X8. A bank once emitted is never written again: whatever calls follow,
    [bank] does not go down, and below the former [bank] the registers
    [FR1], [FR2] and the scale, mode and activation bits stay as they were,
    so [debug_print] shows the same line for each of these banks. *)
Theorem emitted_banks_are_final (B dev : Z) (st : Bxcan.t) (calls : list Bxcan.call) :
  0 <= B <= 32 -> Bxcan.reachable B dev st ->
  BxcanUse.extends st (Bxcan.run B st calls) /\
  forall i : Z, 0 <= i < Bxcan.bank st ->
    BxcanDebug.debug_bank (Bxcan.hw_config (Bxcan.run B st calls)) i
    = BxcanDebug.debug_bank (Bxcan.hw_config st) i.
Proof.
  intros HB Hr.
  pose proof (reachable_bank_invariant B dev ltac:(lia) st Hr) as (Hb & _).
  assert (Bxcan.bank_invariant B (Bxcan.run B st calls)) as (Hb' & _).
  { apply run_preserves; [apply do_call_invariant; lia|].
    apply (reachable_bank_invariant B dev); [lia|exact Hr]. }
  assert (BxcanUse.extends st (Bxcan.run B st calls)) as He
    by (apply run_extends; lia).
  split; [exact He|].
  intros i Hi. apply extends_debug_bank; [exact He|exact Hi|lia].
Qed.

(** X8 on a bxCAN-14: two banks emitted, then more calls. *)
Lemma emitted_banks_are_final_witness :
  let st := Bxcan.run 14 (snd (Bxcan.begin 14 CANFILTER_DEV_BXCAN_F0 (Bxcan.new 14)))
              [Bxcan.Add_ext_range 0x800 0x8FF; Bxcan.Add_ext_range 0x10000 0x1FFFF] in
  let calls := [Bxcan.Add_std_range 0 0x7FF; Bxcan.Add_ext_id 0x1234567; Bxcan.End_] in
  BxcanUse.extends st (Bxcan.run 14 st calls) /\
  forall i : Z, 0 <= i < Bxcan.bank st ->
    BxcanDebug.debug_bank (Bxcan.hw_config (Bxcan.run 14 st calls)) i
    = BxcanDebug.debug_bank (Bxcan.hw_config st) i.
Proof.
  apply (emitted_banks_are_final 14 CANFILTER_DEV_BXCAN_F0).
  - lia.
  - exists (Bxcan.new 14). eexists. split; [|reflexivity].
    repeat split; reflexivity.
Defined.

(** ** bxCAN: the unused slots of an accumulator *)

Section Replicated.
Variable B : Z.
Variable dev : Z.

Lemma padded_ext (st st' : Bxcan.t) :
  Bxcan.same_accumulators st st' -> BxcanUse.padded st -> BxcanUse.padded st'.
Proof.
  intros Hs [Hok Hrep]. split; [eapply accumulators_ok_ext; eassumption|].
  destruct Hs as (E1 & E2 & E3 & E4 & E5 & E6).
  unfold BxcanUse.replicated. rewrite E1, E2, E3, E4, E5, E6. exact Hrep.
Qed.

Ltac count_up :=
  cbn;
  try change (u32 (0 + 1)) with 1; try change (u32 (1 + 1)) with 2;
  try change (u32 (2 + 1)) with 3; try change (u32 (3 + 1)) with 4;
  cbn.

Ltac slot_cases i :=
  try change (Z.to_nat 0) with 0%nat; try change (Z.to_nat 1) with 1%nat;
  try change (Z.to_nat 2) with 2%nat; try change (Z.to_nat 3) with 3%nat;
  destruct i as [|[|[|[|i]]]]; cbn in *; try lia; try reflexivity; try congruence.

Lemma add_std_list_padded (st : Bxcan.t) (id : Z) :
  BxcanUse.padded st -> id <= max_std_id -> BxcanUse.padded (snd (Bxcan.add_std_list B st id)).
Proof.
  intros [Hok Hrep] Hid. split; [apply add_std_list_ok; assumption|].
  revert Hok Hrep. destruct st as [hw bank el elc sm smc sl slc].
  unfold Bxcan.accumulators_ok, Bxcan.sized, BxcanUse.replicated.
  cbn [Bxcan.std_list Bxcan.std_list_count
    Bxcan.std_mask Bxcan.std_mask_count Bxcan.ext_list Bxcan.ext_list_count].
  intros ((Hl1 & Hl2 & Hl3) & Hc1 & Hc2 & Hc3 & _) (Hr1 & Hr2 & Hr3).
  destruct sl as [|a [|b [|c [|d [|? ?]]]]]; try discriminate Hl1.
  assert (slc = 0 \/ slc = 1 \/ slc = 2 \/ slc = 3) as Hcase by lia.
  destruct Hcase as [->|[->|[->| ->]]].
  - count_up. split; [|split; assumption]. intros _ i Hi. slot_cases i.
  - count_up.
    split; [|split; assumption]. intros _ i Hi.
    pose proof (Hr1 ltac:(lia) 2%nat ltac:(lia)) as E2.
    pose proof (Hr1 ltac:(lia) 3%nat ltac:(lia)) as E3.
    slot_cases i.
  - count_up.
    split; [|split; assumption]. intros _ i Hi.
    pose proof (Hr1 ltac:(lia) 3%nat ltac:(lia)) as E3.
    slot_cases i.
  - unfold Bxcan.add_std_list. cbn -[Bxcan.emit_std_list u32].
    change (u32 (3 + 1)) with 4. cbn -[Bxcan.emit_std_list].
    match goal with |- context [Bxcan.emit_std_list B ?s ?x ?y ?z ?w] =>
      pose proof (emit_std_list_acc B s x y z w) as Hacc;
      destruct (Bxcan.emit_std_list B s x y z w) as [err st'] end.
    cbn in Hacc |- *. destruct Hacc as (E1 & E2 & E3 & E4 & E5 & E6).
    rewrite E3, E4, E5, E6. split; [lia|split; assumption].
Qed.

Lemma add_std_mask_padded (st : Bxcan.t) (id mask : Z) :
  BxcanUse.padded st -> id <= max_std_id -> mask <= max_std_id ->
  BxcanUse.padded (snd (Bxcan.add_std_mask B st id mask)).
Proof.
  intros [Hok Hrep] Hid Hmask. split; [apply add_std_mask_ok; assumption|].
  revert Hok Hrep. destruct st as [hw bank el elc sm smc sl slc].
  unfold Bxcan.accumulators_ok, Bxcan.sized, BxcanUse.replicated.
  cbn [Bxcan.std_list Bxcan.std_list_count
    Bxcan.std_mask Bxcan.std_mask_count Bxcan.ext_list Bxcan.ext_list_count].
  intros ((Hl1 & Hl2 & Hl3) & Hc1 & Hc2 & Hc3 & _) (Hr1 & Hr2 & Hr3).
  destruct sm as [|a [|b [|? ?]]]; try discriminate Hl2.
  assert (smc = 0 \/ smc = 1) as Hcase by lia.
  destruct Hcase as [->| ->].
  - count_up. split; [assumption|]. split; [|assumption]. intros _ i Hi. slot_cases i.
  - unfold Bxcan.add_std_mask. cbn -[Bxcan.emit_std_mask u32].
    change (u32 (1 + 1)) with 2. cbn -[Bxcan.emit_std_mask].
    match goal with |- context [Bxcan.emit_std_mask B ?s ?x ?y ?z ?w] =>
      pose proof (emit_std_mask_acc B s x y z w) as Hacc;
      destruct (Bxcan.emit_std_mask B s x y z w) as [err st'] end.
    cbn in Hacc |- *. destruct Hacc as (E1 & E2 & E3 & E4 & E5 & E6).
    rewrite E1, E2, E5, E6. split; [assumption|]. split; [lia|assumption].
Qed.

Lemma add_ext_list_padded (st : Bxcan.t) (id : Z) :
  BxcanUse.padded st -> id <= max_ext_id -> BxcanUse.padded (snd (Bxcan.add_ext_list B st id)).
Proof.
  intros [Hok Hrep] Hid. split; [apply add_ext_list_ok; assumption|].
  revert Hok Hrep. destruct st as [hw bank el elc sm smc sl slc].
  unfold Bxcan.accumulators_ok, Bxcan.sized, BxcanUse.replicated.
  cbn [Bxcan.std_list Bxcan.std_list_count
    Bxcan.std_mask Bxcan.std_mask_count Bxcan.ext_list Bxcan.ext_list_count].
  intros ((Hl1 & Hl2 & Hl3) & Hc1 & Hc2 & Hc3 & _) (Hr1 & Hr2 & Hr3).
  destruct el as [|a [|b [|? ?]]]; try discriminate Hl3.
  assert (elc = 0 \/ elc = 1) as Hcase by lia.
  destruct Hcase as [->| ->].
  - count_up. split; [assumption|]. split; [assumption|]. intros _ i Hi. slot_cases i.
  - unfold Bxcan.add_ext_list. cbn -[Bxcan.emit_ext_list u32].
    change (u32 (1 + 1)) with 2. cbn -[Bxcan.emit_ext_list].
    match goal with |- context [Bxcan.emit_ext_list B ?s ?x ?y] =>
      pose proof (emit_ext_list_acc B s x y) as Hacc;
      destruct (Bxcan.emit_ext_list B s x y) as [err st'] end.
    cbn in Hacc |- *. destruct Hacc as (E1 & E2 & E3 & E4 & E5 & E6).
    rewrite E1, E2, E3, E4. split; [assumption|]. split; [assumption|lia].
Qed.

Lemma std_block_padded (st : Bxcan.t) (blk : Z * Z) :
  BxcanUse.padded st -> Cover.block_within max_std_id blk ->
  BxcanUse.padded (snd (Bxcan.std_block B st blk)).
Proof.
  intros Hp [H1 H2]. unfold Bxcan.std_block.
  destruct (_ =? _); [apply add_std_list_padded|apply add_std_mask_padded]; assumption.
Qed.

Lemma ext_block_padded (st : Bxcan.t) (blk : Z * Z) :
  BxcanUse.padded st -> Cover.block_within max_ext_id blk ->
  BxcanUse.padded (snd (Bxcan.ext_block B st blk)).
Proof.
  intros Hp [H1 H2]. unfold Bxcan.ext_block, Bxcan.add_ext_mask.
  destruct (_ =? _); [apply add_ext_list_padded; assumption|].
  eapply padded_ext; [apply emit_ext_mask_acc|exact Hp].
Qed.

Lemma feed_keeps (Q : Bxcan.t -> Prop) (R : Z * Z -> Prop)
    (step : Bxcan.t -> Z * Z -> canfilter_error_t * Bxcan.t) :
  (forall st blk, Q st -> R blk -> Q (snd (step st blk))) ->
  forall blocks st, Q st -> Forall R blocks -> Q (snd (Bxcan.feed step st blocks)).
Proof.
  intros Hstep. induction blocks as [|blk rest IH]; intros st Hst Hall; cbn;
    [exact Hst|].
  inversion Hall as [|? ? Hblk Hrest]; subst.
  specialize (Hstep st blk Hst Hblk). destruct (step st blk) as [err st'].
  destruct (negb (is_success err)); [exact Hstep|apply IH; assumption].
Qed.

Lemma add_std_range_padded (st : Bxcan.t) (b e : Z) :
  BxcanUse.padded st -> BxcanUse.padded (snd (Bxcan.add_std_range B st b e)).
Proof.
  intros Hp.
  destruct (Z_le_dec b max_std_id); [destruct (Z_le_dec e max_std_id)|].
  - rewrite add_std_range_feed by assumption.
    apply (feed_keeps BxcanUse.padded (Cover.block_within max_std_id)).
    + apply std_block_padded.
    + exact Hp.
    + apply std_range_blocks_within; assumption.
  - unfold Bxcan.add_std_range. rewrite (proj2 (Z.ltb_lt max_std_id e)) by lia.
    rewrite orb_true_r. exact Hp.
  - unfold Bxcan.add_std_range. rewrite (proj2 (Z.ltb_lt max_std_id b)) by lia.
    exact Hp.
Qed.

Lemma add_ext_range_padded (st : Bxcan.t) (b e : Z) :
  BxcanUse.padded st -> BxcanUse.padded (snd (Bxcan.add_ext_range B st b e)).
Proof.
  intros Hp.
  destruct (Z_le_dec b max_ext_id); [destruct (Z_le_dec e max_ext_id)|].
  - rewrite add_ext_range_feed by assumption.
    apply (feed_keeps BxcanUse.padded (Cover.block_within max_ext_id)).
    + apply ext_block_padded.
    + exact Hp.
    + apply ext_range_blocks_within; assumption.
  - unfold Bxcan.add_ext_range. rewrite (proj2 (Z.ltb_lt max_ext_id e)) by lia.
    rewrite orb_true_r. exact Hp.
  - unfold Bxcan.add_ext_range. rewrite (proj2 (Z.ltb_lt max_ext_id b)) by lia.
    exact Hp.
Qed.

Lemma do_call_padded (st : Bxcan.t) (c : Bxcan.call) :
  BxcanUse.padded st -> BxcanUse.padded (snd (Bxcan.do_call B st c)).
Proof.
  intros Hp. destruct c; cbn [Bxcan.do_call]; unfold Bxcan.add_std_id, Bxcan.add_ext_id.
  - apply add_std_range_padded, Hp.
  - apply add_ext_range_padded, Hp.
  - apply add_std_range_padded, Hp.
  - apply add_ext_range_padded, Hp.
  - eapply padded_ext; [apply end_accumulators|exact Hp].
Qed.

Lemma reachable_padded (st : Bxcan.t) : Bxcan.reachable B dev st -> BxcanUse.padded st.
Proof.
  intros (st0 & calls & Hs & ->).
  apply run_preserves; [apply do_call_padded|].
  split; [apply begin_accumulators_ok, Hs|].
  unfold BxcanUse.replicated. cbn. repeat split; intros; lia.
Qed.

End Replicated.

(** X9. The slots of an accumulator that hold no pending entry repeat its
    first entry: what [end] writes into the unused places of a bank is a
    copy of a filter that was asked for, never a stale value. *)
Theorem unused_slots_repeat_first (B dev : Z) (st : Bxcan.t) :
  Bxcan.reachable B dev st -> BxcanUse.replicated st.
Proof. intros Hr. apply (reachable_padded B dev), Hr. Qed.

(** X9 on a bxCAN-14 with two standard identifiers, one mask pair and one
    extended identifier pending. *)
Lemma unused_slots_repeat_first_witness :
  BxcanUse.replicated
    (Bxcan.run 14 (snd (Bxcan.begin 14 CANFILTER_DEV_BXCAN_F0 (Bxcan.new 14)))
       [Bxcan.Add_std_id 0x100; Bxcan.Add_std_id 0x7FF; Bxcan.Add_std_range 0x200 0x2FF;
        Bxcan.Add_ext_id 0x800]).
Proof.
  apply (unused_slots_repeat_first 14 CANFILTER_DEV_BXCAN_F0).
  exists (Bxcan.new 14). eexists. split; [|reflexivity].
  repeat split; reflexivity.
Defined.

(** ** bxCAN: one filter, one bank *)

Section One_filter.
Variable B : Z.
Variable dev : Z.
Hypothesis HB : 0 <= B <= 32.

(** [debug_print] meets active banks below [bank] only. *)
Lemma debug_print_emitted (st : Bxcan.t) :
  BxcanUse.image_ok B dev st ->
  BxcanDebug.debug_print B (Bxcan.hw_config st)
  = omap (fun n : nat =>
            match BxcanDebug.debug_bank (Bxcan.hw_config st) (Z.of_nat n) with
            | Some v => Some (Z.of_nat n, v)
            | None => None
            end)
         (seq 0 (Z.to_nat (Bxcan.bank st))).
Proof.
  intros (Hb & _ & Hfa & _). unfold BxcanDebug.debug_print.
  replace (Z.to_nat B)
    with (Z.to_nat (Bxcan.bank st) + Z.to_nat (B - Bxcan.bank st))%nat by lia.
  rewrite seq_app, omap_app.
  match goal with |- _ ++ ?r = _ => assert (r = []) as -> end; [|apply app_nil_r].
  apply (omap_all_none _ (fun n v => (Z.of_nat n, v))).
  apply Forall_forall. intros n Hn. apply elem_of_seq in Hn.
  apply debug_bank_active; [lia|]. rewrite Hfa. apply Z.ones_spec_high. lia.
Qed.

Lemma add_std_id_list (st : Bxcan.t) (id : Z) :
  0 <= id <= max_std_id -> Bxcan.add_std_id B st id = Bxcan.add_std_list B st id.
Proof.
  intros Hid. unfold Bxcan.add_std_id.
  destruct (std_aligned_block id 0) as (_ & _ & H); try lia.
  { apply Z.mod_1_r. }
  change (2 ^ 0) with 1 in H. replace (id + 1 - 1) with id in H by lia.
  apply H.
Qed.

Lemma add_ext_id_list (st : Bxcan.t) (id : Z) :
  0 <= id <= max_ext_id -> Bxcan.add_ext_id B st id = Bxcan.add_ext_list B st id.
Proof.
  intros Hid. unfold Bxcan.add_ext_id.
  destruct (ext_aligned_block id 0) as (_ & _ & H); try lia.
  { apply Z.mod_1_r. }
  change (2 ^ 0) with 1 in H. replace (id + 1 - 1) with id in H by lia.
  apply H.
Qed.

(** [end] with one accumulator in use is the emitter of that accumulator. *)
Lemma end_only_std_list (st : Bxcan.t) :
  Bxcan.std_list_count st <> 0 -> Bxcan.std_mask_count st = 0 ->
  Bxcan.ext_list_count st = 0 ->
  Bxcan.end_ B st
  = Bxcan.emit_std_list B st (Bxcan.std_list st !!! 0%nat) (Bxcan.std_list st !!! 1%nat)
      (Bxcan.std_list st !!! 2%nat) (Bxcan.std_list st !!! 3%nat).
Proof.
  intros H1 H2 H3. unfold Bxcan.end_.
  destruct (Z.eqb_spec (Bxcan.std_list_count st) 0); [contradiction|]. cbn [negb].
  match goal with |- context [Bxcan.emit_std_list B ?s ?x ?y ?z ?w] =>
    pose proof (emit_std_list_acc B s x y z w) as Hacc;
    destruct (Bxcan.emit_std_list B s x y z w) as [err st'] end.
  cbn in Hacc. destruct Hacc as (_ & _ & _ & E4 & _ & E6).
  rewrite E4, H2. cbn [Z.eqb negb andb]. rewrite E6, H3. reflexivity.
Qed.

Lemma end_only_std_mask (st : Bxcan.t) :
  Bxcan.std_list_count st = 0 -> Bxcan.std_mask_count st <> 0 ->
  Bxcan.ext_list_count st = 0 ->
  Bxcan.end_ B st
  = Bxcan.emit_std_mask B st (Bxcan.sm_id (Bxcan.std_mask st !!! 0%nat))
      (Bxcan.sm_mask (Bxcan.std_mask st !!! 0%nat))
      (Bxcan.sm_id (Bxcan.std_mask st !!! 1%nat))
      (Bxcan.sm_mask (Bxcan.std_mask st !!! 1%nat)).
Proof.
  intros H1 H2 H3. unfold Bxcan.end_. rewrite H1. cbn [Z.eqb negb].
  destruct (Z.eqb_spec (Bxcan.std_mask_count st) 0); [contradiction|].
  cbn [negb is_success andb].
  match goal with |- context [Bxcan.emit_std_mask B ?s ?x ?y ?z ?w] =>
    pose proof (emit_std_mask_acc B s x y z w) as Hacc;
    destruct (Bxcan.emit_std_mask B s x y z w) as [err st'] end.
  cbn in Hacc. destruct Hacc as (_ & _ & _ & _ & _ & E6).
  rewrite E6, H3. reflexivity.
Qed.

Lemma end_only_ext_list (st : Bxcan.t) :
  Bxcan.std_list_count st = 0 -> Bxcan.std_mask_count st = 0 ->
  Bxcan.ext_list_count st <> 0 ->
  Bxcan.end_ B st
  = Bxcan.emit_ext_list B st (Bxcan.ext_list st !!! 0%nat) (Bxcan.ext_list st !!! 1%nat).
Proof.
  intros H1 H2 H3. unfold Bxcan.end_. rewrite H1. cbn [Z.eqb negb].
  rewrite H2. cbn [Z.eqb negb andb].
  destruct (Z.eqb_spec (Bxcan.ext_list_count st) 0); [contradiction|].
  cbn [negb is_success andb].
  destruct (Bxcan.emit_ext_list B st _ _). reflexivity.
Qed.

(** What [debug_print] shows when bank 0 is the one bank emitted. *)
Lemma debug_print_one_bank (st : Bxcan.t) (v : BxcanDebug.bank_view) :
  BxcanUse.image_ok B dev st -> Bxcan.bank st = 1 ->
  BxcanDebug.debug_bank (Bxcan.hw_config st) 0 = Some v ->
  BxcanDebug.debug_print B (Bxcan.hw_config st) = [(0, v)].
Proof.
  intros Him Hbank Hv. rewrite debug_print_emitted by exact Him.
  rewrite Hbank. change (seq 0 (Z.to_nat 1)) with [0%nat].
  unfold omap. cbn [list_omap]. change (Z.of_nat 0) with 0.
  rewrite Hv. reflexivity.
Qed.

(** The first entry of an accumulator fills all its slots. *)
Lemma first_std_list (st : Bxcan.t) (id : Z) :
  Bxcan.sized st -> Bxcan.std_list_count st = 0 ->
  Bxcan.add_std_list B st id
  = (CANFILTER_SUCCESS,
     Bxcan.set_std_list_count (Bxcan.set_std_list st [id; id; id; id]) 1).
Proof.
  destruct st as [hw bank el elc sm smc sl slc]. unfold Bxcan.sized. cbn.
  intros (Hl & _ & _) ->.
  destruct sl as [|a [|b [|c [|d [|? ?]]]]]; try discriminate Hl.
  reflexivity.
Qed.

Lemma first_std_mask (st : Bxcan.t) (id mask : Z) :
  Bxcan.sized st -> Bxcan.std_mask_count st = 0 ->
  Bxcan.add_std_mask B st id mask
  = (CANFILTER_SUCCESS,
     Bxcan.set_std_mask_count
       (Bxcan.set_std_mask st [Bxcan.mk_std_mask id mask; Bxcan.mk_std_mask id mask]) 1).
Proof.
  destruct st as [hw bank el elc sm smc sl slc]. unfold Bxcan.sized. cbn.
  intros (_ & Hl & _) ->.
  destruct sm as [|a [|b [|? ?]]]; try discriminate Hl.
  reflexivity.
Qed.

Lemma first_ext_list (st : Bxcan.t) (id : Z) :
  Bxcan.sized st -> Bxcan.ext_list_count st = 0 ->
  Bxcan.add_ext_list B st id
  = (CANFILTER_SUCCESS,
     Bxcan.set_ext_list_count (Bxcan.set_ext_list st [id; id]) 1).
Proof.
  destruct st as [hw bank el elc sm smc sl slc]. unfold Bxcan.sized. cbn.
  intros (_ & _ & Hl) ->.
  destruct el as [|a [|b [|? ?]]]; try discriminate Hl.
  reflexivity.
Qed.

Lemma begun_reachable (st0 : Bxcan.t) (calls : list Bxcan.call) :
  Bxcan.sized st0 ->
  Bxcan.reachable B dev (Bxcan.run B (snd (Bxcan.begin B dev st0)) calls).
Proof. intros Hs. exists st0, calls. split; [exact Hs|reflexivity]. Qed.

Ltac begun_facts :=
  cbn; rewrite ?length_replicate; try reflexivity; try lia.

Lemma one_std_id (st0 : Bxcan.t) (id : Z) :
  0 < B -> Bxcan.sized st0 -> 0 <= id <= max_std_id ->
  let st := Bxcan.run B (snd (Bxcan.begin B dev st0)) [Bxcan.Add_std_id id; Bxcan.End_] in
  Bxcan.bank st = 1 /\
  BxcanDebug.debug_print B (Bxcan.hw_config st) = [(0, BxcanDebug.Std_list id id id id)].
Proof.
  intros HB0 Hs Hid st.
  pose proof (reachable_image_ok B dev HB st (begun_reachable st0 _ Hs)) as Him.
  enough (Bxcan.bank st = 1 /\
          BxcanDebug.debug_bank (Bxcan.hw_config st) 0
          = Some (BxcanDebug.Std_list id id id id)) as [Hb Hv].
  { split; [exact Hb|apply debug_print_one_bank; assumption]. }
  clear Him. subst st. cbn [Bxcan.run fold_left Bxcan.do_call].
  rewrite add_std_id_list by assumption.
  rewrite first_std_list by (exact Hs || reflexivity). cbn [snd].
  rewrite end_only_std_list by (cbn; (discriminate || reflexivity)).
  match goal with |- context [Bxcan.emit_std_list B ?s _ _ _ _] =>
    destruct (emit_std_list_decode B s ltac:(begun_facts) ltac:(lia)
                ltac:(begun_facts) ltac:(begun_facts) id id id id Hid Hid Hid Hid)
      as (_ & Hb & Hv) end.
  split; [exact Hb|exact Hv].
Qed.

Lemma one_ext_id (st0 : Bxcan.t) (id : Z) :
  0 < B -> Bxcan.sized st0 -> 0 <= id <= max_ext_id ->
  let st := Bxcan.run B (snd (Bxcan.begin B dev st0)) [Bxcan.Add_ext_id id; Bxcan.End_] in
  Bxcan.bank st = 1 /\
  BxcanDebug.debug_print B (Bxcan.hw_config st) = [(0, BxcanDebug.Ext_list id id)].
Proof.
  intros HB0 Hs Hid st.
  pose proof (reachable_image_ok B dev HB st (begun_reachable st0 _ Hs)) as Him.
  enough (Bxcan.bank st = 1 /\
          BxcanDebug.debug_bank (Bxcan.hw_config st) 0
          = Some (BxcanDebug.Ext_list id id)) as [Hb Hv].
  { split; [exact Hb|apply debug_print_one_bank; assumption]. }
  clear Him. subst st. cbn [Bxcan.run fold_left Bxcan.do_call].
  rewrite add_ext_id_list by assumption.
  rewrite first_ext_list by (exact Hs || reflexivity). cbn [snd].
  rewrite end_only_ext_list by (cbn; (discriminate || reflexivity)).
  match goal with |- context [Bxcan.emit_ext_list B ?s _ _] =>
    destruct (emit_ext_list_decode B s ltac:(begun_facts) ltac:(lia)
                ltac:(begun_facts) ltac:(begun_facts) id id Hid Hid)
      as (_ & Hb & Hv) end.
  split; [exact Hb|exact Hv].
Qed.

Lemma one_std_block (st0 : Bxcan.t) (b k : Z) :
  0 < B -> Bxcan.sized st0 ->
  1 <= k <= 11 -> 0 <= b -> b mod 2 ^ k = 0 -> b + 2 ^ k - 1 <= max_std_id ->
  let st := Bxcan.run B (snd (Bxcan.begin B dev st0))
              [Bxcan.Add_std_range b (b + 2 ^ k - 1); Bxcan.End_] in
  Bxcan.bank st = 1 /\
  BxcanDebug.debug_print B (Bxcan.hw_config st)
  = [(0, BxcanDebug.Std_mask b (b + 2 ^ k - 1) b (b + 2 ^ k - 1))].
Proof.
  intros HB0 Hs Hk Hb0 Hal Hfit st.
  pose proof (pow2_pos k ltac:(lia)) as Hpos.
  pose proof (reachable_image_ok B dev HB st (begun_reachable st0 _ Hs)) as Him.
  enough (Bxcan.bank st = 1 /\
          BxcanDebug.debug_bank (Bxcan.hw_config st) 0
          = Some (BxcanDebug.Std_mask b (b + 2 ^ k - 1) b (b + 2 ^ k - 1))) as [Hb Hv].
  { split; [exact Hb|apply debug_print_one_bank; assumption]. }
  clear Him. subst st. cbn [Bxcan.run fold_left Bxcan.do_call].
  destruct (std_aligned_block b k) as (_ & _ & ->); try lia.
  destruct (Z.eqb_spec k 0); [lia|].
  rewrite first_std_mask by (exact Hs || reflexivity). cbn [snd].
  rewrite end_only_std_mask by (cbn; (discriminate || reflexivity)).
  match goal with |- context [Bxcan.emit_std_mask B ?s _ _ _ _] =>
    destruct (emit_std_mask_decode B s ltac:(begun_facts) ltac:(lia)
                ltac:(begun_facts) ltac:(begun_facts) b k b k
                ltac:(lia) ltac:(lia) Hal ltac:(lia) ltac:(lia) Hal)
      as (_ & Hb & Hv) end.
  split; [exact Hb|exact Hv].
Qed.

Lemma one_ext_block (st0 : Bxcan.t) (b k : Z) :
  0 < B -> Bxcan.sized st0 ->
  1 <= k <= 29 -> 0 <= b -> b mod 2 ^ k = 0 -> b + 2 ^ k - 1 <= max_ext_id ->
  let st := Bxcan.run B (snd (Bxcan.begin B dev st0))
              [Bxcan.Add_ext_range b (b + 2 ^ k - 1)] in
  Bxcan.bank st = 1 /\
  BxcanDebug.debug_print B (Bxcan.hw_config st)
  = [(0, BxcanDebug.Ext_mask b (b + 2 ^ k - 1))].
Proof.
  intros HB0 Hs Hk Hb0 Hal Hfit st.
  pose proof (pow2_pos k ltac:(lia)) as Hpos.
  pose proof (reachable_image_ok B dev HB st (begun_reachable st0 _ Hs)) as Him.
  enough (Bxcan.bank st = 1 /\
          BxcanDebug.debug_bank (Bxcan.hw_config st) 0
          = Some (BxcanDebug.Ext_mask b (b + 2 ^ k - 1))) as [Hb Hv].
  { split; [exact Hb|apply debug_print_one_bank; assumption]. }
  clear Him. subst st. cbn [Bxcan.run fold_left Bxcan.do_call].
  destruct (ext_aligned_block b k) as (_ & _ & ->); try lia.
  destruct (Z.eqb_spec k 0); [lia|]. unfold Bxcan.add_ext_mask.
  match goal with |- context [Bxcan.emit_ext_mask B ?s _ _] =>
    destruct (emit_ext_mask_decode B s ltac:(begun_facts) ltac:(lia)
                ltac:(begun_facts) ltac:(begun_facts) b k
                ltac:(lia) ltac:(lia) Hal)
      as (_ & Hb & Hv) end.
  split; [exact Hb|exact Hv].
Qed.

End One_filter.

(** X10. One filter, one bank.  After [begin], a single standard identifier
    followed by [end] gives one bank that [debug_print] shows as the 16-bit
    list [id, id, id, id]; a single extended identifier gives the 32-bit list
    [id, id]; a standard range that is an aligned block of [2^k >= 2]
    identifiers gives the 16-bit mask bank [b-(b+2^k-1), b-(b+2^k-1)]; and an
    extended aligned block gives, without [end], the 32-bit mask bank
    [b-(b+2^k-1)]. *)
Theorem one_filter_one_bank (B dev : Z) (st0 : Bxcan.t) :
  0 < B <= 32 -> Bxcan.sized st0 ->
  let begun := snd (Bxcan.begin B dev st0) in
  let shown calls := BxcanDebug.debug_print B (Bxcan.hw_config (Bxcan.run B begun calls)) in
  (forall id, 0 <= id <= max_std_id ->
     shown [Bxcan.Add_std_id id; Bxcan.End_] = [(0, BxcanDebug.Std_list id id id id)]) /\
  (forall id, 0 <= id <= max_ext_id ->
     shown [Bxcan.Add_ext_id id; Bxcan.End_] = [(0, BxcanDebug.Ext_list id id)]) /\
  (forall b k,
     1 <= k <= 11 -> 0 <= b -> b mod 2 ^ k = 0 -> b + 2 ^ k - 1 <= max_std_id ->
     shown [Bxcan.Add_std_range b (b + 2 ^ k - 1); Bxcan.End_]
     = [(0, BxcanDebug.Std_mask b (b + 2 ^ k - 1) b (b + 2 ^ k - 1))]) /\
  (forall b k,
     1 <= k <= 29 -> 0 <= b -> b mod 2 ^ k = 0 -> b + 2 ^ k - 1 <= max_ext_id ->
     shown [Bxcan.Add_ext_range b (b + 2 ^ k - 1)]
     = [(0, BxcanDebug.Ext_mask b (b + 2 ^ k - 1))]).
Proof.
  intros HB Hs begun shown. subst begun shown. cbv beta.
  split; [|split; [|split]].
  - intros id Hid. apply (one_std_id B dev); (lia || assumption).
  - intros id Hid. apply (one_ext_id B dev); (lia || assumption).
  - intros b k Hk Hb Hal Hfit. apply (one_std_block B dev); (lia || assumption).
  - intros b k Hk Hb Hal Hfit. apply (one_ext_block B dev); (lia || assumption).
Qed.

(** X10 on a bxCAN-14: the identifier 0x123 and the block 0x10000-0x1FFFF. *)
Lemma one_filter_one_bank_witness :
  BxcanDebug.debug_print 14
    (Bxcan.hw_config
       (Bxcan.run 14 (snd (Bxcan.begin 14 CANFILTER_DEV_BXCAN_F0 (Bxcan.new 14)))
          [Bxcan.Add_std_id 0x123; Bxcan.End_]))
  = [(0, BxcanDebug.Std_list 0x123 0x123 0x123 0x123)] /\
  BxcanDebug.debug_print 14
    (Bxcan.hw_config
       (Bxcan.run 14 (snd (Bxcan.begin 14 CANFILTER_DEV_BXCAN_F0 (Bxcan.new 14)))
          [Bxcan.Add_ext_range 0x10000 (0x10000 + 2 ^ 16 - 1)]))
  = [(0, BxcanDebug.Ext_mask 0x10000 (0x10000 + 2 ^ 16 - 1))].
Proof.
  assert (Hs : Bxcan.sized (Bxcan.new 14)) by (repeat split; reflexivity).
  pose proof (one_filter_one_bank 14 CANFILTER_DEV_BXCAN_F0 (Bxcan.new 14)
                ltac:(lia) Hs) as (H1 & _ & _ & H4).
  split.
  - apply (H1 0x123). unfold max_std_id. lia.
  - apply (H4 0x10000 16); unfold max_ext_id; try reflexivity; lia.
Defined.

(** ** bxCAN: how many banks identifiers take *)

Section Packing.
Variable B : Z.
Variable dev : Z.
Hypothesis HB : 0 <= B <= 32.

Ltac in_range :=
  repeat match goal with
  | |- context [?a <? ?b] =>
      rewrite (proj2 (Z.ltb_ge a b)) by (cbn in *; lia)
  end.

Ltac count_up :=
  cbn;
  try change (u32 (0 + 1)) with 1; try change (u32 (1 + 1)) with 2;
  try change (u32 (2 + 1)) with 3; try change (u32 (3 + 1)) with 4;
  cbn.

Ltac unpack_forall :=
  repeat match goal with
  | H : Forall _ (_ :: _) |- _ => inversion H; subst; clear H
  | H : Forall _ [] |- _ => clear H
  end.

Lemma emit_std_list_success (st : Bxcan.t) (a b c d : Z) :
  0 <= Bxcan.bank st < B ->
  a <= max_std_id -> b <= max_std_id -> c <= max_std_id -> d <= max_std_id ->
  fst (Bxcan.emit_std_list B st a b c d) = CANFILTER_SUCCESS /\
  Bxcan.bank (snd (Bxcan.emit_std_list B st a b c d)) = Bxcan.bank st + 1.
Proof.
  intros Hb Ha Hb' Hc Hd. unfold Bxcan.emit_std_list.
  destruct (Z.leb_spec B (Bxcan.bank st)); [lia|]. in_range.
  cbn. split; [reflexivity|apply u32_small; lia].
Qed.

Lemma emit_ext_list_success (st : Bxcan.t) (a b : Z) :
  0 <= Bxcan.bank st < B -> a <= max_ext_id -> b <= max_ext_id ->
  fst (Bxcan.emit_ext_list B st a b) = CANFILTER_SUCCESS /\
  Bxcan.bank (snd (Bxcan.emit_ext_list B st a b)) = Bxcan.bank st + 1.
Proof.
  intros Hb Ha Hb'. unfold Bxcan.emit_ext_list.
  destruct (Z.leb_spec B (Bxcan.bank st)); [lia|]. in_range.
  cbn. split; [reflexivity|apply u32_small; lia].
Qed.

(** One more standard identifier: the count goes up, or a bank is emitted. *)
Lemma add_std_list_total (st : Bxcan.t) (id : Z) :
  Bxcan.accumulators_ok st -> 0 <= Bxcan.bank st -> id <= max_std_id ->
  Bxcan.std_list_count st < 3 \/ Bxcan.bank st < B ->
  let st' := snd (Bxcan.add_std_list B st id) in
  0 <= Bxcan.bank st' /\
  4 * Bxcan.bank st' + Bxcan.std_list_count st'
  = 4 * Bxcan.bank st + Bxcan.std_list_count st + 1 /\
  Bxcan.std_mask_count st' = Bxcan.std_mask_count st /\
  Bxcan.ext_list_count st' = Bxcan.ext_list_count st.
Proof.
  destruct st as [hw bank el elc sm smc sl slc].
  unfold Bxcan.accumulators_ok, Bxcan.sized. cbn [Bxcan.std_list Bxcan.std_list_count
    Bxcan.std_mask Bxcan.std_mask_count Bxcan.ext_list Bxcan.ext_list_count Bxcan.bank].
  intros ((Hl1 & Hl2 & Hl3) & Hc1 & Hc2 & Hc3 & Hf1 & Hf2 & Hf3) Hbank Hid Hroom.
  destruct sl as [|a [|b [|c [|d [|? ?]]]]]; try discriminate Hl1.
  assert (slc = 0 \/ slc = 1 \/ slc = 2 \/ slc = 3) as Hcase by lia.
  destruct Hcase as [->|[->|[->| ->]]].
  - count_up. repeat split; lia.
  - count_up. repeat split; lia.
  - count_up. repeat split; lia.
  - specialize (Hf1 ltac:(lia)). unpack_forall.
    unfold Bxcan.add_std_list. cbn -[Bxcan.emit_std_list u32].
    change (u32 (3 + 1)) with 4. cbn -[Bxcan.emit_std_list].
    match goal with |- context [Bxcan.emit_std_list B ?s ?x ?y ?z ?w] =>
      destruct (emit_std_list_success s x y z w) as [_ Hbk];
        [cbn; lia|assumption|assumption|assumption|assumption|];
      pose proof (emit_std_list_acc B s x y z w) as Hacc;
      destruct (Bxcan.emit_std_list B s x y z w) as [err st'] end.
    cbn in Hbk, Hacc |- *. destruct Hacc as (E1 & E2 & E3 & E4 & E5 & E6).
    rewrite Hbk, E4, E6. repeat split; lia.
Qed.

Lemma add_ext_list_total (st : Bxcan.t) (id : Z) :
  Bxcan.accumulators_ok st -> 0 <= Bxcan.bank st -> id <= max_ext_id ->
  Bxcan.ext_list_count st < 1 \/ Bxcan.bank st < B ->
  let st' := snd (Bxcan.add_ext_list B st id) in
  0 <= Bxcan.bank st' /\
  2 * Bxcan.bank st' + Bxcan.ext_list_count st'
  = 2 * Bxcan.bank st + Bxcan.ext_list_count st + 1 /\
  Bxcan.std_list_count st' = Bxcan.std_list_count st /\
  Bxcan.std_mask_count st' = Bxcan.std_mask_count st.
Proof.
  destruct st as [hw bank el elc sm smc sl slc].
  unfold Bxcan.accumulators_ok, Bxcan.sized. cbn [Bxcan.std_list Bxcan.std_list_count
    Bxcan.std_mask Bxcan.std_mask_count Bxcan.ext_list Bxcan.ext_list_count Bxcan.bank].
  intros ((Hl1 & Hl2 & Hl3) & Hc1 & Hc2 & Hc3 & Hf1 & Hf2 & Hf3) Hbank Hid Hroom.
  destruct el as [|a [|b [|? ?]]]; try discriminate Hl3.
  assert (elc = 0 \/ elc = 1) as Hcase by lia.
  destruct Hcase as [->| ->].
  - count_up. repeat split; lia.
  - specialize (Hf3 ltac:(lia)). unpack_forall.
    unfold Bxcan.add_ext_list. cbn -[Bxcan.emit_ext_list u32].
    change (u32 (1 + 1)) with 2. cbn -[Bxcan.emit_ext_list].
    match goal with |- context [Bxcan.emit_ext_list B ?s ?x ?y] =>
      destruct (emit_ext_list_success s x y) as [_ Hbk];
        [cbn; lia|assumption|assumption|];
      pose proof (emit_ext_list_acc B s x y) as Hacc;
      destruct (Bxcan.emit_ext_list B s x y) as [err st'] end.
    cbn in Hbk, Hacc |- *. destruct Hacc as (E1 & E2 & E3 & E4 & E5 & E6).
    rewrite Hbk, E2, E4. repeat split; lia.
Qed.

Lemma run_std_ids (ids : list Z) (st : Bxcan.t) (m : Z) :
  BxcanUse.std_only m st -> Forall (fun id => 0 <= id <= max_std_id) ids ->
  (m + Z.of_nat (length ids)) / 4 <= B ->
  BxcanUse.std_only (m + Z.of_nat (length ids)) (Bxcan.run B st (map Bxcan.Add_std_id ids)).
Proof.
  revert st m. induction ids as [|id ids IH]; intros st m Hst Hids Hfit.
  - cbn. rewrite Z.add_0_r. exact Hst.
  - inversion Hids as [|? ? Hid Hrest]; subst.
    cbn [map Bxcan.run fold_left Bxcan.do_call].
    change (fold_left _ (map Bxcan.Add_std_id ids) ?s)
      with (Bxcan.run B s (map Bxcan.Add_std_id ids)).
    rewrite add_std_id_list by assumption.
    replace (m + Z.of_nat (length (id :: ids)))
      with ((m + 1) + Z.of_nat (length ids)) in * by (cbn [length]; lia).
    apply IH; [|exact Hrest|exact Hfit].
    destruct Hst as (Hok & Hb & Hc & Hm & Hsm & Hel).
    assert (Bxcan.std_list_count st < 3 \/ Bxcan.bank st < B) as Hroom.
    { destruct (Z_lt_dec (Bxcan.std_list_count st) 3); [left; assumption|right].
      assert (m + 1 = 4 * (Bxcan.bank st + 1)) as Hm4 by lia.
      assert (Bxcan.bank st + 1 <= (m + 1 + Z.of_nat (length ids)) / 4).
      { apply Z.div_le_lower_bound; lia. }
      lia. }
    destruct (add_std_list_total st id Hok Hb ltac:(lia) Hroom) as (Hb' & Hm' & Hsm' & Hel').
    destruct (add_std_list_ok B st id Hok ltac:(lia)) as [_ Hok'].
    pose proof Hok' as (_ & Hc' & _).
    split; [exact Hok'|]. repeat split; try lia.
Qed.

Lemma run_ext_ids (ids : list Z) (st : Bxcan.t) (m : Z) :
  BxcanUse.ext_only m st -> Forall (fun id => 0 <= id <= max_ext_id) ids ->
  (m + Z.of_nat (length ids)) / 2 <= B ->
  BxcanUse.ext_only (m + Z.of_nat (length ids)) (Bxcan.run B st (map Bxcan.Add_ext_id ids)).
Proof.
  revert st m. induction ids as [|id ids IH]; intros st m Hst Hids Hfit.
  - cbn. rewrite Z.add_0_r. exact Hst.
  - inversion Hids as [|? ? Hid Hrest]; subst.
    cbn [map Bxcan.run fold_left Bxcan.do_call].
    change (fold_left _ (map Bxcan.Add_ext_id ids) ?s)
      with (Bxcan.run B s (map Bxcan.Add_ext_id ids)).
    rewrite add_ext_id_list by assumption.
    replace (m + Z.of_nat (length (id :: ids)))
      with ((m + 1) + Z.of_nat (length ids)) in * by (cbn [length]; lia).
    apply IH; [|exact Hrest|exact Hfit].
    destruct Hst as (Hok & Hb & Hc & Hm & Hsl & Hsm).
    assert (Bxcan.ext_list_count st < 1 \/ Bxcan.bank st < B) as Hroom.
    { destruct (Z_lt_dec (Bxcan.ext_list_count st) 1); [left; assumption|right].
      assert (m + 1 = 2 * (Bxcan.bank st + 1)) as Hm2 by lia.
      assert (Bxcan.bank st + 1 <= (m + 1 + Z.of_nat (length ids)) / 2).
      { apply Z.div_le_lower_bound; lia. }
      lia. }
    destruct (add_ext_list_total st id Hok Hb ltac:(lia) Hroom) as (Hb' & Hm' & Hsl' & Hsm').
    destruct (add_ext_list_ok B st id Hok ltac:(lia)) as [_ Hok'].
    pose proof Hok' as (_ & _ & _ & Hc' & _).
    split; [exact Hok'|]. repeat split; try lia.
Qed.

Lemma end_all_empty (st : Bxcan.t) :
  Bxcan.std_list_count st = 0 -> Bxcan.std_mask_count st = 0 ->
  Bxcan.ext_list_count st = 0 -> Bxcan.end_ B st = (CANFILTER_SUCCESS, st).
Proof. intros H1 H2 H3. unfold Bxcan.end_. rewrite H1. cbn. rewrite H2. cbn. rewrite H3. reflexivity. Qed.

Lemma begun_std_only (st0 : Bxcan.t) :
  Bxcan.sized st0 -> BxcanUse.std_only 0 (snd (Bxcan.begin B dev st0)).
Proof.
  intros Hs. split; [apply begin_accumulators_ok, Hs|]. cbn. repeat split; lia.
Qed.

Lemma begun_ext_only (st0 : Bxcan.t) :
  Bxcan.sized st0 -> BxcanUse.ext_only 0 (snd (Bxcan.begin B dev st0)).
Proof.
  intros Hs. split; [apply begin_accumulators_ok, Hs|]. cbn. repeat split; lia.
Qed.

Lemma std_only_end (m : Z) (st : Bxcan.t) :
  BxcanUse.std_only m st -> (m + 3) / 4 <= B ->
  Bxcan.bank st = m / 4 /\ Bxcan.std_list_count st = m mod 4 /\
  fst (Bxcan.end_ B st) = CANFILTER_SUCCESS /\
  Bxcan.bank (snd (Bxcan.end_ B st)) = (m + 3) / 4.
Proof.
  intros (Hok & Hb & Hc & Hm & Hsm & Hel) Hfit.
  assert (Bxcan.bank st = m / 4 /\ Bxcan.std_list_count st = m mod 4) as [E1 E2].
  { Z.div_mod_to_equations. lia. }
  split; [exact E1|]. split; [exact E2|].
  destruct (Z.eq_dec (Bxcan.std_list_count st) 0) as [H0|Hne].
  - rewrite end_all_empty by assumption. cbn [fst snd]. split; [reflexivity|].
    Z.div_mod_to_equations. lia.
  - rewrite end_only_std_list by assumption.
    destruct Hok as ((Hl & _ & _) & _ & _ & _ & Hf & _).
    specialize (Hf ltac:(lia)).
    destruct (Bxcan.std_list st) as [|a [|b [|c [|d [|? ?]]]]]; try discriminate Hl.
    inversion Hf as [|? ? Ha Hf1]; subst. inversion Hf1 as [|? ? Hb' Hf2]; subst.
    inversion Hf2 as [|? ? Hc' Hf3]; subst. inversion Hf3 as [|? ? Hd' _]; subst.
    destruct (emit_std_list_success st a b c d) as [Hs Hbk]; try assumption.
    { split; [lia|]. Z.div_mod_to_equations. lia. }
    change ([a; b; c; d] !!! 0%nat) with a. change ([a; b; c; d] !!! 1%nat) with b.
    change ([a; b; c; d] !!! 2%nat) with c. change ([a; b; c; d] !!! 3%nat) with d.
    split; [exact Hs|]. rewrite Hbk. Z.div_mod_to_equations. lia.
Qed.

Lemma ext_only_end (m : Z) (st : Bxcan.t) :
  BxcanUse.ext_only m st -> (m + 1) / 2 <= B ->
  Bxcan.bank st = m / 2 /\ Bxcan.ext_list_count st = m mod 2 /\
  fst (Bxcan.end_ B st) = CANFILTER_SUCCESS /\
  Bxcan.bank (snd (Bxcan.end_ B st)) = (m + 1) / 2.
Proof.
  intros (Hok & Hb & Hc & Hm & Hsl & Hsm) Hfit.
  assert (Bxcan.bank st = m / 2 /\ Bxcan.ext_list_count st = m mod 2) as [E1 E2].
  { Z.div_mod_to_equations. lia. }
  split; [exact E1|]. split; [exact E2|].
  destruct (Z.eq_dec (Bxcan.ext_list_count st) 0) as [H0|Hne].
  - rewrite end_all_empty by assumption. cbn [fst snd]. split; [reflexivity|].
    Z.div_mod_to_equations. lia.
  - rewrite end_only_ext_list by assumption.
    destruct Hok as ((_ & _ & Hl) & _ & _ & _ & _ & _ & Hf).
    specialize (Hf ltac:(lia)).
    destruct (Bxcan.ext_list st) as [|a [|b [|? ?]]]; try discriminate Hl.
    inversion Hf as [|? ? Ha Hf1]; subst. inversion Hf1 as [|? ? Hb' _]; subst.
    destruct (emit_ext_list_success st a b) as [Hs Hbk]; try assumption.
    { split; [lia|]. Z.div_mod_to_equations. lia. }
    change ([a; b] !!! 0%nat) with a. change ([a; b] !!! 1%nat) with b.
    split; [exact Hs|]. rewrite Hbk. Z.div_mod_to_equations. lia.
Qed.

End Packing.

(** X11. Identifiers are packed four to a bank (standard) or two to a bank
    (extended).  After [begin] and [n] standard identifiers, [n / 4] banks
    are emitted and [n mod 4] identifiers are pending; [end] then succeeds
    and leaves [(n + 3) / 4] banks, when the controller has that many.
    Likewise [n / 2], [n mod 2] and [(n + 1) / 2] for extended
    identifiers. *)
Theorem identifiers_per_bank (B dev : Z) (st0 : Bxcan.t) :
  0 <= B <= 32 -> Bxcan.sized st0 ->
  let begun := snd (Bxcan.begin B dev st0) in
  (forall ids : list Z,
     Forall (fun id => 0 <= id <= max_std_id) ids ->
     let n := Z.of_nat (length ids) in
     (n + 3) / 4 <= B ->
     let st := Bxcan.run B begun (map Bxcan.Add_std_id ids) in
     Bxcan.bank st = n / 4 /\ Bxcan.std_list_count st = n mod 4 /\
     fst (Bxcan.end_ B st) = CANFILTER_SUCCESS /\
     Bxcan.bank (snd (Bxcan.end_ B st)) = (n + 3) / 4) /\
  (forall ids : list Z,
     Forall (fun id => 0 <= id <= max_ext_id) ids ->
     let n := Z.of_nat (length ids) in
     (n + 1) / 2 <= B ->
     let st := Bxcan.run B begun (map Bxcan.Add_ext_id ids) in
     Bxcan.bank st = n / 2 /\ Bxcan.ext_list_count st = n mod 2 /\
     fst (Bxcan.end_ B st) = CANFILTER_SUCCESS /\
     Bxcan.bank (snd (Bxcan.end_ B st)) = (n + 1) / 2).
Proof.
  intros HB Hs begun. subst begun. split.
  - intros ids Hids n Hfit st. subst st.
    apply (std_only_end B HB n); [|exact Hfit].
    apply (run_std_ids B HB ids _ 0); [apply begun_std_only, Hs|exact Hids|].
    fold n. cbn [Z.add]. subst n. Z.div_mod_to_equations. lia.
  - intros ids Hids n Hfit st. subst st.
    apply (ext_only_end B HB n); [|exact Hfit].
    apply (run_ext_ids B HB ids _ 0); [apply begun_ext_only, Hs|exact Hids|].
    fold n. cbn [Z.add]. subst n. Z.div_mod_to_equations. lia.
Qed.

(** X11 on a bxCAN-14: six standard identifiers take two banks, three
    extended identifiers take two banks. *)
Lemma identifiers_per_bank_witness :
  Bxcan.bank
    (snd (Bxcan.end_ 14
       (Bxcan.run 14 (snd (Bxcan.begin 14 CANFILTER_DEV_BXCAN_F0 (Bxcan.new 14)))
          (map Bxcan.Add_std_id [0x100; 0x101; 0x200; 0x7FF; 0; 0x123]))))
  = (6 + 3) / 4 /\
  Bxcan.bank
    (snd (Bxcan.end_ 14
       (Bxcan.run 14 (snd (Bxcan.begin 14 CANFILTER_DEV_BXCAN_F0 (Bxcan.new 14)))
          (map Bxcan.Add_ext_id [0x800; 0x1FFFFFFF; 0x12345]))))
  = (3 + 1) / 2.
Proof.
  assert (Hs : Bxcan.sized (Bxcan.new 14)) by (repeat split; reflexivity).
  pose proof (identifiers_per_bank 14 CANFILTER_DEV_BXCAN_F0 (Bxcan.new 14)
                ltac:(lia) Hs) as [H1 H2].
  split.
  - apply (H1 [0x100; 0x101; 0x200; 0x7FF; 0; 0x123]).
    + repeat constructor; unfold max_std_id; lia.
    + vm_compute. discriminate.
  - apply (H2 [0x800; 0x1FFFFFFF; 0x12345]).
    + repeat constructor; unfold max_ext_id; lia.
    + vm_compute. discriminate.
Defined.

(** ** FDCAN: the fields of an element *)

(** Fields that do not overlap are added. *)
Lemma lor_high_low (h l k : Z) :
  0 <= k -> 0 <= l < 2 ^ k -> Z.lor (h * 2 ^ k) l = h * 2 ^ k + l.
Proof.
  intros Hk Hl.
  assert (Z.land (h * 2 ^ k) l = 0) as H0.
  { apply Z.bits_inj'. intros n Hn. rewrite Z.land_spec, Z.bits_0.
    destruct (Z_lt_dec n k).
    - rewrite Z.mul_pow2_bits_low by lia. reflexivity.
    - apply low_bits_iff in Hl; [|exact Hk]. rewrite <- Hl.
      rewrite Z.land_spec, Z.ones_spec_high by lia. rewrite !andb_false_r. reflexivity. }
  rewrite <- Z.lxor_lor by exact H0. symmetry. apply Z.add_nocarry_lxor, H0.
Qed.

Lemma std_element_value (t id1 id2 : Z) :
  0 <= t <= 1 -> 0 <= id1 <= max_std_id -> 0 <= id2 <= max_std_id ->
  Z.lor (Z.lor (Z.lor (u32 (Z.shiftl t 30)) (u32 (Z.shiftl Fdcan.SFEC_RX_FIFO0 27)))
               (u32 (Z.shiftl id1 16))) id2
  = t * 2 ^ 30 + 2 ^ 27 + id1 * 2 ^ 16 + id2.
Proof.
  unfold max_std_id, Fdcan.SFEC_RX_FIFO0. intros Ht H1 H2.
  rewrite !Z.shiftl_mul_pow2 by lia.
  rewrite !u32_small by lia.
  replace (t * 2 ^ 30) with ((t * 4) * 2 ^ 28) by lia.
  rewrite (lor_high_low (t * 4) (1 * 2 ^ 27) 28) by lia.
  replace (t * 4 * 2 ^ 28 + 1 * 2 ^ 27) with ((t * 8 + 1) * 2 ^ 27) by lia.
  rewrite (lor_high_low (t * 8 + 1) (id1 * 2 ^ 16) 27) by lia.
  replace ((t * 8 + 1) * 2 ^ 27 + id1 * 2 ^ 16)
    with ((t * 16384 + 2048 + id1) * 2 ^ 16) by lia.
  rewrite (lor_high_low (t * 16384 + 2048 + id1) id2 16) by lia.
  lia.
Qed.

Lemma std_element_fields (t id1 id2 : Z) :
  0 <= t <= 1 -> 0 <= id1 <= max_std_id -> 0 <= id2 <= max_std_id ->
  let w := t * 2 ^ 30 + 2 ^ 27 + id1 * 2 ^ 16 + id2 in
  Z.land (Z.shiftr w 16) max_std_id = id1 /\ Z.land w max_std_id = id2 /\
  Z.land (Z.shiftr w 27) 7 = 1 /\ Z.land (Z.shiftr w 30) 3 = t /\
  0 <= w < 2 ^ 32.
Proof.
  unfold max_std_id. cbv zeta. intros Ht H1 H2.
  change 2047 with (Z.ones 11). change 3 with (Z.ones 2). change 7 with (Z.ones 3).
  rewrite !Z.land_ones, !Z.shiftr_div_pow2 by lia.
  repeat split; Z.div_mod_to_equations; lia.
Qed.

Lemma ext_element_value (t id1 id2 : Z) :
  0 <= t <= 1 -> 0 <= id1 <= max_ext_id -> 0 <= id2 <= max_ext_id ->
  Z.lor (u32 (Z.shiftl Fdcan.EFEC_RX_FIFO0 29)) id1 = 2 ^ 29 + id1 /\
  Z.lor (u32 (Z.shiftl t 30)) id2 = t * 2 ^ 30 + id2.
Proof.
  unfold max_ext_id, Fdcan.EFEC_RX_FIFO0. intros Ht H1 H2.
  rewrite !Z.shiftl_mul_pow2 by lia.
  rewrite !u32_small by lia.
  rewrite (lor_high_low 1 id1 29), (lor_high_low t id2 30) by lia.
  split; lia.
Qed.

Lemma ext_element_fields (t id1 id2 : Z) :
  0 <= t <= 1 -> 0 <= id1 <= max_ext_id -> 0 <= id2 <= max_ext_id ->
  let w0 := 2 ^ 29 + id1 in
  let w1 := t * 2 ^ 30 + id2 in
  Z.land w0 max_ext_id = id1 /\ Z.land w1 max_ext_id = id2 /\
  Z.land (Z.shiftr w0 29) 7 = 1 /\ Z.land (Z.shiftr w1 30) 3 = t /\
  0 <= w0 < 2 ^ 32 /\ 0 <= w1 < 2 ^ 32.
Proof.
  unfold max_ext_id. cbv zeta. intros Ht H1 H2.
  change 536870911 with (Z.ones 29). change 3 with (Z.ones 2). change 7 with (Z.ones 3).
  rewrite !Z.land_ones, !Z.shiftr_div_pow2 by lia.
  repeat split; Z.div_mod_to_equations; lia.
Qed.
(** ** FDCAN: reading an image back *)

Section Fdcan_decode.
Variable S_max : Z.
Variable E_max : Z.

Ltac in_range :=
  repeat match goal with
  | |- context [?a <? ?b] =>
      rewrite (proj2 (Z.ltb_ge a b)) by (cbn in *; lia)
  end.

Lemma emit_std_decode (t : Z) (st : Fdcan.t) (id1 id2 : Z) :
  0 <= t <= 1 ->
  0 <= Fdcan.std_filter_nbr (Fdcan.hw_config st) < S_max -> S_max <= 255 ->
  length (Fdcan.std_filter (Fdcan.hw_config st)) = Z.to_nat S_max ->
  0 <= id1 <= max_std_id -> 0 <= id2 <= max_std_id ->
  let sfr := Z.lor (Z.lor (Z.lor (u32 (Z.shiftl t 30))
                                 (u32 (Z.shiftl Fdcan.SFEC_RX_FIFO0 27)))
                          (u32 (Z.shiftl id1 16))) id2 in
  let hw' := Fdcan.push_std (Fdcan.hw_config st) sfr in
  Fdcan.std_filter_nbr hw' = Fdcan.std_filter_nbr (Fdcan.hw_config st) + 1 /\
  FdcanDebug.debug_std hw' (Z.to_nat (Fdcan.std_filter_nbr (Fdcan.hw_config st)))
  = FdcanDebug.mk_std_view t id1 id2 Fdcan.SFEC_RX_FIFO0.
Proof.
  intros Ht Hn HS Hl H1 H2 sfr hw'. subst sfr hw'.
  rewrite std_element_value by assumption.
  unfold Fdcan.push_std, FdcanDebug.debug_std. cbn [Fdcan.std_filter_nbr Fdcan.std_filter].
  split; [unfold u8; apply Z.mod_small; lia|].
  rewrite list_lookup_total_insert_eq by lia.
  destruct (std_element_fields t id1 id2 Ht H1 H2) as (-> & -> & -> & -> & _).
  reflexivity.
Qed.

Lemma emit_ext_decode (t : Z) (st : Fdcan.t) (id1 id2 : Z) :
  0 <= t <= 1 ->
  0 <= Fdcan.ext_filter_nbr (Fdcan.hw_config st) < E_max -> E_max <= 255 ->
  length (Fdcan.ext_filter (Fdcan.hw_config st)) = Z.to_nat E_max ->
  0 <= id1 <= max_ext_id -> 0 <= id2 <= max_ext_id ->
  let w0 := Z.lor (u32 (Z.shiftl Fdcan.EFEC_RX_FIFO0 29)) id1 in
  let w1 := Z.lor (u32 (Z.shiftl t 30)) id2 in
  let hw' := Fdcan.push_ext (Fdcan.hw_config st) w0 w1 in
  Fdcan.ext_filter_nbr hw' = Fdcan.ext_filter_nbr (Fdcan.hw_config st) + 1 /\
  FdcanDebug.debug_ext hw' (Z.to_nat (Fdcan.ext_filter_nbr (Fdcan.hw_config st)))
  = FdcanDebug.mk_ext_view t id1 id2 Fdcan.EFEC_RX_FIFO0.
Proof.
  intros Ht Hn HE Hl H1 H2 w0 w1 hw'. subst w0 w1 hw'.
  destruct (ext_element_value t id1 id2 Ht H1 H2) as (-> & ->).
  unfold Fdcan.push_ext, FdcanDebug.debug_ext. cbn [Fdcan.ext_filter_nbr Fdcan.ext_filter].
  split; [unfold u8; apply Z.mod_small; lia|].
  rewrite list_lookup_total_insert_eq by lia. cbn [fst snd].
  destruct (ext_element_fields t id1 id2 Ht H1 H2) as (-> & -> & -> & -> & _).
  reflexivity.
Qed.

Lemma emit_std_id_decode (st : Fdcan.t) (id1 id2 : Z) :
  0 <= Fdcan.std_filter_nbr (Fdcan.hw_config st) < S_max -> S_max <= 255 ->
  length (Fdcan.std_filter (Fdcan.hw_config st)) = Z.to_nat S_max ->
  0 <= id1 <= max_std_id -> 0 <= id2 <= max_std_id ->
  let r := Fdcan.emit_std_id S_max st id1 id2 in
  fst r = CANFILTER_SUCCESS /\
  Fdcan.std_filter_nbr (Fdcan.hw_config (snd r))
  = Fdcan.std_filter_nbr (Fdcan.hw_config st) + 1 /\
  FdcanDebug.debug_std (Fdcan.hw_config (snd r))
    (Z.to_nat (Fdcan.std_filter_nbr (Fdcan.hw_config st)))
  = FdcanDebug.mk_std_view Fdcan.SFT_DUAL id1 id2 Fdcan.SFEC_RX_FIFO0.
Proof.
  intros Hn HS Hl H1 H2 r. subst r. unfold Fdcan.emit_std_id.
  destruct (Z.leb_spec S_max (Fdcan.std_filter_nbr (Fdcan.hw_config st))); [lia|].
  in_range. cbn [orb fst snd Fdcan.hw_config Fdcan.set_hw_config].
  split; [reflexivity|].
  apply (emit_std_decode Fdcan.SFT_DUAL); try assumption. unfold Fdcan.SFT_DUAL. lia.
Qed.

Lemma emit_std_range_decode (st : Fdcan.t) (id1 id2 : Z) :
  0 <= Fdcan.std_filter_nbr (Fdcan.hw_config st) < S_max -> S_max <= 255 ->
  length (Fdcan.std_filter (Fdcan.hw_config st)) = Z.to_nat S_max ->
  0 <= id1 <= max_std_id -> 0 <= id2 <= max_std_id -> id1 <= id2 ->
  let r := Fdcan.emit_std_range S_max st id1 id2 in
  fst r = CANFILTER_SUCCESS /\
  Fdcan.std_filter_nbr (Fdcan.hw_config (snd r))
  = Fdcan.std_filter_nbr (Fdcan.hw_config st) + 1 /\
  FdcanDebug.debug_std (Fdcan.hw_config (snd r))
    (Z.to_nat (Fdcan.std_filter_nbr (Fdcan.hw_config st)))
  = FdcanDebug.mk_std_view Fdcan.SFT_RANGE id1 id2 Fdcan.SFEC_RX_FIFO0.
Proof.
  intros Hn HS Hl H1 H2 Hle r. subst r. unfold Fdcan.emit_std_range.
  destruct (Z.leb_spec S_max (Fdcan.std_filter_nbr (Fdcan.hw_config st))); [lia|].
  in_range. cbn [orb fst snd Fdcan.hw_config Fdcan.set_hw_config].
  split; [reflexivity|].
  apply (emit_std_decode Fdcan.SFT_RANGE); try assumption. unfold Fdcan.SFT_RANGE. lia.
Qed.

Lemma emit_ext_id_decode (st : Fdcan.t) (id1 id2 : Z) :
  0 <= Fdcan.ext_filter_nbr (Fdcan.hw_config st) < E_max -> E_max <= 255 ->
  length (Fdcan.ext_filter (Fdcan.hw_config st)) = Z.to_nat E_max ->
  0 <= id1 <= max_ext_id -> 0 <= id2 <= max_ext_id ->
  let r := Fdcan.emit_ext_id E_max st id1 id2 in
  fst r = CANFILTER_SUCCESS /\
  Fdcan.ext_filter_nbr (Fdcan.hw_config (snd r))
  = Fdcan.ext_filter_nbr (Fdcan.hw_config st) + 1 /\
  FdcanDebug.debug_ext (Fdcan.hw_config (snd r))
    (Z.to_nat (Fdcan.ext_filter_nbr (Fdcan.hw_config st)))
  = FdcanDebug.mk_ext_view Fdcan.EFT_DUAL id1 id2 Fdcan.EFEC_RX_FIFO0.
Proof.
  intros Hn HE Hl H1 H2 r. subst r. unfold Fdcan.emit_ext_id.
  destruct (Z.leb_spec E_max (Fdcan.ext_filter_nbr (Fdcan.hw_config st))); [lia|].
  in_range. cbn [orb fst snd Fdcan.hw_config Fdcan.set_hw_config].
  split; [reflexivity|].
  apply (emit_ext_decode Fdcan.EFT_DUAL); try assumption. unfold Fdcan.EFT_DUAL. lia.
Qed.

Lemma emit_ext_range_decode (st : Fdcan.t) (id1 id2 : Z) :
  0 <= Fdcan.ext_filter_nbr (Fdcan.hw_config st) < E_max -> E_max <= 255 ->
  length (Fdcan.ext_filter (Fdcan.hw_config st)) = Z.to_nat E_max ->
  0 <= id1 <= max_ext_id -> 0 <= id2 <= max_ext_id -> id1 <= id2 ->
  let r := Fdcan.emit_ext_range E_max st id1 id2 in
  fst r = CANFILTER_SUCCESS /\
  Fdcan.ext_filter_nbr (Fdcan.hw_config (snd r))
  = Fdcan.ext_filter_nbr (Fdcan.hw_config st) + 1 /\
  FdcanDebug.debug_ext (Fdcan.hw_config (snd r))
    (Z.to_nat (Fdcan.ext_filter_nbr (Fdcan.hw_config st)))
  = FdcanDebug.mk_ext_view Fdcan.EFT_RANGE id1 id2 Fdcan.EFEC_RX_FIFO0.
Proof.
  intros Hn HE Hl H1 H2 Hle r. subst r. unfold Fdcan.emit_ext_range.
  destruct (Z.leb_spec E_max (Fdcan.ext_filter_nbr (Fdcan.hw_config st))); [lia|].
  in_range. cbn [orb fst snd Fdcan.hw_config Fdcan.set_hw_config].
  split; [reflexivity|].
  apply (emit_ext_decode Fdcan.EFT_RANGE); try assumption. unfold Fdcan.EFT_RANGE. lia.
Qed.

Lemma add_std_range_decode (st : Fdcan.t) (a b : Z) :
  0 <= Fdcan.std_filter_nbr (Fdcan.hw_config st) < S_max -> S_max <= 255 ->
  length (Fdcan.std_filter (Fdcan.hw_config st)) = Z.to_nat S_max ->
  0 <= a <= max_std_id -> 0 <= b <= max_std_id ->
  let r := Fdcan.add_std_range S_max st a b in
  fst r = CANFILTER_SUCCESS /\
  Fdcan.std_filter_nbr (Fdcan.hw_config (snd r))
  = Fdcan.std_filter_nbr (Fdcan.hw_config st) + 1 /\
  FdcanDebug.debug_std (Fdcan.hw_config (snd r))
    (Z.to_nat (Fdcan.std_filter_nbr (Fdcan.hw_config st)))
  = FdcanDebug.mk_std_view Fdcan.SFT_RANGE (Z.min a b) (Z.max a b) Fdcan.SFEC_RX_FIFO0.
Proof.
  intros Hn HS Hl Ha Hb r. subst r. unfold Fdcan.add_std_range.
  in_range. cbn [orb].
  destruct (Z.leb_spec a b).
  - rewrite Z.min_l, Z.max_r by lia. apply emit_std_range_decode; assumption.
  - rewrite Z.min_r, Z.max_l by lia. apply emit_std_range_decode; (assumption || lia).
Qed.

Lemma add_ext_range_decode (st : Fdcan.t) (a b : Z) :
  0 <= Fdcan.ext_filter_nbr (Fdcan.hw_config st) < E_max -> E_max <= 255 ->
  length (Fdcan.ext_filter (Fdcan.hw_config st)) = Z.to_nat E_max ->
  0 <= a <= max_ext_id -> 0 <= b <= max_ext_id ->
  let r := Fdcan.add_ext_range E_max st a b in
  fst r = CANFILTER_SUCCESS /\
  Fdcan.ext_filter_nbr (Fdcan.hw_config (snd r))
  = Fdcan.ext_filter_nbr (Fdcan.hw_config st) + 1 /\
  FdcanDebug.debug_ext (Fdcan.hw_config (snd r))
    (Z.to_nat (Fdcan.ext_filter_nbr (Fdcan.hw_config st)))
  = FdcanDebug.mk_ext_view Fdcan.EFT_RANGE (Z.min a b) (Z.max a b) Fdcan.EFEC_RX_FIFO0.
Proof.
  intros Hn HE Hl Ha Hb r. subst r. unfold Fdcan.add_ext_range.
  in_range. cbn [orb].
  destruct (Z.leb_spec a b).
  - rewrite Z.min_l, Z.max_r by lia. apply emit_ext_range_decode; assumption.
  - rewrite Z.min_r, Z.max_l by lia. apply emit_ext_range_decode; (assumption || lia).
Qed.

End Fdcan_decode.

(** X12. An FDCAN range is one element that reads back as the range:
    [add_std_range] and [add_ext_range], with both ends within the space and
    a free element, succeed and write at the former count a range element
    for FIFO 0 whose two identifiers are the smaller and the larger end. *)
Theorem fdcan_range_reads_back (S_max E_max : Z) (st : Fdcan.t) (a b : Z) :
  (0 <= Fdcan.std_filter_nbr (Fdcan.hw_config st) < S_max -> S_max <= 255 ->
   length (Fdcan.std_filter (Fdcan.hw_config st)) = Z.to_nat S_max ->
   0 <= a <= max_std_id -> 0 <= b <= max_std_id ->
   let r := Fdcan.add_std_range S_max st a b in
   fst r = CANFILTER_SUCCESS /\
   Fdcan.std_filter_nbr (Fdcan.hw_config (snd r))
   = Fdcan.std_filter_nbr (Fdcan.hw_config st) + 1 /\
   FdcanDebug.debug_std (Fdcan.hw_config (snd r))
     (Z.to_nat (Fdcan.std_filter_nbr (Fdcan.hw_config st)))
   = FdcanDebug.mk_std_view Fdcan.SFT_RANGE (Z.min a b) (Z.max a b)
       Fdcan.SFEC_RX_FIFO0) /\
  (0 <= Fdcan.ext_filter_nbr (Fdcan.hw_config st) < E_max -> E_max <= 255 ->
   length (Fdcan.ext_filter (Fdcan.hw_config st)) = Z.to_nat E_max ->
   0 <= a <= max_ext_id -> 0 <= b <= max_ext_id ->
   let r := Fdcan.add_ext_range E_max st a b in
   fst r = CANFILTER_SUCCESS /\
   Fdcan.ext_filter_nbr (Fdcan.hw_config (snd r))
   = Fdcan.ext_filter_nbr (Fdcan.hw_config st) + 1 /\
   FdcanDebug.debug_ext (Fdcan.hw_config (snd r))
     (Z.to_nat (Fdcan.ext_filter_nbr (Fdcan.hw_config st)))
   = FdcanDebug.mk_ext_view Fdcan.EFT_RANGE (Z.min a b) (Z.max a b)
       Fdcan.EFEC_RX_FIFO0).
Proof.
  split.
  - apply add_std_range_decode.
  - apply add_ext_range_decode.
Qed.

(** X12 on an FDCAN-28-8 after [begin], with the ends swapped. *)
Lemma fdcan_range_reads_back_witness :
  FdcanDebug.debug_std
    (Fdcan.hw_config (snd (Fdcan.add_std_range 28 fdcan_g0_begun 0x2FF 0x100))) 0
  = FdcanDebug.mk_std_view Fdcan.SFT_RANGE 0x100 0x2FF Fdcan.SFEC_RX_FIFO0 /\
  FdcanDebug.debug_ext
    (Fdcan.hw_config (snd (Fdcan.add_ext_range 8 fdcan_g0_begun 0x2FF 0x100))) 0
  = FdcanDebug.mk_ext_view Fdcan.EFT_RANGE 0x100 0x2FF Fdcan.EFEC_RX_FIFO0.
Proof.
  split.
  - apply (proj1 (fdcan_range_reads_back 28 8 fdcan_g0_begun 0x2FF 0x100));
      first [reflexivity | unfold max_std_id; lia
            | vm_compute; split; [discriminate|reflexivity]].
  - apply (proj2 (fdcan_range_reads_back 28 8 fdcan_g0_begun 0x2FF 0x100));
      first [reflexivity | unfold max_ext_id; lia
            | vm_compute; split; [discriminate|reflexivity]].
Defined.

(** ** FDCAN: identifiers go in pairs *)

Section Fdcan_pairs.
Variable S_max : Z.
Variable E_max : Z.

Lemma fdcan_first_std_id (st : Fdcan.t) (id : Z) :
  FdcanUse.sized st -> Fdcan.std_id_count st = 0 -> id <= max_std_id ->
  Fdcan.add_std_id S_max st id
  = (CANFILTER_SUCCESS, Fdcan.set_std_id_count (Fdcan.set_std_id st [id; id]) 1).
Proof.
  destruct st as [hw el elc sl slc]. unfold FdcanUse.sized. cbn.
  intros (Hl & _) -> Hid.
  destruct sl as [|a [|b [|? ?]]]; try discriminate Hl.
  unfold Fdcan.add_std_id. cbn [Fdcan.std_id_count Fdcan.std_id].
  rewrite (proj2 (Z.ltb_ge max_std_id id)) by lia. reflexivity.
Qed.

Lemma fdcan_second_std_id (st : Fdcan.t) (a b id : Z) :
  Fdcan.std_id st = [a; b] -> Fdcan.std_id_count st = 1 -> id <= max_std_id ->
  Fdcan.add_std_id S_max st id
  = (fst (Fdcan.emit_std_id S_max st a id),
     Fdcan.set_std_id_count
       (Fdcan.set_std_id (snd (Fdcan.emit_std_id S_max st a id)) [a; id]) 0).
Proof.
  destruct st as [hw el elc sl slc]. cbn. intros -> -> Hid.
  unfold Fdcan.add_std_id. cbn [Fdcan.std_id_count Fdcan.std_id].
  rewrite (proj2 (Z.ltb_ge max_std_id id)) by lia. cbn [orb Z.ltb Z.compare].
  change (u8 (1 + 1)) with 2. cbn -[Fdcan.emit_std_id].
  unfold Fdcan.emit_std_id. cbn [Fdcan.hw_config].
  destruct (S_max <=? _); [reflexivity|].
  destruct (_ || _); reflexivity.
Qed.

Lemma fdcan_first_ext_id (st : Fdcan.t) (id : Z) :
  FdcanUse.sized st -> Fdcan.ext_id_count st = 0 -> id <= max_ext_id ->
  Fdcan.add_ext_id E_max st id
  = (CANFILTER_SUCCESS, Fdcan.set_ext_id_count (Fdcan.set_ext_id st [id; id]) 1).
Proof.
  destruct st as [hw el elc sl slc]. unfold FdcanUse.sized. cbn.
  intros (_ & Hl) -> Hid.
  destruct el as [|a [|b [|? ?]]]; try discriminate Hl.
  unfold Fdcan.add_ext_id. cbn [Fdcan.ext_id_count Fdcan.ext_id].
  rewrite (proj2 (Z.ltb_ge max_ext_id id)) by lia. reflexivity.
Qed.

Lemma fdcan_second_ext_id (st : Fdcan.t) (a b id : Z) :
  Fdcan.ext_id st = [a; b] -> Fdcan.ext_id_count st = 1 -> id <= max_ext_id ->
  Fdcan.add_ext_id E_max st id
  = (fst (Fdcan.emit_ext_id E_max st a id),
     Fdcan.set_ext_id_count
       (Fdcan.set_ext_id (snd (Fdcan.emit_ext_id E_max st a id)) [a; id]) 0).
Proof.
  destruct st as [hw el elc sl slc]. cbn. intros -> -> Hid.
  unfold Fdcan.add_ext_id. cbn [Fdcan.ext_id_count Fdcan.ext_id].
  rewrite (proj2 (Z.ltb_ge max_ext_id id)) by lia. cbn [orb Z.ltb Z.compare].
  change (u8 (1 + 1)) with 2. cbn -[Fdcan.emit_ext_id].
  unfold Fdcan.emit_ext_id. cbn [Fdcan.hw_config].
  destruct (E_max <=? _); [reflexivity|].
  destruct (_ || _); reflexivity.
Qed.

(** The emitters of one table leave the other table alone. *)
Lemma emit_ext_id_std (st : Fdcan.t) (a b : Z) :
  let hw' := Fdcan.hw_config (snd (Fdcan.emit_ext_id E_max st a b)) in
  Fdcan.std_filter hw' = Fdcan.std_filter (Fdcan.hw_config st) /\
  Fdcan.std_filter_nbr hw' = Fdcan.std_filter_nbr (Fdcan.hw_config st).
Proof.
  unfold Fdcan.emit_ext_id. destruct (_ <=? _); [cbn; tauto|].
  destruct (_ || _); cbn; tauto.
Qed.

Lemma emit_std_id_ext (st : Fdcan.t) (a b : Z) :
  let hw' := Fdcan.hw_config (snd (Fdcan.emit_std_id S_max st a b)) in
  Fdcan.ext_filter hw' = Fdcan.ext_filter (Fdcan.hw_config st) /\
  Fdcan.ext_filter_nbr hw' = Fdcan.ext_filter_nbr (Fdcan.hw_config st).
Proof.
  unfold Fdcan.emit_std_id. destruct (_ <=? _); [cbn; tauto|].
  destruct (_ || _); cbn; tauto.
Qed.

Lemma emit_std_id_keeps (st : Fdcan.t) (a b : Z) :
  let st' := snd (Fdcan.emit_std_id S_max st a b) in
  Fdcan.std_id st' = Fdcan.std_id st /\ Fdcan.std_id_count st' = Fdcan.std_id_count st /\
  Fdcan.ext_id st' = Fdcan.ext_id st /\ Fdcan.ext_id_count st' = Fdcan.ext_id_count st.
Proof.
  unfold Fdcan.emit_std_id. destruct (_ <=? _); [cbn; tauto|].
  destruct (_ || _); cbn; tauto.
Qed.

Lemma debug_std_table (hw hw' : Fdcan.hw_t) (i : nat) :
  Fdcan.std_filter hw' = Fdcan.std_filter hw ->
  FdcanDebug.debug_std hw' i = FdcanDebug.debug_std hw i.
Proof. intros H. unfold FdcanDebug.debug_std. rewrite H. reflexivity. Qed.

Lemma debug_ext_table (hw hw' : Fdcan.hw_t) (i : nat) :
  Fdcan.ext_filter hw' = Fdcan.ext_filter hw ->
  FdcanDebug.debug_ext hw' i = FdcanDebug.debug_ext hw i.
Proof. intros H. unfold FdcanDebug.debug_ext. rewrite H. reflexivity. Qed.

Lemma std_ids_pair (st : Fdcan.t) (id1 id2 : Z) :
  FdcanUse.sized st -> S_max <= 255 -> Fdcan.std_id_count st = 0 ->
  0 <= Fdcan.std_filter_nbr (Fdcan.hw_config st) < S_max ->
  length (Fdcan.std_filter (Fdcan.hw_config st)) = Z.to_nat S_max ->
  0 <= id1 <= max_std_id -> 0 <= id2 <= max_std_id ->
  let n := Fdcan.std_filter_nbr (Fdcan.hw_config st) in
  let one := Fdcan.add_std_id S_max st id1 in
  let two := Fdcan.add_std_id S_max (snd one) id2 in
  let ended := Fdcan.end_ S_max E_max (snd one) in
  fst one = CANFILTER_SUCCESS /\ Fdcan.hw_config (snd one) = Fdcan.hw_config st /\
  fst two = CANFILTER_SUCCESS /\
  Fdcan.std_filter_nbr (Fdcan.hw_config (snd two)) = n + 1 /\
  Fdcan.std_id_count (snd two) = 0 /\
  FdcanDebug.debug_std (Fdcan.hw_config (snd two)) (Z.to_nat n)
  = FdcanDebug.mk_std_view Fdcan.SFT_DUAL id1 id2 Fdcan.SFEC_RX_FIFO0 /\
  Fdcan.std_filter_nbr (Fdcan.hw_config (snd ended)) = n + 1 /\
  FdcanDebug.debug_std (Fdcan.hw_config (snd ended)) (Z.to_nat n)
  = FdcanDebug.mk_std_view Fdcan.SFT_DUAL id1 id1 Fdcan.SFEC_RX_FIFO0.
Proof.
  intros Hs HS Hc Hn Hl H1 H2 n one two ended. subst n one two ended.
  rewrite fdcan_first_std_id by (assumption || lia). cbn [fst snd].
  set (st1 := Fdcan.set_std_id_count (Fdcan.set_std_id st [id1; id1]) 1).
  assert (Fdcan.hw_config st1 = Fdcan.hw_config st) as Hhw by reflexivity.
  split; [reflexivity|]. split; [exact Hhw|].
  rewrite (fdcan_second_std_id st1 id1 id1 id2) by (reflexivity || lia). cbn [fst snd].
  destruct (emit_std_id_decode S_max st1 id1 id2) as (E1 & E2 & E3);
    try (rewrite ?Hhw; assumption).
  rewrite Hhw in E2, E3.
  split; [exact E1|]. split; [exact E2|]. split; [reflexivity|]. split; [exact E3|].
  unfold Fdcan.end_. change (Fdcan.std_id_count st1) with 1. cbn [Z.eqb negb].
  change (Fdcan.std_id st1 !!! 0%nat) with id1.
  change (Fdcan.std_id st1 !!! 1%nat) with id1.
  destruct (emit_std_id_decode S_max st1 id1 id1) as (F1 & F2 & F3);
    try (rewrite ?Hhw; assumption).
  rewrite Hhw in F2, F3.
  destruct (Fdcan.emit_std_id S_max st1 id1 id1) as [err s2]. cbn [fst snd] in *.
  destruct (_ && _); cbn [snd]; [|split; assumption].
  destruct (emit_ext_id_std s2 (Fdcan.ext_id s2 !!! 0%nat) (Fdcan.ext_id s2 !!! 1%nat))
    as [G1 G2].
  destruct (Fdcan.emit_ext_id E_max s2 _ _) as [e3 s3]. cbn [snd] in *.
  rewrite G2. split; [exact F2|].
  rewrite (debug_std_table _ _ _ G1). exact F3.
Qed.

Lemma ext_ids_pair (st : Fdcan.t) (id1 id2 : Z) :
  FdcanUse.sized st -> E_max <= 255 ->
  Fdcan.std_id_count st = 0 -> Fdcan.ext_id_count st = 0 ->
  0 <= Fdcan.ext_filter_nbr (Fdcan.hw_config st) < E_max ->
  length (Fdcan.ext_filter (Fdcan.hw_config st)) = Z.to_nat E_max ->
  0 <= id1 <= max_ext_id -> 0 <= id2 <= max_ext_id ->
  let n := Fdcan.ext_filter_nbr (Fdcan.hw_config st) in
  let one := Fdcan.add_ext_id E_max st id1 in
  let two := Fdcan.add_ext_id E_max (snd one) id2 in
  let ended := Fdcan.end_ S_max E_max (snd one) in
  fst one = CANFILTER_SUCCESS /\ Fdcan.hw_config (snd one) = Fdcan.hw_config st /\
  fst two = CANFILTER_SUCCESS /\
  Fdcan.ext_filter_nbr (Fdcan.hw_config (snd two)) = n + 1 /\
  Fdcan.ext_id_count (snd two) = 0 /\
  FdcanDebug.debug_ext (Fdcan.hw_config (snd two)) (Z.to_nat n)
  = FdcanDebug.mk_ext_view Fdcan.EFT_DUAL id1 id2 Fdcan.EFEC_RX_FIFO0 /\
  fst ended = CANFILTER_SUCCESS /\
  Fdcan.ext_filter_nbr (Fdcan.hw_config (snd ended)) = n + 1 /\
  FdcanDebug.debug_ext (Fdcan.hw_config (snd ended)) (Z.to_nat n)
  = FdcanDebug.mk_ext_view Fdcan.EFT_DUAL id1 id1 Fdcan.EFEC_RX_FIFO0.
Proof.
  intros Hs HE Hc0 Hc Hn Hl H1 H2 n one two ended. subst n one two ended.
  rewrite fdcan_first_ext_id by (assumption || lia). cbn [fst snd].
  set (st1 := Fdcan.set_ext_id_count (Fdcan.set_ext_id st [id1; id1]) 1).
  assert (Fdcan.hw_config st1 = Fdcan.hw_config st) as Hhw by reflexivity.
  split; [reflexivity|]. split; [exact Hhw|].
  rewrite (fdcan_second_ext_id st1 id1 id1 id2) by (reflexivity || lia). cbn [fst snd].
  destruct (emit_ext_id_decode E_max st1 id1 id2) as (E1 & E2 & E3);
    try (rewrite ?Hhw; assumption).
  rewrite Hhw in E2, E3.
  split; [exact E1|]. split; [exact E2|]. split; [reflexivity|]. split; [exact E3|].
  unfold Fdcan.end_. change (Fdcan.std_id_count st1) with (Fdcan.std_id_count st).
  rewrite Hc0. cbn [Z.eqb negb].
  change (Fdcan.ext_id_count st1) with 1. cbn [Z.eqb negb is_success andb].
  change (Fdcan.ext_id st1 !!! 0%nat) with id1.
  change (Fdcan.ext_id st1 !!! 1%nat) with id1.
  destruct (emit_ext_id_decode E_max st1 id1 id1) as (F1 & F2 & F3);
    try (rewrite ?Hhw; assumption).
  rewrite Hhw in F2, F3.
  destruct (Fdcan.emit_ext_id E_max st1 id1 id1) as [err s2]. cbn [fst snd] in *.
  split; [exact F1|]. split; assumption.
Qed.

End Fdcan_pairs.

(** X13. FDCAN identifiers go in pairs.  On a builder with no identifier
    pending and a free element, the first identifier writes nothing, the
    second emits one dual element for FIFO 0 holding both, and [end] after
    the first alone emits a dual element holding it twice; the same in the
    extended table. *)
Theorem fdcan_identifiers_pair_up (S_max E_max : Z) (st : Fdcan.t) :
  FdcanUse.sized st -> S_max <= 255 -> E_max <= 255 ->
  Fdcan.std_id_count st = 0 -> Fdcan.ext_id_count st = 0 ->
  (0 <= Fdcan.std_filter_nbr (Fdcan.hw_config st) < S_max ->
   length (Fdcan.std_filter (Fdcan.hw_config st)) = Z.to_nat S_max ->
   forall id1 id2 : Z, 0 <= id1 <= max_std_id -> 0 <= id2 <= max_std_id ->
     let n := Fdcan.std_filter_nbr (Fdcan.hw_config st) in
     let one := Fdcan.add_std_id S_max st id1 in
     let two := Fdcan.add_std_id S_max (snd one) id2 in
     let ended := Fdcan.end_ S_max E_max (snd one) in
     fst one = CANFILTER_SUCCESS /\ Fdcan.hw_config (snd one) = Fdcan.hw_config st /\
     fst two = CANFILTER_SUCCESS /\
     Fdcan.std_filter_nbr (Fdcan.hw_config (snd two)) = n + 1 /\
     Fdcan.std_id_count (snd two) = 0 /\
     FdcanDebug.debug_std (Fdcan.hw_config (snd two)) (Z.to_nat n)
     = FdcanDebug.mk_std_view Fdcan.SFT_DUAL id1 id2 Fdcan.SFEC_RX_FIFO0 /\
     Fdcan.std_filter_nbr (Fdcan.hw_config (snd ended)) = n + 1 /\
     FdcanDebug.debug_std (Fdcan.hw_config (snd ended)) (Z.to_nat n)
     = FdcanDebug.mk_std_view Fdcan.SFT_DUAL id1 id1 Fdcan.SFEC_RX_FIFO0) /\
  (0 <= Fdcan.ext_filter_nbr (Fdcan.hw_config st) < E_max ->
   length (Fdcan.ext_filter (Fdcan.hw_config st)) = Z.to_nat E_max ->
   forall id1 id2 : Z, 0 <= id1 <= max_ext_id -> 0 <= id2 <= max_ext_id ->
     let n := Fdcan.ext_filter_nbr (Fdcan.hw_config st) in
     let one := Fdcan.add_ext_id E_max st id1 in
     let two := Fdcan.add_ext_id E_max (snd one) id2 in
     let ended := Fdcan.end_ S_max E_max (snd one) in
     fst one = CANFILTER_SUCCESS /\ Fdcan.hw_config (snd one) = Fdcan.hw_config st /\
     fst two = CANFILTER_SUCCESS /\
     Fdcan.ext_filter_nbr (Fdcan.hw_config (snd two)) = n + 1 /\
     Fdcan.ext_id_count (snd two) = 0 /\
     FdcanDebug.debug_ext (Fdcan.hw_config (snd two)) (Z.to_nat n)
     = FdcanDebug.mk_ext_view Fdcan.EFT_DUAL id1 id2 Fdcan.EFEC_RX_FIFO0 /\
     fst ended = CANFILTER_SUCCESS /\
     Fdcan.ext_filter_nbr (Fdcan.hw_config (snd ended)) = n + 1 /\
     FdcanDebug.debug_ext (Fdcan.hw_config (snd ended)) (Z.to_nat n)
     = FdcanDebug.mk_ext_view Fdcan.EFT_DUAL id1 id1 Fdcan.EFEC_RX_FIFO0).
Proof.
  intros Hs HS HE Hc1 Hc2. split.
  - intros Hn Hl id1 id2 H1 H2. apply std_ids_pair; assumption.
  - intros Hn Hl id1 id2 H1 H2. apply ext_ids_pair; assumption.
Qed.

(** X13 on an FDCAN-28-8 after [begin]: 0x100 and 0x200, 0x800 and
    0x1FFFFFFF. *)
Lemma fdcan_identifiers_pair_up_witness :
  FdcanDebug.debug_std
    (Fdcan.hw_config
       (snd (Fdcan.add_std_id 28 (snd (Fdcan.add_std_id 28 fdcan_g0_begun 0x100)) 0x200)))
    0
  = FdcanDebug.mk_std_view Fdcan.SFT_DUAL 0x100 0x200 Fdcan.SFEC_RX_FIFO0 /\
  FdcanDebug.debug_ext
    (Fdcan.hw_config
       (snd (Fdcan.add_ext_id 8 (snd (Fdcan.add_ext_id 8 fdcan_g0_begun 0x800))
               0x1FFFFFFF)))
    0
  = FdcanDebug.mk_ext_view Fdcan.EFT_DUAL 0x800 0x1FFFFFFF Fdcan.EFEC_RX_FIFO0.
Proof.
  assert (Hs : FdcanUse.sized fdcan_g0_begun) by (split; reflexivity).
  pose proof (fdcan_identifiers_pair_up 28 8 fdcan_g0_begun Hs ltac:(lia) ltac:(lia)
                eq_refl eq_refl) as [H1 H2].
  split.
  - apply (H1 ltac:(vm_compute; split; [discriminate|reflexivity]) eq_refl 0x100 0x200);
      unfold max_std_id; lia.
  - apply (H2 ltac:(vm_compute; split; [discriminate|reflexivity]) eq_refl 0x800 0x1FFFFFFF);
      unfold max_ext_id; lia.
Defined.

(** ** FDCAN: builder states in use *)

(** A property of the image that every write of an element keeps is kept by
    every call of the interface. *)
Section Fdcan_lift.
Variable S_max : Z.
Variable E_max : Z.
Variable P : Fdcan.t -> Prop.
Hypothesis P_acc :
  forall st st', Fdcan.hw_config st' = Fdcan.hw_config st -> P st -> P st'.
Hypothesis P_std :
  forall st w, P st -> Fdcan.std_filter_nbr (Fdcan.hw_config st) < S_max ->
    P (Fdcan.set_hw_config st (Fdcan.push_std (Fdcan.hw_config st) w)).
Hypothesis P_ext :
  forall st w0 w1, P st -> Fdcan.ext_filter_nbr (Fdcan.hw_config st) < E_max ->
    P (Fdcan.set_hw_config st (Fdcan.push_ext (Fdcan.hw_config st) w0 w1)).

Ltac lift_emit :=
  intros HP;
  match goal with
  | |- context [if ?b <=? ?x then _ else _] => destruct (Z.leb_spec b x)
  end; [exact HP|];
  match goal with
  | |- context [if ?c then _ else _] => destruct c
  end; [exact HP|];
  cbn [snd]; first [apply P_std|apply P_ext]; [exact HP|lia].

Lemma fdcan_emit_std_id_lift (st : Fdcan.t) (a b : Z) :
  P st -> P (snd (Fdcan.emit_std_id S_max st a b)).
Proof. unfold Fdcan.emit_std_id. lift_emit. Qed.

Lemma fdcan_emit_std_range_lift (st : Fdcan.t) (a b : Z) :
  P st -> P (snd (Fdcan.emit_std_range S_max st a b)).
Proof. unfold Fdcan.emit_std_range. lift_emit. Qed.

Lemma fdcan_emit_ext_id_lift (st : Fdcan.t) (a b : Z) :
  P st -> P (snd (Fdcan.emit_ext_id E_max st a b)).
Proof. unfold Fdcan.emit_ext_id. lift_emit. Qed.

Lemma fdcan_emit_ext_range_lift (st : Fdcan.t) (a b : Z) :
  P st -> P (snd (Fdcan.emit_ext_range E_max st a b)).
Proof. unfold Fdcan.emit_ext_range. lift_emit. Qed.

Lemma fdcan_add_std_id_lift (st : Fdcan.t) (id : Z) :
  P st -> P (snd (Fdcan.add_std_id S_max st id)).
Proof.
  intros HP. unfold Fdcan.add_std_id.
  destruct (_ || _); [exact HP|]. cbn zeta.
  destruct (_ =? 1); [revert HP; apply P_acc; reflexivity|].
  match goal with |- context [Fdcan.emit_std_id S_max ?s ?a ?b] =>
    assert (P s) as Hs by (revert HP; apply P_acc; reflexivity);
    pose proof (fdcan_emit_std_id_lift s a b Hs) as H;
    destruct (Fdcan.emit_std_id S_max s a b) as [err st'] end.
  revert H. apply P_acc; reflexivity.
Qed.

Lemma fdcan_add_ext_id_lift (st : Fdcan.t) (id : Z) :
  P st -> P (snd (Fdcan.add_ext_id E_max st id)).
Proof.
  intros HP. unfold Fdcan.add_ext_id.
  destruct (_ || _); [exact HP|]. cbn zeta.
  destruct (_ =? 1); [revert HP; apply P_acc; reflexivity|].
  match goal with |- context [Fdcan.emit_ext_id E_max ?s ?a ?b] =>
    assert (P s) as Hs by (revert HP; apply P_acc; reflexivity);
    pose proof (fdcan_emit_ext_id_lift s a b Hs) as H;
    destruct (Fdcan.emit_ext_id E_max s a b) as [err st'] end.
  revert H. apply P_acc; reflexivity.
Qed.

Lemma fdcan_add_std_range_lift (st : Fdcan.t) (b e : Z) :
  P st -> P (snd (Fdcan.add_std_range S_max st b e)).
Proof.
  intros HP. unfold Fdcan.add_std_range.
  destruct (_ || _); [exact HP|].
  destruct (_ <=? _); apply fdcan_emit_std_range_lift, HP.
Qed.

Lemma fdcan_add_ext_range_lift (st : Fdcan.t) (b e : Z) :
  P st -> P (snd (Fdcan.add_ext_range E_max st b e)).
Proof.
  intros HP. unfold Fdcan.add_ext_range.
  destruct (_ || _); [exact HP|].
  destruct (_ <=? _); apply fdcan_emit_ext_range_lift, HP.
Qed.

Lemma fdcan_end_lift (st : Fdcan.t) : P st -> P (snd (Fdcan.end_ S_max E_max st)).
Proof.
  intros HP. unfold Fdcan.end_.
  set (r1 := if negb (Fdcan.std_id_count st =? 0)
             then Fdcan.emit_std_id S_max st (Fdcan.std_id st !!! 0%nat)
                    (Fdcan.std_id st !!! 1%nat)
             else (CANFILTER_SUCCESS, st)).
  assert (P (snd r1)) as Hr1.
  { subst r1. destruct (negb _); [apply fdcan_emit_std_id_lift, HP|exact HP]. }
  destruct r1 as [e1 s1]. cbn [snd] in Hr1.
  destruct (_ && _); [|exact Hr1].
  pose proof (fdcan_emit_ext_id_lift s1 (Fdcan.ext_id s1 !!! 0%nat)
                (Fdcan.ext_id s1 !!! 1%nat) Hr1) as H.
  destruct (Fdcan.emit_ext_id _ _ _ _). exact H.
Qed.

Lemma fdcan_do_call_lift (st : Fdcan.t) (c : FdcanUse.call) :
  P st -> P (snd (FdcanUse.do_call S_max E_max st c)).
Proof.
  intros H. destruct c; cbn [FdcanUse.do_call].
  - apply fdcan_add_std_id_lift, H.
  - apply fdcan_add_ext_id_lift, H.
  - apply fdcan_add_std_range_lift, H.
  - apply fdcan_add_ext_range_lift, H.
  - apply fdcan_end_lift, H.
Qed.

End Fdcan_lift.
Section Fdcan_pending.
Variable S_max : Z.
Variable E_max : Z.

(** The accumulators. *)
Lemma pending_ok_ext (st st' : Fdcan.t) :
  Fdcan.std_id st' = Fdcan.std_id st /\ Fdcan.std_id_count st' = Fdcan.std_id_count st /\
  Fdcan.ext_id st' = Fdcan.ext_id st /\ Fdcan.ext_id_count st' = Fdcan.ext_id_count st ->
  FdcanUse.pending_ok st -> FdcanUse.pending_ok st'.
Proof.
  intros (E1 & E2 & E3 & E4). unfold FdcanUse.pending_ok, FdcanUse.sized.
  rewrite E1, E2, E3, E4. tauto.
Qed.

Lemma emit_std_range_keeps (st : Fdcan.t) (a b : Z) :
  let st' := snd (Fdcan.emit_std_range S_max st a b) in
  Fdcan.std_id st' = Fdcan.std_id st /\ Fdcan.std_id_count st' = Fdcan.std_id_count st /\
  Fdcan.ext_id st' = Fdcan.ext_id st /\ Fdcan.ext_id_count st' = Fdcan.ext_id_count st.
Proof.
  unfold Fdcan.emit_std_range. destruct (_ <=? _); [cbn; tauto|].
  destruct (_ || _); cbn; tauto.
Qed.

Lemma emit_ext_id_keeps (st : Fdcan.t) (a b : Z) :
  let st' := snd (Fdcan.emit_ext_id E_max st a b) in
  Fdcan.std_id st' = Fdcan.std_id st /\ Fdcan.std_id_count st' = Fdcan.std_id_count st /\
  Fdcan.ext_id st' = Fdcan.ext_id st /\ Fdcan.ext_id_count st' = Fdcan.ext_id_count st.
Proof.
  unfold Fdcan.emit_ext_id. destruct (_ <=? _); [cbn; tauto|].
  destruct (_ || _); cbn; tauto.
Qed.

Lemma emit_ext_range_keeps (st : Fdcan.t) (a b : Z) :
  let st' := snd (Fdcan.emit_ext_range E_max st a b) in
  Fdcan.std_id st' = Fdcan.std_id st /\ Fdcan.std_id_count st' = Fdcan.std_id_count st /\
  Fdcan.ext_id st' = Fdcan.ext_id st /\ Fdcan.ext_id_count st' = Fdcan.ext_id_count st.
Proof.
  unfold Fdcan.emit_ext_range. destruct (_ <=? _); [cbn; tauto|].
  destruct (_ || _); cbn; tauto.
Qed.

Lemma fdcan_add_std_id_pending (st : Fdcan.t) (id : Z) :
  FdcanUse.pending_ok st -> FdcanUse.pending_ok (snd (Fdcan.add_std_id S_max st id)).
Proof.
  intros Hp.
  destruct (Z_le_dec id max_std_id) as [Hid|Hid].
  2:{ unfold Fdcan.add_std_id. rewrite (proj2 (Z.ltb_lt max_std_id id)) by lia. exact Hp. }
  pose proof Hp as (Hs & [Hc|(Hc & a & Ha & Hl)] & Hext).
  - rewrite (fdcan_first_std_id S_max) by assumption. cbn [snd].
    split; [destruct Hs; split; [reflexivity|assumption]|].
    split; [right; split; [reflexivity|exists id; split; [exact Hid|reflexivity]]|exact Hext].
  - rewrite (fdcan_second_std_id S_max st a a id) by assumption. cbn [snd].
    pose proof (emit_std_id_keeps S_max st a id) as (K1 & K2 & K3 & K4).
    destruct (Fdcan.emit_std_id S_max st a id) as [err s']. cbn [snd] in *.
    unfold FdcanUse.pending_ok, FdcanUse.sized. cbn. rewrite K3, K4.
    destruct Hs as [_ Hs2]. split; [split; [reflexivity|exact Hs2]|].
    split; [left; reflexivity|exact Hext].
Qed.

Lemma fdcan_add_ext_id_pending (st : Fdcan.t) (id : Z) :
  FdcanUse.pending_ok st -> FdcanUse.pending_ok (snd (Fdcan.add_ext_id E_max st id)).
Proof.
  intros Hp.
  destruct (Z_le_dec id max_ext_id) as [Hid|Hid].
  2:{ unfold Fdcan.add_ext_id. rewrite (proj2 (Z.ltb_lt max_ext_id id)) by lia. exact Hp. }
  pose proof Hp as (Hs & Hstd & [Hc|(Hc & a & Ha & Hl)]).
  - rewrite (fdcan_first_ext_id E_max) by assumption. cbn [snd].
    split; [destruct Hs; split; [assumption|reflexivity]|].
    split; [exact Hstd|right; split; [reflexivity|exists id; split; [exact Hid|reflexivity]]].
  - rewrite (fdcan_second_ext_id E_max st a a id) by assumption. cbn [snd].
    pose proof (emit_ext_id_keeps st a id) as (K1 & K2 & K3 & K4).
    destruct (Fdcan.emit_ext_id E_max st a id) as [err s']. cbn [snd] in *.
    unfold FdcanUse.pending_ok, FdcanUse.sized. cbn. rewrite K1, K2.
    destruct Hs as [Hs1 _]. split; [split; [exact Hs1|reflexivity]|].
    split; [exact Hstd|left; reflexivity].
Qed.

Lemma fdcan_do_call_pending (st : Fdcan.t) (c : FdcanUse.call) :
  FdcanUse.pending_ok st -> FdcanUse.pending_ok (snd (FdcanUse.do_call S_max E_max st c)).
Proof.
  intros Hp. destruct c; cbn [FdcanUse.do_call].
  - apply fdcan_add_std_id_pending, Hp.
  - apply fdcan_add_ext_id_pending, Hp.
  - unfold Fdcan.add_std_range. destruct (_ || _); [exact Hp|].
    destruct (_ <=? _); (eapply pending_ok_ext; [apply emit_std_range_keeps|exact Hp]).
  - unfold Fdcan.add_ext_range. destruct (_ || _); [exact Hp|].
    destruct (_ <=? _); (eapply pending_ok_ext; [apply emit_ext_range_keeps|exact Hp]).
  - eapply pending_ok_ext; [|exact Hp].
    pose proof (fdcan_end_accumulators S_max E_max st) as (K1 & K2 & K3 & K4). tauto.
Qed.

Lemma fdcan_run_preserves (P : Fdcan.t -> Prop) :
  (forall st c, P st -> P (snd (FdcanUse.do_call S_max E_max st c))) ->
  forall calls st, P st -> P (FdcanUse.run S_max E_max st calls).
Proof.
  intros Hstep. induction calls as [|c calls IH]; intros st Hst; cbn; [exact Hst|].
  apply IH, Hstep, Hst.
Qed.

End Fdcan_pending.

Section Fdcan_invariant.
Variable S_max : Z.
Variable E_max : Z.
Variable dev : Z.
Hypothesis HS : 0 <= S_max <= 255.
Hypothesis HE : 0 <= E_max <= 255.

Lemma fdcan_begin_table_ok (st : Fdcan.t) :
  FdcanUse.table_ok S_max E_max dev (snd (Fdcan.begin S_max E_max dev st)).
Proof.
  unfold FdcanUse.table_ok. cbn. rewrite !length_replicate.
  repeat split; try lia; intros i Hi; apply lookup_replicate; split; auto; lia.
Qed.

Lemma push_std_table_ok (st : Fdcan.t) (w : Z) :
  FdcanUse.table_ok S_max E_max dev st ->
  Fdcan.std_filter_nbr (Fdcan.hw_config st) < S_max ->
  FdcanUse.table_ok S_max E_max dev
    (Fdcan.set_hw_config st (Fdcan.push_std (Fdcan.hw_config st) w)).
Proof.
  intros (Hd & Hn1 & Hn2 & Hl1 & Hl2 & Hz1 & Hz2) Hlt.
  unfold FdcanUse.table_ok. cbn.
  assert (u8 (Fdcan.std_filter_nbr (Fdcan.hw_config st) + 1)
          = Fdcan.std_filter_nbr (Fdcan.hw_config st) + 1) as ->
    by (unfold u8; apply Z.mod_small; lia).
  rewrite length_insert.
  repeat split; try assumption; try lia.
  intros i Hi. rewrite list_lookup_insert_ne by lia. apply Hz1. lia.
Qed.

Lemma push_ext_table_ok (st : Fdcan.t) (w0 w1 : Z) :
  FdcanUse.table_ok S_max E_max dev st ->
  Fdcan.ext_filter_nbr (Fdcan.hw_config st) < E_max ->
  FdcanUse.table_ok S_max E_max dev
    (Fdcan.set_hw_config st (Fdcan.push_ext (Fdcan.hw_config st) w0 w1)).
Proof.
  intros (Hd & Hn1 & Hn2 & Hl1 & Hl2 & Hz1 & Hz2) Hlt.
  unfold FdcanUse.table_ok. cbn.
  assert (u8 (Fdcan.ext_filter_nbr (Fdcan.hw_config st) + 1)
          = Fdcan.ext_filter_nbr (Fdcan.hw_config st) + 1) as ->
    by (unfold u8; apply Z.mod_small; lia).
  rewrite length_insert.
  repeat split; try assumption; try lia.
  intros i Hi. rewrite list_lookup_insert_ne by lia. apply Hz2. lia.
Qed.

Lemma fdcan_do_call_table_ok (st : Fdcan.t) (c : FdcanUse.call) :
  FdcanUse.table_ok S_max E_max dev st ->
  FdcanUse.table_ok S_max E_max dev (snd (FdcanUse.do_call S_max E_max st c)).
Proof.
  apply (fdcan_do_call_lift S_max E_max (FdcanUse.table_ok S_max E_max dev)).
  - intros s s' Hhw. unfold FdcanUse.table_ok. rewrite Hhw. tauto.
  - apply push_std_table_ok.
  - apply push_ext_table_ok.
Qed.

Lemma fdcan_reachable_invariant (st : Fdcan.t) :
  FdcanUse.reachable S_max E_max dev st -> FdcanUse.invariant S_max E_max dev st.
Proof.
  intros (st0 & calls & Hs & ->). split.
  - apply fdcan_run_preserves; [apply fdcan_do_call_table_ok|apply fdcan_begin_table_ok].
  - apply fdcan_run_preserves; [apply fdcan_do_call_pending|].
    split; [exact Hs|]. cbn. split; left; reflexivity.
Qed.

End Fdcan_invariant.

(** X14. In every state an FDCAN builder reaches by [begin] followed by
    calls of the interface, the two counts are within their tables, every
    element from the counts on is zero, the identity byte is the one [begin]
    stamped, and an accumulator holds at most one identifier, within its
    space and copied into both its slots. *)
Theorem fdcan_table_invariant (S_max E_max dev : Z) (st : Fdcan.t) :
  0 <= S_max <= 255 -> 0 <= E_max <= 255 ->
  FdcanUse.reachable S_max E_max dev st -> FdcanUse.invariant S_max E_max dev st.
Proof. intros HS HE. apply fdcan_reachable_invariant; assumption. Qed.

(** X14 on an FDCAN-128-64 after identifiers, ranges and [end]. *)
Lemma fdcan_table_invariant_witness :
  FdcanUse.invariant 128 64 CANFILTER_DEV_FDCAN_H7
    (FdcanUse.run 128 64
       (snd (Fdcan.begin 128 64 CANFILTER_DEV_FDCAN_H7 (Fdcan.new 128 64)))
       [FdcanUse.Add_std_id 0x100; FdcanUse.Add_ext_range 0x1FFFF 0x800;
        FdcanUse.Add_std_id 0x200; FdcanUse.Add_ext_id 0x12345; FdcanUse.End_;
        FdcanUse.Add_std_range 0 0x7FF]).
Proof.
  apply (fdcan_table_invariant 128 64 CANFILTER_DEV_FDCAN_H7); try lia.
  exists (Fdcan.new 128 64). eexists. split; [|reflexivity].
  split; reflexivity.
Defined.

(** ** FDCAN: emitted elements are final *)

Section Fdcan_frame.
Variable S_max : Z.
Variable E_max : Z.
Hypothesis HS : S_max <= 255.
Hypothesis HE : E_max <= 255.

Lemma fdcan_extends_refl (st : Fdcan.t) :
  0 <= Fdcan.std_filter_nbr (Fdcan.hw_config st) ->
  0 <= Fdcan.ext_filter_nbr (Fdcan.hw_config st) ->
  FdcanUse.extends st st.
Proof. intros H1 H2. unfold FdcanUse.extends. repeat split; intros; lia || reflexivity. Qed.

Lemma push_std_extends (st0 st : Fdcan.t) (w : Z) :
  FdcanUse.extends st0 st -> Fdcan.std_filter_nbr (Fdcan.hw_config st) < S_max ->
  FdcanUse.extends st0 (Fdcan.set_hw_config st (Fdcan.push_std (Fdcan.hw_config st) w)).
Proof.
  intros (Hn1 & Hn2 & Hf1 & Hf2) Hlt. unfold FdcanUse.extends. cbn.
  assert (u8 (Fdcan.std_filter_nbr (Fdcan.hw_config st) + 1)
          = Fdcan.std_filter_nbr (Fdcan.hw_config st) + 1) as ->
    by (unfold u8; apply Z.mod_small; lia).
  repeat split; try lia; try assumption.
  intros i Hi. rewrite list_lookup_insert_ne by lia. apply Hf1, Hi.
Qed.

Lemma push_ext_extends (st0 st : Fdcan.t) (w0 w1 : Z) :
  FdcanUse.extends st0 st -> Fdcan.ext_filter_nbr (Fdcan.hw_config st) < E_max ->
  FdcanUse.extends st0
    (Fdcan.set_hw_config st (Fdcan.push_ext (Fdcan.hw_config st) w0 w1)).
Proof.
  intros (Hn1 & Hn2 & Hf1 & Hf2) Hlt. unfold FdcanUse.extends. cbn.
  assert (u8 (Fdcan.ext_filter_nbr (Fdcan.hw_config st) + 1)
          = Fdcan.ext_filter_nbr (Fdcan.hw_config st) + 1) as ->
    by (unfold u8; apply Z.mod_small; lia).
  repeat split; try lia; try assumption.
  intros i Hi. rewrite list_lookup_insert_ne by lia. apply Hf2, Hi.
Qed.

Lemma fdcan_run_extends (st : Fdcan.t) (calls : list FdcanUse.call) :
  0 <= Fdcan.std_filter_nbr (Fdcan.hw_config st) ->
  0 <= Fdcan.ext_filter_nbr (Fdcan.hw_config st) ->
  FdcanUse.extends st (FdcanUse.run S_max E_max st calls).
Proof.
  intros H1 H2. apply fdcan_run_preserves.
  - apply (fdcan_do_call_lift S_max E_max (FdcanUse.extends st)).
    + intros s s' Hhw. unfold FdcanUse.extends. rewrite Hhw. tauto.
    + apply push_std_extends.
    + apply push_ext_extends.
  - apply fdcan_extends_refl; assumption.
Qed.

Lemma map_seq_prefix {A} (f g : nat -> A) (n m : Z) :
  0 <= n <= m -> (forall i : nat, Z.of_nat i < n -> g i = f i) ->
  map f (seq 0 (Z.to_nat n)) `prefix_of` map g (seq 0 (Z.to_nat m)).
Proof.
  intros Hnm Hfg. exists (map g (seq (Z.to_nat n) (Z.to_nat (m - n)))).
  replace (Z.to_nat m) with (Z.to_nat n + Z.to_nat (m - n))%nat by lia.
  rewrite seq_app, map_app. f_equal.
  apply map_ext_in. intros i Hi. apply in_seq in Hi. apply Hfg. lia.
Qed.

Lemma extends_debug_print (st st' : Fdcan.t) :
  FdcanUse.extends st st' ->
  fst (FdcanDebug.debug_print (Fdcan.hw_config st))
    `prefix_of` fst (FdcanDebug.debug_print (Fdcan.hw_config st')) /\
  snd (FdcanDebug.debug_print (Fdcan.hw_config st))
    `prefix_of` snd (FdcanDebug.debug_print (Fdcan.hw_config st')).
Proof.
  intros (Hn1 & Hn2 & Hf1 & Hf2). unfold FdcanDebug.debug_print. cbn [fst snd].
  split; apply map_seq_prefix; try assumption.
  - intros i Hi. unfold FdcanDebug.debug_std.
    rewrite !list_lookup_total_alt, (Hf1 i Hi). reflexivity.
  - intros i Hi. unfold FdcanDebug.debug_ext.
    rewrite !list_lookup_total_alt, (Hf2 i Hi). reflexivity.
Qed.

End Fdcan_frame.

(** X15. An FDCAN element once emitted is never written again: whatever
    calls follow, the counts do not go down and the elements below the former
    counts stay as they were, so what [debug_print] showed is a prefix of
    what it shows afterwards, in both tables. *)
Theorem fdcan_elements_are_final (S_max E_max dev : Z) (st : Fdcan.t)
    (calls : list FdcanUse.call) :
  0 <= S_max <= 255 -> 0 <= E_max <= 255 ->
  FdcanUse.reachable S_max E_max dev st ->
  let st' := FdcanUse.run S_max E_max st calls in
  FdcanUse.extends st st' /\
  fst (FdcanDebug.debug_print (Fdcan.hw_config st))
    `prefix_of` fst (FdcanDebug.debug_print (Fdcan.hw_config st')) /\
  snd (FdcanDebug.debug_print (Fdcan.hw_config st))
    `prefix_of` snd (FdcanDebug.debug_print (Fdcan.hw_config st')).
Proof.
  intros HS HE Hr st'.
  destruct (fdcan_reachable_invariant S_max E_max dev HS HE st Hr)
    as ((_ & Hn1 & Hn2 & _) & _).
  assert (FdcanUse.extends st st') as He.
  { apply fdcan_run_extends; lia. }
  split; [exact He|]. apply extends_debug_print, He.
Qed.

(** X15 on an FDCAN-28-8: one element in each table, then more calls. *)
Lemma fdcan_elements_are_final_witness :
  let st := FdcanUse.run 28 8 fdcan_g0_begun
              [FdcanUse.Add_std_range 0x100 0x1FF; FdcanUse.Add_ext_range 0x800 0x8FF] in
  let st' := FdcanUse.run 28 8 st
               [FdcanUse.Add_std_id 0x200; FdcanUse.Add_std_id 0x201; FdcanUse.End_] in
  FdcanUse.extends st st' /\
  fst (FdcanDebug.debug_print (Fdcan.hw_config st))
    `prefix_of` fst (FdcanDebug.debug_print (Fdcan.hw_config st')) /\
  snd (FdcanDebug.debug_print (Fdcan.hw_config st))
    `prefix_of` snd (FdcanDebug.debug_print (Fdcan.hw_config st')).
Proof.
  apply (fdcan_elements_are_final 28 8 CANFILTER_DEV_FDCAN_G0); try lia.
  exists (Fdcan.new 28 8). eexists. split; [|reflexivity].
  split; reflexivity.
Defined.

(** ** The usage shown *)

(** [(n * 100 + m / 2) / m] is [100 * n / m] rounded to the nearest. *)
Lemma percent_nearest (n m : Z) :
  0 < m < 200 -> 0 <= n <= m ->
  let p := (n * 100 + m / 2) / m in
  0 <= p <= 100 /\ (p = 0 <-> n = 0) /\ (p = 100 <-> n = m) /\
  - m <= 2 * (p * m - 100 * n) <= m.
Proof.
  intros Hm Hn p. subst p.
  pose proof (Z.div_mod (n * 100 + m / 2) m ltac:(lia)) as Hdiv.
  pose proof (Z.mod_pos_bound (n * 100 + m / 2) m ltac:(lia)) as Hmod.
  pose proof (Z.div_mod m 2 ltac:(lia)) as Hhalf.
  pose proof (Z.mod_pos_bound m 2 ltac:(lia)) as Hhalf2.
  set (p := (n * 100 + m / 2) / m) in *.
  set (r := (n * 100 + m / 2) mod m) in *.
  set (h := m / 2) in *. set (r2 := m mod 2) in *.
  assert (0 <= p) as Hp0 by (subst p; apply Z.div_pos; lia).
  assert (p <= 100) as Hp100.
  { destruct (Z_le_dec p 100) as [|Hgt]; [assumption|exfalso].
    pose proof (Z.mul_le_mono_nonneg_l 101 p m ltac:(lia) ltac:(lia)). lia. }
  split; [lia|]. split; [|split].
  - split.
    + intros E. rewrite E in Hdiv. lia.
    + intros ->. destruct (Z_le_dec p 0) as [|Hgt]; [lia|exfalso].
      pose proof (Z.mul_le_mono_nonneg_l 1 p m ltac:(lia) ltac:(lia)). lia.
  - split.
    + intros E. rewrite E in Hdiv. lia.
    + intros ->. destruct (Z_le_dec 100 p) as [|Hlt]; [lia|exfalso].
      pose proof (Z.mul_le_mono_nonneg_l p 99 m ltac:(lia) ltac:(lia)). lia.
  - lia.
Qed.
(** X16. The percentage [print_usage] shows is the share of banks, or of
    elements, in use rounded to the nearest: it lies between 0 and 100, is 0
    only for an empty image and 100 only for a full one, and differs from the
    exact share by at most half a percent of the capacity. *)
Theorem usage_percent_is_nearest :
  (forall (B dev : Z) (st : Bxcan.t),
     0 < B <= 32 -> Bxcan.reachable B dev st ->
     let p := BxcanDebug.print_usage B st in
     0 <= p <= 100 /\ (p = 0 <-> Bxcan.bank st = 0) /\
     (p = 100 <-> Bxcan.bank st = B) /\
     - B <= 2 * (p * B - 100 * Bxcan.bank st) <= B) /\
  (forall (S_max E_max dev : Z) (st : Fdcan.t),
     0 < S_max < 200 -> 0 < E_max < 200 ->
     FdcanUse.reachable S_max E_max dev st ->
     let hw := Fdcan.hw_config st in
     let p := fst (FdcanDebug.print_usage S_max E_max hw) in
     let q := snd (FdcanDebug.print_usage S_max E_max hw) in
     (0 <= p <= 100 /\ (p = 0 <-> Fdcan.std_filter_nbr hw = 0) /\
      (p = 100 <-> Fdcan.std_filter_nbr hw = S_max) /\
      - S_max <= 2 * (p * S_max - 100 * Fdcan.std_filter_nbr hw) <= S_max) /\
     (0 <= q <= 100 /\ (q = 0 <-> Fdcan.ext_filter_nbr hw = 0) /\
      (q = 100 <-> Fdcan.ext_filter_nbr hw = E_max) /\
      - E_max <= 2 * (q * E_max - 100 * Fdcan.ext_filter_nbr hw) <= E_max)).
Proof.
  split.
  - intros B dev st HB Hr p. subst p. unfold BxcanDebug.print_usage.
    destruct (reachable_bank_invariant B dev ltac:(lia) st Hr) as (Hb & _).
    pose proof (Z.div_pos B 2 ltac:(lia) ltac:(lia)) as Hh.
    pose proof (Z.div_le_upper_bound B 2 B ltac:(lia) ltac:(lia)) as Hh2.
    rewrite (u32_small (Bxcan.bank st * 100)) by lia.
    rewrite u32_small by lia.
    apply percent_nearest; lia.
  - intros S_max E_max dev st HS HE Hr hw p q. subst hw p q.
    unfold FdcanDebug.print_usage. cbn [fst snd].
    destruct (fdcan_reachable_invariant S_max E_max dev ltac:(lia) ltac:(lia) st Hr)
      as ((_ & Hn1 & Hn2 & _) & _).
    pose proof (Z.div_pos S_max 2 ltac:(lia) ltac:(lia)) as Hs.
    pose proof (Z.div_le_upper_bound S_max 2 S_max ltac:(lia) ltac:(lia)) as Hs2.
    pose proof (Z.div_pos E_max 2 ltac:(lia) ltac:(lia)) as He.
    pose proof (Z.div_le_upper_bound E_max 2 E_max ltac:(lia) ltac:(lia)) as He2.
    rewrite !u32_small by lia.
    split; apply percent_nearest; lia.
Qed.

(** X16 on a bxCAN-14 with three banks in use and an FDCAN-28-8 with one
    element in each table. *)
Lemma usage_percent_is_nearest_witness :
  0 <= BxcanDebug.print_usage 14
         (Bxcan.run 14 (snd (Bxcan.begin 14 CANFILTER_DEV_BXCAN_F0 (Bxcan.new 14)))
            [Bxcan.Add_std_range 0x100 0x2FF; Bxcan.Add_ext_id 0x800; Bxcan.End_])
    <= 100 /\
  0 <= fst (FdcanDebug.print_usage 28 8
              (Fdcan.hw_config
                 (FdcanUse.run 28 8
                    (snd (Fdcan.begin 28 8 CANFILTER_DEV_FDCAN_G0 (Fdcan.new 28 8)))
                    [FdcanUse.Add_std_range 0x100 0x1FF;
                     FdcanUse.Add_ext_range 0x800 0x8FF])))
    <= 100.
Proof.
  split.
  - refine (proj1 (proj1 usage_percent_is_nearest 14 CANFILTER_DEV_BXCAN_F0 _ _ _)); [lia|].
    exists (Bxcan.new 14). eexists. split; [|reflexivity].
    repeat split; reflexivity.
  - refine (proj1 (proj1 (proj2 usage_percent_is_nearest 28 8 CANFILTER_DEV_FDCAN_G0 _ _ _ _)));
      [lia|lia|].
    exists (Fdcan.new 28 8). eexists. split; [|reflexivity].
    split; reflexivity.
Defined.

(** ** What [parse] dispatches *)

Lemma parse_number_range (s : list ascii) (v : Z) (s' : list ascii) :
  parse_number s = Some (v, s') -> 0 <= v < 2 ^ 32.
Proof.
  unfold parse_number. destruct (strtoul s) as [[x n] er].
  destruct (_ || _); [discriminate|]. intros [= <- _]. apply u32_range.
Qed.

Lemma parse_loop_classified (fuel : nat) (log : list directive) (s : list ascii) :
  Forall classified log ->
  Forall classified (snd (parse_loop recorder fuel log s)).
Proof.
  revert log s. induction fuel as [|fuel IH]; intros log s Hlog; [exact Hlog|].
  assert (Hgo : forall d rest, classified d ->
            Forall classified (snd (parse_loop recorder fuel (log ++ [d]) rest))).
  { intros d rest Hd. apply IH. apply Forall_app. split; [exact Hlog|].
    constructor; [exact Hd|constructor]. }
  cbn [parse_loop].
  destruct s as [|c0 s0]; [exact Hlog|].
  destruct (skip_space (c0 :: s0)) as [|c1 s1]; [exact Hlog|].
  destruct (parse_number (c1 :: s1)) as [[id1 s2]|] eqn:E1; [|exact Hlog].
  apply parse_number_range in E1.
  assert (Hsingle : forall rest,
            Forall classified
              (snd (if id1 <=? max_std_id
                    then parse_loop recorder fuel
                           (snd (add_std_id recorder log id1)) rest
                    else if id1 <=? max_ext_id
                         then parse_loop recorder fuel
                                (snd (add_ext_id recorder log id1)) rest
                         else (false, log)))).
  { intros rest.
    destruct (Z.leb_spec id1 max_std_id); [apply (Hgo (Std_id id1)); cbn; lia|].
    destruct (Z.leb_spec id1 max_ext_id); [apply (Hgo (Ext_id id1)); cbn; lia|exact Hlog]. }
  destruct (skip_space s2) as [|c3 s3]; [apply Hsingle|].
  destruct (Ascii.eqb_spec c3 "-"%char) as [->|Hne].
  - destruct (parse_number (skip_space s3)) as [[id2 s4]|] eqn:E2; [|exact Hlog].
    apply parse_number_range in E2.
    destruct (Z.leb_spec id1 max_std_id), (Z.leb_spec id2 max_std_id); cbn [andb];
      try (apply (Hgo (Std_range id1 id2)); cbn; lia);
      (destruct (Z.leb_spec id1 max_ext_id), (Z.leb_spec id2 max_ext_id); cbn [andb];
       try exact Hlog; apply (Hgo (Ext_range id1 id2)); cbn; lia).
  - assert (forall (A : Type) (x y : A),
              match c3 with "-"%char => x | _ => y end = y) as Hm.
    { intros A x y. destruct c3 as [[] [] [] [] [] [] [] []]; try reflexivity.
      contradiction Hne. reflexivity. }
    rewrite !Hm. apply Hsingle.
Qed.

Lemma parse_directives_classified (input : string) :
  Forall classified (snd (parse_directives input)).
Proof.
  unfold parse_directives, parse.
  destruct (list_ascii_of_string input) as [|c s]; [constructor|].
  apply parse_loop_classified. constructor.
Qed.

(** X17. Every call [parse] dispatches is classified by the size of its
    values: a standard call has all its values in [0 .. 0x7FF]; an extended
    call has them in [0 .. 0x1FFFFFFF] with one of them above [0x7FF]. *)
Theorem parse_classifies_calls (input : string) :
  Forall classified (snd (parse_directives input)).
Proof. apply parse_directives_classified. Qed.
(** ** [parse] on the two back-ends *)

Section Parse_bxcan.
Variable B : Z.
Variable dev : Z.

Lemma bxcan_dispatch_call (st : Bxcan.t) (d : directive) :
  dispatch (canfilter_bxcan B dev) st d = snd (Bxcan.do_call B st (bxcan_call d)) /\
  dispatch_error (canfilter_bxcan B dev) st d = fst (Bxcan.do_call B st (bxcan_call d)).
Proof. destruct d; split; reflexivity. Qed.

Lemma bxcan_dispatch_run (ds : list directive) (st : Bxcan.t) :
  fold_left (dispatch (canfilter_bxcan B dev)) ds st
  = Bxcan.run B st (map bxcan_call ds).
Proof.
  revert st. induction ds as [|d ds IH]; intros st; [reflexivity|].
  cbn [fold_left map Bxcan.run].
  rewrite (proj1 (bxcan_dispatch_call st d)). apply IH.
Qed.

Lemma bxcan_reachable_run (st : Bxcan.t) (calls : list Bxcan.call) :
  Bxcan.reachable B dev st -> Bxcan.reachable B dev (Bxcan.run B st calls).
Proof.
  intros (st0 & calls0 & Hs & ->). exists st0, (calls0 ++ calls)%list.
  split; [exact Hs|]. unfold Bxcan.run. rewrite fold_left_app. reflexivity.
Qed.

Lemma bxcan_call_ok (st : Bxcan.t) (d : directive) :
  Bxcan.accumulators_ok st -> classified d ->
  success_or_full (fst (Bxcan.do_call B st (bxcan_call d))).
Proof.
  intros Hok Hd. destruct d; cbn in Hd |- *; unfold Bxcan.add_std_id, Bxcan.add_ext_id.
  - apply add_std_range_ok; (assumption || lia).
  - apply add_ext_range_ok; (assumption || lia).
  - apply add_std_range_ok; (assumption || lia).
  - apply add_ext_range_ok; (assumption || lia).
Qed.

Lemma bxcan_dispatch_errors_ok (ds : list directive) (st : Bxcan.t) :
  Bxcan.accumulators_ok st -> Forall classified ds ->
  Forall success_or_full (dispatch_errors (canfilter_bxcan B dev) st ds).
Proof.
  revert st. induction ds as [|d ds IH]; intros st Hok Hds; [constructor|].
  inversion Hds as [|? ? Hd Hrest]; subst. cbn [dispatch_errors].
  destruct (bxcan_dispatch_call st d) as [-> ->].
  constructor; [apply bxcan_call_ok; assumption|].
  apply IH; [apply do_call_accumulators_ok, Hok|exact Hrest].
Qed.

Lemma bxcan_parse_reachable (st : Bxcan.t) (input : string) :
  Bxcan.reachable B dev st ->
  Bxcan.reachable B dev (snd (parse (canfilter_bxcan B dev) st input)).
Proof.
  intros Hr. rewrite (proj2 (parse_recorded _ st input)), bxcan_dispatch_run.
  apply bxcan_reachable_run, Hr.
Qed.

End Parse_bxcan.

Section Parse_fdcan.
Variable S_max : Z.
Variable E_max : Z.
Variable dev : Z.

Lemma fdcan_dispatch_call (st : Fdcan.t) (d : directive) :
  dispatch (canfilter_fdcan S_max E_max dev) st d
  = snd (FdcanUse.do_call S_max E_max st (fdcan_call d)) /\
  dispatch_error (canfilter_fdcan S_max E_max dev) st d
  = fst (FdcanUse.do_call S_max E_max st (fdcan_call d)).
Proof. destruct d; split; reflexivity. Qed.

Lemma fdcan_dispatch_run (ds : list directive) (st : Fdcan.t) :
  fold_left (dispatch (canfilter_fdcan S_max E_max dev)) ds st
  = FdcanUse.run S_max E_max st (map fdcan_call ds).
Proof.
  revert st. induction ds as [|d ds IH]; intros st; [reflexivity|].
  cbn [fold_left map FdcanUse.run].
  rewrite (proj1 (fdcan_dispatch_call st d)). apply IH.
Qed.

Lemma fdcan_reachable_run (st : Fdcan.t) (calls : list FdcanUse.call) :
  FdcanUse.reachable S_max E_max dev st ->
  FdcanUse.reachable S_max E_max dev (FdcanUse.run S_max E_max st calls).
Proof.
  intros (st0 & calls0 & Hs & ->). exists st0, (calls0 ++ calls)%list.
  split; [exact Hs|]. unfold FdcanUse.run. rewrite fold_left_app. reflexivity.
Qed.

Ltac in_range :=
  repeat match goal with
  | |- context [?a <? ?b] =>
      rewrite (proj2 (Z.ltb_ge a b)) by (cbn in *; lia)
  end.

Lemma fdcan_emit_std_id_ok (st : Fdcan.t) (a b : Z) :
  a <= max_std_id -> b <= max_std_id ->
  success_or_full (fst (Fdcan.emit_std_id S_max st a b)).
Proof.
  intros. unfold Fdcan.emit_std_id, success_or_full.
  destruct (_ <=? _); [cbn; auto|]. in_range. cbn. auto.
Qed.

Lemma fdcan_emit_ext_id_ok (st : Fdcan.t) (a b : Z) :
  a <= max_ext_id -> b <= max_ext_id ->
  success_or_full (fst (Fdcan.emit_ext_id E_max st a b)).
Proof.
  intros. unfold Fdcan.emit_ext_id, success_or_full.
  destruct (_ <=? _); [cbn; auto|]. in_range. cbn. auto.
Qed.

Lemma fdcan_add_std_range_ok (st : Fdcan.t) (a b : Z) :
  a <= max_std_id -> b <= max_std_id ->
  success_or_full (fst (Fdcan.add_std_range S_max st a b)).
Proof.
  intros. unfold Fdcan.add_std_range, Fdcan.emit_std_range, success_or_full.
  in_range. cbn [orb].
  destruct (Z.leb_spec a b); (destruct (_ <=? _); [cbn; auto|]); in_range; cbn; auto.
Qed.

Lemma fdcan_add_ext_range_ok (st : Fdcan.t) (a b : Z) :
  a <= max_ext_id -> b <= max_ext_id ->
  success_or_full (fst (Fdcan.add_ext_range E_max st a b)).
Proof.
  intros. unfold Fdcan.add_ext_range, Fdcan.emit_ext_range, success_or_full.
  in_range. cbn [orb].
  destruct (Z.leb_spec a b); (destruct (_ <=? _); [cbn; auto|]); in_range; cbn; auto.
Qed.

Lemma fdcan_call_ok (st : Fdcan.t) (d : directive) :
  FdcanUse.pending_ok st -> classified d ->
  success_or_full (fst (FdcanUse.do_call S_max E_max st (fdcan_call d))).
Proof.
  intros (Hs & Hstd & Hext) Hd. destruct d; cbn in Hd |- *.
  - destruct Hstd as [Hc|(Hc & a & Ha & Hl)].
    + rewrite (fdcan_first_std_id S_max) by (assumption || lia). left. reflexivity.
    + rewrite (fdcan_second_std_id S_max st a a id) by (assumption || lia). cbn [fst].
      apply fdcan_emit_std_id_ok; lia.
  - destruct Hext as [Hc|(Hc & a & Ha & Hl)].
    + rewrite (fdcan_first_ext_id E_max) by (assumption || lia). left. reflexivity.
    + rewrite (fdcan_second_ext_id E_max st a a id) by (assumption || lia). cbn [fst].
      apply fdcan_emit_ext_id_ok; lia.
  - apply fdcan_add_std_range_ok; lia.
  - apply fdcan_add_ext_range_ok; lia.
Qed.

Lemma fdcan_dispatch_errors_ok (ds : list directive) (st : Fdcan.t) :
  FdcanUse.pending_ok st -> Forall classified ds ->
  Forall success_or_full (dispatch_errors (canfilter_fdcan S_max E_max dev) st ds).
Proof.
  revert st. induction ds as [|d ds IH]; intros st Hok Hds; [constructor|].
  inversion Hds as [|? ? Hd Hrest]; subst. cbn [dispatch_errors].
  destruct (fdcan_dispatch_call st d) as [-> ->].
  constructor; [apply fdcan_call_ok; assumption|].
  apply IH; [apply fdcan_do_call_pending, Hok|exact Hrest].
Qed.

Lemma fdcan_parse_reachable (st : Fdcan.t) (input : string) :
  FdcanUse.reachable S_max E_max dev st ->
  FdcanUse.reachable S_max E_max dev
    (snd (parse (canfilter_fdcan S_max E_max dev) st input)).
Proof.
  intros Hr. rewrite (proj2 (parse_recorded _ st input)), fdcan_dispatch_run.
  apply fdcan_reachable_run, Hr.
Qed.

End Parse_fdcan.

(** X18. [parse] on a builder in use, whatever the text and whether it
    parses or not: the builder stays in use, so its invariants hold
    afterwards, and no call [parse] makes returns [CANFILTER_ERROR_PARAM]:
    each returns [CANFILTER_SUCCESS] or [CANFILTER_ERROR_FULL].  On bxCAN and
    on FDCAN. *)
Theorem parse_on_a_builder (input : string) :
  (forall (B dev : Z) (st : Bxcan.t),
     Bxcan.reachable B dev st ->
     let ops := canfilter_bxcan B dev in
     Bxcan.reachable B dev (snd (parse ops st input)) /\
     Forall success_or_full (dispatch_errors ops st (snd (parse_directives input)))) /\
  (forall (S_max E_max dev : Z) (st : Fdcan.t),
     FdcanUse.reachable S_max E_max dev st ->
     let ops := canfilter_fdcan S_max E_max dev in
     FdcanUse.reachable S_max E_max dev (snd (parse ops st input)) /\
     Forall success_or_full (dispatch_errors ops st (snd (parse_directives input)))).
Proof.
  split.
  - intros B dev st Hr ops. subst ops. split.
    + apply bxcan_parse_reachable, Hr.
    + apply bxcan_dispatch_errors_ok.
      * apply (reachable_accumulators_ok B dev), Hr.
      * apply parse_directives_classified.
  - intros S_max E_max dev st Hr ops. subst ops. split.
    + apply fdcan_parse_reachable, Hr.
    + apply fdcan_dispatch_errors_ok.
      * destruct Hr as (st0 & calls & Hs & ->).
        apply fdcan_run_preserves; [apply fdcan_do_call_pending|].
        split; [exact Hs|]. cbn. split; left; reflexivity.
      * apply parse_directives_classified.
Qed.

(** X18 on a bxCAN-14 and an FDCAN-28-8 just begun, with a text that fills
    the bxCAN-14. *)
Lemma parse_on_a_builder_witness :
  Forall success_or_full
    (dispatch_errors canfilter_bxcan_f0 bxcan_f0_begun
       (snd (parse_directives "0x100, 0x801-0xFFFE 7"))) /\
  Forall success_or_full
    (dispatch_errors canfilter_fdcan_g0 fdcan_g0_begun
       (snd (parse_directives "0x100, 0x801-0xFFFE 7"))).
Proof.
  split.
  - apply (proj1 (parse_on_a_builder "0x100, 0x801-0xFFFE 7") 14 CANFILTER_DEV_BXCAN_F0).
    exists (Bxcan.new 14), []. split; [|reflexivity]. repeat split; reflexivity.
  - apply (proj2 (parse_on_a_builder "0x100, 0x801-0xFFFE 7") 28 8 CANFILTER_DEV_FDCAN_G0).
    exists (Fdcan.new 28 8), []. split; [|reflexivity]. split; reflexivity.
Defined.

(** ** [parse] on several texts *)

Lemma recorder_replay (ds log : list directive) :
  fold_left (dispatch recorder) ds log = (log ++ ds)%list.
Proof.
  revert log. induction ds as [|d ds IH]; intros log; cbn [fold_left].
  - symmetry. apply app_nil_r.
  - rewrite IH. destruct d; cbn; rewrite <- app_assoc; reflexivity.
Qed.

Lemma parse_on_recorder (log : list directive) (input : string) :
  parse recorder log input
  = (fst (parse_directives input), (log ++ snd (parse_directives input))%list).
Proof.
  destruct (parse_recorded recorder log input) as [H1 H2].
  rewrite recorder_replay in H2.
  destruct (parse recorder log input) as [b l]. cbn [fst snd] in *. congruence.
Qed.

Section Parse_args_facts.
Context {St Img : Type}.
Variable ops : canfilter St Img.

Lemma parse_args_recorded (args : list string) (st : St) (log : list directive) :
  fst (parse_args ops st args) = fst (parse_args recorder log args) /\
  exists ds,
    snd (parse_args recorder log args) = (log ++ ds)%list /\
    snd (parse_args ops st args) = fold_left (dispatch ops) ds st.
Proof.
  revert st log. induction args as [|a rest IH]; intros st log.
  - cbn. split; [reflexivity|]. exists []. rewrite app_nil_r. auto.
  - cbn [parse_args]. rewrite parse_on_recorder.
    destruct (parse_recorded ops st a) as [H1 H2].
    destruct (parse ops st a) as [ok st']. cbn [fst snd] in H1, H2. subst ok st'.
    destruct (fst (parse_directives a)); cbn [negb].
    + destruct (IH (fold_left (dispatch ops) (snd (parse_directives a)) st)
                  (log ++ snd (parse_directives a))%list) as [E1 (ds & E2 & E3)].
      split; [exact E1|]. exists (snd (parse_directives a) ++ ds)%list.
      rewrite E2, E3, fold_left_app, app_assoc. auto.
    + split; [reflexivity|]. exists (snd (parse_directives a)). auto.
Qed.

End Parse_args_facts.

(** X19. The overload of [parse] on a vector parses the texts in turn on the
    same builder and stops at the first that fails: the calls dispatched are
    those of the texts up to and including the failing one, in order, and the
    result is true only if every text parses.  As for one text, result and
    calls do not depend on the builder. *)
Theorem parse_vector_in_turn :
  (forall (St Img : Type) (ops : canfilter St Img) (st : St) (args : list string),
     fst (parse_args ops st args) = fst (args_directives args) /\
     snd (parse_args ops st args)
     = fold_left (dispatch ops) (snd (args_directives args)) st) /\
  args_directives [] = (true, []) /\
  (forall (a : string) (rest : list string),
     args_directives (a :: rest)
     = if fst (parse_directives a)
       then (fst (args_directives rest),
             (snd (parse_directives a) ++ snd (args_directives rest))%list)
       else (false, snd (parse_directives a))).
Proof.
  split; [|split].
  - intros St Img ops st args. unfold args_directives.
    destruct (parse_args_recorded ops args st []) as [H1 (ds & H2 & H3)].
    rewrite H1, H2, H3. auto.
  - reflexivity.
  - intros a rest. unfold args_directives. cbn [parse_args].
    rewrite parse_on_recorder. cbn [app].
    destruct (fst (parse_directives a)); cbn [negb]; [|reflexivity].
    destruct (parse_args_recorded recorder rest (snd (parse_directives a)) [])
      as [H1 (ds & H2 & H3)].
    rewrite recorder_replay in H3. cbn [app] in H2.
    destruct (parse_args recorder (snd (parse_directives a)) rest) as [b l].
    destruct (parse_args recorder [] rest) as [b' l'].
    cbn [fst snd] in *. subst. reflexivity.
Qed.

(** ** What the orchestrator sends *)

Section Shipped.
Variable env : usb_env.
Variable filter_def : string.

(** The [SET_FILTER] request of the tail of [setHardwareFilter]. *)
Lemma compile_and_ship_event {St : Type} (ops : canfilter St hw_image) (obj : St)
    (trace : list usb_event) (image : hw_image) (size : Z) :
  existsb is_set_filter trace = false ->
  In (Ev_set_filter image size) (snd (compile_and_ship env ops obj filter_def trace)) ->
  image = get_hw_config ops
            (snd (end_ ops (snd (parse ops (snd (begin ops obj)) filter_def)))) /\
  size = get_hw_size ops /\
  snd (compile_and_ship env ops obj filter_def trace)
  = (trace ++ [Ev_set_filter image size])%list.
Proof.
  intros Htr. unfold compile_and_ship.
  assert (Hnot : ~ In (Ev_set_filter image size) trace).
  { intros Hin.
    assert (existsb is_set_filter trace = true) as Ht; [|congruence].
    apply existsb_exists. exists (Ev_set_filter image size). split; [exact Hin|reflexivity]. }
  destruct (parse ops (snd (begin ops obj)) filter_def) as [ok st]. cbn [snd].
  destruct ok; cbn [negb]; [|intros Hin; contradiction].
  destruct (programFilter env _ _); cbn [negb snd]; intros Hin;
    apply in_app_or in Hin; destruct Hin as [Hin|[Hin|[]]]; try contradiction;
    injection Hin as <- <-; auto.
Qed.

Lemma bxcan_shipped_dev (B dev : Z) (obj : Bxcan.t) :
  0 <= B <= 32 -> Bxcan.sized obj ->
  image_dev
    (get_hw_config (canfilter_bxcan B dev)
       (snd (end_ (canfilter_bxcan B dev)
               (snd (parse (canfilter_bxcan B dev)
                       (snd (begin (canfilter_bxcan B dev) obj)) filter_def)))))
  = u8 dev.
Proof.
  intros HB Hs. cbn [get_hw_config end_ begin canfilter_bxcan image_dev].
  apply (reachable_image_ok B dev HB).
  apply (bxcan_reachable_run B dev _ [Bxcan.End_]).
  apply bxcan_parse_reachable.
  exists obj, []. split; [exact Hs|reflexivity].
Qed.

Lemma fdcan_shipped_dev (S_max E_max dev : Z) (obj : Fdcan.t) :
  0 <= S_max <= 255 -> 0 <= E_max <= 255 -> FdcanUse.sized obj ->
  image_dev
    (get_hw_config (canfilter_fdcan S_max E_max dev)
       (snd (end_ (canfilter_fdcan S_max E_max dev)
               (snd (parse (canfilter_fdcan S_max E_max dev)
                       (snd (begin (canfilter_fdcan S_max E_max dev) obj))
                       filter_def)))))
  = u8 dev.
Proof.
  intros HS HE Hs. cbn [get_hw_config end_ begin canfilter_fdcan image_dev].
  apply (fdcan_reachable_invariant S_max E_max dev HS HE).
  apply (fdcan_reachable_run S_max E_max dev _ [FdcanUse.End_]).
  apply fdcan_parse_reachable.
  exists obj, []. split; [exact Hs|reflexivity].
Qed.

Lemma set_filter_event (image : hw_image) (size : Z) :
  In (Ev_set_filter image size) (snd (setHardwareFilter env filter_def)) ->
  known_filter (getFilterInfo env) = true /\
  image_dev image = getFilterInfo env /\
  size = image_size (getFilterInfo env) /\
  exists vid pid serial,
    getUsbInfoFromDeviceName env = Some (vid, pid, serial) /\
    snd (setHardwareFilter env filter_def)
    = [Ev_open vid pid serial; Ev_bt_const; Ev_get_filter; Ev_set_filter image size].
Proof.
  unfold setHardwareFilter, known_filter, image_size.
  destruct (String.eqb (driver_name env) "SocketCAN"); cbn [negb]; [|intros []].
  destruct (getUsbInfoFromDeviceName env) as [[[vid pid] serial]|]; [|intros []].
  destruct (usb_open env vid pid serial); cbn [negb];
    [|intros [H|[]]; discriminate H].
  destruct (hasHardwareFilter env); cbn [negb];
    [|intros [H|[H|[]]]; discriminate H].
  set (tr := (([Ev_open vid pid serial] ++ [Ev_bt_const]) ++ [Ev_get_filter])%list).
  assert (existsb is_set_filter tr = false) as Htr by reflexivity.
  destruct (Z.eqb_spec (getFilterInfo env) CANFILTER_DEV_BXCAN_F0) as [E|_].
  { intros Hin. apply (compile_and_ship_event _ _ _ _ _ Htr) in Hin.
    destruct Hin as (-> & -> & Htrace). rewrite E.
    split; [reflexivity|]. split.
    { unfold canfilter_bxcan_f0. rewrite bxcan_shipped_dev; [reflexivity|lia|].
      repeat split; reflexivity. }
    split; [reflexivity|]. exists vid, pid, serial. split; [reflexivity|exact Htrace]. }
  destruct (Z.eqb_spec (getFilterInfo env) CANFILTER_DEV_BXCAN_F4) as [E|_].
  { intros Hin. apply (compile_and_ship_event _ _ _ _ _ Htr) in Hin.
    destruct Hin as (-> & -> & Htrace). rewrite E.
    split; [reflexivity|]. split.
    { unfold canfilter_bxcan_f4. rewrite bxcan_shipped_dev; [reflexivity|lia|].
      repeat split; reflexivity. }
    split; [reflexivity|]. exists vid, pid, serial. split; [reflexivity|exact Htrace]. }
  destruct (Z.eqb_spec (getFilterInfo env) CANFILTER_DEV_FDCAN_G0) as [E|_].
  { intros Hin. apply (compile_and_ship_event _ _ _ _ _ Htr) in Hin.
    destruct Hin as (-> & -> & Htrace). rewrite E.
    split; [reflexivity|]. split.
    { unfold canfilter_fdcan_g0. rewrite fdcan_shipped_dev; [reflexivity|lia|lia|].
      split; reflexivity. }
    split; [reflexivity|]. exists vid, pid, serial. split; [reflexivity|exact Htrace]. }
  destruct (Z.eqb_spec (getFilterInfo env) CANFILTER_DEV_FDCAN_H7) as [E|_].
  { intros Hin. apply (compile_and_ship_event _ _ _ _ _ Htr) in Hin.
    destruct Hin as (-> & -> & Htrace). rewrite E.
    split; [reflexivity|]. split.
    { unfold canfilter_fdcan_h7. rewrite fdcan_shipped_dev; [reflexivity|lia|lia|].
      split; reflexivity. }
    split; [reflexivity|]. exists vid, pid, serial. split; [reflexivity|exact Htrace]. }
  cbn [snd]. intros [H|[H|[H|[]]]]; discriminate H.
Qed.

End Shipped.

(** X20. What [setHardwareFilter] sends matches the device it sends it to.
    If a [SET_FILTER] request is made, the requests of the run are, in this
    order, the open, the capability probe, the query of the filter identity
    and that one [SET_FILTER]; the identity the device reported is one of the
    four known, the first byte of the image sent is that identity, and the
    size sent is the size of the image of that controller (132, 244, 180 or
    1028 bytes). *)
Theorem transfer_matches_device (env : usb_env) (filter_def : string)
    (image : hw_image) (size : Z) :
  In (Ev_set_filter image size) (snd (setHardwareFilter env filter_def)) ->
  known_filter (getFilterInfo env) = true /\
  image_dev image = getFilterInfo env /\
  size = image_size (getFilterInfo env) /\
  exists vid pid serial,
    getUsbInfoFromDeviceName env = Some (vid, pid, serial) /\
    snd (setHardwareFilter env filter_def)
    = [Ev_open vid pid serial; Ev_bt_const; Ev_get_filter; Ev_set_filter image size].
Proof. apply set_filter_event. Qed.
(** X20 on a bxCAN-14 device and the text 0x100. *)
Lemma transfer_matches_device_witness :
  let image :=
    get_hw_config canfilter_bxcan_f0
      (snd (end_ canfilter_bxcan_f0
              (snd (parse canfilter_bxcan_f0 bxcan_f0_begun "0x100")))) in
  In (Ev_set_filter image 132) (snd (setHardwareFilter usb_env_bxcan_f0 "0x100")) /\
  image_dev image = getFilterInfo usb_env_bxcan_f0 /\
  132 = image_size (getFilterInfo usb_env_bxcan_f0).
Proof.
  intros image.
  assert (Hin : In (Ev_set_filter image 132)
                   (snd (setHardwareFilter usb_env_bxcan_f0 "0x100"))).
  { vm_compute. right. right. right. left. reflexivity. }
  split; [exact Hin|].
  destruct (transfer_matches_device usb_env_bxcan_f0 "0x100" image 132 Hin)
    as (_ & H1 & H2 & _).
  split; [exact H1|exact H2].
Defined.

(** ** [allow_all] *)

(** A whole identifier space is one block. *)
Lemma std_space_one_block (B : Z) (st : Bxcan.t) :
  Bxcan.add_std_range B st 0 max_std_id = Bxcan.add_std_mask B st 0 (2 ^ 11 - 2 ^ 11).
Proof.
  destruct (std_aligned_block 0 11) as (_ & _ & H); try (unfold max_std_id; lia);
    [reflexivity|].
  exact (H B st).
Qed.

Lemma ext_space_one_block (B : Z) (st : Bxcan.t) :
  Bxcan.add_ext_range B st 0 max_ext_id = Bxcan.emit_ext_mask B st 0 (2 ^ 29 - 2 ^ 29).
Proof.
  destruct (ext_aligned_block 0 29) as (_ & _ & H); try (unfold max_ext_id; lia);
    [reflexivity|].
  exact (H B st).
Qed.

Section Allow_all_bxcan.
Variable B : Z.
Variable dev : Z.
Hypothesis HB : 2 <= B <= 32.

Lemma bxcan_allow_all (st0 : Bxcan.t) :
  Bxcan.sized st0 ->
  let ops := canfilter_bxcan B dev in
  let r := allow_all ops (snd (begin ops st0)) in
  fst r = CANFILTER_SUCCESS /\ fst (end_ ops (snd r)) = CANFILTER_SUCCESS /\
  BxcanDebug.debug_print B (Bxcan.hw_config (snd (end_ ops (snd r))))
  = [(0, BxcanDebug.Ext_mask 0 max_ext_id);
     (1, BxcanDebug.Std_mask 0 max_std_id 0 max_std_id)].
Proof.
  intros Hs ops r. subst ops r. unfold allow_all.
  cbn [begin end_ add_std_range add_ext_range canfilter_bxcan].
  set (begun := snd (Bxcan.begin B dev st0)).
  (* the standard space: one mask pair, pending *)
  rewrite std_space_one_block.
  rewrite first_std_mask by (exact Hs || reflexivity).
  cbn [is_success negb].
  set (s1 := Bxcan.set_std_mask_count
               (Bxcan.set_std_mask begun
                  [Bxcan.mk_std_mask 0 (2 ^ 11 - 2 ^ 11);
                   Bxcan.mk_std_mask 0 (2 ^ 11 - 2 ^ 11)]) 1).
  (* the extended space: one mask bank, emitted at once *)
  rewrite ext_space_one_block.
  assert (BxcanUse.image_ok B dev s1) as Him1.
  { assert (BxcanUse.image_ok B dev begun) as Hb by (apply begin_image_ok; lia).
    revert Hb. unfold BxcanUse.image_ok. tauto. }
  pose proof Him1 as (_ & _ & _ & _ & _ & _ & L1 & L2 & _).
  destruct (emit_ext_mask_decode B s1 ltac:(cbn; lia) ltac:(lia) L1 L2 0 29
              ltac:(lia) ltac:(unfold max_ext_id; lia) eq_refl) as (E1 & E2 & E3).
  pose proof (emit_ext_mask_acc B s1 0 (2 ^ 29 - 2 ^ 29)) as Hacc.
  assert (BxcanUse.image_ok B dev (snd (Bxcan.emit_ext_mask B s1 0 (2 ^ 29 - 2 ^ 29))))
    as Him2.
  { apply (emit_ext_mask_lift B (BxcanUse.image_ok B dev)); [|exact Him1].
    apply write_bank_image_ok. lia. }
  destruct (Bxcan.emit_ext_mask B s1 0 (2 ^ 29 - 2 ^ 29)) as [e2 s2].
  cbn [fst snd] in *. change (Bxcan.bank s1) with 0 in E2, E3.
  split; [exact E1|].
  destruct Hacc as (A1 & A2 & A3 & A4 & A5 & A6).
  pose proof Him2 as (_ & _ & _ & _ & _ & _ & M1 & M2 & _).
  (* [end]: the pending mask pair *)
  rewrite end_only_std_mask by (rewrite ?A2, ?A4, ?A6; cbn; (reflexivity || discriminate)).
  rewrite A3.
  change (Bxcan.std_mask s1 !!! 0%nat) with (Bxcan.mk_std_mask 0 (2 ^ 11 - 2 ^ 11)).
  change (Bxcan.std_mask s1 !!! 1%nat) with (Bxcan.mk_std_mask 0 (2 ^ 11 - 2 ^ 11)).
  cbn [Bxcan.sm_id Bxcan.sm_mask].
  destruct (emit_std_mask_decode B s2 ltac:(lia) ltac:(lia) M1 M2 0 11 0 11
              ltac:(lia) ltac:(unfold max_std_id; lia) eq_refl
              ltac:(lia) ltac:(unfold max_std_id; lia) eq_refl) as (F1 & F2 & F3).
  assert (BxcanUse.extends s2 (snd (Bxcan.emit_std_mask B s2 0 (2 ^ 11 - 2 ^ 11)
                                      0 (2 ^ 11 - 2 ^ 11)))) as Hext.
  { apply (emit_std_mask_lift B (BxcanUse.extends s2)).
    - intros s v1 v2 s32 lm He Hlt _ _. apply (write_bank_extends B); (assumption || lia).
    - apply extends_refl. lia. }
  assert (BxcanUse.image_ok B dev (snd (Bxcan.emit_std_mask B s2 0 (2 ^ 11 - 2 ^ 11)
                                          0 (2 ^ 11 - 2 ^ 11)))) as Him3.
  { apply (emit_std_mask_lift B (BxcanUse.image_ok B dev)); [|exact Him2].
    apply write_bank_image_ok. lia. }
  destruct (Bxcan.emit_std_mask B s2 0 (2 ^ 11 - 2 ^ 11) 0 (2 ^ 11 - 2 ^ 11))
    as [e3 s3].
  cbn [fst snd] in *. split; [exact F1|].
  rewrite (debug_print_emitted B dev ltac:(lia) s3 Him3).
  rewrite F2, E2. change (seq 0 (Z.to_nat (0 + 1 + 1))) with [0%nat; 1%nat].
  unfold omap. cbn [list_omap].
  change (Z.of_nat 0) with 0. change (Z.of_nat 1) with 1.
  rewrite E2 in F3. change (0 + 1) with 1 in F3. rewrite F3.
  rewrite (extends_debug_bank s2 s3 0 Hext ltac:(lia) ltac:(lia)), E3.
  reflexivity.
Qed.

End Allow_all_bxcan.
Section Allow_all_fdcan.
Variable S_max : Z.
Variable E_max : Z.
Variable dev : Z.
Hypothesis HS : 1 <= S_max <= 255.
Hypothesis HE : 1 <= E_max <= 255.

Lemma emit_ext_range_std (st : Fdcan.t) (a b : Z) :
  let hw' := Fdcan.hw_config (snd (Fdcan.emit_ext_range E_max st a b)) in
  Fdcan.std_filter hw' = Fdcan.std_filter (Fdcan.hw_config st) /\
  Fdcan.std_filter_nbr hw' = Fdcan.std_filter_nbr (Fdcan.hw_config st).
Proof.
  unfold Fdcan.emit_ext_range. destruct (_ <=? _); [cbn; tauto|].
  destruct (_ || _); cbn; tauto.
Qed.

Lemma add_ext_range_std (st : Fdcan.t) (a b : Z) :
  let hw' := Fdcan.hw_config (snd (Fdcan.add_ext_range E_max st a b)) in
  Fdcan.std_filter hw' = Fdcan.std_filter (Fdcan.hw_config st) /\
  Fdcan.std_filter_nbr hw' = Fdcan.std_filter_nbr (Fdcan.hw_config st).
Proof.
  unfold Fdcan.add_ext_range. destruct (_ || _); [cbn; tauto|].
  destruct (_ <=? _); apply emit_ext_range_std.
Qed.

Lemma add_std_range_ext (st : Fdcan.t) (a b : Z) :
  let hw' := Fdcan.hw_config (snd (Fdcan.add_std_range S_max st a b)) in
  Fdcan.ext_filter hw' = Fdcan.ext_filter (Fdcan.hw_config st) /\
  Fdcan.ext_filter_nbr hw' = Fdcan.ext_filter_nbr (Fdcan.hw_config st).
Proof.
  unfold Fdcan.add_std_range, Fdcan.emit_std_range. destruct (_ || _); [cbn; tauto|].
  destruct (_ <=? _); (destruct (_ <=? _); [cbn; tauto|]); destruct (_ || _); cbn; tauto.
Qed.

Lemma fdcan_allow_all (st0 : Fdcan.t) :
  let ops := canfilter_fdcan S_max E_max dev in
  let r := allow_all ops (snd (begin ops st0)) in
  fst r = CANFILTER_SUCCESS /\
  FdcanDebug.debug_print (Fdcan.hw_config (snd r))
  = ([FdcanDebug.mk_std_view Fdcan.SFT_RANGE 0 max_std_id Fdcan.SFEC_RX_FIFO0],
     [FdcanDebug.mk_ext_view Fdcan.EFT_RANGE 0 max_ext_id Fdcan.EFEC_RX_FIFO0]).
Proof.
  intros ops r. subst ops r. unfold allow_all.
  cbn [begin add_std_range add_ext_range canfilter_fdcan].
  set (begun := snd (Fdcan.begin S_max E_max dev st0)).
  assert (Fdcan.std_filter_nbr (Fdcan.hw_config begun) = 0) as N1 by reflexivity.
  assert (Fdcan.ext_filter_nbr (Fdcan.hw_config begun) = 0) as N2 by reflexivity.
  assert (length (Fdcan.std_filter (Fdcan.hw_config begun)) = Z.to_nat S_max) as L1
    by (cbn; apply length_replicate).
  assert (length (Fdcan.ext_filter (Fdcan.hw_config begun)) = Z.to_nat E_max) as L2
    by (cbn; apply length_replicate).
  destruct (add_std_range_decode S_max begun 0 max_std_id) as (E1 & E2 & E3);
    try (rewrite ?N1; unfold max_std_id; lia).
  destruct (add_std_range_ext begun 0 max_std_id) as [X1 X2].
  destruct (Fdcan.add_std_range S_max begun 0 max_std_id) as [e1 s1].
  cbn [fst snd] in *. subst e1. cbn [is_success negb].
  destruct (add_ext_range_decode E_max s1 0 max_ext_id) as (F1 & F2 & F3);
    try (rewrite ?X1, ?X2, ?N2; unfold max_ext_id; lia).
  destruct (add_ext_range_std s1 0 max_ext_id) as [Y1 Y2].
  destruct (Fdcan.add_ext_range E_max s1 0 max_ext_id) as [e2 s2].
  cbn [fst snd] in *. split; [exact F1|].
  unfold FdcanDebug.debug_print. rewrite Y2, E2, N1, F2, X2, N2.
  change (seq 0 (Z.to_nat (0 + 1))) with [0%nat]. cbn [map].
  rewrite (debug_std_table _ _ _ Y1).
  rewrite N1 in E3. rewrite X2, N2 in F3.
  change (Z.to_nat 0) with 0%nat in E3, F3. rewrite E3, F3. reflexivity.
Qed.

End Allow_all_fdcan.

(** X21. [allow_all] opens both identifier spaces with one entry each.  On
    bxCAN, after [begin], it succeeds, and after [end] the image has two
    banks: bank 0 is the 32-bit mask bank [0 - 0x1FFFFFFF], bank 1 the 16-bit
    mask bank [0 - 0x7FF] twice.  On FDCAN, after [begin], it succeeds and the
    image has one standard range element [0, 0x7FF] and one extended range
    element [0, 0x1FFFFFFF], both for FIFO 0. *)
Theorem allow_all_opens_both_spaces :
  (forall (B dev : Z) (st0 : Bxcan.t),
     2 <= B <= 32 -> Bxcan.sized st0 ->
     let ops := canfilter_bxcan B dev in
     let r := allow_all ops (snd (begin ops st0)) in
     fst r = CANFILTER_SUCCESS /\ fst (end_ ops (snd r)) = CANFILTER_SUCCESS /\
     BxcanDebug.debug_print B (Bxcan.hw_config (snd (end_ ops (snd r))))
     = [(0, BxcanDebug.Ext_mask 0 max_ext_id);
        (1, BxcanDebug.Std_mask 0 max_std_id 0 max_std_id)]) /\
  (forall (S_max E_max dev : Z) (st0 : Fdcan.t),
     1 <= S_max <= 255 -> 1 <= E_max <= 255 ->
     let ops := canfilter_fdcan S_max E_max dev in
     let r := allow_all ops (snd (begin ops st0)) in
     fst r = CANFILTER_SUCCESS /\
     FdcanDebug.debug_print (Fdcan.hw_config (snd r))
     = ([FdcanDebug.mk_std_view Fdcan.SFT_RANGE 0 max_std_id Fdcan.SFEC_RX_FIFO0],
        [FdcanDebug.mk_ext_view Fdcan.EFT_RANGE 0 max_ext_id Fdcan.EFEC_RX_FIFO0])).
Proof.
  split.
  - intros B dev st0 HB Hs. apply bxcan_allow_all; assumption.
  - intros S_max E_max dev st0 HS HE. apply fdcan_allow_all; assumption.
Qed.

(** X21 on the bxCAN-28 and the FDCAN-128-64. *)
Lemma allow_all_opens_both_spaces_witness :
  fst (allow_all canfilter_bxcan_f4
         (snd (begin canfilter_bxcan_f4 (Bxcan.new 28)))) = CANFILTER_SUCCESS /\
  fst (allow_all canfilter_fdcan_h7
         (snd (begin canfilter_fdcan_h7 (Fdcan.new 128 64)))) = CANFILTER_SUCCESS.
Proof.
  split.
  - apply (proj1 allow_all_opens_both_spaces 28 CANFILTER_DEV_BXCAN_F4 (Bxcan.new 28));
      [lia|repeat split; reflexivity].
  - apply (proj2 allow_all_opens_both_spaces 128 64 CANFILTER_DEV_FDCAN_H7
             (Fdcan.new 128 64)); lia.
Defined.

(** ** bxCAN: the image accepts what was asked for *)

(** A block of one identifier, and the block of a mask pair. *)
Lemma cidr_block_range (W MAX : Z) (HW : 0 <= W <= 31) (HMAX : MAX = 2 ^ W - 1)
    (id mask : Z) :
  Cover.cidr_block W MAX (id, mask) ->
  exists k, 0 <= k <= W /\ 0 <= id <= MAX /\ id mod 2 ^ k = 0 /\
            mask = 2 ^ W - 2 ^ k /\ Cidr.block_last MAX (id, mask) = id + 2 ^ k - 1.
Proof.
  intros (p & Hp & Hm & Hid & Hal). cbn [fst snd] in *.
  exists (W - p). subst mask.
  rewrite (block_last_eq W MAX HW HMAX) by assumption.
  rewrite (prefix_mask_value W MAX HW HMAX) by assumption.
  repeat split; try lia; assumption.
Qed.

Lemma single_block (W MAX : Z) (HW : 0 <= W <= 31) (HMAX : MAX = 2 ^ W - 1) (id x : Z) :
  0 <= id <= MAX -> (Cidr.in_block MAX x (id, MAX) <-> x = id).
Proof.
  intros Hid. unfold Cidr.in_block, Cidr.block_first. cbn [fst].
  assert (Cidr.block_last MAX (id, MAX) = id) as ->; [|lia].
  pose proof (prefix_mask_value W MAX HW HMAX W ltac:(lia)) as Hm.
  replace (W - W) with 0 in Hm by lia. change (2 ^ 0) with 1 in Hm.
  replace (2 ^ W - 1) with MAX in Hm by lia.
  assert ((id, MAX) = (id, Cidr.prefix_mask W MAX W)) as -> by (rewrite Hm; reflexivity).
  rewrite (block_last_eq W MAX HW HMAX) by (try lia; rewrite Z.sub_diag; apply Z.mod_1_r).
  rewrite Z.sub_diag. change (2 ^ 0) with 1. lia.
Qed.

Section Accept_emit.
Variable B : Z.
Variable dev : Z.
Hypothesis HB : 0 <= B <= 32.

(** One more bank. *)
Lemma banked_after_write (st st' : Bxcan.t) (v : BxcanDebug.bank_view) :
  0 <= Bxcan.bank st -> Bxcan.bank st' = Bxcan.bank st + 1 -> Bxcan.bank st' <= 32 ->
  BxcanUse.extends st st' ->
  BxcanDebug.debug_bank (Bxcan.hw_config st') (Bxcan.bank st) = Some v ->
  forall shows x, BxcanAccept.banked shows st' x <-> BxcanAccept.banked shows st x \/ shows v x.
Proof.
  intros Hb Hb' Hle Hext Hv shows x. unfold BxcanAccept.banked. split.
  - intros (i & w & Hi & Hw & Hs).
    destruct (Z.eq_dec i (Bxcan.bank st)) as [->|Hne].
    + right. congruence.
    + left. exists i, w. split; [lia|]. split; [|exact Hs].
      rewrite <- Hw. symmetry. apply extends_debug_bank; [exact Hext|lia|lia].
  - intros [(i & w & Hi & Hw & Hs)|Hs].
    + exists i, w. split; [lia|]. split; [|exact Hs].
      rewrite <- Hw. apply extends_debug_bank; [exact Hext|lia|lia].
    + exists (Bxcan.bank st), v. split; [lia|]. split; assumption.
Qed.

Lemma emit_success_room (st : Bxcan.t) :
  (forall a b c d, fst (Bxcan.emit_std_list B st a b c d) = CANFILTER_SUCCESS ->
                   Bxcan.bank st < B) /\
  (forall a b c d, fst (Bxcan.emit_std_mask B st a b c d) = CANFILTER_SUCCESS ->
                   Bxcan.bank st < B) /\
  (forall a b, fst (Bxcan.emit_ext_list B st a b) = CANFILTER_SUCCESS ->
               Bxcan.bank st < B) /\
  (forall a b, fst (Bxcan.emit_ext_mask B st a b) = CANFILTER_SUCCESS ->
               Bxcan.bank st < B).
Proof.
  unfold Bxcan.emit_std_list, Bxcan.emit_std_mask, Bxcan.emit_ext_list,
    Bxcan.emit_ext_mask.
  repeat split; intros; destruct (Z.leb_spec B (Bxcan.bank st)); try assumption;
    discriminate.
Qed.

Variable st : Bxcan.t.
Hypothesis Him : BxcanUse.image_ok B dev st.

Lemma emit_std_list_step (a b c d : Z) :
  0 <= a <= max_std_id -> 0 <= b <= max_std_id ->
  0 <= c <= max_std_id -> 0 <= d <= max_std_id ->
  fst (Bxcan.emit_std_list B st a b c d) = CANFILTER_SUCCESS ->
  let st' := snd (Bxcan.emit_std_list B st a b c d) in
  BxcanUse.image_ok B dev st' /\ Bxcan.same_accumulators st st' /\
  forall shows x,
    BxcanAccept.banked shows st' x <-> BxcanAccept.banked shows st x \/ shows (BxcanDebug.Std_list a b c d) x.
Proof.
  intros Ha Hb Hc Hd Hok st'. subst st'.
  apply (proj1 (emit_success_room st)) in Hok.
  pose proof Him as (Hbk & _ & _ & _ & _ & _ & L1 & L2 & _).
  destruct (emit_std_list_decode B st ltac:(lia) ltac:(lia) L1 L2 a b c d Ha Hb Hc Hd)
    as (_ & E2 & E3).
  split; [|split].
  - apply (emit_std_list_lift B (BxcanUse.image_ok B dev)); [|exact Him].
    apply write_bank_image_ok. lia.
  - apply emit_std_list_acc.
  - apply banked_after_write; try assumption; try lia.
    apply (emit_std_list_lift B (BxcanUse.extends st)).
    + intros s v1 v2 s32 lm He Hlt _ _. apply (write_bank_extends B); (assumption || lia).
    + apply extends_refl. lia.
Qed.

Lemma emit_ext_list_step (a b : Z) :
  0 <= a <= max_ext_id -> 0 <= b <= max_ext_id ->
  fst (Bxcan.emit_ext_list B st a b) = CANFILTER_SUCCESS ->
  let st' := snd (Bxcan.emit_ext_list B st a b) in
  BxcanUse.image_ok B dev st' /\ Bxcan.same_accumulators st st' /\
  forall shows x,
    BxcanAccept.banked shows st' x <-> BxcanAccept.banked shows st x \/ shows (BxcanDebug.Ext_list a b) x.
Proof.
  intros Ha Hb Hok st'. subst st'.
  apply (proj1 (proj2 (proj2 (emit_success_room st)))) in Hok.
  pose proof Him as (Hbk & _ & _ & _ & _ & _ & L1 & L2 & _).
  destruct (emit_ext_list_decode B st ltac:(lia) ltac:(lia) L1 L2 a b Ha Hb)
    as (_ & E2 & E3).
  split; [|split].
  - apply (emit_ext_list_lift B (BxcanUse.image_ok B dev)); [|exact Him].
    apply write_bank_image_ok. lia.
  - apply emit_ext_list_acc.
  - apply banked_after_write; try assumption; try lia.
    apply (emit_ext_list_lift B (BxcanUse.extends st)).
    + intros s v1 v2 s32 lm He Hlt _ _. apply (write_bank_extends B); (assumption || lia).
    + apply extends_refl. lia.
Qed.

Lemma emit_std_mask_step (id1 m1 id2 m2 : Z) :
  Cover.cidr_block 11 max_std_id (id1, m1) -> Cover.cidr_block 11 max_std_id (id2, m2) ->
  fst (Bxcan.emit_std_mask B st id1 m1 id2 m2) = CANFILTER_SUCCESS ->
  let st' := snd (Bxcan.emit_std_mask B st id1 m1 id2 m2) in
  BxcanUse.image_ok B dev st' /\ Bxcan.same_accumulators st st' /\
  forall shows x,
    BxcanAccept.banked shows st' x
    <-> BxcanAccept.banked shows st x \/
        shows (BxcanDebug.Std_mask id1 (Cidr.block_last max_std_id (id1, m1))
                                   id2 (Cidr.block_last max_std_id (id2, m2))) x.
Proof.
  intros H1 H2 Hok st'. subst st'.
  apply (proj1 (proj2 (emit_success_room st))) in Hok.
  pose proof Him as (Hbk & _ & _ & _ & _ & _ & L1 & L2 & _).
  destruct std_width as [HW HM].
  destruct (cidr_block_range 11 max_std_id HW HM id1 m1 H1)
    as (k1 & Hk1 & Hid1 & Hal1 & -> & ->).
  destruct (cidr_block_range 11 max_std_id HW HM id2 m2 H2)
    as (k2 & Hk2 & Hid2 & Hal2 & -> & ->).
  destruct (emit_std_mask_decode B st ltac:(lia) ltac:(lia) L1 L2 id1 k1 id2 k2
              Hk1 Hid1 Hal1 Hk2 Hid2 Hal2) as (_ & E2 & E3).
  split; [|split].
  - apply (emit_std_mask_lift B (BxcanUse.image_ok B dev)); [|exact Him].
    apply write_bank_image_ok. lia.
  - apply emit_std_mask_acc.
  - apply banked_after_write; try assumption; try lia.
    apply (emit_std_mask_lift B (BxcanUse.extends st)).
    + intros s v1 v2 s32 lm He Hlt _ _. apply (write_bank_extends B); (assumption || lia).
    + apply extends_refl. lia.
Qed.

Lemma emit_ext_mask_step (id m : Z) :
  Cover.cidr_block 29 max_ext_id (id, m) ->
  fst (Bxcan.emit_ext_mask B st id m) = CANFILTER_SUCCESS ->
  let st' := snd (Bxcan.emit_ext_mask B st id m) in
  BxcanUse.image_ok B dev st' /\ Bxcan.same_accumulators st st' /\
  forall shows x,
    BxcanAccept.banked shows st' x
    <-> BxcanAccept.banked shows st x \/
        shows (BxcanDebug.Ext_mask id (Cidr.block_last max_ext_id (id, m))) x.
Proof.
  intros H1 Hok st'. subst st'.
  apply (proj2 (proj2 (proj2 (emit_success_room st)))) in Hok.
  pose proof Him as (Hbk & _ & _ & _ & _ & _ & L1 & L2 & _).
  destruct ext_width as [HW HM].
  destruct (cidr_block_range 29 max_ext_id HW HM id m H1)
    as (k & Hk & Hid & Hal & -> & ->).
  destruct (emit_ext_mask_decode B st ltac:(lia) ltac:(lia) L1 L2 id k Hk Hid Hal)
    as (_ & E2 & E3).
  split; [|split].
  - apply (emit_ext_mask_lift B (BxcanUse.image_ok B dev)); [|exact Him].
    apply write_bank_image_ok. lia.
  - apply emit_ext_mask_acc.
  - apply banked_after_write; try assumption; try lia.
    apply (emit_ext_mask_lift B (BxcanUse.extends st)).
    + intros s v1 v2 s32 lm He Hlt _ _. apply (write_bank_extends B); (assumption || lia).
    + apply extends_refl. lia.
Qed.

End Accept_emit.

Section Accept_acc.
Variable B : Z.
Variable dev : Z.
Hypothesis HB : 0 <= B <= 32.

Ltac count_up :=
  cbn;
  try change (u32 (0 + 1)) with 1; try change (u32 (1 + 1)) with 2;
  try change (u32 (2 + 1)) with 3; try change (u32 (3 + 1)) with 4;
  cbn.

Ltac nat_counts :=
  try change (Z.to_nat 0) with 0%nat in *; try change (Z.to_nat 1) with 1%nat in *;
  try change (Z.to_nat 2) with 2%nat in *; try change (Z.to_nat 3) with 3%nat in *;
  try change (Z.to_nat 4) with 4%nat in *.

Ltac unpack_forall :=
  repeat match goal with
  | H : Forall _ (_ :: _) |- _ => inversion H; subst; clear H
  | H : Forall _ [] |- _ => clear H
  end.

Ltac open_state st :=
  destruct st as [hw bank el elc sm smc sl slc];
  unfold BxcanAccept.wf, BxcanAccept.entries_ok, BxcanAccept.held_std,
    BxcanAccept.held_ext, BxcanAccept.pending_std, BxcanAccept.pending_ext,
    BxcanUse.padded, Bxcan.accumulators_ok, Bxcan.sized;
  cbn [Bxcan.std_list Bxcan.std_list_count Bxcan.std_mask Bxcan.std_mask_count
       Bxcan.ext_list Bxcan.ext_list_count];
  intros (Him & (((Hl1 & Hl2 & Hl3) & Hc1 & Hc2 & Hc3 & _) & Hrep) & (He1 & He2 & He3)).

Lemma add_std_list_entries (st : Bxcan.t) (id : Z) :
  BxcanAccept.wf B dev st -> 0 <= id <= max_std_id ->
  BxcanAccept.entries_ok (snd (Bxcan.add_std_list B st id)).
Proof.
  open_state st. intros Hid.
  destruct sl as [|a [|b [|c [|d [|? ?]]]]]; try discriminate Hl1.
  assert (slc = 0 \/ slc = 1 \/ slc = 2 \/ slc = 3) as Hcase by lia.
  destruct Hcase as [->|[->|[->| ->]]].
  - count_up. split; [intros _; repeat constructor; lia|]. split; assumption.
  - count_up. specialize (He1 ltac:(lia)). unpack_forall.
    split; [intros _; repeat constructor; lia|]. split; assumption.
  - count_up. specialize (He1 ltac:(lia)). unpack_forall.
    split; [intros _; repeat constructor; lia|]. split; assumption.
  - unfold Bxcan.add_std_list. cbn -[Bxcan.emit_std_list u32].
    change (u32 (3 + 1)) with 4. cbn -[Bxcan.emit_std_list].
    match goal with |- context [Bxcan.emit_std_list B ?s ?x ?y ?z ?w] =>
      pose proof (emit_std_list_acc B s x y z w) as Hacc;
      destruct (Bxcan.emit_std_list B s x y z w) as [err s'] end.
    cbn in Hacc |- *. destruct Hacc as (A1 & A2 & A3 & A4 & A5 & A6).
    rewrite A3, A4, A5, A6. split; [intros; lia|]. split; assumption.
Qed.

Lemma add_std_list_held (st : Bxcan.t) (id : Z) :
  BxcanAccept.wf B dev st -> 0 <= id <= max_std_id ->
  fst (Bxcan.add_std_list B st id) = CANFILTER_SUCCESS ->
  let st' := snd (Bxcan.add_std_list B st id) in
  (forall x, BxcanAccept.held_std st' x <-> BxcanAccept.held_std st x \/ x = id) /\
  (forall x, BxcanAccept.held_ext st' x <-> BxcanAccept.held_ext st x).
Proof.
  open_state st. intros Hid.
  destruct sl as [|a [|b [|c [|d [|? ?]]]]]; try discriminate Hl1.
  assert (slc = 0 \/ slc = 1 \/ slc = 2 \/ slc = 3) as Hcase by lia.
  destruct Hcase as [->|[->|[->| ->]]].
  - count_up. nat_counts. cbn. intros _.
    split; [|tauto]. intros x. intuition congruence.
  - count_up. nat_counts. cbn. intros _.
    split; [|tauto]. intros x. intuition congruence.
  - count_up. nat_counts. cbn. intros _.
    split; [|tauto]. intros x. intuition congruence.
  - specialize (He1 ltac:(lia)). unpack_forall.
    unfold Bxcan.add_std_list. cbn -[Bxcan.emit_std_list u32].
    change (u32 (3 + 1)) with 4. cbn -[Bxcan.emit_std_list].
    match goal with |- context [Bxcan.emit_std_list B ?s ?x ?y ?z ?w] =>
      pose proof (emit_std_list_step B dev HB s Him x y z w ltac:(assumption)
                    ltac:(assumption) ltac:(assumption) ltac:(exact Hid)) as Hstep;
      destruct (Bxcan.emit_std_list B s x y z w) as [err s'] end.
    cbn [fst snd] in *. intros Hok. specialize (Hstep Hok).
    destruct Hstep as (Him' & (A1 & A2 & A3 & A4 & A5 & A6) & Hbank).
    cbn in A1, A2, A3, A4, A5, A6 |- *. rewrite A3, A4, A5, A6.
    nat_counts. cbn.
    split.
    + intros x. rewrite (Hbank BxcanAccept.shows_std x). cbn.
      unfold BxcanAccept.banked. cbn. intuition congruence.
    + intros x. rewrite (Hbank BxcanAccept.shows_ext x). cbn.
      unfold BxcanAccept.banked. cbn. tauto.
Qed.

Lemma image_ok_acc (st st' : Bxcan.t) :
  Bxcan.hw_config st' = Bxcan.hw_config st -> Bxcan.bank st' = Bxcan.bank st ->
  BxcanUse.image_ok B dev st -> BxcanUse.image_ok B dev st'.
Proof. intros Hhw Hbk. unfold BxcanUse.image_ok. rewrite Hhw, Hbk. tauto. Qed.

Lemma add_std_list_accept (st : Bxcan.t) (id : Z) :
  BxcanAccept.wf B dev st -> 0 <= id <= max_std_id ->
  fst (Bxcan.add_std_list B st id) = CANFILTER_SUCCESS ->
  let st' := snd (Bxcan.add_std_list B st id) in
  BxcanAccept.wf B dev st' /\
  (forall x, BxcanAccept.held_std st' x <-> BxcanAccept.held_std st x \/ x = id) /\
  (forall x, BxcanAccept.held_ext st' x <-> BxcanAccept.held_ext st x).
Proof.
  intros Hwf Hid Hok st'. subst st'. split.
  - pose proof Hwf as (Him & Hpad & _). split; [|split].
    + apply (add_std_list_lift B (BxcanUse.image_ok B dev));
        [apply image_ok_acc|intros; apply write_bank_image_ok; (assumption || lia)|exact Him].
    + apply add_std_list_padded; [exact Hpad|lia].
    + apply add_std_list_entries; assumption.
  - apply add_std_list_held; assumption.
Qed.

Lemma cidr_std_within (id mask : Z) :
  Cover.cidr_block 11 max_std_id (id, mask) ->
  0 <= id <= max_std_id /\ 0 <= mask <= max_std_id.
Proof.
  intros H. destruct std_width as [HW HM].
  destruct (cidr_block_range 11 max_std_id HW HM id mask H) as (k & Hk & Hid & _ & -> & _).
  pose proof (pow2_pos k ltac:(lia)). pose proof (pow2_le_mono k 11 ltac:(lia)).
  unfold max_std_id in *. lia.
Qed.

Lemma cidr_ext_within (id mask : Z) :
  Cover.cidr_block 29 max_ext_id (id, mask) ->
  0 <= id <= max_ext_id /\ 0 <= mask <= max_ext_id.
Proof.
  intros H. destruct ext_width as [HW HM].
  destruct (cidr_block_range 29 max_ext_id HW HM id mask H) as (k & Hk & Hid & _ & -> & _).
  pose proof (pow2_pos k ltac:(lia)). pose proof (pow2_le_mono k 29 ltac:(lia)).
  unfold max_ext_id in *. lia.
Qed.

Lemma add_std_mask_entries (st : Bxcan.t) (id mask : Z) :
  BxcanAccept.wf B dev st -> Cover.cidr_block 11 max_std_id (id, mask) ->
  BxcanAccept.entries_ok (snd (Bxcan.add_std_mask B st id mask)).
Proof.
  open_state st. intros Hblk.
  destruct sm as [|a [|b [|? ?]]]; try discriminate Hl2.
  assert (smc = 0 \/ smc = 1) as Hcase by lia.
  destruct Hcase as [->| ->].
  - count_up. split; [assumption|]. split; [intros _; repeat constructor; exact Hblk|assumption].
  - unfold Bxcan.add_std_mask. cbn -[Bxcan.emit_std_mask u32].
    change (u32 (1 + 1)) with 2. cbn -[Bxcan.emit_std_mask].
    match goal with |- context [Bxcan.emit_std_mask B ?s ?x ?y ?z ?w] =>
      pose proof (emit_std_mask_acc B s x y z w) as Hacc;
      destruct (Bxcan.emit_std_mask B s x y z w) as [err s'] end.
    cbn in Hacc |- *. destruct Hacc as (A1 & A2 & A3 & A4 & A5 & A6).
    rewrite A1, A2, A5, A6. split; [assumption|]. split; [intros; lia|assumption].
Qed.

Lemma add_std_mask_held (st : Bxcan.t) (id mask : Z) :
  BxcanAccept.wf B dev st -> Cover.cidr_block 11 max_std_id (id, mask) ->
  fst (Bxcan.add_std_mask B st id mask) = CANFILTER_SUCCESS ->
  let st' := snd (Bxcan.add_std_mask B st id mask) in
  (forall x, BxcanAccept.held_std st' x
             <-> BxcanAccept.held_std st x \/ Cidr.in_block max_std_id x (id, mask)) /\
  (forall x, BxcanAccept.held_ext st' x <-> BxcanAccept.held_ext st x).
Proof.
  open_state st. intros Hblk.
  destruct sm as [|[a ma] [|[b mb] [|? ?]]]; try discriminate Hl2.
  assert (smc = 0 \/ smc = 1) as Hcase by lia.
  destruct Hcase as [->| ->].
  - count_up. nat_counts. cbn. intros _.
    split; [|tauto]. intros x. split.
    + intros [H|[H|(m & [<-|[]] & H)]]; auto.
    + intros [[H|[H|(m & [] & _)]]|H]; auto.
      right. right. exists (Bxcan.mk_std_mask id mask). auto.
  - specialize (He2 ltac:(lia)). unpack_forall.
    unfold Bxcan.add_std_mask. cbn -[Bxcan.emit_std_mask u32].
    change (u32 (1 + 1)) with 2. cbn -[Bxcan.emit_std_mask].
    match goal with |- context [Bxcan.emit_std_mask B ?s ?x ?y ?z ?w] =>
      pose proof (emit_std_mask_step B dev HB s Him x y z w ltac:(assumption)
                    ltac:(exact Hblk)) as Hstep;
      destruct (Bxcan.emit_std_mask B s x y z w) as [err s'] end.
    cbn [fst snd] in *. intros Hok. specialize (Hstep Hok).
    destruct Hstep as (Him' & (A1 & A2 & A3 & A4 & A5 & A6) & Hbank).
    cbn in A1, A2, A3, A4, A5, A6 |- *. rewrite A1, A2, A5, A6.
    nat_counts. cbn.
    split.
    + intros x. rewrite (Hbank BxcanAccept.shows_std x). cbn.
      unfold BxcanAccept.banked, Cidr.in_block, Cidr.block_first. cbn. split.
      * intros [[H|[H|H]]|[H|(m & [] & _)]]; auto.
        left. right. right. exists (Bxcan.mk_std_mask a ma). auto.
      * intros [[H|[H|(m & [<-|[]] & H)]]|H]; auto.
    + intros x. rewrite (Hbank BxcanAccept.shows_ext x). cbn.
      unfold BxcanAccept.banked. cbn. tauto.
Qed.

Lemma add_std_mask_accept (st : Bxcan.t) (id mask : Z) :
  BxcanAccept.wf B dev st -> Cover.cidr_block 11 max_std_id (id, mask) ->
  fst (Bxcan.add_std_mask B st id mask) = CANFILTER_SUCCESS ->
  let st' := snd (Bxcan.add_std_mask B st id mask) in
  BxcanAccept.wf B dev st' /\
  (forall x, BxcanAccept.held_std st' x
             <-> BxcanAccept.held_std st x \/ Cidr.in_block max_std_id x (id, mask)) /\
  (forall x, BxcanAccept.held_ext st' x <-> BxcanAccept.held_ext st x).
Proof.
  intros Hwf Hblk Hok st'. subst st'. split.
  - pose proof Hwf as (Him & Hpad & _). pose proof (cidr_std_within id mask Hblk).
    split; [|split].
    + apply (add_std_mask_lift B (BxcanUse.image_ok B dev));
        [apply image_ok_acc|intros; apply write_bank_image_ok; (assumption || lia)|exact Him].
    + apply add_std_mask_padded; [exact Hpad|lia|lia].
    + apply add_std_mask_entries; assumption.
  - apply add_std_mask_held; assumption.
Qed.

Lemma add_ext_list_entries (st : Bxcan.t) (id : Z) :
  BxcanAccept.wf B dev st -> 0 <= id <= max_ext_id ->
  BxcanAccept.entries_ok (snd (Bxcan.add_ext_list B st id)).
Proof.
  open_state st. intros Hid.
  destruct el as [|a [|b [|? ?]]]; try discriminate Hl3.
  assert (elc = 0 \/ elc = 1) as Hcase by lia.
  destruct Hcase as [->| ->].
  - count_up. split; [assumption|]. split; [assumption|intros _; repeat constructor; lia].
  - unfold Bxcan.add_ext_list. cbn -[Bxcan.emit_ext_list u32].
    change (u32 (1 + 1)) with 2. cbn -[Bxcan.emit_ext_list].
    match goal with |- context [Bxcan.emit_ext_list B ?s ?x ?y] =>
      pose proof (emit_ext_list_acc B s x y) as Hacc;
      destruct (Bxcan.emit_ext_list B s x y) as [err s'] end.
    cbn in Hacc |- *. destruct Hacc as (A1 & A2 & A3 & A4 & A5 & A6).
    rewrite A1, A2, A3, A4. split; [assumption|]. split; [assumption|intros; lia].
Qed.

Lemma add_ext_list_held (st : Bxcan.t) (id : Z) :
  BxcanAccept.wf B dev st -> 0 <= id <= max_ext_id ->
  fst (Bxcan.add_ext_list B st id) = CANFILTER_SUCCESS ->
  let st' := snd (Bxcan.add_ext_list B st id) in
  (forall x, BxcanAccept.held_std st' x <-> BxcanAccept.held_std st x) /\
  (forall x, BxcanAccept.held_ext st' x <-> BxcanAccept.held_ext st x \/ x = id).
Proof.
  open_state st. intros Hid.
  destruct el as [|a [|b [|? ?]]]; try discriminate Hl3.
  assert (elc = 0 \/ elc = 1) as Hcase by lia.
  destruct Hcase as [->| ->].
  - count_up. nat_counts. cbn. intros _.
    split; [tauto|]. intros x. intuition congruence.
  - specialize (He3 ltac:(lia)). unpack_forall.
    unfold Bxcan.add_ext_list. cbn -[Bxcan.emit_ext_list u32].
    change (u32 (1 + 1)) with 2. cbn -[Bxcan.emit_ext_list].
    match goal with |- context [Bxcan.emit_ext_list B ?s ?x ?y] =>
      pose proof (emit_ext_list_step B dev HB s Him x y ltac:(assumption)
                    ltac:(exact Hid)) as Hstep;
      destruct (Bxcan.emit_ext_list B s x y) as [err s'] end.
    cbn [fst snd] in *. intros Hok. specialize (Hstep Hok).
    destruct Hstep as (Him' & (A1 & A2 & A3 & A4 & A5 & A6) & Hbank).
    cbn in A1, A2, A3, A4, A5, A6 |- *. rewrite A1, A2, A3, A4.
    nat_counts. cbn.
    split.
    + intros x. rewrite (Hbank BxcanAccept.shows_std x). cbn.
      unfold BxcanAccept.banked. cbn. tauto.
    + intros x. rewrite (Hbank BxcanAccept.shows_ext x). cbn.
      unfold BxcanAccept.banked. cbn. intuition congruence.
Qed.

Lemma add_ext_list_accept (st : Bxcan.t) (id : Z) :
  BxcanAccept.wf B dev st -> 0 <= id <= max_ext_id ->
  fst (Bxcan.add_ext_list B st id) = CANFILTER_SUCCESS ->
  let st' := snd (Bxcan.add_ext_list B st id) in
  BxcanAccept.wf B dev st' /\
  (forall x, BxcanAccept.held_std st' x <-> BxcanAccept.held_std st x) /\
  (forall x, BxcanAccept.held_ext st' x <-> BxcanAccept.held_ext st x \/ x = id).
Proof.
  intros Hwf Hid Hok st'. subst st'. split.
  - pose proof Hwf as (Him & Hpad & _). split; [|split].
    + apply (add_ext_list_lift B (BxcanUse.image_ok B dev));
        [apply image_ok_acc|intros; apply write_bank_image_ok; (assumption || lia)|exact Him].
    + apply add_ext_list_padded; [exact Hpad|lia].
    + apply add_ext_list_entries; assumption.
  - apply add_ext_list_held; assumption.
Qed.

Lemma add_ext_mask_accept (st : Bxcan.t) (id mask : Z) :
  BxcanAccept.wf B dev st -> Cover.cidr_block 29 max_ext_id (id, mask) ->
  fst (Bxcan.add_ext_mask B st id mask) = CANFILTER_SUCCESS ->
  let st' := snd (Bxcan.add_ext_mask B st id mask) in
  BxcanAccept.wf B dev st' /\
  (forall x, BxcanAccept.held_std st' x <-> BxcanAccept.held_std st x) /\
  (forall x, BxcanAccept.held_ext st' x
             <-> BxcanAccept.held_ext st x \/ Cidr.in_block max_ext_id x (id, mask)).
Proof.
  intros (Him & Hpad & Hent) Hblk Hok st'. subst st'. unfold Bxcan.add_ext_mask in *.
  destruct (emit_ext_mask_step B dev HB st Him id mask Hblk Hok)
    as (Him' & Hacc & Hbank).
  pose proof Hacc as (A1 & A2 & A3 & A4 & A5 & A6).
  split; [split; [exact Him'|split]|split].
  - eapply padded_ext; eassumption.
  - unfold BxcanAccept.entries_ok. rewrite A1, A2, A3, A4, A5, A6. exact Hent.
  - intros x. unfold BxcanAccept.held_std, BxcanAccept.pending_std.
    rewrite (Hbank BxcanAccept.shows_std x), A1, A2, A3, A4. cbn. tauto.
  - intros x. unfold BxcanAccept.held_ext, BxcanAccept.pending_ext.
    rewrite (Hbank BxcanAccept.shows_ext x), A5, A6. cbn.
    unfold Cidr.in_block, Cidr.block_first. cbn. tauto.
Qed.

End Accept_acc.

(** The blocks of a range: aligned, and covering the range. *)
Lemma std_range_blocks_cover (a b : Z) :
  0 <= a <= max_std_id -> 0 <= b <= max_std_id ->
  Forall (Cover.cidr_block 11 max_std_id) (Bxcan.std_range_blocks a b) /\
  Cover.covers max_std_id (Bxcan.std_range_blocks a b) (Z.min a b) (Z.max a b).
Proof.
  intros Ha Hb. destruct std_width as [HW HM]. unfold Bxcan.std_range_blocks.
  destruct (Z.ltb_spec b a).
  - rewrite Z.min_r, Z.max_l by lia. split.
    + apply (range_blocks_cidr 11 max_std_id HW HM); lia.
    + apply (range_blocks_cover 11 max_std_id HW HM); lia.
  - rewrite Z.min_l, Z.max_r by lia. split.
    + apply (range_blocks_cidr 11 max_std_id HW HM); lia.
    + apply (range_blocks_cover 11 max_std_id HW HM); lia.
Qed.

Lemma ext_range_blocks_cover (a b : Z) :
  0 <= a <= max_ext_id -> 0 <= b <= max_ext_id ->
  Forall (Cover.cidr_block 29 max_ext_id) (Bxcan.ext_range_blocks a b) /\
  Cover.covers max_ext_id (Bxcan.ext_range_blocks a b) (Z.min a b) (Z.max a b).
Proof.
  intros Ha Hb. destruct ext_width as [HW HM]. unfold Bxcan.ext_range_blocks.
  destruct (Z.ltb_spec b a).
  - rewrite Z.min_r, Z.max_l by lia. split.
    + apply (range_blocks_cidr 29 max_ext_id HW HM); lia.
    + apply (range_blocks_cover 29 max_ext_id HW HM); lia.
  - rewrite Z.min_l, Z.max_r by lia. split.
    + apply (range_blocks_cidr 29 max_ext_id HW HM); lia.
    + apply (range_blocks_cover 29 max_ext_id HW HM); lia.
Qed.

Section Accept_range.
Variable B : Z.
Variable dev : Z.
Hypothesis HB : 0 <= B <= 32.

Lemma std_block_accept (st : Bxcan.t) (blk : Z * Z) :
  BxcanAccept.wf B dev st -> Cover.cidr_block 11 max_std_id blk ->
  fst (Bxcan.std_block B st blk) = CANFILTER_SUCCESS ->
  let st' := snd (Bxcan.std_block B st blk) in
  BxcanAccept.wf B dev st' /\
  (forall x, BxcanAccept.held_std st' x
             <-> BxcanAccept.held_std st x \/ Cidr.in_block max_std_id x blk) /\
  (forall x, BxcanAccept.held_ext st' x <-> BxcanAccept.held_ext st x).
Proof.
  destruct blk as [id mask]. intros Hwf Hblk. unfold Bxcan.std_block. cbn [fst snd].
  destruct (Z.eqb_spec mask max_std_id) as [->|Hne].
  - intros Hok. destruct std_width as [HW HM].
    pose proof (cidr_std_within id max_std_id Hblk) as [Hid _].
    destruct (add_std_list_accept B dev HB st id Hwf Hid Hok) as (H1 & H2 & H3).
    split; [exact H1|]. split; [|exact H3].
    intros x. rewrite (single_block 11 max_std_id HW HM id x Hid). apply H2.
  - intros Hok. apply (add_std_mask_accept B dev HB); assumption.
Qed.

Lemma ext_block_accept (st : Bxcan.t) (blk : Z * Z) :
  BxcanAccept.wf B dev st -> Cover.cidr_block 29 max_ext_id blk ->
  fst (Bxcan.ext_block B st blk) = CANFILTER_SUCCESS ->
  let st' := snd (Bxcan.ext_block B st blk) in
  BxcanAccept.wf B dev st' /\
  (forall x, BxcanAccept.held_std st' x <-> BxcanAccept.held_std st x) /\
  (forall x, BxcanAccept.held_ext st' x
             <-> BxcanAccept.held_ext st x \/ Cidr.in_block max_ext_id x blk).
Proof.
  destruct blk as [id mask]. intros Hwf Hblk. unfold Bxcan.ext_block. cbn [fst snd].
  destruct (Z.eqb_spec mask max_ext_id) as [->|Hne].
  - intros Hok. destruct ext_width as [HW HM].
    pose proof (cidr_ext_within id max_ext_id Hblk) as [Hid _].
    destruct (add_ext_list_accept B dev HB st id Hwf Hid Hok) as (H1 & H2 & H3).
    split; [exact H1|]. split; [exact H2|].
    intros x. rewrite (single_block 29 max_ext_id HW HM id x Hid). apply H3.
  - intros Hok. apply (add_ext_mask_accept B dev HB); assumption.
Qed.

(** A loop over blocks that succeeds has added every block. *)
Lemma feed_accept (MAX : Z) (good : Z * Z -> Prop)
    (held other : Bxcan.t -> Z -> Prop)
    (step : Bxcan.t -> Z * Z -> canfilter_error_t * Bxcan.t) :
  (forall st blk, BxcanAccept.wf B dev st -> good blk ->
     fst (step st blk) = CANFILTER_SUCCESS ->
     BxcanAccept.wf B dev (snd (step st blk)) /\
     (forall x, held (snd (step st blk)) x <-> held st x \/ Cidr.in_block MAX x blk) /\
     (forall x, other (snd (step st blk)) x <-> other st x)) ->
  forall blocks st,
    BxcanAccept.wf B dev st -> Forall good blocks ->
    fst (Bxcan.feed step st blocks) = CANFILTER_SUCCESS ->
    BxcanAccept.wf B dev (snd (Bxcan.feed step st blocks)) /\
    (forall x, held (snd (Bxcan.feed step st blocks)) x
               <-> held st x \/ exists blk, In blk blocks /\ Cidr.in_block MAX x blk) /\
    (forall x, other (snd (Bxcan.feed step st blocks)) x <-> other st x).
Proof.
  intros Hstep. induction blocks as [|blk rest IH]; intros st Hwf Hall Hok.
  - cbn. split; [exact Hwf|]. split; [|tauto].
    intros x. split; [auto|]. intros [H|(blk & [] & _)]. exact H.
  - inversion Hall as [|? ? Hblk Hrest]; subst. cbn [Bxcan.feed] in *.
    specialize (Hstep st blk Hwf Hblk).
    destruct (step st blk) as [err st1]. cbn [fst snd] in *.
    destruct err; cbn [is_success negb] in *; try discriminate Hok.
    destruct (Hstep eq_refl) as (Hwf1 & Hh1 & Ho1).
    destruct (IH st1 Hwf1 Hrest Hok) as (Hwf2 & Hh2 & Ho2).
    split; [exact Hwf2|]. split.
    + intros x. rewrite Hh2, Hh1. split.
      * intros [[H|H]|(b' & Hin & H)]; auto.
        -- right. exists blk. split; [left; reflexivity|exact H].
        -- right. exists b'. split; [right; exact Hin|exact H].
      * intros [H|(b' & [<-|Hin] & H)]; auto.
        right. exists b'. auto.
    + intros x. rewrite Ho2. apply Ho1.
Qed.

Lemma add_std_range_accept (st : Bxcan.t) (a b : Z) :
  BxcanAccept.wf B dev st -> 0 <= a -> 0 <= b ->
  fst (Bxcan.add_std_range B st a b) = CANFILTER_SUCCESS ->
  let st' := snd (Bxcan.add_std_range B st a b) in
  BxcanAccept.wf B dev st' /\
  (forall x, BxcanAccept.held_std st' x
             <-> BxcanAccept.held_std st x \/ Z.min a b <= x <= Z.max a b) /\
  (forall x, BxcanAccept.held_ext st' x <-> BxcanAccept.held_ext st x).
Proof.
  intros Hwf Ha Hb Hok st'. subst st'.
  assert (a <= max_std_id /\ b <= max_std_id) as [Ha' Hb'].
  { unfold Bxcan.add_std_range in Hok.
    destruct (Z.ltb_spec max_std_id a); [discriminate Hok|].
    destruct (Z.ltb_spec max_std_id b); [discriminate Hok|]. lia. }
  rewrite add_std_range_feed in * by assumption.
  destruct (std_range_blocks_cover a b ltac:(lia) ltac:(lia)) as [Hcidr Hcov].
  destruct (feed_accept max_std_id (Cover.cidr_block 11 max_std_id)
              BxcanAccept.held_std BxcanAccept.held_ext (Bxcan.std_block B)
              std_block_accept (Bxcan.std_range_blocks a b) st Hwf Hcidr Hok)
    as (H1 & H2 & H3).
  split; [exact H1|]. split; [|exact H3].
  intros x. rewrite H2, (Hcov x). reflexivity.
Qed.

Lemma add_ext_range_accept (st : Bxcan.t) (a b : Z) :
  BxcanAccept.wf B dev st -> 0 <= a -> 0 <= b ->
  fst (Bxcan.add_ext_range B st a b) = CANFILTER_SUCCESS ->
  let st' := snd (Bxcan.add_ext_range B st a b) in
  BxcanAccept.wf B dev st' /\
  (forall x, BxcanAccept.held_std st' x <-> BxcanAccept.held_std st x) /\
  (forall x, BxcanAccept.held_ext st' x
             <-> BxcanAccept.held_ext st x \/ Z.min a b <= x <= Z.max a b).
Proof.
  intros Hwf Ha Hb Hok st'. subst st'.
  assert (a <= max_ext_id /\ b <= max_ext_id) as [Ha' Hb'].
  { unfold Bxcan.add_ext_range in Hok.
    destruct (Z.ltb_spec max_ext_id a); [discriminate Hok|].
    destruct (Z.ltb_spec max_ext_id b); [discriminate Hok|]. lia. }
  rewrite add_ext_range_feed in * by assumption.
  destruct (ext_range_blocks_cover a b ltac:(lia) ltac:(lia)) as [Hcidr Hcov].
  destruct (feed_accept max_ext_id (Cover.cidr_block 29 max_ext_id)
              BxcanAccept.held_ext BxcanAccept.held_std (Bxcan.ext_block B)
              (fun s blk Hw Hg Hs =>
                 let '(conj W1 (conj W2 W3)) := ext_block_accept s blk Hw Hg Hs in
                 conj W1 (conj W3 W2))
              (Bxcan.ext_range_blocks a b) st Hwf Hcidr Hok)
    as (H1 & H2 & H3).
  split; [exact H1|]. split; [exact H3|].
  intros x. rewrite H2, (Hcov x). reflexivity.
Qed.

End Accept_range.

(** A later step of [end()] that reports success was entered with success. *)
Lemma end_step_success {A : Type} (c : bool) (err : canfilter_error_t)
    (e : canfilter_error_t * A) (s : A) :
  fst (if c && is_success err then e else (err, s)) = CANFILTER_SUCCESS ->
  err = CANFILTER_SUCCESS.
Proof.
  destruct err; cbn [is_success]; rewrite ?andb_false_r; cbn [fst];
    intros H; (reflexivity || discriminate H).
Qed.

(** What a padded accumulator shows when flushed is what it holds. *)
Lemma std_list_flush (st : Bxcan.t) (x : Z) :
  BxcanUse.padded st ->
  In x (take (Z.to_nat (Bxcan.std_list_count st)) (Bxcan.std_list st))
  <-> Bxcan.std_list_count st <> 0 /\
      BxcanAccept.shows_std
        (BxcanDebug.Std_list (Bxcan.std_list st !!! 0%nat) (Bxcan.std_list st !!! 1%nat)
                             (Bxcan.std_list st !!! 2%nat) (Bxcan.std_list st !!! 3%nat)) x.
Proof.
  destruct st as [hw bank el elc sm smc sl slc].
  unfold BxcanUse.padded, BxcanUse.replicated, Bxcan.accumulators_ok, Bxcan.sized.
  cbn [Bxcan.std_list Bxcan.std_list_count Bxcan.std_mask Bxcan.std_mask_count
       Bxcan.ext_list Bxcan.ext_list_count].
  intros (((Hl1 & _) & Hc1 & _) & Hrep & _).
  destruct sl as [|a [|b [|c [|d [|? ?]]]]]; try discriminate Hl1.
  assert (slc = 0 \/ slc = 1 \/ slc = 2 \/ slc = 3) as Hcase by lia.
  destruct Hcase as [->|[->|[->| ->]]].
  - cbn. split; [intros []|intros [H _]; lia].
  - specialize (Hrep ltac:(lia)).
    pose proof (Hrep 1%nat ltac:(lia)) as R1. pose proof (Hrep 2%nat ltac:(lia)) as R2.
    pose proof (Hrep 3%nat ltac:(lia)) as R3. cbn in R1, R2, R3.
    change (Z.to_nat 1) with 1%nat. cbn. split; [intuition lia|].
    intros [_ H]. left. intuition congruence.
  - specialize (Hrep ltac:(lia)).
    pose proof (Hrep 2%nat ltac:(lia)) as R2.
    pose proof (Hrep 3%nat ltac:(lia)) as R3. cbn in R2, R3.
    change (Z.to_nat 2) with 2%nat. cbn. split; [intuition lia|].
    intros [_ H]. intuition congruence.
  - specialize (Hrep ltac:(lia)).
    pose proof (Hrep 3%nat ltac:(lia)) as R3. cbn in R3.
    change (Z.to_nat 3) with 3%nat. cbn. split; [intuition lia|].
    intros [_ H]. intuition congruence.
Qed.

Lemma std_mask_flush (st : Bxcan.t) (x : Z) :
  BxcanUse.padded st ->
  (exists m, In m (take (Z.to_nat (Bxcan.std_mask_count st)) (Bxcan.std_mask st)) /\
             Cidr.in_block max_std_id x (Bxcan.sm_id m, Bxcan.sm_mask m))
  <-> Bxcan.std_mask_count st <> 0 /\
      BxcanAccept.shows_std
        (BxcanDebug.Std_mask
           (Bxcan.sm_id (Bxcan.std_mask st !!! 0%nat))
           (Cidr.block_last max_std_id (Bxcan.sm_id (Bxcan.std_mask st !!! 0%nat),
                                        Bxcan.sm_mask (Bxcan.std_mask st !!! 0%nat)))
           (Bxcan.sm_id (Bxcan.std_mask st !!! 1%nat))
           (Cidr.block_last max_std_id (Bxcan.sm_id (Bxcan.std_mask st !!! 1%nat),
                                        Bxcan.sm_mask (Bxcan.std_mask st !!! 1%nat)))) x.
Proof.
  destruct st as [hw bank el elc sm smc sl slc].
  unfold BxcanUse.padded, BxcanUse.replicated, Bxcan.accumulators_ok, Bxcan.sized.
  cbn [Bxcan.std_list Bxcan.std_list_count Bxcan.std_mask Bxcan.std_mask_count
       Bxcan.ext_list Bxcan.ext_list_count].
  intros (((_ & Hl2 & _) & _ & Hc2 & _) & _ & Hrep & _).
  destruct sm as [|[a ma] [|[b mb] [|? ?]]]; try discriminate Hl2.
  assert (smc = 0 \/ smc = 1) as Hcase by lia.
  destruct Hcase as [->| ->].
  - cbn. split; [intros (m & [] & _)|intros [H _]; lia].
  - specialize (Hrep ltac:(lia)).
    pose proof (Hrep 1%nat ltac:(lia)) as R1. cbn in R1.
    injection R1 as -> ->.
    change (Z.to_nat 1) with 1%nat.
    unfold Cidr.in_block, Cidr.block_first. cbn. split.
    + intros (m & [<-|[]] & H). cbn in H. split; [lia|]. left. exact H.
    + intros [_ H]. exists (Bxcan.mk_std_mask a ma). cbn. split; [auto|tauto].
Qed.

Lemma ext_list_flush (st : Bxcan.t) (x : Z) :
  BxcanUse.padded st ->
  In x (take (Z.to_nat (Bxcan.ext_list_count st)) (Bxcan.ext_list st))
  <-> Bxcan.ext_list_count st <> 0 /\
      BxcanAccept.shows_ext
        (BxcanDebug.Ext_list (Bxcan.ext_list st !!! 0%nat) (Bxcan.ext_list st !!! 1%nat)) x.
Proof.
  destruct st as [hw bank el elc sm smc sl slc].
  unfold BxcanUse.padded, BxcanUse.replicated, Bxcan.accumulators_ok, Bxcan.sized.
  cbn [Bxcan.std_list Bxcan.std_list_count Bxcan.std_mask Bxcan.std_mask_count
       Bxcan.ext_list Bxcan.ext_list_count].
  intros (((_ & _ & Hl3) & _ & _ & Hc3 & _) & _ & _ & Hrep).
  destruct el as [|a [|b [|? ?]]]; try discriminate Hl3.
  assert (elc = 0 \/ elc = 1) as Hcase by lia.
  destruct Hcase as [->| ->].
  - cbn. split; [intros []|intros [H _]; lia].
  - specialize (Hrep ltac:(lia)).
    pose proof (Hrep 1%nat ltac:(lia)) as R1. cbn in R1.
    change (Z.to_nat 1) with 1%nat. cbn. split; [intuition lia|].
    intros [_ H]. left. intuition congruence.
Qed.

Section Accept_end.
Variable B : Z.
Variable dev : Z.
Hypothesis HB : 0 <= B <= 32.

(** A successful [end()] has put every pending accumulator into a bank. *)
Lemma end_banked (st : Bxcan.t) :
  BxcanAccept.wf B dev st ->
  fst (Bxcan.end_ B st) = CANFILTER_SUCCESS ->
  let st' := snd (Bxcan.end_ B st) in
  BxcanUse.image_ok B dev st' /\ Bxcan.same_accumulators st st' /\
  (forall x, BxcanAccept.banked BxcanAccept.shows_std st' x <-> BxcanAccept.held_std st x) /\
  (forall x, BxcanAccept.banked BxcanAccept.shows_ext st' x <-> BxcanAccept.held_ext st x).
Proof.
  intros (Him & Hpad & (He1 & He2 & He3)) Hok st'. subst st'.
  pose proof Hpad as ((Hsz & Hc1 & Hc2 & Hc3 & _) & _).
  destruct Hsz as (Hl1 & Hl2 & Hl3).
  unfold Bxcan.end_ in *.
  destruct (if negb (Bxcan.std_list_count st =? 0) then _ else _)
    as [err1 s1] eqn:E1 in *.
  destruct (if negb (Bxcan.std_mask_count s1 =? 0) && is_success err1 then _ else _)
    as [err2 s2] eqn:E2 in *.
  destruct (if negb (Bxcan.ext_list_count s2 =? 0) && is_success err2 then _ else _)
    as [err3 s3] eqn:E3 in *.
  cbn [fst snd] in *. subst err3.
  assert (err2 = CANFILTER_SUCCESS) as ->.
  { eapply end_step_success. rewrite E3. reflexivity. }
  assert (err1 = CANFILTER_SUCCESS) as ->.
  { eapply end_step_success. rewrite E2. reflexivity. }
  cbn [is_success] in *. rewrite andb_true_r in *.
  assert (BxcanUse.image_ok B dev s1 /\ Bxcan.same_accumulators st s1 /\
          forall shows x,
            BxcanAccept.banked shows s1 x
            <-> BxcanAccept.banked shows st x \/
                (Bxcan.std_list_count st <> 0 /\
                 shows (BxcanDebug.Std_list
                          (Bxcan.std_list st !!! 0%nat) (Bxcan.std_list st !!! 1%nat)
                          (Bxcan.std_list st !!! 2%nat) (Bxcan.std_list st !!! 3%nat)) x))
    as (Him1 & Hacc1 & Hb1).
  { destruct (Z.eqb_spec (Bxcan.std_list_count st) 0) as [Hz|Hnz]; cbn [negb] in E1.
    - injection E1 as <-. split; [exact Him|]. split; [apply same_accumulators_refl|].
      intros shows x. tauto.
    - specialize (He1 ltac:(lia)).
      destruct (Bxcan.std_list st) as [|a [|b [|c [|d [|? ?]]]]]; try discriminate Hl1.
      inversion He1 as [|? ? Fa F1]; subst. inversion F1 as [|? ? Fb F2]; subst.
      inversion F2 as [|? ? Fc F3]; subst. inversion F3 as [|? ? Fd F4]; subst.
      change ([a; b; c; d] !!! 0%nat) with a in *.
      change ([a; b; c; d] !!! 1%nat) with b in *.
      change ([a; b; c; d] !!! 2%nat) with c in *.
      change ([a; b; c; d] !!! 3%nat) with d in *.
      pose proof (emit_std_list_step B dev HB st Him a b c d Fa Fb Fc Fd) as Hstep.
      rewrite E1 in Hstep. cbn [fst snd] in Hstep.
      destruct (Hstep eq_refl) as (I & A & Hb). split; [exact I|]. split; [exact A|].
      intros shows x. rewrite Hb. tauto. }
  pose proof Hacc1 as (A1 & A2 & A3 & A4 & A5 & A6).
  rewrite A3, A4 in E2.
  assert (BxcanUse.image_ok B dev s2 /\ Bxcan.same_accumulators s1 s2 /\
          forall shows x,
            BxcanAccept.banked shows s2 x
            <-> BxcanAccept.banked shows s1 x \/
                (Bxcan.std_mask_count st <> 0 /\
                 shows (BxcanDebug.Std_mask
                    (Bxcan.sm_id (Bxcan.std_mask st !!! 0%nat))
                    (Cidr.block_last max_std_id
                       (Bxcan.sm_id (Bxcan.std_mask st !!! 0%nat),
                        Bxcan.sm_mask (Bxcan.std_mask st !!! 0%nat)))
                    (Bxcan.sm_id (Bxcan.std_mask st !!! 1%nat))
                    (Cidr.block_last max_std_id
                       (Bxcan.sm_id (Bxcan.std_mask st !!! 1%nat),
                        Bxcan.sm_mask (Bxcan.std_mask st !!! 1%nat)))) x))
    as (Him2 & Hacc2 & Hb2).
  { destruct (Z.eqb_spec (Bxcan.std_mask_count st) 0) as [Hz|Hnz]; cbn [negb] in E2.
    - injection E2 as <-. split; [exact Him1|]. split; [apply same_accumulators_refl|].
      intros shows x. tauto.
    - specialize (He2 ltac:(lia)).
      destruct (Bxcan.std_mask st) as [|m0 [|m1 [|? ?]]]; try discriminate Hl2.
      inversion He2 as [|? ? F0 F1]; subst. inversion F1 as [|? ? F1' F2]; subst.
      change ([m0; m1] !!! 0%nat) with m0 in *.
      change ([m0; m1] !!! 1%nat) with m1 in *.
      pose proof (emit_std_mask_step B dev HB s1 Him1 (Bxcan.sm_id m0) (Bxcan.sm_mask m0)
                    (Bxcan.sm_id m1) (Bxcan.sm_mask m1) F0 F1') as Hstep.
      rewrite E2 in Hstep. cbn [fst snd] in Hstep.
      destruct (Hstep eq_refl) as (I & A & Hb). split; [exact I|]. split; [exact A|].
      intros shows x. rewrite Hb. tauto. }
  pose proof (same_accumulators_trans _ _ _ Hacc1 Hacc2) as Hacc12.
  pose proof Hacc12 as (C1 & C2 & C3 & C4 & C5 & C6).
  rewrite C5, C6 in E3.
  assert (BxcanUse.image_ok B dev s3 /\ Bxcan.same_accumulators s2 s3 /\
          forall shows x,
            BxcanAccept.banked shows s3 x
            <-> BxcanAccept.banked shows s2 x \/
                (Bxcan.ext_list_count st <> 0 /\
                 shows (BxcanDebug.Ext_list (Bxcan.ext_list st !!! 0%nat)
                                            (Bxcan.ext_list st !!! 1%nat)) x))
    as (Him3 & Hacc3 & Hb3).
  { destruct (Z.eqb_spec (Bxcan.ext_list_count st) 0) as [Hz|Hnz]; cbn [negb] in E3.
    - injection E3 as <-. split; [exact Him2|]. split; [apply same_accumulators_refl|].
      intros shows x. tauto.
    - specialize (He3 ltac:(lia)).
      destruct (Bxcan.ext_list st) as [|a [|b [|? ?]]]; try discriminate Hl3.
      inversion He3 as [|? ? Fa F1]; subst. inversion F1 as [|? ? Fb F2]; subst.
      change ([a; b] !!! 0%nat) with a in *.
      change ([a; b] !!! 1%nat) with b in *.
      pose proof (emit_ext_list_step B dev HB s2 Him2 a b Fa Fb) as Hstep.
      rewrite E3 in Hstep. cbn [fst snd] in Hstep.
      destruct (Hstep eq_refl) as (I & A & Hb). split; [exact I|]. split; [exact A|].
      intros shows x. rewrite Hb. tauto. }
  split; [exact Him3|].
  split; [exact (same_accumulators_trans _ _ _ Hacc12 Hacc3)|].
  split.
  - intros x. rewrite Hb3, Hb2, Hb1.
    unfold BxcanAccept.held_std, BxcanAccept.pending_std.
    rewrite (std_list_flush st x Hpad), (std_mask_flush st x Hpad).
    cbn [BxcanAccept.shows_std]. tauto.
  - intros x. rewrite Hb3, Hb2, Hb1.
    unfold BxcanAccept.held_ext, BxcanAccept.pending_ext.
    rewrite (ext_list_flush st x Hpad).
    cbn [BxcanAccept.shows_ext]. tauto.
Qed.

End Accept_end.

Lemma all_succeed_app (B : Z) (calls more : list Bxcan.call) (st : Bxcan.t) :
  BxcanAccept.all_succeed B st (calls ++ more)
  <-> BxcanAccept.all_succeed B st calls /\
      BxcanAccept.all_succeed B (Bxcan.run B st calls) more.
Proof.
  revert st. induction calls as [|c rest IH]; intros st; cbn [app BxcanAccept.all_succeed].
  - cbn. tauto.
  - change (Bxcan.run B st (c :: rest))
      with (Bxcan.run B (snd (Bxcan.do_call B st c)) rest).
    rewrite IH. tauto.
Qed.

Lemma begin_holds_nothing (B dev : Z) (st0 : Bxcan.t) (x : Z) :
  ~ BxcanAccept.held_std (snd (Bxcan.begin B dev st0)) x /\
  ~ BxcanAccept.held_ext (snd (Bxcan.begin B dev st0)) x.
Proof.
  unfold BxcanAccept.held_std, BxcanAccept.held_ext, BxcanAccept.banked,
    BxcanAccept.pending_std, BxcanAccept.pending_ext. cbn. split.
  - intros [(i & v & Hi & _)|[[]|(m & [] & _)]]. lia.
  - intros [(i & v & Hi & _)|[]]. lia.
Qed.

Section Accept_run.
Variable B : Z.
Variable dev : Z.
Hypothesis HB : 0 <= B <= 32.

Lemma end_accept (st : Bxcan.t) :
  BxcanAccept.wf B dev st ->
  fst (Bxcan.end_ B st) = CANFILTER_SUCCESS ->
  let st' := snd (Bxcan.end_ B st) in
  BxcanAccept.wf B dev st' /\
  (forall x, BxcanAccept.held_std st' x <-> BxcanAccept.held_std st x) /\
  (forall x, BxcanAccept.held_ext st' x <-> BxcanAccept.held_ext st x).
Proof.
  intros Hwf Hok st'. subst st'.
  destruct (end_banked B dev HB st Hwf Hok) as (Him & Hacc & Hs & He).
  pose proof Hacc as (A1 & A2 & A3 & A4 & A5 & A6).
  destruct Hwf as (_ & Hpad & Hent).
  split; [split; [exact Him|split]|split].
  - unfold BxcanUse.padded, BxcanUse.replicated, Bxcan.accumulators_ok, Bxcan.sized in *.
    rewrite A1, A2, A3, A4, A5, A6. exact Hpad.
  - unfold BxcanAccept.entries_ok in *. rewrite A1, A2, A3, A4, A5, A6. exact Hent.
  - intros x. unfold BxcanAccept.held_std at 1. rewrite Hs.
    unfold BxcanAccept.pending_std. rewrite A1, A2, A3, A4.
    unfold BxcanAccept.held_std, BxcanAccept.pending_std. tauto.
  - intros x. unfold BxcanAccept.held_ext at 1. rewrite He.
    unfold BxcanAccept.pending_ext. rewrite A5, A6.
    unfold BxcanAccept.held_ext, BxcanAccept.pending_ext. tauto.
Qed.

(** One successful call adds the identifiers it asks for, and no other. *)
Lemma do_call_accept (st : Bxcan.t) (c : Bxcan.call) :
  BxcanAccept.wf B dev st -> BxcanAccept.typed c ->
  fst (Bxcan.do_call B st c) = CANFILTER_SUCCESS ->
  let st' := snd (Bxcan.do_call B st c) in
  BxcanAccept.wf B dev st' /\
  (forall x, BxcanAccept.held_std st' x
             <-> BxcanAccept.held_std st x \/ BxcanAccept.asks_std c x) /\
  (forall x, BxcanAccept.held_ext st' x
             <-> BxcanAccept.held_ext st x \/ BxcanAccept.asks_ext c x).
Proof.
  intros Hwf Hty Hok st'. subst st'.
  destruct c as [id|id|b e|b e|]; cbn [Bxcan.do_call BxcanAccept.typed
    BxcanAccept.asks_std BxcanAccept.asks_ext] in *;
    unfold Bxcan.add_std_id, Bxcan.add_ext_id in *.
  - destruct (add_std_range_accept B dev HB st id id Hwf ltac:(lia) ltac:(lia) Hok)
      as (H1 & H2 & H3).
    split; [exact H1|]. split; intros x; [rewrite H2|rewrite H3]; intuition lia.
  - destruct (add_ext_range_accept B dev HB st id id Hwf ltac:(lia) ltac:(lia) Hok)
      as (H1 & H2 & H3).
    split; [exact H1|]. split; intros x; [rewrite H2|rewrite H3]; intuition lia.
  - destruct (add_std_range_accept B dev HB st b e Hwf ltac:(lia) ltac:(lia) Hok)
      as (H1 & H2 & H3).
    split; [exact H1|]. split; intros x; [rewrite H2|rewrite H3]; tauto.
  - destruct (add_ext_range_accept B dev HB st b e Hwf ltac:(lia) ltac:(lia) Hok)
      as (H1 & H2 & H3).
    split; [exact H1|]. split; intros x; [rewrite H2|rewrite H3]; tauto.
  - destruct (end_accept st Hwf Hok) as (H1 & H2 & H3).
    split; [exact H1|]. split; intros x; [rewrite H2|rewrite H3]; tauto.
Qed.

Lemma run_accept (calls : list Bxcan.call) (st : Bxcan.t) :
  BxcanAccept.wf B dev st -> Forall BxcanAccept.typed calls ->
  BxcanAccept.all_succeed B st calls ->
  let st' := Bxcan.run B st calls in
  BxcanAccept.wf B dev st' /\
  (forall x, BxcanAccept.held_std st' x
             <-> BxcanAccept.held_std st x \/
                 exists c, In c calls /\ BxcanAccept.asks_std c x) /\
  (forall x, BxcanAccept.held_ext st' x
             <-> BxcanAccept.held_ext st x \/
                 exists c, In c calls /\ BxcanAccept.asks_ext c x).
Proof.
  revert st. induction calls as [|c rest IH]; intros st Hwf Hty Hall.
  - cbn. split; [exact Hwf|].
    split; intros x; (split; [auto|intros [H|(c & [] & _)]; exact H]).
  - inversion Hty as [|? ? Hc Hrest]; subst. destruct Hall as [Hok Hall].
    destruct (do_call_accept st c Hwf Hc Hok) as (Hwf1 & Hs1 & He1).
    destruct (IH _ Hwf1 Hrest Hall) as (Hwf2 & Hs2 & He2).
    change (Bxcan.run B st (c :: rest))
      with (Bxcan.run B (snd (Bxcan.do_call B st c)) rest).
    cbv zeta in *. split; [exact Hwf2|]. split; intros x.
    + rewrite Hs2, Hs1. split.
      * intros [[H|H]|(c' & Hin & H)]; auto.
        -- right. exists c. split; [left; reflexivity|exact H].
        -- right. exists c'. split; [right; exact Hin|exact H].
      * intros [H|(c' & [<-|Hin] & H)]; auto. right. exists c'. auto.
    + rewrite He2, He1. split.
      * intros [[H|H]|(c' & Hin & H)]; auto.
        -- right. exists c. split; [left; reflexivity|exact H].
        -- right. exists c'. split; [right; exact Hin|exact H].
      * intros [H|(c' & [<-|Hin] & H)]; auto. right. exists c'. auto.
Qed.

Lemma begin_wf (st0 : Bxcan.t) :
  Bxcan.sized st0 -> BxcanAccept.wf B dev (snd (Bxcan.begin B dev st0)).
Proof.
  intros Hs. split; [apply begin_image_ok; exact HB|]. split.
  - apply (reachable_padded B dev). exists st0, []. split; [exact Hs|reflexivity].
  - unfold BxcanAccept.entries_ok. cbn. repeat split; intros; lia.
Qed.

Lemma debug_print_banked (shows : BxcanDebug.bank_view -> Z -> Prop)
    (st : Bxcan.t) (x : Z) :
  BxcanUse.image_ok B dev st ->
  (exists i v, In (i, v) (BxcanDebug.debug_print B (Bxcan.hw_config st)) /\ shows v x)
  <-> BxcanAccept.banked shows st x.
Proof.
  intros Him. rewrite (debug_print_emitted B dev HB st Him).
  pose proof Him as (Hbk & _). unfold BxcanAccept.banked. split.
  - intros (i & v & Hin & Hsh).
    apply list_elem_of_In, list_elem_of_omap in Hin. destruct Hin as (n & Hn & Hv).
    apply elem_of_seq in Hn.
    destruct (BxcanDebug.debug_bank (Bxcan.hw_config st) (Z.of_nat n)) as [w|] eqn:E;
      [|discriminate Hv].
    injection Hv as <- <-. exists (Z.of_nat n), w. split; [lia|]. split; assumption.
  - intros (i & v & Hi & Hd & Hsh). exists i, v. split; [|exact Hsh].
    apply list_elem_of_In, list_elem_of_omap. exists (Z.to_nat i). split.
    + apply elem_of_seq. lia.
    + rewrite Z2Nat.id by lia. rewrite Hd. reflexivity.
Qed.

End Accept_run.

(** What [debug_print] names after a successful run is what the calls asked
    for. *)
Lemma bxcan_names_asked (B dev : Z) (st0 : Bxcan.t)
    (calls : list Bxcan.call) :
  0 <= B <= 32 -> Bxcan.sized st0 -> Forall BxcanAccept.typed calls ->
  BxcanAccept.all_succeed B (snd (Bxcan.begin B dev st0)) (calls ++ [Bxcan.End_]) ->
  let hw := Bxcan.hw_config
              (Bxcan.run B (snd (Bxcan.begin B dev st0)) (calls ++ [Bxcan.End_])) in
  (forall x, BxcanAccept.accepted_std B hw x
             <-> exists c, In c calls /\ BxcanAccept.asks_std c x) /\
  (forall x, BxcanAccept.accepted_ext B hw x
             <-> exists c, In c calls /\ BxcanAccept.asks_ext c x).
Proof.
  intros HB Hs Hty Hall hw. subst hw.
  set (begun := snd (Bxcan.begin B dev st0)) in *.
  apply all_succeed_app in Hall. destruct Hall as [Hall [Hend _]].
  destruct (run_accept B dev HB calls begun (begin_wf B dev HB st0 Hs) Hty Hall)
    as (Hwf & Hstd & Hext).
  destruct (end_banked B dev HB _ Hwf Hend) as (Him & _ & Bs & Be).
  unfold Bxcan.run. rewrite fold_left_app. cbn [fold_left Bxcan.do_call].
  fold (Bxcan.run B begun calls).
  unfold BxcanAccept.accepted_std, BxcanAccept.accepted_ext.
  split; intros x.
  - rewrite (debug_print_banked B dev HB BxcanAccept.shows_std _ x Him), Bs, Hstd.
    pose proof (begin_holds_nothing B dev st0 x) as [N _]. fold begun in N. tauto.
  - rewrite (debug_print_banked B dev HB BxcanAccept.shows_ext _ x Him), Be, Hext.
    pose proof (begin_holds_nothing B dev st0 x) as [_ N]. fold begun in N. tauto.
Qed.

(** X22. After [begin()], calls with 32-bit arguments that all return
    CANFILTER_SUCCESS, and a final [end()] that returns CANFILTER_SUCCESS, the
    standard identifiers named by the lines of [debug_print] are exactly those
    some call asked for (the identifier of an [add_std_id], the identifiers
    between the two ends of an [add_std_range]), and likewise the extended
    ones. *)
Theorem debug_print_names_what_was_asked (B dev : Z) (st0 : Bxcan.t)
    (calls : list Bxcan.call) :
  0 <= B <= 32 -> Bxcan.sized st0 -> Forall BxcanAccept.typed calls ->
  BxcanAccept.all_succeed B (snd (Bxcan.begin B dev st0)) (calls ++ [Bxcan.End_]) ->
  let hw := Bxcan.hw_config
              (Bxcan.run B (snd (Bxcan.begin B dev st0)) (calls ++ [Bxcan.End_])) in
  (forall x, BxcanAccept.accepted_std B hw x
             <-> exists c, In c calls /\ BxcanAccept.asks_std c x) /\
  (forall x, BxcanAccept.accepted_ext B hw x
             <-> exists c, In c calls /\ BxcanAccept.asks_ext c x).
Proof. apply bxcan_names_asked. Qed.

Lemma debug_print_names_what_was_asked_witness :
  let calls := [Bxcan.Add_std_id 256; Bxcan.Add_std_range 527 512;
                Bxcan.Add_ext_id 19088743; Bxcan.End_; Bxcan.Add_ext_range 4096 8191] in
  let hw := Bxcan.hw_config
              (Bxcan.run 14 (snd (Bxcan.begin 14 CANFILTER_DEV_BXCAN_F0 (Bxcan.new 14)))
                         (calls ++ [Bxcan.End_])) in
  (forall x, BxcanAccept.accepted_std 14 hw x
             <-> exists c, In c calls /\ BxcanAccept.asks_std c x) /\
  (forall x, BxcanAccept.accepted_ext 14 hw x
             <-> exists c, In c calls /\ BxcanAccept.asks_ext c x).
Proof.
  apply (debug_print_names_what_was_asked 14 CANFILTER_DEV_BXCAN_F0 (Bxcan.new 14)).
  - lia.
  - repeat split.
  - repeat constructor; cbn; lia.
  - vm_compute. repeat split.
Defined.

(** What the four kinds of element name. *)
Lemma shows_std_dual (a b x : Z) :
  FdcanAccept.shows_std (FdcanDebug.mk_std_view Fdcan.SFT_DUAL a b Fdcan.SFEC_RX_FIFO0) x
  <-> x = a \/ x = b.
Proof.
  unfold FdcanAccept.shows_std, Fdcan.SFT_DUAL, Fdcan.SFT_RANGE. cbn.
  split; [intros [_ [[_ H]|[H _]]]; [exact H|discriminate H]|].
  intros H. split; [reflexivity|left; split; [reflexivity|exact H]].
Qed.

Lemma shows_std_range (a b x : Z) :
  FdcanAccept.shows_std (FdcanDebug.mk_std_view Fdcan.SFT_RANGE a b Fdcan.SFEC_RX_FIFO0) x
  <-> a <= x <= b.
Proof.
  unfold FdcanAccept.shows_std, Fdcan.SFT_DUAL, Fdcan.SFT_RANGE. cbn.
  split; [intros [_ [[H _]|[_ H]]]; [discriminate H|exact H]|].
  intros H. split; [reflexivity|right; split; [reflexivity|exact H]].
Qed.

Lemma shows_ext_dual (a b x : Z) :
  FdcanAccept.shows_ext (FdcanDebug.mk_ext_view Fdcan.EFT_DUAL a b Fdcan.EFEC_RX_FIFO0) x
  <-> x = a \/ x = b.
Proof.
  unfold FdcanAccept.shows_ext, Fdcan.EFT_DUAL, Fdcan.EFT_RANGE. cbn.
  split; [intros [_ [[_ H]|[H _]]]; [exact H|discriminate H]|].
  intros H. split; [reflexivity|left; split; [reflexivity|exact H]].
Qed.

Lemma shows_ext_range (a b x : Z) :
  FdcanAccept.shows_ext (FdcanDebug.mk_ext_view Fdcan.EFT_RANGE a b Fdcan.EFEC_RX_FIFO0) x
  <-> a <= x <= b.
Proof.
  unfold FdcanAccept.shows_ext, Fdcan.EFT_DUAL, Fdcan.EFT_RANGE. cbn.
  split; [intros [_ [[H _]|[_ H]]]; [discriminate H|exact H]|].
  intros H. split; [reflexivity|right; split; [reflexivity|exact H]].
Qed.

Section Fd_accept_emit.
Variable S_max : Z.
Variable E_max : Z.
Variable dev : Z.
Hypothesis HS : 0 <= S_max <= 255.
Hypothesis HE : 0 <= E_max <= 255.

(** A new element adds what it names to what the image names. *)
Lemma push_std_banked (st : Fdcan.t) (w : Z) (v : FdcanDebug.std_view) :
  FdcanUse.table_ok S_max E_max dev st ->
  Fdcan.std_filter_nbr (Fdcan.hw_config st) < S_max ->
  FdcanDebug.debug_std (Fdcan.push_std (Fdcan.hw_config st) w)
    (Z.to_nat (Fdcan.std_filter_nbr (Fdcan.hw_config st))) = v ->
  let st' := Fdcan.set_hw_config st (Fdcan.push_std (Fdcan.hw_config st) w) in
  (forall x, FdcanAccept.banked_std st' x
             <-> FdcanAccept.banked_std st x \/ FdcanAccept.shows_std v x) /\
  (forall x, FdcanAccept.banked_ext st' x <-> FdcanAccept.banked_ext st x).
Proof.
  intros (Hd & Hn1 & Hn2 & Hl1 & Hl2 & _) Hlt Hv st'. subst st'.
  destruct st as [hw el elc sl slc]. cbn [Fdcan.hw_config Fdcan.set_hw_config] in *.
  unfold FdcanAccept.banked_std, FdcanAccept.banked_ext.
  cbn [Fdcan.hw_config Fdcan.set_hw_config].
  assert (Fdcan.std_filter_nbr (Fdcan.push_std hw w) = Fdcan.std_filter_nbr hw + 1) as Hn.
  { unfold Fdcan.push_std. cbn. unfold u8. apply Z.mod_small. lia. }
  assert (forall i : nat, Z.of_nat i < Fdcan.std_filter_nbr hw ->
            FdcanDebug.debug_std (Fdcan.push_std hw w) i = FdcanDebug.debug_std hw i) as Hold.
  { intros i Hi. unfold FdcanDebug.debug_std, Fdcan.push_std. cbn [Fdcan.std_filter].
    rewrite list_lookup_total_insert_ne by lia. reflexivity. }
  split; intros x.
  - rewrite Hn. split.
    + intros (i & Hi & Hsh).
      destruct (Z.eq_dec (Z.of_nat i) (Fdcan.std_filter_nbr hw)) as [Heq|Hne].
      * right. rewrite <- Hv, <- Heq, Nat2Z.id. exact Hsh.
      * left. exists i. split; [lia|]. rewrite <- Hold by lia. exact Hsh.
    + intros [(i & Hi & Hsh)|Hsh].
      * exists i. split; [lia|]. rewrite Hold by lia. exact Hsh.
      * exists (Z.to_nat (Fdcan.std_filter_nbr hw)). split; [lia|].
        rewrite Hv. exact Hsh.
  - unfold Fdcan.push_std at 1. cbn [Fdcan.ext_filter_nbr].
    split; intros (i & Hi & Hsh); exists i; (split; [exact Hi|]);
      [rewrite <- (debug_ext_table hw (Fdcan.push_std hw w) i) by reflexivity
      |rewrite (debug_ext_table hw (Fdcan.push_std hw w) i) by reflexivity]; exact Hsh.
Qed.

Lemma push_ext_banked (st : Fdcan.t) (w0 w1 : Z) (v : FdcanDebug.ext_view) :
  FdcanUse.table_ok S_max E_max dev st ->
  Fdcan.ext_filter_nbr (Fdcan.hw_config st) < E_max ->
  FdcanDebug.debug_ext (Fdcan.push_ext (Fdcan.hw_config st) w0 w1)
    (Z.to_nat (Fdcan.ext_filter_nbr (Fdcan.hw_config st))) = v ->
  let st' := Fdcan.set_hw_config st (Fdcan.push_ext (Fdcan.hw_config st) w0 w1) in
  (forall x, FdcanAccept.banked_std st' x <-> FdcanAccept.banked_std st x) /\
  (forall x, FdcanAccept.banked_ext st' x
             <-> FdcanAccept.banked_ext st x \/ FdcanAccept.shows_ext v x).
Proof.
  intros (Hd & Hn1 & Hn2 & Hl1 & Hl2 & _) Hlt Hv st'. subst st'.
  destruct st as [hw el elc sl slc]. cbn [Fdcan.hw_config Fdcan.set_hw_config] in *.
  unfold FdcanAccept.banked_std, FdcanAccept.banked_ext.
  cbn [Fdcan.hw_config Fdcan.set_hw_config].
  assert (Fdcan.ext_filter_nbr (Fdcan.push_ext hw w0 w1) = Fdcan.ext_filter_nbr hw + 1) as Hn.
  { unfold Fdcan.push_ext. cbn. unfold u8. apply Z.mod_small. lia. }
  assert (forall i : nat, Z.of_nat i < Fdcan.ext_filter_nbr hw ->
            FdcanDebug.debug_ext (Fdcan.push_ext hw w0 w1) i = FdcanDebug.debug_ext hw i)
    as Hold.
  { intros i Hi. unfold FdcanDebug.debug_ext, Fdcan.push_ext. cbn [Fdcan.ext_filter].
    rewrite list_lookup_total_insert_ne by lia. reflexivity. }
  split; intros x.
  - unfold Fdcan.push_ext at 1. cbn [Fdcan.std_filter_nbr].
    split; intros (i & Hi & Hsh); exists i; (split; [exact Hi|]);
      [rewrite <- (debug_std_table hw (Fdcan.push_ext hw w0 w1) i) by reflexivity
      |rewrite (debug_std_table hw (Fdcan.push_ext hw w0 w1) i) by reflexivity]; exact Hsh.
  - rewrite Hn. split.
    + intros (i & Hi & Hsh).
      destruct (Z.eq_dec (Z.of_nat i) (Fdcan.ext_filter_nbr hw)) as [Heq|Hne].
      * right. rewrite <- Hv, <- Heq, Nat2Z.id. exact Hsh.
      * left. exists i. split; [lia|]. rewrite <- Hold by lia. exact Hsh.
    + intros [(i & Hi & Hsh)|Hsh].
      * exists i. split; [lia|]. rewrite Hold by lia. exact Hsh.
      * exists (Z.to_nat (Fdcan.ext_filter_nbr hw)). split; [lia|].
        rewrite Hv. exact Hsh.
Qed.

Lemma fd_emit_std_id_step (st : Fdcan.t) (a b : Z) :
  FdcanUse.table_ok S_max E_max dev st -> 0 <= a -> 0 <= b ->
  fst (Fdcan.emit_std_id S_max st a b) = CANFILTER_SUCCESS ->
  let st' := snd (Fdcan.emit_std_id S_max st a b) in
  FdcanUse.table_ok S_max E_max dev st' /\ (Fdcan.std_id st' = Fdcan.std_id st /\
   Fdcan.std_id_count st' = Fdcan.std_id_count st /\
   Fdcan.ext_id st' = Fdcan.ext_id st /\
   Fdcan.ext_id_count st' = Fdcan.ext_id_count st) /\
  (forall x, FdcanAccept.banked_std st' x
             <-> FdcanAccept.banked_std st x \/ (x = a \/ x = b)) /\
  (forall x, FdcanAccept.banked_ext st' x <-> FdcanAccept.banked_ext st x).
Proof.
  intros Ht Ha Hb Hok st'. subst st'.
  pose proof (emit_std_id_keeps S_max st a b) as Hk.
  pose proof Ht as (_ & Hn1 & _ & Hl1 & _).
  unfold Fdcan.emit_std_id in *.
  destruct (Z.leb_spec S_max (Fdcan.std_filter_nbr (Fdcan.hw_config st))) as [|Hlt];
    [discriminate Hok|].
  destruct (Z.ltb_spec max_std_id a); [discriminate Hok|].
  destruct (Z.ltb_spec max_std_id b); [discriminate Hok|].
  cbn [orb fst snd] in *.
  split; [apply push_std_table_ok; assumption|].
  split; [exact Hk|].
  destruct (emit_std_decode S_max Fdcan.SFT_DUAL st a b ltac:(unfold Fdcan.SFT_DUAL; lia)
              ltac:(lia) ltac:(lia) Hl1 ltac:(lia) ltac:(lia)) as [_ Hv].
  destruct (push_std_banked st _ _ Ht Hlt Hv) as [B1 B2].
  split; [|exact B2]. intros x. rewrite (B1 x), shows_std_dual. reflexivity.
Qed.

Lemma fd_emit_std_range_step (st : Fdcan.t) (a b : Z) :
  FdcanUse.table_ok S_max E_max dev st -> 0 <= a -> 0 <= b ->
  fst (Fdcan.emit_std_range S_max st a b) = CANFILTER_SUCCESS ->
  let st' := snd (Fdcan.emit_std_range S_max st a b) in
  FdcanUse.table_ok S_max E_max dev st' /\ (Fdcan.std_id st' = Fdcan.std_id st /\
   Fdcan.std_id_count st' = Fdcan.std_id_count st /\
   Fdcan.ext_id st' = Fdcan.ext_id st /\
   Fdcan.ext_id_count st' = Fdcan.ext_id_count st) /\
  (forall x, FdcanAccept.banked_std st' x
             <-> FdcanAccept.banked_std st x \/ a <= x <= b) /\
  (forall x, FdcanAccept.banked_ext st' x <-> FdcanAccept.banked_ext st x).
Proof.
  intros Ht Ha Hb Hok st'. subst st'.
  pose proof (emit_std_range_keeps S_max st a b) as Hk.
  pose proof Ht as (_ & Hn1 & _ & Hl1 & _).
  unfold Fdcan.emit_std_range in *.
  destruct (Z.leb_spec S_max (Fdcan.std_filter_nbr (Fdcan.hw_config st))) as [|Hlt];
    [discriminate Hok|].
  destruct (Z.ltb_spec max_std_id a); [discriminate Hok|].
  destruct (Z.ltb_spec max_std_id b); [discriminate Hok|].
  destruct (Z.ltb_spec b a); [discriminate Hok|].
  cbn [orb fst snd] in *.
  split; [apply push_std_table_ok; assumption|].
  split; [exact Hk|].
  destruct (emit_std_decode S_max Fdcan.SFT_RANGE st a b ltac:(unfold Fdcan.SFT_RANGE; lia)
              ltac:(lia) ltac:(lia) Hl1 ltac:(lia) ltac:(lia)) as [_ Hv].
  destruct (push_std_banked st _ _ Ht Hlt Hv) as [B1 B2].
  split; [|exact B2]. intros x. rewrite (B1 x), shows_std_range. reflexivity.
Qed.

Lemma fd_emit_ext_id_step (st : Fdcan.t) (a b : Z) :
  FdcanUse.table_ok S_max E_max dev st -> 0 <= a -> 0 <= b ->
  fst (Fdcan.emit_ext_id E_max st a b) = CANFILTER_SUCCESS ->
  let st' := snd (Fdcan.emit_ext_id E_max st a b) in
  FdcanUse.table_ok S_max E_max dev st' /\ (Fdcan.std_id st' = Fdcan.std_id st /\
   Fdcan.std_id_count st' = Fdcan.std_id_count st /\
   Fdcan.ext_id st' = Fdcan.ext_id st /\
   Fdcan.ext_id_count st' = Fdcan.ext_id_count st) /\
  (forall x, FdcanAccept.banked_std st' x <-> FdcanAccept.banked_std st x) /\
  (forall x, FdcanAccept.banked_ext st' x
             <-> FdcanAccept.banked_ext st x \/ (x = a \/ x = b)).
Proof.
  intros Ht Ha Hb Hok st'. subst st'.
  pose proof (emit_ext_id_keeps E_max st a b) as Hk.
  pose proof Ht as (_ & _ & Hn2 & _ & Hl2 & _).
  unfold Fdcan.emit_ext_id in *.
  destruct (Z.leb_spec E_max (Fdcan.ext_filter_nbr (Fdcan.hw_config st))) as [|Hlt];
    [discriminate Hok|].
  destruct (Z.ltb_spec max_ext_id a); [discriminate Hok|].
  destruct (Z.ltb_spec max_ext_id b); [discriminate Hok|].
  cbn [orb fst snd] in *.
  split; [apply push_ext_table_ok; assumption|].
  split; [exact Hk|].
  destruct (emit_ext_decode E_max Fdcan.EFT_DUAL st a b ltac:(unfold Fdcan.EFT_DUAL; lia)
              ltac:(lia) ltac:(lia) Hl2 ltac:(lia) ltac:(lia)) as [_ Hv].
  destruct (push_ext_banked st _ _ _ Ht Hlt Hv) as [B1 B2].
  split; [exact B1|]. intros x. rewrite (B2 x), shows_ext_dual. reflexivity.
Qed.

Lemma fd_emit_ext_range_step (st : Fdcan.t) (a b : Z) :
  FdcanUse.table_ok S_max E_max dev st -> 0 <= a -> 0 <= b ->
  fst (Fdcan.emit_ext_range E_max st a b) = CANFILTER_SUCCESS ->
  let st' := snd (Fdcan.emit_ext_range E_max st a b) in
  FdcanUse.table_ok S_max E_max dev st' /\ (Fdcan.std_id st' = Fdcan.std_id st /\
   Fdcan.std_id_count st' = Fdcan.std_id_count st /\
   Fdcan.ext_id st' = Fdcan.ext_id st /\
   Fdcan.ext_id_count st' = Fdcan.ext_id_count st) /\
  (forall x, FdcanAccept.banked_std st' x <-> FdcanAccept.banked_std st x) /\
  (forall x, FdcanAccept.banked_ext st' x
             <-> FdcanAccept.banked_ext st x \/ a <= x <= b).
Proof.
  intros Ht Ha Hb Hok st'. subst st'.
  pose proof (emit_ext_range_keeps E_max st a b) as Hk.
  pose proof Ht as (_ & _ & Hn2 & _ & Hl2 & _).
  unfold Fdcan.emit_ext_range in *.
  destruct (Z.leb_spec E_max (Fdcan.ext_filter_nbr (Fdcan.hw_config st))) as [|Hlt];
    [discriminate Hok|].
  destruct (Z.ltb_spec max_ext_id a); [discriminate Hok|].
  destruct (Z.ltb_spec max_ext_id b); [discriminate Hok|].
  destruct (Z.ltb_spec b a); [discriminate Hok|].
  cbn [orb fst snd] in *.
  split; [apply push_ext_table_ok; assumption|].
  split; [exact Hk|].
  destruct (emit_ext_decode E_max Fdcan.EFT_RANGE st a b ltac:(unfold Fdcan.EFT_RANGE; lia)
              ltac:(lia) ltac:(lia) Hl2 ltac:(lia) ltac:(lia)) as [_ Hv].
  destruct (push_ext_banked st _ _ _ Ht Hlt Hv) as [B1 B2].
  split; [exact B1|]. intros x. rewrite (B2 x), shows_ext_range. reflexivity.
Qed.

End Fd_accept_emit.

(** An accumulator is empty, or holds one identifier. *)
Lemma fd_pending_std_cases (S_max E_max dev : Z) (st : Fdcan.t) :
  FdcanAccept.wf S_max E_max dev st ->
  (Fdcan.std_id_count st = 0 /\ forall x, ~ FdcanAccept.pending_std st x) \/
  (exists p, Fdcan.std_id_count st = 1 /\ Fdcan.std_id st = [p; p] /\
             0 <= p <= max_std_id /\ forall x, FdcanAccept.pending_std st x <-> x = p).
Proof.
  intros ((_ & (_ & [Hc|(Hc & p & Hp & Hl)] & _)) & Hn & _).
  - left. split; [exact Hc|]. intros x. unfold FdcanAccept.pending_std. rewrite Hc.
    cbn. tauto.
  - right. exists p. specialize (Hn ltac:(lia)). rewrite Hl in Hn.
    inversion Hn; subst. split; [exact Hc|]. split; [exact Hl|]. split; [lia|].
    intros x. unfold FdcanAccept.pending_std. rewrite Hc, Hl.
    change (Z.to_nat 1) with 1%nat. cbn. intuition congruence.
Qed.

Lemma fd_pending_ext_cases (S_max E_max dev : Z) (st : Fdcan.t) :
  FdcanAccept.wf S_max E_max dev st ->
  (Fdcan.ext_id_count st = 0 /\ forall x, ~ FdcanAccept.pending_ext st x) \/
  (exists p, Fdcan.ext_id_count st = 1 /\ Fdcan.ext_id st = [p; p] /\
             0 <= p <= max_ext_id /\ forall x, FdcanAccept.pending_ext st x <-> x = p).
Proof.
  intros ((_ & (_ & _ & [Hc|(Hc & p & Hp & Hl)])) & _ & Hn).
  - left. split; [exact Hc|]. intros x. unfold FdcanAccept.pending_ext. rewrite Hc.
    cbn. tauto.
  - right. exists p. specialize (Hn ltac:(lia)). rewrite Hl in Hn.
    inversion Hn; subst. split; [exact Hc|]. split; [exact Hl|]. split; [lia|].
    intros x. unfold FdcanAccept.pending_ext. rewrite Hc, Hl.
    change (Z.to_nat 1) with 1%nat. cbn. intuition congruence.
Qed.

Section Fd_accept_calls.
Variable S_max : Z.
Variable E_max : Z.
Variable dev : Z.
Hypothesis HS : 0 <= S_max <= 255.
Hypothesis HE : 0 <= E_max <= 255.

Lemma fd_add_std_id_accept (st : Fdcan.t) (id : Z) :
  FdcanAccept.wf S_max E_max dev st -> 0 <= id ->
  fst (Fdcan.add_std_id S_max st id) = CANFILTER_SUCCESS ->
  let st' := snd (Fdcan.add_std_id S_max st id) in
  FdcanAccept.wf S_max E_max dev st' /\
  (forall x, FdcanAccept.held_std st' x <-> FdcanAccept.held_std st x \/ x = id) /\
  (forall x, FdcanAccept.held_ext st' x <-> FdcanAccept.held_ext st x).
Proof.
  intros Hwf Hid Hok st'. subst st'.
  assert (id <= max_std_id) as Hmax.
  { unfold Fdcan.add_std_id in Hok.
    destruct (Z.ltb_spec max_std_id id); [discriminate Hok|lia]. }
  assert (FdcanUse.invariant S_max E_max dev (snd (Fdcan.add_std_id S_max st id))) as Hinv.
  { destruct Hwf as ((Ht & Hp) & _). split.
    - apply (fdcan_do_call_table_ok S_max E_max dev HS HE st (FdcanUse.Add_std_id id) Ht).
    - apply fdcan_add_std_id_pending, Hp. }
  pose proof Hwf as ((Ht & (Hs & _)) & Hn1 & Hn2).
  destruct (fd_pending_std_cases S_max E_max dev st Hwf)
    as [[Hc Hnone]|(p & Hc & Hl & Hp & Hone)].
  - rewrite (fdcan_first_std_id S_max) in * by assumption. cbn [fst snd] in *.
    split; [split; [exact Hinv|]|].
    + destruct st as [hw el elc sl slc]. cbn in *. split; [|exact Hn2].
      intros _. repeat constructor; exact Hid.
    + unfold FdcanAccept.held_std, FdcanAccept.held_ext, FdcanAccept.pending_std,
        FdcanAccept.pending_ext, FdcanAccept.banked_std, FdcanAccept.banked_ext in *.
      destruct st as [hw el elc sl slc]. cbn in *. subst slc.
      change (Z.to_nat 1) with 1%nat. cbn. split; intros x; [|tauto].
      specialize (Hnone x). cbn in Hnone. intuition congruence.
  - rewrite (fdcan_second_std_id S_max st p p id) in * by assumption.
    cbn [fst snd] in *.
    destruct (fd_emit_std_id_step S_max E_max dev HS st p id Ht ltac:(lia) Hid Hok)
      as (Ht' & (K1 & K2 & K3 & K4) & Bs & Be).
    destruct (Fdcan.emit_std_id S_max st p id) as [err s']. cbn [fst snd] in *.
    split; [split; [exact Hinv|]|].
    + destruct s' as [hw' el' elc' sl' slc']. cbn in *. split; [intros; lia|].
      rewrite K3, K4. exact Hn2.
    + unfold FdcanAccept.held_std, FdcanAccept.held_ext.
      split; intros x.
      * specialize (Bs x). specialize (Hone x).
        unfold FdcanAccept.pending_std, FdcanAccept.banked_std in *.
        destruct s' as [hw' el' elc' sl' slc']. cbn in *.
        change (Z.to_nat 0) with 0%nat. cbn [take In]. tauto.
      * specialize (Be x).
        unfold FdcanAccept.pending_ext, FdcanAccept.banked_ext in *.
        destruct s' as [hw' el' elc' sl' slc']. cbn in *. rewrite K3, K4. tauto.
Qed.

Lemma fd_add_ext_id_accept (st : Fdcan.t) (id : Z) :
  FdcanAccept.wf S_max E_max dev st -> 0 <= id ->
  fst (Fdcan.add_ext_id E_max st id) = CANFILTER_SUCCESS ->
  let st' := snd (Fdcan.add_ext_id E_max st id) in
  FdcanAccept.wf S_max E_max dev st' /\
  (forall x, FdcanAccept.held_std st' x <-> FdcanAccept.held_std st x) /\
  (forall x, FdcanAccept.held_ext st' x <-> FdcanAccept.held_ext st x \/ x = id).
Proof.
  intros Hwf Hid Hok st'. subst st'.
  assert (id <= max_ext_id) as Hmax.
  { unfold Fdcan.add_ext_id in Hok.
    destruct (Z.ltb_spec max_ext_id id); [discriminate Hok|lia]. }
  assert (FdcanUse.invariant S_max E_max dev (snd (Fdcan.add_ext_id E_max st id))) as Hinv.
  { destruct Hwf as ((Ht & Hp) & _). split.
    - apply (fdcan_do_call_table_ok S_max E_max dev HS HE st (FdcanUse.Add_ext_id id) Ht).
    - apply fdcan_add_ext_id_pending, Hp. }
  pose proof Hwf as ((Ht & (Hs & _)) & Hn1 & Hn2).
  destruct (fd_pending_ext_cases S_max E_max dev st Hwf)
    as [[Hc Hnone]|(p & Hc & Hl & Hp & Hone)].
  - rewrite (fdcan_first_ext_id E_max) in * by assumption. cbn [fst snd] in *.
    split; [split; [exact Hinv|]|].
    + destruct st as [hw el elc sl slc]. cbn in *. split; [exact Hn1|].
      intros _. repeat constructor; exact Hid.
    + unfold FdcanAccept.held_std, FdcanAccept.held_ext, FdcanAccept.pending_std,
        FdcanAccept.pending_ext, FdcanAccept.banked_std, FdcanAccept.banked_ext in *.
      destruct st as [hw el elc sl slc]. cbn in *. subst elc.
      change (Z.to_nat 1) with 1%nat. cbn. split; intros x; [tauto|].
      specialize (Hnone x). cbn in Hnone. intuition congruence.
  - rewrite (fdcan_second_ext_id E_max st p p id) in * by assumption.
    cbn [fst snd] in *.
    destruct (fd_emit_ext_id_step S_max E_max dev HE st p id Ht ltac:(lia) Hid Hok)
      as (Ht' & (K1 & K2 & K3 & K4) & Bs & Be).
    destruct (Fdcan.emit_ext_id E_max st p id) as [err s']. cbn [fst snd] in *.
    split; [split; [exact Hinv|]|].
    + destruct s' as [hw' el' elc' sl' slc']. cbn in *. split; [|intros; lia].
      rewrite K1, K2. exact Hn1.
    + unfold FdcanAccept.held_std, FdcanAccept.held_ext.
      split; intros x.
      * specialize (Bs x).
        unfold FdcanAccept.pending_std, FdcanAccept.banked_std in *.
        destruct s' as [hw' el' elc' sl' slc']. cbn in *. rewrite K1, K2. tauto.
      * specialize (Be x). specialize (Hone x).
        unfold FdcanAccept.pending_ext, FdcanAccept.banked_ext in *.
        destruct s' as [hw' el' elc' sl' slc']. cbn in *.
        change (Z.to_nat 0) with 0%nat. cbn [take In]. tauto.
Qed.

(** The accumulators and what they hold go with the state. *)
Lemma fd_wf_same (st st' : Fdcan.t) :
  FdcanAccept.wf S_max E_max dev st ->
  FdcanUse.table_ok S_max E_max dev st' ->
  Fdcan.std_id st' = Fdcan.std_id st /\ Fdcan.std_id_count st' = Fdcan.std_id_count st /\
  Fdcan.ext_id st' = Fdcan.ext_id st /\ Fdcan.ext_id_count st' = Fdcan.ext_id_count st ->
  FdcanAccept.wf S_max E_max dev st' /\
  (forall x, FdcanAccept.pending_std st' x <-> FdcanAccept.pending_std st x) /\
  (forall x, FdcanAccept.pending_ext st' x <-> FdcanAccept.pending_ext st x).
Proof.
  intros ((_ & Hp) & Hn1 & Hn2) Ht' Hk. pose proof Hk as (K1 & K2 & K3 & K4).
  split; [split; [split; [exact Ht'|]|]|].
  - eapply pending_ok_ext; [exact Hk|exact Hp].
  - rewrite K1, K2, K3, K4. split; assumption.
  - unfold FdcanAccept.pending_std, FdcanAccept.pending_ext.
    rewrite K1, K2, K3, K4. split; reflexivity.
Qed.

Lemma fd_add_std_range_accept (st : Fdcan.t) (a b : Z) :
  FdcanAccept.wf S_max E_max dev st -> 0 <= a -> 0 <= b ->
  fst (Fdcan.add_std_range S_max st a b) = CANFILTER_SUCCESS ->
  let st' := snd (Fdcan.add_std_range S_max st a b) in
  FdcanAccept.wf S_max E_max dev st' /\
  (forall x, FdcanAccept.held_std st' x
             <-> FdcanAccept.held_std st x \/ Z.min a b <= x <= Z.max a b) /\
  (forall x, FdcanAccept.held_ext st' x <-> FdcanAccept.held_ext st x).
Proof.
  intros Hwf Ha Hb Hok st'. subst st'.
  pose proof Hwf as ((Ht & _) & _).
  unfold Fdcan.add_std_range in *.
  destruct (Z.ltb_spec max_std_id a); [discriminate Hok|].
  destruct (Z.ltb_spec max_std_id b); [discriminate Hok|].
  cbn [orb] in *.
  destruct (Z.leb_spec a b).
  - destruct (fd_emit_std_range_step S_max E_max dev HS st a b Ht Ha Hb Hok)
      as (Ht' & Hk & Bs & Be).
    destruct (fd_wf_same st _ Hwf Ht' Hk) as (Hwf' & Ps & Pe).
    split; [exact Hwf'|]. unfold FdcanAccept.held_std, FdcanAccept.held_ext.
    split; intros x; [rewrite Bs, Ps|rewrite Be, Pe]; [|tauto].
    rewrite Z.min_l, Z.max_r by lia. tauto.
  - destruct (fd_emit_std_range_step S_max E_max dev HS st b a Ht Hb Ha Hok)
      as (Ht' & Hk & Bs & Be).
    destruct (fd_wf_same st _ Hwf Ht' Hk) as (Hwf' & Ps & Pe).
    split; [exact Hwf'|]. unfold FdcanAccept.held_std, FdcanAccept.held_ext.
    split; intros x; [rewrite Bs, Ps|rewrite Be, Pe]; [|tauto].
    rewrite Z.min_r, Z.max_l by lia. tauto.
Qed.

Lemma fd_add_ext_range_accept (st : Fdcan.t) (a b : Z) :
  FdcanAccept.wf S_max E_max dev st -> 0 <= a -> 0 <= b ->
  fst (Fdcan.add_ext_range E_max st a b) = CANFILTER_SUCCESS ->
  let st' := snd (Fdcan.add_ext_range E_max st a b) in
  FdcanAccept.wf S_max E_max dev st' /\
  (forall x, FdcanAccept.held_std st' x <-> FdcanAccept.held_std st x) /\
  (forall x, FdcanAccept.held_ext st' x
             <-> FdcanAccept.held_ext st x \/ Z.min a b <= x <= Z.max a b).
Proof.
  intros Hwf Ha Hb Hok st'. subst st'.
  pose proof Hwf as ((Ht & _) & _).
  unfold Fdcan.add_ext_range in *.
  destruct (Z.ltb_spec max_ext_id a); [discriminate Hok|].
  destruct (Z.ltb_spec max_ext_id b); [discriminate Hok|].
  cbn [orb] in *.
  destruct (Z.leb_spec a b).
  - destruct (fd_emit_ext_range_step S_max E_max dev HE st a b Ht Ha Hb Hok)
      as (Ht' & Hk & Bs & Be).
    destruct (fd_wf_same st _ Hwf Ht' Hk) as (Hwf' & Ps & Pe).
    split; [exact Hwf'|]. unfold FdcanAccept.held_std, FdcanAccept.held_ext.
    split; intros x; [rewrite Bs, Ps|rewrite Be, Pe]; [tauto|].
    rewrite Z.min_l, Z.max_r by lia. tauto.
  - destruct (fd_emit_ext_range_step S_max E_max dev HE st b a Ht Hb Ha Hok)
      as (Ht' & Hk & Bs & Be).
    destruct (fd_wf_same st _ Hwf Ht' Hk) as (Hwf' & Ps & Pe).
    split; [exact Hwf'|]. unfold FdcanAccept.held_std, FdcanAccept.held_ext.
    split; intros x; [rewrite Bs, Ps|rewrite Be, Pe]; [tauto|].
    rewrite Z.min_r, Z.max_l by lia. tauto.
Qed.

(** A successful [end()] has put every pending identifier into an element. *)
Lemma fd_end_banked (st : Fdcan.t) :
  FdcanAccept.wf S_max E_max dev st ->
  fst (Fdcan.end_ S_max E_max st) = CANFILTER_SUCCESS ->
  let st' := snd (Fdcan.end_ S_max E_max st) in
  FdcanAccept.wf S_max E_max dev st' /\
  (forall x, FdcanAccept.banked_std st' x <-> FdcanAccept.held_std st x) /\
  (forall x, FdcanAccept.banked_ext st' x <-> FdcanAccept.held_ext st x) /\
  (forall x, FdcanAccept.pending_std st' x <-> FdcanAccept.pending_std st x) /\
  (forall x, FdcanAccept.pending_ext st' x <-> FdcanAccept.pending_ext st x).
Proof.
  intros Hwf Hok st'. subst st'.
  pose proof Hwf as ((Ht & _) & _).
  unfold Fdcan.end_ in *.
  destruct (if negb (Fdcan.std_id_count st =? 0) then _ else _)
    as [err1 s1] eqn:E1 in *.
  destruct (if negb (Fdcan.ext_id_count s1 =? 0) && is_success err1 then _ else _)
    as [err2 s2] eqn:E2 in *.
  cbn [fst snd] in *. subst err2.
  assert (err1 = CANFILTER_SUCCESS) as ->.
  { eapply end_step_success. rewrite E2. reflexivity. }
  cbn [is_success] in *. rewrite andb_true_r in *.
  assert (FdcanAccept.wf S_max E_max dev s1 /\
          (forall x, FdcanAccept.banked_std s1 x <-> FdcanAccept.held_std st x) /\
          (forall x, FdcanAccept.banked_ext s1 x <-> FdcanAccept.banked_ext st x) /\
          (forall x, FdcanAccept.pending_std s1 x <-> FdcanAccept.pending_std st x) /\
          (forall x, FdcanAccept.pending_ext s1 x <-> FdcanAccept.pending_ext st x))
    as (Hwf1 & Bs1 & Be1 & Ps1 & Pe1).
  { destruct (fd_pending_std_cases S_max E_max dev st Hwf)
      as [[Hc Hnone]|(p & Hc & Hl & Hp & Hone)].
    - rewrite Hc in E1. cbn in E1. injection E1 as <-.
      split; [exact Hwf|]. unfold FdcanAccept.held_std.
      repeat split; try tauto. intros [H|H]; [exact H|destruct (Hnone x H)].
    - rewrite Hc, Hl in E1. cbn [Z.eqb negb] in E1.
      change ([p; p] !!! 0%nat) with p in E1. change ([p; p] !!! 1%nat) with p in E1.
      pose proof (fd_emit_std_id_step S_max E_max dev HS st p p Ht
                    ltac:(lia) ltac:(lia)) as Hstep.
      rewrite E1 in Hstep. cbn [fst snd] in Hstep.
      destruct (Hstep eq_refl) as (Ht' & Hk & Bs & Be).
      destruct (fd_wf_same st _ Hwf Ht' Hk) as (Hwf' & Ps & Pe).
      split; [exact Hwf'|]. unfold FdcanAccept.held_std.
      split; [|split; [exact Be|split; [exact Ps|exact Pe]]].
      intros x. rewrite Bs, Hone. tauto. }
  pose proof Hwf1 as ((Ht1 & _) & _).
  assert (FdcanAccept.wf S_max E_max dev s2 /\
          (forall x, FdcanAccept.banked_std s2 x <-> FdcanAccept.banked_std s1 x) /\
          (forall x, FdcanAccept.banked_ext s2 x <-> FdcanAccept.held_ext s1 x) /\
          (forall x, FdcanAccept.pending_std s2 x <-> FdcanAccept.pending_std s1 x) /\
          (forall x, FdcanAccept.pending_ext s2 x <-> FdcanAccept.pending_ext s1 x))
    as (Hwf2 & Bs2 & Be2 & Ps2 & Pe2).
  { destruct (fd_pending_ext_cases S_max E_max dev s1 Hwf1)
      as [[Hc Hnone]|(p & Hc & Hl & Hp & Hone)].
    - rewrite Hc in E2. cbn in E2. injection E2 as <-.
      split; [exact Hwf1|]. unfold FdcanAccept.held_ext.
      repeat split; try tauto. intros [H|H]; [exact H|destruct (Hnone x H)].
    - rewrite Hc, Hl in E2. cbn [Z.eqb negb] in E2.
      change ([p; p] !!! 0%nat) with p in E2. change ([p; p] !!! 1%nat) with p in E2.
      pose proof (fd_emit_ext_id_step S_max E_max dev HE s1 p p Ht1
                    ltac:(lia) ltac:(lia)) as Hstep.
      rewrite E2 in Hstep. cbn [fst snd] in Hstep.
      destruct (Hstep eq_refl) as (Ht' & Hk & Bs & Be).
      destruct (fd_wf_same s1 _ Hwf1 Ht' Hk) as (Hwf' & Ps & Pe).
      split; [exact Hwf'|]. unfold FdcanAccept.held_ext.
      split; [exact Bs|split; [|split; [exact Ps|exact Pe]]].
      intros x. rewrite Be, Hone. tauto. }
  split; [exact Hwf2|].
  split; [intros x; rewrite Bs2, Bs1; reflexivity|].
  split; [intros x; rewrite Be2; unfold FdcanAccept.held_ext; rewrite Be1, Pe1; reflexivity|].
  split; intros x; [rewrite Ps2, Ps1|rewrite Pe2, Pe1]; reflexivity.
Qed.

(** One successful call adds the identifiers it asks for, and no other. *)
Lemma fd_do_call_accept (st : Fdcan.t) (c : FdcanUse.call) :
  FdcanAccept.wf S_max E_max dev st -> FdcanAccept.typed c ->
  fst (FdcanUse.do_call S_max E_max st c) = CANFILTER_SUCCESS ->
  let st' := snd (FdcanUse.do_call S_max E_max st c) in
  FdcanAccept.wf S_max E_max dev st' /\
  (forall x, FdcanAccept.held_std st' x
             <-> FdcanAccept.held_std st x \/ FdcanAccept.asks_std c x) /\
  (forall x, FdcanAccept.held_ext st' x
             <-> FdcanAccept.held_ext st x \/ FdcanAccept.asks_ext c x).
Proof.
  intros Hwf Hty Hok st'. subst st'.
  destruct c as [id|id|b e|b e|]; cbn [FdcanUse.do_call FdcanAccept.typed
    FdcanAccept.asks_std FdcanAccept.asks_ext] in *.
  - destruct (fd_add_std_id_accept st id Hwf ltac:(lia) Hok) as (H1 & H2 & H3).
    split; [exact H1|]. split; intros x; [rewrite H2|rewrite H3]; tauto.
  - destruct (fd_add_ext_id_accept st id Hwf ltac:(lia) Hok) as (H1 & H2 & H3).
    split; [exact H1|]. split; intros x; [rewrite H2|rewrite H3]; tauto.
  - destruct (fd_add_std_range_accept st b e Hwf ltac:(lia) ltac:(lia) Hok)
      as (H1 & H2 & H3).
    split; [exact H1|]. split; intros x; [rewrite H2|rewrite H3]; tauto.
  - destruct (fd_add_ext_range_accept st b e Hwf ltac:(lia) ltac:(lia) Hok)
      as (H1 & H2 & H3).
    split; [exact H1|]. split; intros x; [rewrite H2|rewrite H3]; tauto.
  - destruct (fd_end_banked st Hwf Hok) as (H1 & Bs & Be & Ps & Pe).
    split; [exact H1|]. unfold FdcanAccept.held_std, FdcanAccept.held_ext in *.
    split; intros x; [rewrite Bs, Ps|rewrite Be, Pe]; tauto.
Qed.

Lemma fd_run_accept (calls : list FdcanUse.call) (st : Fdcan.t) :
  FdcanAccept.wf S_max E_max dev st -> Forall FdcanAccept.typed calls ->
  FdcanAccept.all_succeed S_max E_max st calls ->
  let st' := FdcanUse.run S_max E_max st calls in
  FdcanAccept.wf S_max E_max dev st' /\
  (forall x, FdcanAccept.held_std st' x
             <-> FdcanAccept.held_std st x \/
                 exists c, In c calls /\ FdcanAccept.asks_std c x) /\
  (forall x, FdcanAccept.held_ext st' x
             <-> FdcanAccept.held_ext st x \/
                 exists c, In c calls /\ FdcanAccept.asks_ext c x).
Proof.
  revert st. induction calls as [|c rest IH]; intros st Hwf Hty Hall.
  - cbn. split; [exact Hwf|].
    split; intros x; (split; [auto|intros [H|(c & [] & _)]; exact H]).
  - inversion Hty as [|? ? Hc Hrest]; subst. destruct Hall as [Hok Hall].
    destruct (fd_do_call_accept st c Hwf Hc Hok) as (Hwf1 & Hs1 & He1).
    destruct (IH _ Hwf1 Hrest Hall) as (Hwf2 & Hs2 & He2).
    change (FdcanUse.run S_max E_max st (c :: rest))
      with (FdcanUse.run S_max E_max (snd (FdcanUse.do_call S_max E_max st c)) rest).
    cbv zeta in *. split; [exact Hwf2|]. split; intros x.
    + rewrite Hs2, Hs1. split.
      * intros [[H|H]|(c' & Hin & H)]; auto.
        -- right. exists c. split; [left; reflexivity|exact H].
        -- right. exists c'. split; [right; exact Hin|exact H].
      * intros [H|(c' & [<-|Hin] & H)]; auto. right. exists c'. auto.
    + rewrite He2, He1. split.
      * intros [[H|H]|(c' & Hin & H)]; auto.
        -- right. exists c. split; [left; reflexivity|exact H].
        -- right. exists c'. split; [right; exact Hin|exact H].
      * intros [H|(c' & [<-|Hin] & H)]; auto. right. exists c'. auto.
Qed.

Lemma fd_begin_wf (st0 : Fdcan.t) :
  FdcanUse.sized st0 ->
  FdcanAccept.wf S_max E_max dev (snd (Fdcan.begin S_max E_max dev st0)).
Proof.
  intros Hs. split.
  - apply (fdcan_reachable_invariant S_max E_max dev HS HE).
    exists st0, []. split; [exact Hs|reflexivity].
  - cbn. split; intros; lia.
Qed.

End Fd_accept_calls.

Lemma fd_all_succeed_app (S_max E_max : Z) (calls more : list FdcanUse.call)
    (st : Fdcan.t) :
  FdcanAccept.all_succeed S_max E_max st (calls ++ more)
  <-> FdcanAccept.all_succeed S_max E_max st calls /\
      FdcanAccept.all_succeed S_max E_max (FdcanUse.run S_max E_max st calls) more.
Proof.
  revert st. induction calls as [|c rest IH]; intros st;
    cbn [app FdcanAccept.all_succeed].
  - cbn. tauto.
  - change (FdcanUse.run S_max E_max st (c :: rest))
      with (FdcanUse.run S_max E_max (snd (FdcanUse.do_call S_max E_max st c)) rest).
    rewrite IH. tauto.
Qed.

Lemma fd_begin_holds_nothing (S_max E_max dev : Z) (st0 : Fdcan.t) (x : Z) :
  ~ FdcanAccept.held_std (snd (Fdcan.begin S_max E_max dev st0)) x /\
  ~ FdcanAccept.held_ext (snd (Fdcan.begin S_max E_max dev st0)) x.
Proof.
  unfold FdcanAccept.held_std, FdcanAccept.held_ext, FdcanAccept.banked_std,
    FdcanAccept.banked_ext, FdcanAccept.pending_std, FdcanAccept.pending_ext. cbn. split.
  - intros [(i & Hi & _)|[]]. lia.
  - intros [(i & Hi & _)|[]]. lia.
Qed.

Lemma fd_debug_print_banked (st : Fdcan.t) (x : Z) :
  (FdcanAccept.accepted_std (Fdcan.hw_config st) x <-> FdcanAccept.banked_std st x) /\
  (FdcanAccept.accepted_ext (Fdcan.hw_config st) x <-> FdcanAccept.banked_ext st x).
Proof.
  unfold FdcanAccept.accepted_std, FdcanAccept.accepted_ext, FdcanAccept.banked_std,
    FdcanAccept.banked_ext, FdcanDebug.debug_print. cbn [fst snd]. split; split.
  - intros (v & Hin & Hsh). apply in_map_iff in Hin. destruct Hin as (i & <- & Hi).
    apply in_seq in Hi. exists i. split; [lia|exact Hsh].
  - intros (i & Hi & Hsh). eexists. split; [|exact Hsh].
    apply in_map_iff. exists i. split; [reflexivity|]. apply in_seq. lia.
  - intros (v & Hin & Hsh). apply in_map_iff in Hin. destruct Hin as (i & <- & Hi).
    apply in_seq in Hi. exists i. split; [lia|exact Hsh].
  - intros (i & Hi & Hsh). eexists. split; [|exact Hsh].
    apply in_map_iff. exists i. split; [reflexivity|]. apply in_seq. lia.
Qed.

(** The same for the FDCAN tables. *)
Lemma fdcan_names_asked (S_max E_max dev : Z) (st0 : Fdcan.t)
    (calls : list FdcanUse.call) :
  0 <= S_max <= 255 -> 0 <= E_max <= 255 ->
  FdcanUse.sized st0 -> Forall FdcanAccept.typed calls ->
  FdcanAccept.all_succeed S_max E_max (snd (Fdcan.begin S_max E_max dev st0))
    (calls ++ [FdcanUse.End_]) ->
  let hw := Fdcan.hw_config
              (FdcanUse.run S_max E_max (snd (Fdcan.begin S_max E_max dev st0))
                 (calls ++ [FdcanUse.End_])) in
  (forall x, FdcanAccept.accepted_std hw x
             <-> exists c, In c calls /\ FdcanAccept.asks_std c x) /\
  (forall x, FdcanAccept.accepted_ext hw x
             <-> exists c, In c calls /\ FdcanAccept.asks_ext c x).
Proof.
  intros HS HE Hs Hty Hall hw. subst hw.
  set (begun := snd (Fdcan.begin S_max E_max dev st0)) in *.
  apply fd_all_succeed_app in Hall. destruct Hall as [Hall [Hend _]].
  destruct (fd_run_accept S_max E_max dev HS HE calls begun
              (fd_begin_wf S_max E_max dev HS HE st0 Hs) Hty Hall)
    as (Hwf & Hstd & Hext).
  cbn [FdcanUse.do_call] in Hend.
  destruct (fd_end_banked S_max E_max dev HS HE _ Hwf Hend) as (_ & Bs & Be & _).
  unfold FdcanUse.run. rewrite fold_left_app. cbn [fold_left FdcanUse.do_call].
  fold (FdcanUse.run S_max E_max begun calls).
  split; intros x.
  - rewrite (proj1 (fd_debug_print_banked _ x)), Bs, Hstd.
    pose proof (fd_begin_holds_nothing S_max E_max dev st0 x) as [N _].
    fold begun in N. tauto.
  - rewrite (proj2 (fd_debug_print_banked _ x)), Be, Hext.
    pose proof (fd_begin_holds_nothing S_max E_max dev st0 x) as [_ N].
    fold begun in N. tauto.
Qed.

(** X23. The same on FDCAN.  After [begin()], calls with 32-bit arguments
    that all return CANFILTER_SUCCESS, and a final [end()] that returns
    CANFILTER_SUCCESS, the standard identifiers named by the lines of
    [debug_print] (the two of a dual element, those between the two of a range
    element, stored into FIFO 0) are exactly those some call asked for, and
    likewise the extended ones. *)
Theorem fdcan_debug_print_names_what_was_asked (S_max E_max dev : Z) (st0 : Fdcan.t)
    (calls : list FdcanUse.call) :
  0 <= S_max <= 255 -> 0 <= E_max <= 255 ->
  FdcanUse.sized st0 -> Forall FdcanAccept.typed calls ->
  FdcanAccept.all_succeed S_max E_max (snd (Fdcan.begin S_max E_max dev st0))
    (calls ++ [FdcanUse.End_]) ->
  let hw := Fdcan.hw_config
              (FdcanUse.run S_max E_max (snd (Fdcan.begin S_max E_max dev st0))
                 (calls ++ [FdcanUse.End_])) in
  (forall x, FdcanAccept.accepted_std hw x
             <-> exists c, In c calls /\ FdcanAccept.asks_std c x) /\
  (forall x, FdcanAccept.accepted_ext hw x
             <-> exists c, In c calls /\ FdcanAccept.asks_ext c x).
Proof. apply fdcan_names_asked. Qed.

Lemma fdcan_debug_print_names_what_was_asked_witness :
  let calls := [FdcanUse.Add_std_id 256; FdcanUse.Add_std_range 527 512;
                FdcanUse.Add_ext_id 19088743; FdcanUse.End_;
                FdcanUse.Add_std_id 257; FdcanUse.Add_ext_range 4096 8191] in
  let hw := Fdcan.hw_config
              (FdcanUse.run 28 8 (snd (Fdcan.begin 28 8 CANFILTER_DEV_FDCAN_G0 (Fdcan.new 28 8)))
                 (calls ++ [FdcanUse.End_])) in
  (forall x, FdcanAccept.accepted_std hw x
             <-> exists c, In c calls /\ FdcanAccept.asks_std c x) /\
  (forall x, FdcanAccept.accepted_ext hw x
             <-> exists c, In c calls /\ FdcanAccept.asks_ext c x).
Proof.
  apply (fdcan_debug_print_names_what_was_asked 28 8 CANFILTER_DEV_FDCAN_G0 (Fdcan.new 28 8)).
  - lia.
  - lia.
  - repeat split.
  - repeat constructor; cbn; lia.
  - vm_compute. repeat split.
Defined.

Section Full_bxcan.
Variable B : Z.
Variable dev : Z.
Hypothesis HB : 0 <= B <= 32.

Ltac count_up :=
  cbn;
  try change (u32 (0 + 1)) with 1; try change (u32 (1 + 1)) with 2;
  try change (u32 (2 + 1)) with 3; try change (u32 (3 + 1)) with 4;
  cbn.

Ltac unpack_forall :=
  repeat match goal with
  | H : Forall _ (_ :: _) |- _ => inversion H; subst; clear H
  | H : Forall _ [] |- _ => clear H
  end.

Lemma bx_add_std_id_full (st : Bxcan.t) (id : Z) :
  Bxcan.reachable B dev st -> 0 <= id <= max_std_id ->
  let r := Bxcan.add_std_id B st id in
  fst r = (if (Bxcan.std_list_count st =? 3) && (Bxcan.bank st =? B)
           then CANFILTER_ERROR_FULL else CANFILTER_SUCCESS) /\
  (fst r = CANFILTER_ERROR_FULL ->
   Bxcan.hw_config (snd r) = Bxcan.hw_config st /\ Bxcan.bank (snd r) = Bxcan.bank st /\
   Bxcan.std_list_count (snd r) = 0).
Proof.
  intros Hr Hid r. subst r. rewrite add_std_id_list by assumption.
  pose proof (reachable_accumulators_ok B dev st Hr) as Hacc.
  pose proof (reachable_image_ok B dev HB st Hr) as (Hbk & _).
  revert Hacc Hbk. destruct st as [hw bank el elc sm smc sl slc].
  unfold Bxcan.accumulators_ok, Bxcan.sized. cbn [Bxcan.std_list Bxcan.std_list_count
    Bxcan.std_mask Bxcan.std_mask_count Bxcan.ext_list Bxcan.ext_list_count Bxcan.bank
    Bxcan.hw_config].
  intros ((Hl1 & Hl2 & Hl3) & Hc1 & Hc2 & Hc3 & Hf1 & Hf2 & Hf3) Hbank.
  destruct sl as [|a [|b [|c [|d [|? ?]]]]]; try discriminate Hl1.
  assert (slc = 0 \/ slc = 1 \/ slc = 2 \/ slc = 3) as Hcase by lia.
  destruct Hcase as [->|[->|[->| ->]]].
  - count_up. split; [reflexivity|discriminate].
  - count_up. split; [reflexivity|discriminate].
  - count_up. split; [reflexivity|discriminate].
  - specialize (Hf1 ltac:(lia)). unpack_forall.
    unfold Bxcan.add_std_list. cbn -[Bxcan.emit_std_list u32 Z.eqb].
    change (u32 (3 + 1)) with 4. cbn -[Bxcan.emit_std_list Z.eqb].
    change (3 =? 3) with true. change (4 =? 1) with false. change (4 =? 4) with true.
    change (Z.to_nat 3) with 3%nat. cbn -[Bxcan.emit_std_list Z.eqb].
    destruct (Z.eqb_spec bank B) as [->|Hne].
    + unfold Bxcan.emit_std_list. cbn [Bxcan.bank]. rewrite Z.leb_refl. cbn.
      split; [reflexivity|intros _; repeat split].
    + match goal with |- context [Bxcan.emit_std_list B ?s ?x ?y ?z ?w] =>
        destruct (emit_std_list_success B HB s x y z w) as [Hs _];
          [cbn; lia|assumption|assumption|assumption|lia|];
        destruct (Bxcan.emit_std_list B s x y z w) as [err st'] end.
      cbn [fst snd] in *. subst err. split; [reflexivity|discriminate].
Qed.

Lemma bx_add_ext_id_full (st : Bxcan.t) (id : Z) :
  Bxcan.reachable B dev st -> 0 <= id <= max_ext_id ->
  let r := Bxcan.add_ext_id B st id in
  fst r = (if (Bxcan.ext_list_count st =? 1) && (Bxcan.bank st =? B)
           then CANFILTER_ERROR_FULL else CANFILTER_SUCCESS) /\
  (fst r = CANFILTER_ERROR_FULL ->
   Bxcan.hw_config (snd r) = Bxcan.hw_config st /\ Bxcan.bank (snd r) = Bxcan.bank st /\
   Bxcan.ext_list_count (snd r) = 0).
Proof.
  intros Hr Hid r. subst r. rewrite add_ext_id_list by assumption.
  pose proof (reachable_accumulators_ok B dev st Hr) as Hacc.
  pose proof (reachable_image_ok B dev HB st Hr) as (Hbk & _).
  revert Hacc Hbk. destruct st as [hw bank el elc sm smc sl slc].
  unfold Bxcan.accumulators_ok, Bxcan.sized. cbn [Bxcan.std_list Bxcan.std_list_count
    Bxcan.std_mask Bxcan.std_mask_count Bxcan.ext_list Bxcan.ext_list_count Bxcan.bank
    Bxcan.hw_config].
  intros ((Hl1 & Hl2 & Hl3) & Hc1 & Hc2 & Hc3 & Hf1 & Hf2 & Hf3) Hbank.
  destruct el as [|a [|b [|? ?]]]; try discriminate Hl3.
  assert (elc = 0 \/ elc = 1) as Hcase by lia.
  destruct Hcase as [->| ->].
  - count_up. split; [reflexivity|discriminate].
  - specialize (Hf3 ltac:(lia)). unpack_forall.
    unfold Bxcan.add_ext_list. cbn -[Bxcan.emit_ext_list u32 Z.eqb].
    change (u32 (1 + 1)) with 2. cbn -[Bxcan.emit_ext_list Z.eqb].
    change (1 =? 1) with true. change (2 =? 1) with false. change (2 =? 2) with true.
    change (Z.to_nat 1) with 1%nat. cbn -[Bxcan.emit_ext_list Z.eqb].
    destruct (Z.eqb_spec bank B) as [->|Hne].
    + unfold Bxcan.emit_ext_list. cbn [Bxcan.bank]. rewrite Z.leb_refl. cbn.
      split; [reflexivity|intros _; repeat split].
    + match goal with |- context [Bxcan.emit_ext_list B ?s ?x ?y] =>
        destruct (emit_ext_list_success B HB s x y) as [Hs _];
          [cbn; lia|assumption|lia|];
        destruct (Bxcan.emit_ext_list B s x y) as [err st'] end.
      cbn [fst snd] in *. subst err. split; [reflexivity|discriminate].
Qed.

End Full_bxcan.

Section Full_fdcan.
Variable S_max : Z.
Variable E_max : Z.
Variable dev : Z.
Hypothesis HS : 0 <= S_max <= 255.
Hypothesis HE : 0 <= E_max <= 255.

Lemma fd_add_std_id_full (st : Fdcan.t) (id : Z) :
  FdcanUse.reachable S_max E_max dev st -> id <= max_std_id ->
  let r := Fdcan.add_std_id S_max st id in
  fst r = (if (Fdcan.std_id_count st =? 1)
              && (Fdcan.std_filter_nbr (Fdcan.hw_config st) =? S_max)
           then CANFILTER_ERROR_FULL else CANFILTER_SUCCESS) /\
  (fst r = CANFILTER_ERROR_FULL ->
   Fdcan.hw_config (snd r) = Fdcan.hw_config st /\ Fdcan.std_id_count (snd r) = 0).
Proof.
  intros Hr Hid r. subst r.
  destruct (fdcan_reachable_invariant S_max E_max dev HS HE st Hr)
    as ((_ & Hn & _) & (Hs & [Hc|(Hc & p & Hp & Hl)] & _)).
  - rewrite (fdcan_first_std_id S_max) by assumption. rewrite Hc. cbn.
    split; [reflexivity|discriminate].
  - rewrite (fdcan_second_std_id S_max st p p id) by assumption. rewrite Hc.
    cbn [fst snd Z.eqb Pos.eqb andb].
    unfold Fdcan.emit_std_id.
    destruct (Z.leb_spec S_max (Fdcan.std_filter_nbr (Fdcan.hw_config st))).
    + rewrite (proj2 (Z.eqb_eq _ _)) by lia. destruct st; cbn.
      split; [reflexivity|intros _; split; reflexivity].
    + rewrite (proj2 (Z.eqb_neq _ _)) by lia.
      rewrite (proj2 (Z.ltb_ge max_std_id p)), (proj2 (Z.ltb_ge max_std_id id)) by lia.
      cbn. split; [reflexivity|discriminate].
Qed.

Lemma fd_add_ext_id_full (st : Fdcan.t) (id : Z) :
  FdcanUse.reachable S_max E_max dev st -> id <= max_ext_id ->
  let r := Fdcan.add_ext_id E_max st id in
  fst r = (if (Fdcan.ext_id_count st =? 1)
              && (Fdcan.ext_filter_nbr (Fdcan.hw_config st) =? E_max)
           then CANFILTER_ERROR_FULL else CANFILTER_SUCCESS) /\
  (fst r = CANFILTER_ERROR_FULL ->
   Fdcan.hw_config (snd r) = Fdcan.hw_config st /\ Fdcan.ext_id_count (snd r) = 0).
Proof.
  intros Hr Hid r. subst r.
  destruct (fdcan_reachable_invariant S_max E_max dev HS HE st Hr)
    as ((_ & _ & Hn & _) & (Hs & _ & [Hc|(Hc & p & Hp & Hl)])).
  - rewrite (fdcan_first_ext_id E_max) by assumption. rewrite Hc. cbn.
    split; [reflexivity|discriminate].
  - rewrite (fdcan_second_ext_id E_max st p p id) by assumption. rewrite Hc.
    cbn [fst snd Z.eqb Pos.eqb andb].
    unfold Fdcan.emit_ext_id.
    destruct (Z.leb_spec E_max (Fdcan.ext_filter_nbr (Fdcan.hw_config st))).
    + rewrite (proj2 (Z.eqb_eq _ _)) by lia. destruct st; cbn.
      split; [reflexivity|intros _; split; reflexivity].
    + rewrite (proj2 (Z.eqb_neq _ _)) by lia.
      rewrite (proj2 (Z.ltb_ge max_ext_id p)), (proj2 (Z.ltb_ge max_ext_id id)) by lia.
      cbn. split; [reflexivity|discriminate].
Qed.

End Full_fdcan.

(** X24. When [add_std_id] or [add_ext_id] reports CANFILTER_ERROR_FULL.  On a
    builder in use and for an identifier of the space, the call returns
    CANFILTER_ERROR_FULL exactly when the identifier completes a bank (the
    fourth standard or second extended identifier on bxCAN, the second of a
    pair on FDCAN) and no bank or element is free; otherwise it returns
    CANFILTER_SUCCESS.  When it returns CANFILTER_ERROR_FULL the image is as
    before and the accumulator is emptied: the identifiers that were pending,
    whose calls returned CANFILTER_SUCCESS, are dropped. *)
Theorem full_drops_pending :
  (forall (B dev : Z) (st : Bxcan.t) (id : Z),
     0 <= B <= 32 -> Bxcan.reachable B dev st -> 0 <= id <= max_std_id ->
     let r := Bxcan.add_std_id B st id in
     fst r = (if (Bxcan.std_list_count st =? 3) && (Bxcan.bank st =? B)
              then CANFILTER_ERROR_FULL else CANFILTER_SUCCESS) /\
     (fst r = CANFILTER_ERROR_FULL ->
      Bxcan.hw_config (snd r) = Bxcan.hw_config st /\
      Bxcan.bank (snd r) = Bxcan.bank st /\ Bxcan.std_list_count (snd r) = 0)) /\
  (forall (B dev : Z) (st : Bxcan.t) (id : Z),
     0 <= B <= 32 -> Bxcan.reachable B dev st -> 0 <= id <= max_ext_id ->
     let r := Bxcan.add_ext_id B st id in
     fst r = (if (Bxcan.ext_list_count st =? 1) && (Bxcan.bank st =? B)
              then CANFILTER_ERROR_FULL else CANFILTER_SUCCESS) /\
     (fst r = CANFILTER_ERROR_FULL ->
      Bxcan.hw_config (snd r) = Bxcan.hw_config st /\
      Bxcan.bank (snd r) = Bxcan.bank st /\ Bxcan.ext_list_count (snd r) = 0)) /\
  (forall (S_max E_max dev : Z) (st : Fdcan.t) (id : Z),
     0 <= S_max <= 255 -> 0 <= E_max <= 255 ->
     FdcanUse.reachable S_max E_max dev st -> id <= max_std_id ->
     let r := Fdcan.add_std_id S_max st id in
     fst r = (if (Fdcan.std_id_count st =? 1)
                 && (Fdcan.std_filter_nbr (Fdcan.hw_config st) =? S_max)
              then CANFILTER_ERROR_FULL else CANFILTER_SUCCESS) /\
     (fst r = CANFILTER_ERROR_FULL ->
      Fdcan.hw_config (snd r) = Fdcan.hw_config st /\ Fdcan.std_id_count (snd r) = 0)) /\
  (forall (S_max E_max dev : Z) (st : Fdcan.t) (id : Z),
     0 <= S_max <= 255 -> 0 <= E_max <= 255 ->
     FdcanUse.reachable S_max E_max dev st -> id <= max_ext_id ->
     let r := Fdcan.add_ext_id E_max st id in
     fst r = (if (Fdcan.ext_id_count st =? 1)
                 && (Fdcan.ext_filter_nbr (Fdcan.hw_config st) =? E_max)
              then CANFILTER_ERROR_FULL else CANFILTER_SUCCESS) /\
     (fst r = CANFILTER_ERROR_FULL ->
      Fdcan.hw_config (snd r) = Fdcan.hw_config st /\ Fdcan.ext_id_count (snd r) = 0)).
Proof.
  split; [|split; [|split]].
  - intros B dev st id HB. apply bx_add_std_id_full, HB.
  - intros B dev st id HB. apply bx_add_ext_id_full, HB.
  - intros S_max E_max dev st id HS HE. apply fd_add_std_id_full; assumption.
  - intros S_max E_max dev st id HS HE. apply fd_add_ext_id_full; assumption.
Qed.

Lemma full_drops_pending_witness :
  let st := Bxcan.run 14 (snd (Bxcan.begin 14 CANFILTER_DEV_BXCAN_F0 (Bxcan.new 14)))
              (map (fun n => Bxcan.Add_std_id (Z.of_nat n)) (seq 1 59)) in
  let r := Bxcan.add_std_id 14 st 256 in
  fst r = CANFILTER_ERROR_FULL /\
  Bxcan.hw_config (snd r) = Bxcan.hw_config st /\
  Bxcan.bank (snd r) = Bxcan.bank st /\ Bxcan.std_list_count (snd r) = 0.
Proof.
  intros st r. subst r.
  assert (0 <= 14 <= 32) as HB by lia.
  assert (Bxcan.reachable 14 CANFILTER_DEV_BXCAN_F0 st) as Hr.
  { exists (Bxcan.new 14). eexists. split; [repeat split|reflexivity]. }
  assert (0 <= 256 <= max_std_id) as Hid by (unfold max_std_id; lia).
  destruct (proj1 full_drops_pending 14 CANFILTER_DEV_BXCAN_F0 st 256 HB Hr Hid)
    as [Hfst Hfull].
  assert (fst (Bxcan.add_std_id 14 st 256) = CANFILTER_ERROR_FULL) as Hf
    by (rewrite Hfst; vm_compute; reflexivity).
  split; [exact Hf|]. exact (Hfull Hf).
Defined.

(** The values [parse] dispatches are 32-bit values. *)
Lemma classified_bxcan_typed (d : directive) :
  classified d -> BxcanAccept.typed (bxcan_call d).
Proof.
  destruct d; cbn; unfold max_std_id, max_ext_id; lia.
Qed.

Lemma classified_fdcan_typed (d : directive) :
  classified d -> FdcanAccept.typed (fdcan_call d).
Proof.
  destruct d; cbn; unfold max_std_id, max_ext_id; lia.
Qed.

(** No error among the dispatched calls: every call succeeds. *)
Lemma bxcan_errors_all_succeed (B dev : Z) (ds : list directive) (st : Bxcan.t) :
  Forall (fun e => e = CANFILTER_SUCCESS) (dispatch_errors (canfilter_bxcan B dev) st ds) ->
  BxcanAccept.all_succeed B st (map bxcan_call ds).
Proof.
  revert st. induction ds as [|d ds IH]; intros st H; [exact I|].
  cbn [dispatch_errors map BxcanAccept.all_succeed] in *.
  destruct (bxcan_dispatch_call B dev st d) as [E1 E2]. rewrite E1, E2 in H.
  inversion H as [|? ? Hd Hrest]; subst. split; [exact Hd|apply IH, Hrest].
Qed.

Lemma fdcan_errors_all_succeed (S_max E_max dev : Z) (ds : list directive)
    (st : Fdcan.t) :
  Forall (fun e => e = CANFILTER_SUCCESS)
         (dispatch_errors (canfilter_fdcan S_max E_max dev) st ds) ->
  FdcanAccept.all_succeed S_max E_max st (map fdcan_call ds).
Proof.
  revert st. induction ds as [|d ds IH]; intros st H; [exact I|].
  cbn [dispatch_errors map FdcanAccept.all_succeed] in *.
  destruct (fdcan_dispatch_call S_max E_max dev st d) as [E1 E2]. rewrite E1, E2 in H.
  inversion H as [|? ? Hd Hrest]; subst. split; [exact Hd|apply IH, Hrest].
Qed.

Lemma bxcan_text_to_image (input : string) (B dev : Z) (st0 : Bxcan.t) :
  0 <= B <= 32 -> Bxcan.sized st0 ->
  let ops := canfilter_bxcan B dev in
  let begun := snd (begin ops st0) in
  let parsed := snd (parse ops begun input) in
  Forall (fun e => e = CANFILTER_SUCCESS)
         (dispatch_errors ops begun (snd (parse_directives input))) ->
  fst (end_ ops parsed) = CANFILTER_SUCCESS ->
  let hw := Bxcan.hw_config (snd (end_ ops parsed)) in
  (forall x, BxcanAccept.accepted_std B hw x
             <-> exists d, In d (snd (parse_directives input)) /\
                           BxcanAccept.asks_std (bxcan_call d) x) /\
  (forall x, BxcanAccept.accepted_ext B hw x
             <-> exists d, In d (snd (parse_directives input)) /\
                           BxcanAccept.asks_ext (bxcan_call d) x).
Proof.
  intros HB Hs ops begun parsed Herr Hend hw. subst hw parsed ops.
  cbn [begin end_ canfilter_bxcan] in *.
  set (ds := snd (parse_directives input)) in *.
  rewrite (proj2 (parse_recorded (canfilter_bxcan B dev) begun input)) in *.
  fold ds in Hend |- *. rewrite (bxcan_dispatch_run B dev) in *.
  assert (Forall BxcanAccept.typed (map bxcan_call ds)) as Hty.
  { apply Forall_map. eapply Forall_impl; [apply parse_directives_classified|].
    intros d. apply classified_bxcan_typed. }
  assert (BxcanAccept.all_succeed B begun (map bxcan_call ds ++ [Bxcan.End_])) as Hall.
  { apply all_succeed_app. split; [apply (bxcan_errors_all_succeed B dev), Herr|].
    cbn. split; [exact Hend|exact I]. }
  destruct (bxcan_names_asked B dev st0 (map bxcan_call ds) HB Hs Hty Hall) as [Hstd Hext].
  unfold Bxcan.run in Hstd, Hext. rewrite fold_left_app in Hstd, Hext.
  cbn [fold_left Bxcan.do_call] in Hstd, Hext.
  fold (Bxcan.run B begun (map bxcan_call ds)) in Hstd, Hext.
  split; intros x.
  - etransitivity; [exact (Hstd x)|]. split.
    + intros (c & Hin & H). apply in_map_iff in Hin. destruct Hin as (d & <- & Hd).
      exists d. auto.
    + intros (d & Hd & H). exists (bxcan_call d). split; [apply in_map, Hd|exact H].
  - etransitivity; [exact (Hext x)|]. split.
    + intros (c & Hin & H). apply in_map_iff in Hin. destruct Hin as (d & <- & Hd).
      exists d. auto.
    + intros (d & Hd & H). exists (bxcan_call d). split; [apply in_map, Hd|exact H].
Qed.

Lemma fdcan_text_to_image (input : string) (S_max E_max dev : Z) (st0 : Fdcan.t) :
  0 <= S_max <= 255 -> 0 <= E_max <= 255 -> FdcanUse.sized st0 ->
  let ops := canfilter_fdcan S_max E_max dev in
  let begun := snd (begin ops st0) in
  let parsed := snd (parse ops begun input) in
  Forall (fun e => e = CANFILTER_SUCCESS)
         (dispatch_errors ops begun (snd (parse_directives input))) ->
  fst (end_ ops parsed) = CANFILTER_SUCCESS ->
  let hw := Fdcan.hw_config (snd (end_ ops parsed)) in
  (forall x, FdcanAccept.accepted_std hw x
             <-> exists d, In d (snd (parse_directives input)) /\
                           FdcanAccept.asks_std (fdcan_call d) x) /\
  (forall x, FdcanAccept.accepted_ext hw x
             <-> exists d, In d (snd (parse_directives input)) /\
                           FdcanAccept.asks_ext (fdcan_call d) x).
Proof.
  intros HS HE Hs ops begun parsed Herr Hend hw. subst hw parsed ops.
  cbn [begin end_ canfilter_fdcan] in *.
  set (ds := snd (parse_directives input)) in *.
  rewrite (proj2 (parse_recorded (canfilter_fdcan S_max E_max dev) begun input)) in *.
  fold ds in Hend |- *. rewrite (fdcan_dispatch_run S_max E_max dev) in *.
  assert (Forall FdcanAccept.typed (map fdcan_call ds)) as Hty.
  { apply Forall_map. eapply Forall_impl; [apply parse_directives_classified|].
    intros d. apply classified_fdcan_typed. }
  assert (FdcanAccept.all_succeed S_max E_max begun (map fdcan_call ds ++ [FdcanUse.End_]))
    as Hall.
  { apply fd_all_succeed_app.
    split; [apply (fdcan_errors_all_succeed S_max E_max dev), Herr|].
    cbn. split; [exact Hend|exact I]. }
  destruct (fdcan_names_asked S_max E_max dev st0 (map fdcan_call ds) HS HE Hs Hty Hall)
    as [Hstd Hext].
  unfold FdcanUse.run in Hstd, Hext. rewrite fold_left_app in Hstd, Hext.
  cbn [fold_left FdcanUse.do_call] in Hstd, Hext.
  fold (FdcanUse.run S_max E_max begun (map fdcan_call ds)) in Hstd, Hext.
  split; intros x.
  - etransitivity; [exact (Hstd x)|]. split.
    + intros (c & Hin & H). apply in_map_iff in Hin. destruct Hin as (d & <- & Hd).
      exists d. auto.
    + intros (d & Hd & H). exists (fdcan_call d). split; [apply in_map, Hd|exact H].
  - etransitivity; [exact (Hext x)|]. split.
    + intros (c & Hin & H). apply in_map_iff in Hin. destruct Hin as (d & <- & Hd).
      exists d. auto.
    + intros (d & Hd & H). exists (fdcan_call d). split; [apply in_map, Hd|exact H].
Qed.

(** X25. From the text to the image.  After [begin()], [parse] of any text
    whose dispatched calls all return CANFILTER_SUCCESS, and an [end()] that
    returns CANFILTER_SUCCESS, the identifiers named by the lines of
    [debug_print] are exactly those of the calls [parse] dispatched for the
    text: the value of a single identifier, the values between the two ends
    of a range; standard and extended, on bxCAN and on FDCAN. *)
Theorem text_to_image (input : string) :
  (forall (B dev : Z) (st0 : Bxcan.t),
     0 <= B <= 32 -> Bxcan.sized st0 ->
     let ops := canfilter_bxcan B dev in
     let begun := snd (begin ops st0) in
     let parsed := snd (parse ops begun input) in
     Forall (fun e => e = CANFILTER_SUCCESS)
            (dispatch_errors ops begun (snd (parse_directives input))) ->
     fst (end_ ops parsed) = CANFILTER_SUCCESS ->
     let hw := Bxcan.hw_config (snd (end_ ops parsed)) in
     (forall x, BxcanAccept.accepted_std B hw x
                <-> exists d, In d (snd (parse_directives input)) /\
                              BxcanAccept.asks_std (bxcan_call d) x) /\
     (forall x, BxcanAccept.accepted_ext B hw x
                <-> exists d, In d (snd (parse_directives input)) /\
                              BxcanAccept.asks_ext (bxcan_call d) x)) /\
  (forall (S_max E_max dev : Z) (st0 : Fdcan.t),
     0 <= S_max <= 255 -> 0 <= E_max <= 255 -> FdcanUse.sized st0 ->
     let ops := canfilter_fdcan S_max E_max dev in
     let begun := snd (begin ops st0) in
     let parsed := snd (parse ops begun input) in
     Forall (fun e => e = CANFILTER_SUCCESS)
            (dispatch_errors ops begun (snd (parse_directives input))) ->
     fst (end_ ops parsed) = CANFILTER_SUCCESS ->
     let hw := Fdcan.hw_config (snd (end_ ops parsed)) in
     (forall x, FdcanAccept.accepted_std hw x
                <-> exists d, In d (snd (parse_directives input)) /\
                              FdcanAccept.asks_std (fdcan_call d) x) /\
     (forall x, FdcanAccept.accepted_ext hw x
                <-> exists d, In d (snd (parse_directives input)) /\
                              FdcanAccept.asks_ext (fdcan_call d) x)).
Proof.
  split.
  - intros B dev st0. apply bxcan_text_to_image.
  - intros S_max E_max dev st0. apply fdcan_text_to_image.
Qed.

Lemma text_to_image_witness :
  let input := "0x100 0x200-0x20F, 0x1234567"%string in
  let ops := canfilter_bxcan 14 CANFILTER_DEV_BXCAN_F0 in
  let hw := Bxcan.hw_config
              (snd (end_ ops (snd (parse ops (snd (begin ops (Bxcan.new 14))) input)))) in
  (forall x, BxcanAccept.accepted_std 14 hw x
             <-> exists d, In d (snd (parse_directives input)) /\
                           BxcanAccept.asks_std (bxcan_call d) x) /\
  (forall x, BxcanAccept.accepted_ext 14 hw x
             <-> exists d, In d (snd (parse_directives input)) /\
                           BxcanAccept.asks_ext (bxcan_call d) x).
Proof.
  intros input ops hw. subst hw ops.
  refine (proj1 (text_to_image input) 14 CANFILTER_DEV_BXCAN_F0 (Bxcan.new 14) _ _ _ _).
  - lia.
  - repeat split.
  - vm_compute. repeat constructor.
  - vm_compute. reflexivity.
Defined.
